(* ===== verification/_CoqProject ===== *)
-Q . S2P
Prelude.v
Protocol.v
H264.v
RtpH264.v
RtpClient.v
VideoSource.v
DeviceSession.v
FrameFlow.v
RdpGfx.v
RdpGfxSpec.v
RdpBitmap.v
RdpBitmapSpec.v
OutputThread.v
CString.v
FoldVnc.v
HidMap.v
Hid.v
HidSpec.v
InputRouter.v
HttpApi.v
HttpSpec.v
HttpEncode.v
Threads.v
AgentTransport.v
AgentTransportSpec.v
GatewayConfig.v
Agent.v
AgentSpec.v
AgentInput.v
AgentMain.v
AgentMainSpec.v
RdpInput.v
Prog.v
Gateway.v
GatewaySpec.v
GatewayServer.v
Handoff.v
HandoffSpec.v
Lifecycle.v
RdpPeer.v
RdpPeerSpec.v
RdpPeerLive.v
Decoder.v
DecoderSpec.v
