(* ===== verification/Prelude.v ===== *)
(** * NanoKVM RDP: a verification of the gateway and the agent

    ** The program

    A NanoKVM board runs the agent ([src/src/agent.c]).  It captures the screen
    of a host as H.264, sends it as RTP, and plays keyboard, mouse and touch
    input into the host's USB port.  The gateway ([src/src/main.c]) receives the
    video and offers it to one RDP client and over HTTP; it routes their input to
    the agent over a TCP control connection.

      agent:    capture -> RTP packets ------> gateway: reassembly -> video source
                                               -> device session (one reader)
                                               -> RDPGFX client; or decoder ->
                                                  bitmap client, HTTP snapshots
      gateway:  RDP and HTTP input -> input router -> control protocol
                -> transport ----------------> agent: control thread -> HID -> USB

    ** Files

    - [Prelude]: machine integers and bytes, tactics, the hint database [kvm],
      lemmas on lists, searches and big-endian fields.
    - [Protocol]: [protocol.c], frames of the control connection over sockets
      that deliver arbitrary chunks.
    - [H264], [RtpH264], [RtpClient]: [h264.c], [rtp_h264.c], [rtp_client.c], the
      Annex-B helpers, packetizer and reassembler, and the receiving socket.
    - [VideoSource], [DeviceSession]: [video_source.c], [device_session.c], the
      gate in front of a decoder and the lease of the single reader.
    - [FrameFlow]: [frame_flow.h], [frame_trace.h], [bitmap_diff.h].
    - [RdpGfx], [RdpGfxSpec]: [rdp_gfx.c], the thread that passes access units to
      the RDP client.
    - [RdpBitmap], [RdpBitmapSpec]: [rdp_bitmap.c], pictures for clients without
      AVC420: tiles, regions, the queue of decoded frames and its flush.
    - [OutputThread]: [output_thread] of [rdp_bitmap.c], which paces the flushes.
    - [Decoder], [DecoderSpec]: [ffmpeg_decoder.c], the converter of pictures and
      the decoder over the class [Codec].
    - [CString]: C strings and the functions of the C library on them.
    - [FoldVnc]: [foldvnc_client.c].
    - [HidMap], [Hid], [HidSpec]: [hid.c], its pure mappings, its operations in a
      state monad over the class [HidOS] of the kernel, and what they promise.
    - [InputRouter]: [input_router.c].
    - [HttpApi], [HttpSpec]: [http_api.c]; [HttpEncode]: its [encode_frame] with
      the encoder, picture and scaler it keeps.
    - [Threads]: programs of several threads as resumptions, schedules, and an
      ownership logic for invariants under every schedule.
    - [AgentTransport], [AgentTransportSpec]: [agent_transport.c] on [Threads].
    - [GatewayConfig]: [gateway_config.c].
    - [Agent], [AgentSpec], [AgentInput]: [agent.c]; its video thread; and router
      and agent together.
    - [AgentMain], [AgentMainSpec]: [main] of [agent.c], from the arguments and the
      device nodes to the release of everything at the end.
    - [RdpInput]: [rdp_input.c].
    - [Gateway], [GatewaySpec]: the lock sections of [gateway_server.c],
      [rdp_peer.c] and [main.c] that admit a client, the keepalive, and the reader
      behind the HTTP snapshots.
    - [GatewayServer]: the callbacks, the control thread and the heartbeat of
      [gateway_server.c], over [AgentTransport].
    - [Handoff], [HandoffSpec]: [http_video_thread] of [gateway_server.c] and
      [bitmap_video_thread] of [rdp_bitmap.c] as machines that share the device
      session and the yield event.
    - [Prog]: programs that leave a trace of events, and rules for disciplines of
      such traces.
    - [Lifecycle]: [main.c], the start and the stop of the gateway, on [Prog].
    - [RdpPeer], [RdpPeerSpec], [RdpPeerLive]: [rdp_peer.c] on [Prog], a session
      from its set-up to its teardown: what it creates and destroys, and that it
      does not wait forever.

    ** How code becomes definitions

    Definitions keep the names of the functions they translate.  Integers are [Z]
    with the reductions [u8] to [u64] wherever C wraps; buffers with a length are
    lists of bytes; structures are records.  A function that mutates its argument
    returns the new value; a failure is [None], [false] or a constructor.  What
    lies outside the sources (kernel, allocator, FreeRDP, libav, libkvm) is an
    argument: a script of answers, an oracle, or a class with named laws.  Shared
    state is modelled at the grain of the locks: a critical section is one step,
    and what other threads do between two steps is arbitrary, as an explicit list
    of their operations ([HttpApi], [RdpGfx], [OutputThread]), steps over a world
    ([DeviceSession], [Gateway], [Handoff]), interference functions ([Agent]) or
    all schedules of programs ([AgentTransport]).  Code that acquires and frees
    resources leaves a trace of what it does, which a judge of such traces accepts
    ([Lifecycle], [RdpPeer]).

    Loops that are not structural carry fuel, always the size of what they
    consume plus one: the bytes and events left in a socket script ([Protocol],
    [HttpApi]), the length of the text ([HttpApi]), or a number of rounds that is
    an explicit argument with a theorem that enough of them give the result
    ([VideoSource]); for the decoder, the work its codec has left ([Decoder]).  No
    theorem relies on running out of fuel.

    ** What the theorems show

    - Transport of bytes: messages survive any chunking and interruption, a send
      is all or nothing, a request is handled with exactly its head and body.
    - Video: an access unit crosses packets and reassembly unchanged; under loss
      nothing is delivered that was not sent; buffers stay in bounds; the agent,
      the RDPGFX thread and the snapshot reader each pass on only frames whose
      references the receiver has; waits and the capture watchdog end; a push to
      the decoder ends and gives out every picture.
    - Sessions: one reader holds the video source, one RDP client the gateway, and
      the gate reopens; sends of an epoch never reach another connection, events
      are published once, and no descriptor leaks, under every schedule.
    - Handoff: the HTTP reader and a client's reader never use the device at the
      same time, and a client that asks for it gets it after a few steps.
    - Start, stop and teardown: however far a start gets and whatever a client
      does, every object is created once, used while it exists and destroyed once,
      behind the threads that use it; an RDPGFX session is decided within 30 s.
    - Flow: the window of frames in flight, its byte count and interval keep their
      bounds, an acknowledgement releases exactly its frame, and the output thread
      never sleeps past the moment a frame is due.
    - Input: what the gateway routes is what the agent does; both ends agree on
      held modifiers and buttons; the report queues are FIFOs; typing and
      releasing leave nothing held, also at the agent's end; UTF-8, Hangul and scancode tables are exact;
      a text posted over HTTP is typed character by character.
    - Pictures: a converted frame is the scaled picture on opaque black; a sliced
      frame ends up on the client's screen pixel by pixel, a region contains every
      change, the queue keeps the newest decoded frame.
    - HTTP snapshots: the image served is the newest frame's, with its number, and
      is encoded with objects that fit it.
    - FoldVNC: whatever comes in between, a client connects and reads exactly the
      next access unit.
    - Configuration: a parse keeps every bound the program relies on.

    Examples next to the theorems record where the code departs from its intent
    (single-quoted keys, escapes and wheel rotation of the HTTP interface, early
    acknowledgements of RDPGFX frames, the progressive session without output,
    the keepalive after a press, the frame lost to a blocked output, a replaced
    descriptor in the transport, the payload a broken FoldVNC connection leaks, a
    second capability advertisement, a video thread that outlives its client, the
    cleanup behind a failed lock, numbers cut to sixteen bits on the agent's
    command line).

    ** Not modelled

    What a scaled, encoded or decoded picture looks like, which is libav's and
    FreeRDP's; [gateway_log.c] and all log lines, the text of the statistics; socket
    options; [musl_compat.c], symbols for the C library; the viewer's page of the
    HTTP interface; tools and tests. *)

From Stdlib Require Export ZArith Lia.
From stdpp Require Export base list option numbers tactics.
#[export] Set Default Goal Selector "!".
#[global] Open Scope Z_scope.

(** ** Machine integers

    A C unsigned integer of width [w] is a [Z] in [0, 2^w).  Conversions to a
    narrower type are the reductions below; signed types use [i8] and [i16]. *)

Definition u8 (z : Z) : Z := z mod 256.
Definition u16 (z : Z) : Z := z mod 65536.
Definition u32 (z : Z) : Z := z mod 4294967296.
Definition u64 (z : Z) : Z := z mod 18446744073709551616.
Definition i8 (z : Z) : Z := (z + 128) mod 256 - 128.
Definition i16 (z : Z) : Z := (z + 32768) mod 65536 - 32768.

Definition is_u8 (z : Z) : Prop := 0 <= z < 256.
Definition is_u16 (z : Z) : Prop := 0 <= z < 65536.
Definition is_u32 (z : Z) : Prop := 0 <= z < 4294967296.
Definition is_u64 (z : Z) : Prop := 0 <= z < 18446744073709551616.

(** A byte buffer together with its length. *)
Abbreviation bytes := (list Z).
Definition bytes_ok (l : bytes) : Prop := Forall is_u8 l.

(** [data[i]]; reads of the model outside the buffer give 0, and every
    component proves its reads in range before it relies on them. *)
Definition byte_at (l : bytes) (i : nat) : Z := default 0 (l !! i).

(** ** Tactics *)

(** Linear arithmetic with constant division and modulus. *)
Ltac mlia := unfold is_u8, is_u16, is_u32, is_u64, u8, u16, u32, u64, i8, i16 in *;
  Z.to_euclidean_division_equations; lia.

(** Case analysis on every boolean comparison that guards a branch. *)
Ltac bool_cases :=
  repeat match goal with
  | |- context [Z.eqb ?a ?b] => destruct (Z.eqb_spec a b)
  | |- context [Z.ltb ?a ?b] => destruct (Z.ltb_spec a b)
  | |- context [Z.leb ?a ?b] => destruct (Z.leb_spec a b)
  | |- context [Nat.eqb ?a ?b] => destruct (Nat.eqb_spec a b)
  | |- context [Nat.ltb ?a ?b] => destruct (Nat.ltb_spec a b)
  | |- context [Nat.leb ?a ?b] => destruct (Nat.leb_spec a b)
  end.

(** Destruct the innermost scrutinee of a [match] or [if] of the goal. *)
Ltac step_match :=
  match goal with
  | |- context [match ?x with _ => _ end] =>
      lazymatch x with context [match _ with _ => _ end] => fail | _ => destruct x eqn:? end
  end.
Ltac step_match_in H :=
  match type of H with
  | context [match ?x with _ => _ end] =>
      lazymatch x with context [match _ with _ => _ end] => fail | _ => destruct x eqn:? end
  end.

(** Turn boolean comparison hypotheses into arithmetic ones. *)
Ltac bool_hyps :=
  repeat match goal with
  | H : _ && _ = true |- _ => apply andb_true_iff in H as [? ?]
  | H : _ || _ = false |- _ => apply orb_false_iff in H as [? ?]
  | H : _ && _ = false |- _ => apply andb_false_iff in H
  | H : _ || _ = true |- _ => apply orb_true_iff in H
  | H : negb _ = true |- _ => apply negb_true_iff in H
  | H : negb _ = false |- _ => apply negb_false_iff in H
  | H : Z.eqb _ _ = true |- _ => apply Z.eqb_eq in H
  | H : Z.eqb _ _ = false |- _ => apply Z.eqb_neq in H
  | H : Z.ltb _ _ = true |- _ => apply Z.ltb_lt in H
  | H : Z.ltb _ _ = false |- _ => apply Z.ltb_ge in H
  | H : Z.leb _ _ = true |- _ => apply Z.leb_le in H
  | H : Z.leb _ _ = false |- _ => apply Z.leb_gt in H
  | H : Nat.eqb _ _ = true |- _ => apply Nat.eqb_eq in H
  | H : Nat.eqb _ _ = false |- _ => apply Nat.eqb_neq in H
  | H : Nat.ltb _ _ = true |- _ => apply Nat.ltb_lt in H
  | H : Nat.ltb _ _ = false |- _ => apply Nat.ltb_ge in H
  | H : Nat.leb _ _ = true |- _ => apply Nat.leb_le in H
  | H : Nat.leb _ _ = false |- _ => apply Nat.leb_gt in H
  end.

(** ** Hints *)

Create HintDb kvm discriminated.

(** ** Integers *)

Lemma u8_range z : is_u8 (u8 z).
Proof. mlia. Qed.
Lemma u16_range z : is_u16 (u16 z).
Proof. mlia. Qed.
Lemma u32_range z : is_u32 (u32 z).
Proof. mlia. Qed.
Lemma u64_range z : is_u64 (u64 z).
Proof. mlia. Qed.
Lemma u8_id z : is_u8 z -> u8 z = z.
Proof. mlia. Qed.
Lemma u16_id z : is_u16 z -> u16 z = z.
Proof. mlia. Qed.
Lemma u32_id z : is_u32 z -> u32 z = z.
Proof. mlia. Qed.
Lemma u64_id z : is_u64 z -> u64 z = z.
Proof. mlia. Qed.
#[export] Hint Resolve u8_range u16_range u32_range u64_range : kvm.

(** Bitwise or of disjoint parts is addition; this is how the source packs
    big-endian fields. *)
Lemma lor_shiftl_add a b n : 0 <= n -> 0 <= b < 2 ^ n -> Z.lor (Z.shiftl a n) b = a * 2 ^ n + b.
Proof.
  intros Hn Hb. rewrite <- Z.shiftl_mul_pow2 by lia. symmetry. apply Z.add_nocarry_lor.
  apply Z.bits_inj'. intros k Hk. rewrite Z.land_spec, Z.bits_0.
  destruct (Z.lt_ge_cases k n).
  - by rewrite Z.shiftl_spec_low.
  - rewrite <- (Z.mod_small b (2 ^ n)) by lia.
    rewrite Z.mod_pow2_bits_high by lia. apply andb_false_r.
Qed.

(** Decide a property of every byte, or of every value of a small range, by
    evaluation. *)
Lemma range_forallb (P : Z -> bool) lo n :
  forallb P (seqZ lo n) = true -> forall z, lo <= z < lo + n -> P z = true.
Proof.
  intros H z Hz. rewrite forallb_forall in H. apply H.
  apply list_elem_of_In, elem_of_seqZ. lia.
Qed.

Lemma byte_forallb (P : Z -> bool) :
  forallb P (seqZ 0 256) = true -> forall z, is_u8 z -> P z = true.
Proof. intros H z Hz. apply (range_forallb P 0 256 H). unfold is_u8 in Hz. lia. Qed.

(** ** Big-endian fields ([protocol_write_u16] and its copies) *)

Definition write_u16 (value : Z) : bytes := [u8 (Z.shiftr value 8); u8 value].
Definition read_u16 (data : bytes) : Z :=
  Z.lor (Z.shiftl (byte_at data 0) 8) (byte_at data 1).
Definition write_u32 (value : Z) : bytes :=
  [u8 (Z.shiftr value 24); u8 (Z.shiftr value 16); u8 (Z.shiftr value 8); u8 value].
Definition read_u32 (data : bytes) : Z :=
  Z.lor (Z.lor (Z.lor (Z.shiftl (byte_at data 0) 24) (Z.shiftl (byte_at data 1) 16))
               (Z.shiftl (byte_at data 2) 8)) (byte_at data 3).

Lemma read_u16_eq a b l : is_u8 b -> read_u16 (a :: b :: l) = a * 256 + b.
Proof. intros Hb. unfold read_u16, byte_at; simpl. rewrite lor_shiftl_add; [lia | lia | mlia]. Qed.

Lemma read_u32_eq a b c d l : is_u8 b -> is_u8 c -> is_u8 d ->
  read_u32 (a :: b :: c :: d :: l) = ((a * 256 + b) * 256 + c) * 256 + d.
Proof.
  intros Hb Hc Hd. unfold read_u32, byte_at; simpl.
  replace (Z.shiftl a 24) with (Z.shiftl (Z.shiftl a 8) 16) by (by rewrite Z.shiftl_shiftl by lia).
  rewrite <- Z.shiftl_lor.
  rewrite (lor_shiftl_add a b 8) by mlia.
  replace (Z.shiftl (a * 2 ^ 8 + b) 16) with (Z.shiftl (Z.shiftl (a * 2 ^ 8 + b) 8) 8)
    by (by rewrite Z.shiftl_shiftl by lia).
  rewrite <- Z.shiftl_lor.
  rewrite (lor_shiftl_add (a * 2 ^ 8 + b) c 8) by mlia.
  rewrite lor_shiftl_add by mlia. lia.
Qed.

Lemma read_write_u16 v l : is_u16 v -> read_u16 (write_u16 v ++ l) = v.
Proof.
  intros Hv. unfold write_u16; simpl. rewrite read_u16_eq by auto with kvm.
  rewrite Z.shiftr_div_pow2 by lia. change (2 ^ 8) with 256. mlia.
Qed.

Lemma read_write_u32 v l : is_u32 v -> read_u32 (write_u32 v ++ l) = v.
Proof.
  intros Hv. unfold write_u32; simpl. rewrite read_u32_eq by auto with kvm.
  rewrite !Z.shiftr_div_pow2 by lia.
  change (2 ^ 8) with 256. change (2 ^ 16) with 65536. change (2 ^ 24) with 16777216. mlia.
Qed.

Lemma write_u16_ok v : bytes_ok (write_u16 v).
Proof. repeat constructor; apply u8_range. Qed.
Lemma write_u32_ok v : bytes_ok (write_u32 v).
Proof. repeat constructor; apply u8_range. Qed.
#[export] Hint Resolve write_u16_ok write_u32_ok : kvm.

(** ** Lists *)

Lemma byte_at_app_l l k i : (i < length l)%nat -> byte_at (l ++ k) i = byte_at l i.
Proof. intros. unfold byte_at. by rewrite lookup_app_l. Qed.

Lemma byte_at_app_r l k i : (length l <= i)%nat -> byte_at (l ++ k) i = byte_at k (i - length l).
Proof. intros. unfold byte_at. by rewrite lookup_app_r. Qed.

Lemma byte_at_drop l n i : byte_at (drop n l) i = byte_at l (n + i).
Proof. unfold byte_at. by rewrite lookup_drop. Qed.

Lemma byte_at_take l n i : (i < n)%nat -> byte_at (take n l) i = byte_at l i.
Proof. intros. unfold byte_at. by rewrite lookup_take_lt. Qed.

Lemma byte_at_ok l i : bytes_ok l -> is_u8 (byte_at l i).
Proof.
  intros H. unfold byte_at. destruct (l !! i) eqn:E; simpl; [|mlia].
  by eapply Forall_lookup_1 in H.
Qed.
#[export] Hint Resolve byte_at_ok : kvm.

Lemma bytes_ok_app l k : bytes_ok (l ++ k) <-> bytes_ok l /\ bytes_ok k.
Proof. apply Forall_app. Qed.

Lemma bytes_ok_take n l : bytes_ok l -> bytes_ok (take n l).
Proof. apply Forall_take. Qed.
Lemma bytes_ok_drop n l : bytes_ok l -> bytes_ok (drop n l).
Proof. apply Forall_drop. Qed.
#[export] Hint Resolve bytes_ok_take bytes_ok_drop : kvm.

Lemma drop_cons_byte l i : (i < length l)%nat -> drop i l = byte_at l i :: drop (S i) l.
Proof.
  intros H. destruct (lookup_lt_is_Some_2 _ _ H) as [x Hx].
  unfold byte_at. rewrite Hx. simpl. by apply drop_S.
Qed.

(** ** Searching

    A C loop [for (i = a; i < b; i++) if (p(i)) return i;] is [find_from p a b]. *)

Definition find_from (p : nat -> bool) (a b : nat) : option nat := find p (seq a (b - a)).

Lemma find_seq_Some p a n i : find p (seq a n) = Some i ->
  (a <= i < a + n)%nat /\ p i = true /\ forall j, (a <= j < i)%nat -> p j = false.
Proof.
  revert a. induction n as [|n IH]; intros a H; [done|]. simpl in H.
  destruct (p a) eqn:E; simplify_eq.
  - split_and!; [lia|lia|done|lia].
  - apply IH in H as (Hr & Hp & Hj). split_and!; [lia|lia|done|].
    intros j Hlt. destruct (decide (j = a)) as [->|]; [done|]. apply Hj. lia.
Qed.

Lemma find_seq_None p a n : find p (seq a n) = None ->
  forall j, (a <= j < a + n)%nat -> p j = false.
Proof.
  intros H j Hj. eapply find_none in H; [done|]. apply in_seq. lia.
Qed.

Lemma find_from_Some p a b i : find_from p a b = Some i ->
  (a <= i < b)%nat /\ p i = true /\ forall j, (a <= j < i)%nat -> p j = false.
Proof. intros (Hr & Hp & Hj)%find_seq_Some. split_and!; try done; lia. Qed.

Lemma find_from_None p a b : find_from p a b = None ->
  forall j, (a <= j < b)%nat -> p j = false.
Proof. intros H j Hj. eapply find_seq_None; [done|lia]. Qed.

Lemma find_from_is_Some p a b i : (a <= i < b)%nat -> p i = true -> is_Some (find_from p a b).
Proof.
  intros Hi Hp. destruct (find_from p a b) eqn:E; [done|].
  apply find_from_None with (j := i) in E; [congruence|done].
Qed.

(** Bits of an accumulated [mask |= bit] loop. *)
Lemma testbit_fold_lor {A} (f : A -> Z) (l : list A) m t :
  Z.testbit (fold_left (fun m a => Z.lor m (f a)) l m) t =
  Z.testbit m t || existsb (fun a => Z.testbit (f a) t) l.
Proof.
  revert m. induction l as [|a l IH]; intros m; simpl; [by rewrite orb_false_r|].
  by rewrite IH, Z.lor_spec, orb_assoc.
Qed.

Lemma testbit_shiftl1 i t : 0 <= i -> 0 <= t -> Z.testbit (Z.shiftl 1 i) t = (i =? t).
Proof.
  intros. rewrite Z.shiftl_1_l. by apply Z.pow2_bits_eqb.
Qed.

Lemma land_31_range b : 0 <= Z.land b 31 < 32.
Proof. change 31 with (Z.ones 5). rewrite Z.land_ones by lia. apply Z.mod_pos_bound. lia. Qed.
