(* ===== verification/Protocol.v ===== *)
(** * The control protocol ([src/src/protocol.h], [src/src/protocol.c])

    Frames are [version, type, length_hi, length_lo, payload...].  The kernel
    side of a socket is a script: the answers it will give to successive calls.
    A blocking call that finds its script exhausted has not returned ([None]);
    a [MSG_DONTWAIT] call gets [EAGAIN]. *)

From S2P Require Import Prelude.

(** ** Constants and data *)

Definition NANOKVM_CONTROL_MAX_PAYLOAD : nat := 1024.
Definition NANOKVM_PROTOCOL_VERSION : Z := 1.
Definition NANOKVM_STATS_PAYLOAD_SIZE : nat := 16.
Definition NANOKVM_HELLO_BASE_PAYLOAD_SIZE : nat := 8.
Definition NANOKVM_HELLO_CAPABILITIES_PAYLOAD_SIZE : nat := 9.
Definition NANOKVM_KEY_PAYLOAD_SIZE : nat := 3.
Definition NANOKVM_KEY_ACK_REQUEST_PAYLOAD_SIZE : nat := 7.
Definition NANOKVM_KEY_ACK_PAYLOAD_SIZE : nat := 5.
Definition NANOKVM_AGENT_CAPABILITY_KEY_ACK : Z := 1.

(** [enum NanokvmControlType]. *)
Inductive NanokvmControlType :=
| CONTROL_HELLO | CONTROL_START_STREAM | CONTROL_STOP_STREAM | CONTROL_IDR_REQUEST
| CONTROL_KEY | CONTROL_POINTER_ABS | CONTROL_POINTER_REL | CONTROL_WHEEL
| CONTROL_RELEASE_ALL | CONTROL_PING | CONTROL_PONG | CONTROL_STATS | CONTROL_ERROR
| CONTROL_TEXT_UTF8 | CONTROL_KEY_ACK | CONTROL_SYNCHRONIZE.

#[export] Instance NanokvmControlType_eq_dec : EqDecision NanokvmControlType.
Proof. solve_decision. Defined.

(** The enumerators' values. *)
Definition control_code (t : NanokvmControlType) : Z :=
  match t with
  | CONTROL_HELLO => 1 | CONTROL_START_STREAM => 2 | CONTROL_STOP_STREAM => 3
  | CONTROL_IDR_REQUEST => 4 | CONTROL_KEY => 5 | CONTROL_POINTER_ABS => 6
  | CONTROL_POINTER_REL => 7 | CONTROL_WHEEL => 8 | CONTROL_RELEASE_ALL => 9
  | CONTROL_PING => 10 | CONTROL_PONG => 11 | CONTROL_STATS => 12 | CONTROL_ERROR => 13
  | CONTROL_TEXT_UTF8 => 14 | CONTROL_KEY_ACK => 15 | CONTROL_SYNCHRONIZE => 16
  end.

(** The enumerator a received type byte is compared equal to, if any. *)
Definition control_type_of (code : Z) : option NanokvmControlType :=
  match code with
  | 1 => Some CONTROL_HELLO | 2 => Some CONTROL_START_STREAM | 3 => Some CONTROL_STOP_STREAM
  | 4 => Some CONTROL_IDR_REQUEST | 5 => Some CONTROL_KEY | 6 => Some CONTROL_POINTER_ABS
  | 7 => Some CONTROL_POINTER_REL | 8 => Some CONTROL_WHEEL | 9 => Some CONTROL_RELEASE_ALL
  | 10 => Some CONTROL_PING | 11 => Some CONTROL_PONG | 12 => Some CONTROL_STATS
  | 13 => Some CONTROL_ERROR | 14 => Some CONTROL_TEXT_UTF8 | 15 => Some CONTROL_KEY_ACK
  | 16 => Some CONTROL_SYNCHRONIZE | _ => None
  end.

(** [NanokvmControlMessage]: the first [length] bytes of the payload array. *)
Record NanokvmControlMessage := Message { msg_type : Z; msg_payload : bytes }.

Definition msg_length (m : NanokvmControlMessage) : nat := length (msg_payload m).

(** Messages that [protocol_send] accepts and the wire can carry. *)
Definition message_ok (m : NanokvmControlMessage) : Prop :=
  is_u8 (msg_type m) /\ bytes_ok (msg_payload m) /\
  (msg_length m <= NANOKVM_CONTROL_MAX_PAYLOAD)%nat.

(** ** Big-endian fields *)

Definition protocol_write_u16 (value : Z) : bytes := write_u16 value.
Definition protocol_read_u16 (data : bytes) : Z := read_u16 data.
Definition protocol_write_u32 (value : Z) : bytes := write_u32 value.
Definition protocol_read_u32 (data : bytes) : Z := read_u32 data.

(** ** The kernel's side of a socket *)

Inductive recv_event := RecvData (d : bytes) | RecvIntr | RecvAgain | RecvEof | RecvError.
Inductive recv_result := Got (d : bytes) | Eintr | Eagain | Efail.
Abbreviation recv_script := (list recv_event).

(** [recv(fd, buf, n, MSG_DONTWAIT)]: at most [n] bytes of the oldest chunk;
    [Got []] is the return value 0. *)
Definition recv (n : nat) (s : recv_script) : recv_result * recv_script :=
  match s with
  | [] => (Eagain, [])
  | RecvData d :: s' =>
      if (n <? length d)%nat then (Got (take n d), RecvData (drop n d) :: s') else (Got d, s')
  | RecvIntr :: s' => (Eintr, s')
  | RecvAgain :: s' => (Eagain, s')
  | RecvEof :: s' => (Got [], s')
  | RecvError :: s' => (Efail, s')
  end.

Inductive write_event := Wrote (n : nat) | WriteIntr | WriteFail.
Abbreviation write_script := (list write_event).

(** ** Blocking transfers *)

(** [write_all]: the verdict ([None] while the call is blocked), the bytes that
    reached the peer, and the rest of the script. *)
Fixpoint write_all (ws : write_script) (data : bytes) : option bool * bytes * write_script :=
  match data with
  | [] => (Some true, [], ws)
  | _ =>
      match ws with
      | [] => (None, [], [])
      | Wrote n :: ws' =>
          let result := Nat.min n (length data) in
          if (0 <? result)%nat then
            let '(ok, wire, rest) := write_all ws' (drop result data) in
            (ok, take result data ++ wire, rest)
          else (Some false, [], ws')
      | WriteIntr :: ws' => write_all ws' data
      | WriteFail :: ws' => (Some false, [], ws')
      end
  end.

(** [read_all]: reads exactly [n] bytes or fails; [None] while blocked.  A
    partially used chunk goes back to the script. *)
Fixpoint read_all (s : recv_script) (n : nat) : option (option bytes * recv_script) :=
  if (n =? 0)%nat then Some (Some [], s) else
  match s with
  | [] => None
  | RecvData d :: s' =>
      if (n <? length d)%nat then Some (Some (take n d), RecvData (drop n d) :: s')
      else if (length d =? 0)%nat then Some (None, s')
      else match read_all s' (n - length d) with
           | Some (Some tail, rest) => Some (Some (d ++ tail), rest)
           | other => other
           end
  | RecvIntr :: s' => read_all s' n
  | _ :: s' => Some (None, s')
  end.

(** ** Operations *)

Record send_result := SendResult {
  send_ok : option bool;       (** the returned value, [None] while blocked *)
  send_wire : bytes;           (** bytes the peer can read *)
  send_shutdown : bool;        (** [shutdown(fd, SHUT_RDWR)] was called *)
  send_rest : write_script }.

Definition frame (type : Z) (payload : bytes) : bytes :=
  [NANOKVM_PROTOCOL_VERSION; type] ++ protocol_write_u16 (Z.of_nat (length payload)) ++ payload.

(** [protocol_send]; [payload = None] is a null pointer, and the caller's buffer
    holds at least [len] bytes. *)
Definition protocol_send (ws : write_script) (type : Z) (payload : option bytes) (len : nat)
    : send_result :=
  if (NANOKVM_CONTROL_MAX_PAYLOAD <? len)%nat ||
     (negb (len =? 0)%nat && match payload with None => true | Some _ => false end)
  then SendResult (Some false) [] false ws
  else
    let body := take len (default [] payload) in
    let '(ok, wire, rest) := write_all ws (frame type body) in
    match ok with
    | Some true => SendResult (Some true) wire false rest
    | Some false => SendResult (Some false) wire true rest
    | None => SendResult None wire false rest
    end.

(** The three return values of [protocol_receive_available]: 1, 0 and -1. *)
Inductive available := Available (m : NanokvmControlMessage) | Partial | Broken.

(** The loop of [protocol_receive_available].  The reader is the first [used]
    bytes of [NanokvmControlReader.data]. *)
Fixpoint receive_available_loop (fuel : nat) (reader : bytes) (s : recv_script)
    : option (available * bytes * recv_script) :=
  match fuel with
  | O => None
  | S fuel =>
      let used := length reader in
      let len := Z.to_nat (protocol_read_u16 (drop 2 reader)) in
      if (4 <=? used)%nat &&
         (negb (byte_at reader 0 =? NANOKVM_PROTOCOL_VERSION) ||
          (NANOKVM_CONTROL_MAX_PAYLOAD <? len)%nat)
      then Some (Broken, reader, s)
      else
        let needed := if (4 <=? used)%nat then (4 + len)%nat else 4%nat in
        if (4 <=? used)%nat && (used =? needed)%nat
        then Some (Available (Message (byte_at reader 1) (take len (drop 4 reader))), [], s)
        else
          match recv (needed - used) s with
          | (Got [], s') => Some (Broken, reader, s')
          | (Got d, s') => receive_available_loop fuel (reader ++ d) s'
          | (Eintr, s') => receive_available_loop fuel reader s'
          | (Eagain, s') => Some (Partial, reader, s')
          | (Efail, s') => Some (Broken, reader, s')
          end
  end.

(** Every iteration that does not return consumes an event or a byte. *)
Definition event_size (e : recv_event) : nat :=
  match e with RecvData d => S (length d) | _ => 1%nat end.
Definition script_size (s : recv_script) : nat := sum_list_with event_size s.

Definition protocol_receive_available (reader : bytes) (s : recv_script)
    : option (available * bytes * recv_script) :=
  receive_available_loop (S (script_size s)) reader s.

(** [protocol_receive] on a blocking socket: [None] while blocked, then the
    received message or [None] for the return value [false]. *)
Definition protocol_receive (s : recv_script)
    : option (option NanokvmControlMessage * recv_script) :=
  match read_all s 4 with
  | None => None
  | Some (None, s') => Some (None, s')
  | Some (Some header, s') =>
      if negb (byte_at header 0 =? NANOKVM_PROTOCOL_VERSION) then Some (None, s')
      else
        let len := Z.to_nat (protocol_read_u16 (drop 2 header)) in
        if (NANOKVM_CONTROL_MAX_PAYLOAD <? len)%nat then Some (None, s')
        else match read_all s' len with
             | None => None
             | Some (None, s'') => Some (None, s'')
             | Some (Some payload, s'') => Some (Some (Message (byte_at header 1) payload), s'')
             end
  end.

(** Polling the connection until the script is drained, the way the agent's
    main loop calls [protocol_receive_available] again and again. *)
Fixpoint receive_messages (fuel : nat) (reader : bytes) (s : recv_script)
    : list NanokvmControlMessage :=
  match fuel with
  | O => []
  | S fuel =>
      match protocol_receive_available reader s with
      | Some (Available m, r, s') => m :: receive_messages fuel r s'
      | Some (Partial, r, s') =>
          match s' with [] => [] | _ => receive_messages fuel r s' end
      | _ => []
      end
  end.

(** ** Lemmas *)

(** The bytes a script still has to deliver. *)
Definition event_bytes (e : recv_event) : bytes :=
  match e with RecvData d => d | _ => [] end.
Definition script_bytes (s : recv_script) : bytes := concat (map event_bytes s).

(** Scripts of a healthy connection: data, interrupted calls, empty polls. *)
Definition event_healthy (e : recv_event) : Prop :=
  match e with RecvData d => d <> [] | RecvIntr | RecvAgain => True | _ => False end.
Definition healthy (s : recv_script) : Prop := Forall event_healthy s.

Definition frame_of (m : NanokvmControlMessage) : bytes := frame (msg_type m) (msg_payload m).
Definition stream (ms : list NanokvmControlMessage) : bytes := concat (map frame_of ms).

Lemma length_frame type payload : length (frame type payload) = (4 + length payload)%nat.
Proof. done. Qed.

Lemma frame_of_length m : length (frame_of m) = (4 + msg_length m)%nat.
Proof. done. Qed.

Lemma frame_version type payload : byte_at (frame type payload) 0 = NANOKVM_PROTOCOL_VERSION.
Proof. done. Qed.

Lemma frame_payload_length type payload :
  (length payload <= NANOKVM_CONTROL_MAX_PAYLOAD)%nat ->
  protocol_read_u16 (drop 2 (frame type payload)) = Z.of_nat (length payload).
Proof. intros H. apply read_write_u16. unfold NANOKVM_CONTROL_MAX_PAYLOAD in H. unfold is_u16. lia. Qed.

Lemma read_u16_app l k : (2 <= length l)%nat -> read_u16 (l ++ k) = read_u16 l.
Proof. intros H. unfold read_u16. by rewrite !byte_at_app_l by lia. Qed.

(** A four-byte header with the right fields is the header of a frame. *)
Lemma frame_of_header reader :
  bytes_ok reader -> (4 <= length reader)%nat -> byte_at reader 0 = NANOKVM_PROTOCOL_VERSION ->
  length reader = (4 + Z.to_nat (protocol_read_u16 (drop 2 reader)))%nat ->
  reader = frame (byte_at reader 1) (drop 4 reader).
Proof.
  intros Hok Hlen Hv Hl.
  destruct reader as [|a [|b [|c [|d tl]]]]; simpl in Hlen; try lia.
  simpl in *. rewrite drop_0 in *.
  unfold bytes_ok in Hok. rewrite !Forall_cons_iff in Hok. destruct Hok as (Ha & Hb & Hc & Hd & _).
  unfold byte_at, frame, protocol_write_u16, write_u16, protocol_read_u16 in *; simpl in *.
  rewrite read_u16_eq in Hl by done. subst a.
  replace (Z.of_nat (length tl)) with (c * 256 + d) by mlia.
  rewrite Z.shiftr_div_pow2 by lia. change (2 ^ 8) with 256.
  repeat f_equal; mlia.
Qed.

Lemma recv_conserves n s r s' : recv n s = (r, s') ->
  match r with
  | Got d => script_bytes s = d ++ script_bytes s' /\ (length d <= n \/ d = [])%nat
  | _ => script_bytes s = script_bytes s'
  end.
Proof.
  unfold recv, script_bytes. intros H. destruct s as [|[d| | | |] s0]; simplify_eq/=; try done.
  - case_match; simplify_eq/=; bool_hyps.
    + rewrite app_assoc, take_drop, length_take. split; [done|lia].
    + split; [done|lia].
  - split; [done|by right].
Qed.

(** A non-returning iteration makes the script smaller. *)
Lemma recv_decreases n s r s' : recv n s = (r, s') ->
  match r with
  | Got [] => True
  | Got _ | Eintr | Efail => (script_size s' < script_size s)%nat
  | Eagain => s = [] /\ s' = [] \/ (script_size s' < script_size s)%nat
  end.
Proof.
  unfold recv, script_size. intros H.
  destruct s as [|[d| | | |] s0]; simplify_eq/=; try lia; [by left|].
  case_match; simplify_eq/=; bool_hyps.
  - destruct (take n d) eqn:E; [done|]. rewrite length_drop.
    assert (length (take n d) <> 0)%nat by (by rewrite E). rewrite length_take in *. lia.
  - destruct d; simpl; [done|lia].
Qed.

Lemma recv_size n s : (script_size (recv n s).2 <= script_size s)%nat.
Proof.
  unfold recv, script_size. destruct s as [|[d| | | |] s0]; simpl; try lia.
  case_match; simpl; [rewrite length_drop|]; lia.
Qed.

Lemma recv_healthy n s r s' : (0 < n)%nat -> healthy s -> recv n s = (r, s') ->
  healthy s' /\ match r with Got d => d <> [] | Efail => False | _ => True end.
Proof.
  unfold recv, healthy. intros Hn Hs H.
  destruct s as [|e s0]; [by simplify_eq/=|]. apply Forall_cons_iff in Hs as [He Hs].
  destruct e as [d| | | |]; simplify_eq/=; try done.
  case_match; simplify_eq/=; bool_hyps; [|done].
  rewrite Forall_cons_iff. split_and!; [|done|].
  - simpl. intros E%(f_equal length). rewrite length_drop in E. simpl in E. lia.
  - intros E%(f_equal length). rewrite length_take in E. simpl in E. lia.
Qed.

(** ** Receiving: totality *)

Lemma receive_available_loop_total fuel reader s :
  (script_size s < fuel)%nat -> is_Some (receive_available_loop fuel reader s).
Proof.
  revert reader s. induction fuel as [|fuel IH]; intros reader s Hf; [lia|]. simpl.
  repeat case_match; try done.
  all: match goal with H : recv _ _ = _ |- _ => apply recv_decreases in H end; apply IH; lia.
Qed.

(** What the loop knows about its reader: it never holds more than one frame. *)
Definition reader_ok (reader : bytes) : Prop :=
  bytes_ok reader /\
  ((4 <= length reader)%nat ->
   (length reader <= 4 + Z.to_nat (protocol_read_u16 (drop 2 reader)))%nat).

Lemma reader_ok_nil : reader_ok [].
Proof. split; [constructor|simpl; lia]. Qed.
#[export] Hint Resolve reader_ok_nil : kvm.

(** The bytes still missing, as the loop computes them. *)
Definition reader_missing (reader : bytes) : nat :=
  ((if (4 <=? length reader)%nat
    then 4 + Z.to_nat (protocol_read_u16 (drop 2 reader)) else 4) - length reader)%nat.

Lemma reader_ok_grow reader d :
  reader_ok reader -> bytes_ok d -> (length d <= reader_missing reader)%nat ->
  reader_ok (reader ++ d).
Proof.
  intros [Hok Hfit] Hd Hlen. unfold reader_missing in Hlen.
  split; [by apply bytes_ok_app|]. rewrite length_app. intros H4.
  destruct (Nat.leb_spec 4 (length reader)) as [Hr|Hr].
  - rewrite drop_app_le by lia. unfold protocol_read_u16 in *.
    rewrite read_u16_app by (rewrite length_drop; lia). lia.
  - lia.
Qed.

(** ** Receiving: what one call does *)

(** A reader that is not a complete frame asks for at least one byte. *)
Lemma reader_missing_pos reader :
  reader_ok reader ->
  (4 <=? length reader)%nat &&
    (length reader =? (if (4 <=? length reader)%nat
                       then 4 + Z.to_nat (protocol_read_u16 (drop 2 reader)) else 4))%nat = false ->
  (0 < reader_missing reader)%nat.
Proof.
  intros [_ Hfit] Hfull. unfold reader_missing. destruct (Nat.leb_spec 4 (length reader)); [|lia].
  bool_hyps. destruct Hfull; bool_hyps; lia.
Qed.

(** A complete, valid reader is exactly one frame. *)
Lemma reader_complete reader :
  reader_ok reader ->
  (4 <=? length reader)%nat &&
    (negb (byte_at reader 0 =? NANOKVM_PROTOCOL_VERSION) ||
     (NANOKVM_CONTROL_MAX_PAYLOAD <? Z.to_nat (protocol_read_u16 (drop 2 reader)))%nat) = false ->
  (4 <=? length reader)%nat &&
    (length reader =? (if (4 <=? length reader)%nat
                       then 4 + Z.to_nat (protocol_read_u16 (drop 2 reader)) else 4))%nat = true ->
  let m := Message (byte_at reader 1)
    (take (Z.to_nat (protocol_read_u16 (drop 2 reader))) (drop 4 reader)) in
  reader = frame_of m /\ message_ok m.
Proof.
  intros [Hok _] Hbad Hfull m. apply andb_true_iff in Hfull as [H4 Hfull]. rewrite H4 in *.
  bool_hyps. destruct Hbad as [|Hbad]; [done|]. bool_hyps.
  assert (Hv : byte_at reader 0 = NANOKVM_PROTOCOL_VERSION) by done.
  split.
  - rewrite (frame_of_header reader Hok) at 1 by done.
    unfold frame_of, m; simpl. f_equal. symmetry. apply take_ge. rewrite length_drop. lia.
  - unfold m. split_and!; simpl; auto with kvm. unfold msg_length; simpl. rewrite length_take. lia.
Qed.

(** Outcome of a call that started with [reader ++ script_bytes s] unread. *)
Definition receive_post (before : bytes) (size : nat)
    (out : available * bytes * recv_script) : Prop :=
  let '(res, reader', s') := out in
  reader_ok reader' /\
  match res with
  | Available m => before = frame_of m ++ script_bytes s' /\ message_ok m /\ reader' = []
  | Partial => before = reader' ++ script_bytes s' /\ (0 < reader_missing reader')%nat /\
               (s' = [] \/ (script_size s' < size)%nat)
  | Broken => True
  end /\ (script_size s' <= size)%nat.

Lemma script_bytes_ok_tail n s r s' :
  bytes_ok (script_bytes s) -> recv n s = (r, s') -> bytes_ok (script_bytes s').
Proof.
  intros Hok H. apply recv_conserves in H. destruct r as [d| | |]; try (by rewrite <- H).
  destruct H as [H _]. rewrite H in Hok. by apply bytes_ok_app in Hok as [_ ?].
Qed.

Lemma receive_available_loop_post fuel reader s out :
  reader_ok reader -> bytes_ok (script_bytes s) ->
  receive_available_loop fuel reader s = Some out ->
  receive_post (reader ++ script_bytes s) (script_size s) out.
Proof.
  revert reader s. induction fuel as [|fuel IH]; intros reader s Hr Hs; [done|].
  cbn [receive_available_loop]; cbv zeta.
  case_match eqn:Hbad; [intros [= <-]; by split_and!|].
  case_match eqn:Hfull.
  { intros [= <-]. destruct (reader_complete reader Hr Hbad Hfull) as [Hframe Hmok].
    split_and!; auto with kvm. by rewrite Hframe at 1. }
  pose proof (reader_missing_pos reader Hr Hfull) as Hmiss.
  change ((if (4 <=? length reader)%nat then 4 + Z.to_nat (protocol_read_u16 (drop 2 reader))
    else 4) - length reader)%nat with (reader_missing reader).
  destruct (recv (reader_missing reader) s) as [r s'] eqn:Hrecv.
  pose proof (script_bytes_ok_tail _ _ _ _ Hs Hrecv) as Hs'.
  pose proof (recv_conserves _ _ _ _ Hrecv) as Hc.
  pose proof (recv_decreases _ _ _ _ Hrecv) as Hd.
  assert (Hmono : forall b n n', (n <= n')%nat -> receive_post b n out -> receive_post b n' out).
  { intros b n n' Hn. destruct out as [[[m| |] r'] s'']; simpl; intros; destruct_and!;
      split_and!; auto; try lia.
    match goal with H : _ \/ _ |- _ => destruct H; [by left|right; lia] end. }
  destruct r as [[|x d]| | |].
  - intros [= <-]. split_and!; try apply Hr; auto.
    pose proof (recv_size (reader_missing reader) s) as Hsz. by rewrite Hrecv in Hsz.
  - intros H. destruct Hc as [Hc Hlen]. destruct Hlen as [Hlen|]; [|done].
    rewrite Hc in Hs. apply bytes_ok_app in Hs as [Hx _].
    rewrite Hc, app_assoc. apply (Hmono _ (script_size s')); [lia|].
    apply IH; auto. by apply reader_ok_grow.
  - intros H. rewrite Hc. apply (Hmono _ (script_size s')); [lia|]. by apply IH.
  - intros [= <-]. rewrite Hc. split_and!; try apply Hr; auto.
    all: destruct Hd as [[-> ->]|]; auto; lia.
  - intros [= <-]. split_and!; try apply Hr; auto; lia.
Qed.

Lemma receive_available_healthy fuel reader s out :
  reader_ok reader -> bytes_ok (script_bytes s) -> healthy s ->
  receive_available_loop fuel reader s = Some out -> healthy out.2.
Proof.
  revert reader s. induction fuel as [|fuel IH]; intros reader s Hr Hs Hh; [done|].
  cbn [receive_available_loop]; cbv zeta.
  case_match eqn:Hbad; [by intros [= <-]|].
  case_match eqn:Hfull; [by intros [= <-]|].
  pose proof (reader_missing_pos reader Hr Hfull) as Hmiss.
  change ((if (4 <=? length reader)%nat then 4 + Z.to_nat (protocol_read_u16 (drop 2 reader))
    else 4) - length reader)%nat with (reader_missing reader).
  destruct (recv (reader_missing reader) s) as [r s'] eqn:Hrecv.
  pose proof (script_bytes_ok_tail _ _ _ _ Hs Hrecv) as Hs'.
  pose proof (recv_conserves _ _ _ _ Hrecv) as Hc.
  apply recv_healthy in Hrecv as [Hh' Hr']; [|done..].
  destruct r as [[|x d]| | |]; try done; try by intros [= <-].
  - destruct Hc as [Hc [Hlen|]]; [|done]. apply IH; auto. apply reader_ok_grow; try done.
    rewrite Hc in Hs. by apply bytes_ok_app in Hs as [? _].
  - by apply IH.
Qed.

(** ** Properties *)

(** The one place where the wire form is parsed back: a stream of frames has
    only one reading. *)
Lemma frame_of_inj m m' tl tl' :
  message_ok m -> message_ok m' -> frame_of m ++ tl = frame_of m' ++ tl' -> m = m' /\ tl = tl'.
Proof.
  intros (Ht & _ & Hl) (Ht' & _ & Hl') E.
  pose proof (f_equal (fun l => protocol_read_u16 (drop 2 l)) E) as El. cbv beta in El.
  rewrite !drop_app_le in El by (rewrite frame_of_length; lia). unfold protocol_read_u16 in El.
  rewrite !read_u16_app in El by (rewrite length_drop, frame_of_length; lia).
  fold (protocol_read_u16 (drop 2 (frame_of m))) in El.
  fold (protocol_read_u16 (drop 2 (frame_of m'))) in El.
  unfold frame_of in El. rewrite !frame_payload_length in El by done.
  apply app_inj_1 in E as [E ->]; [|rewrite !frame_of_length; unfold msg_length; lia].
  split; [|done]. destruct m, m'. unfold frame_of, frame in E. simpl in E. by simplify_eq.
Qed.

Lemma stream_ok ms : Forall message_ok ms -> bytes_ok (stream ms).
Proof.
  induction 1 as [|m ms (Ht & Hp & _) _ IH]; [constructor|].
  change (stream (m :: ms)) with (frame_of m ++ stream ms). apply bytes_ok_app; split; [|done].
  unfold frame_of, frame. rewrite !bytes_ok_app. split_and!; auto with kvm.
  repeat constructor; apply Ht || (unfold NANOKVM_PROTOCOL_VERSION; lia).
Qed.

(** Four or more bytes of a stream show the header of its first frame. *)
Lemma stream_header reader rest ms :
  Forall message_ok ms -> (4 <= length reader)%nat -> reader ++ rest = stream ms ->
  exists m ms', ms = m :: ms' /\ byte_at reader 0 = NANOKVM_PROTOCOL_VERSION /\
    protocol_read_u16 (drop 2 reader) = Z.of_nat (msg_length m).
Proof.
  intros Hms H4 E. destruct Hms as [|m ms (_ & _ & Hl) _].
  { apply (f_equal length) in E. rewrite length_app in E. simpl in E. lia. }
  exists m, ms. change (stream (m :: ms)) with (frame_of m ++ stream ms) in E.
  split_and!; [done| |].
  - rewrite <- (byte_at_app_l reader rest) by lia. by rewrite E.
  - unfold protocol_read_u16. rewrite <- (read_u16_app _ rest) by (rewrite length_drop; lia).
    rewrite <- drop_app_le by lia. rewrite E, drop_app_le by (rewrite frame_of_length; lia).
    rewrite read_u16_app by (rewrite length_drop, frame_of_length; lia).
    by apply frame_payload_length.
Qed.

Lemma stream_not_broken fuel reader s ms out :
  healthy s -> bytes_ok (script_bytes s) -> Forall message_ok ms -> reader_ok reader ->
  reader ++ script_bytes s = stream ms ->
  receive_available_loop fuel reader s = Some out -> out.1.1 <> Broken.
Proof.
  revert reader s. induction fuel as [|fuel IH]; intros reader s Hh Hs Hms Hr E; [done|].
  cbn [receive_available_loop]; cbv zeta.
  case_match eqn:Hbad.
  { exfalso. apply andb_true_iff in Hbad as [H4 Hbad]. bool_hyps.
    destruct (stream_header reader _ ms Hms ltac:(lia) E) as (m & ms' & -> & Hv & Hl).
    apply Forall_cons_iff in Hms as [(_ & _ & Hm) _].
    destruct Hbad; bool_hyps; [done|]. rewrite Hl, Nat2Z.id in *. lia. }
  case_match eqn:Hfull; [by intros [= <-]|].
  pose proof (reader_missing_pos reader Hr Hfull) as Hmiss.
  change ((if (4 <=? length reader)%nat then 4 + Z.to_nat (protocol_read_u16 (drop 2 reader))
    else 4) - length reader)%nat with (reader_missing reader).
  destruct (recv (reader_missing reader) s) as [r s'] eqn:Hrecv.
  pose proof (script_bytes_ok_tail _ _ _ _ Hs Hrecv) as Hs'.
  pose proof (recv_conserves _ _ _ _ Hrecv) as Hc.
  apply recv_healthy in Hrecv as [Hh' Hr']; [|done..].
  destruct r as [[|x d]| | |]; try done; try by intros [= <-].
  - destruct Hc as [Hc [Hlen|]]; [|done]. rewrite Hc in Hs. apply bytes_ok_app in Hs as [? _].
    apply IH; auto; [by apply reader_ok_grow|]. by rewrite <- app_assoc, <- Hc.
  - apply IH; auto. by rewrite <- Hc.
Qed.

(** A reader that still misses bytes cannot hold a whole frame of the stream. *)
Lemma partial_not_all reader ms :
  Forall message_ok ms -> reader_ok reader -> (0 < reader_missing reader)%nat ->
  reader = stream ms -> ms = [].
Proof.
  intros Hms [_ Hfit] Hmiss E. destruct ms as [|m ms]; [done|exfalso].
  pose proof (f_equal length E) as El.
  change (stream (m :: ms)) with (frame_of m ++ stream ms) in El.
  rewrite length_app, frame_of_length in El.
  destruct (stream_header reader [] (m :: ms) Hms ltac:(lia)) as (m' & ms' & [= <- <-] & _ & Hl).
  { by rewrite app_nil_r. }
  unfold reader_missing in Hmiss. rewrite Hl, Nat2Z.id in Hmiss.
  destruct (Nat.leb_spec 4 (length reader)); lia.
Qed.

(** A connection that has delivered all of a stream hands it over message by
    message, whatever the chunking. *)
Lemma receive_messages_stream fuel reader s ms :
  (script_size s + length ms < fuel)%nat -> healthy s -> bytes_ok (script_bytes s) ->
  Forall message_ok ms -> reader_ok reader -> reader ++ script_bytes s = stream ms ->
  receive_messages fuel reader s = ms.
Proof.
  revert reader s ms. induction fuel as [|fuel IH]; intros reader s ms Hf Hh Hs Hms Hr E; [lia|].
  cbn [receive_messages]. unfold protocol_receive_available.
  destruct (receive_available_loop_total (S (script_size s)) reader s ltac:(lia)) as [out Hout].
  rewrite Hout.
  pose proof (receive_available_healthy _ _ _ _ Hr Hs Hh Hout) as Hh'.
  pose proof (receive_available_loop_post _ _ _ _ Hr Hs Hout) as Hp.
  pose proof (stream_not_broken _ _ _ _ _ Hh Hs Hms Hr E Hout) as Hb.
  destruct out as [[res r] s']. rewrite E in Hp. destruct Hp as (Hr' & Hp & Hsz).
  destruct res as [m| |]; [| |done].
  - destruct Hp as (E' & Hm & ->). destruct ms as [|m' ms]; [by destruct m|].
    apply Forall_cons_iff in Hms as [Hm' Hms].
    change (stream (m' :: ms)) with (frame_of m' ++ stream ms) in E'.
    apply frame_of_inj in E' as [-> E']; [|done..].
    f_equal. simpl in Hf. apply IH; auto with kvm; [lia|]. rewrite <- E'. by apply stream_ok.
  - destruct Hp as (E' & Hmiss & Hdec). destruct s' as [|e s'].
    + symmetry. apply (partial_not_all r); auto. by rewrite E', app_nil_r.
    + apply IH; auto; [destruct Hdec; [done|lia]|].
      pose proof (stream_ok _ Hms) as Hok. rewrite E' in Hok. by apply bytes_ok_app in Hok as [_ ?].
Qed.

Lemma write_all_spec ws data ok wire rest :
  write_all ws data = (ok, wire, rest) ->
  exists unsent, data = wire ++ unsent /\ (ok = Some true <-> unsent = []).
Proof.
  revert data ok wire rest. induction ws as [|[n| |] ws IH]; intros data ok wire rest H.
  1: destruct data as [|x data]; simpl in H; simplify_eq; eexists; by split.
  all: destruct data as [|x data]; simpl in H; [simplify_eq; by exists []|].
  - destruct n as [|n]; simpl in H; [simplify_eq; eexists; by split|].
    destruct (write_all ws _) as [[ok' wire'] rest'] eqn:E. simplify_eq.
    apply IH in E as (unsent & E & Hok). exists unsent. split; [|done].
    simpl. f_equal. rewrite <- app_assoc, <- E. by rewrite take_drop.
  - by apply IH in H.
  - simplify_eq. eexists; by split.
Qed.

(** Scripts of a blocking socket that is neither closed nor timed out. *)
Definition event_blocking (e : recv_event) : Prop :=
  match e with RecvData d => d <> [] | RecvIntr => True | _ => False end.

Lemma read_all_spec s n :
  Forall event_blocking s -> (n <= length (script_bytes s))%nat ->
  exists s', read_all s n = Some (Some (take n (script_bytes s)), s') /\
    script_bytes s' = drop n (script_bytes s) /\ Forall event_blocking s'.
Proof.
  intros Hs. revert n. induction Hs as [|e s He Hs IH]; intros n Hn.
  { simpl in Hn. replace n with 0%nat by lia. by exists []. }
  destruct n as [|n]; [exists (e :: s); by auto|].
  destruct e as [d| | | |]; try done; [|by apply (IH (S n))].
  change (script_bytes (RecvData d :: s)) with (d ++ script_bytes s) in *.
  rewrite length_app in Hn. cbn [read_all]. simpl in He.
  change (S n =? 0)%nat with false. cbv iota.
  destruct (Nat.ltb_spec (S n) (length d)) as [Hlt|Hge].
  - exists (RecvData (drop (S n) d) :: s).
    rewrite take_app_le, drop_app_le by lia. split_and!; [done..|].
    constructor; [|done]. intros E%(f_equal length). rewrite length_drop in E. simpl in E. lia.
  - destruct (length d =? 0)%nat eqn:E0; [bool_hyps; by destruct d|].
    destruct (IH (S n - length d)%nat) as (s' & -> & Hb & Hs'); [lia|].
    exists s'. rewrite take_app_ge, drop_app_ge by lia. by rewrite Hb.
Qed.

(** C4: Stream round trip: whatever the chunking of the byte stream and however
    interrupted or empty polls are interleaved, polling the reader until the
    connection is drained yields exactly the messages whose frames were written,
    in order, none lost, merged or invented. *)
Theorem protocol_stream_roundtrip (ms : list NanokvmControlMessage) (s : recv_script) :
  Forall message_ok ms -> healthy s -> script_bytes s = stream ms ->
  receive_messages (S (script_size s + length ms)) [] s = ms.
Proof.
  intros Hms Hh E. apply receive_messages_stream; auto with kvm.
  rewrite E. by apply stream_ok.
Qed.

Lemma protocol_stream_roundtrip_witness :
  let ms := [Message 5 [30; 0; 1]; Message 10 []; Message 12 (replicate 16 7)] in
  let s := [RecvData [1; 5; 0]; RecvAgain; RecvIntr; RecvData [3; 30]; RecvAgain;
            RecvData ([0; 1; 1; 10; 0; 0; 1; 12; 0; 16] ++ replicate 9 7); RecvAgain;
            RecvData (replicate 7 7)] in
  receive_messages (S (script_size s + length ms)) [] s = ms.
Proof.
  intros ms s. apply (protocol_stream_roundtrip ms s).
  - repeat constructor; unfold is_u8; simpl; lia.
  - repeat constructor; discriminate.
  - reflexivity.
Defined.

(** No byte is lost by a receive call, valid or not: it always returns, and
    when it returns a message that message's frame is exactly the bytes that
    were consumed; when it returns "partial" every consumed byte is kept in the
    reader, which never grows beyond the frame it announces. *)
Theorem protocol_receive_available_spec (reader : bytes) (s : recv_script) :
  reader_ok reader -> bytes_ok (script_bytes s) ->
  exists res reader' s',
    protocol_receive_available reader s = Some (res, reader', s') /\ reader_ok reader' /\
    match res with
    | Available m => reader ++ script_bytes s = frame_of m ++ script_bytes s' /\ message_ok m /\
                     reader' = []
    | Partial => reader ++ script_bytes s = reader' ++ script_bytes s'
    | Broken => True
    end.
Proof.
  intros Hr Hs. unfold protocol_receive_available.
  destruct (receive_available_loop_total (S (script_size s)) reader s ltac:(lia))
    as [[[res r] s'] Hout].
  exists res, r, s'. pose proof (receive_available_loop_post _ _ _ _ Hr Hs Hout) as (? & Hp & _).
  split_and!; [done..|]. destruct res; [done| |done]. by destruct Hp.
Qed.

Lemma protocol_receive_available_spec_witness :
  exists res reader' s',
    protocol_receive_available [1; 10] [RecvIntr; RecvData [0; 0; 1]] = Some (res, reader', s') /\
    reader_ok reader' /\
    match res with
    | Available m => [1; 10] ++ [0; 0; 1] = frame_of m ++ script_bytes s' /\ message_ok m /\
                     reader' = []
    | Partial => [1; 10] ++ [0; 0; 1] = reader' ++ script_bytes s'
    | Broken => True
    end.
Proof.
  apply (protocol_receive_available_spec [1; 10] [RecvIntr; RecvData [0; 0; 1]]).
  - split; [repeat constructor; lia|simpl; lia].
  - repeat constructor; lia.
Defined.

(** C23: A send is all or nothing for the connection: if it reports success the
    whole frame is on the wire; if it reports failure either the arguments were
    refused and nothing was written, or a proper prefix was written and the
    connection was shut down so that no further frame can follow it. *)
Theorem protocol_send_atomic (ws : write_script) (type : Z) (payload : bytes) :
  let r := protocol_send ws type (Some payload) (length payload) in
  match send_ok r with
  | Some true => send_wire r = frame type payload /\ send_shutdown r = false
  | Some false =>
      (send_wire r = [] /\ (NANOKVM_CONTROL_MAX_PAYLOAD < length payload)%nat) \/
      (send_shutdown r = true /\ exists unsent, unsent <> [] /\
         frame type payload = send_wire r ++ unsent)
  | None => exists unsent, unsent <> [] /\ frame type payload = send_wire r ++ unsent
  end.
Proof.
  unfold protocol_send. simpl. rewrite andb_false_r, orb_false_r.
  destruct (Nat.ltb_spec NANOKVM_CONTROL_MAX_PAYLOAD (length payload)) as [Hl|Hl]; [by left|].
  rewrite firstn_all. destruct (write_all ws (frame type payload)) as [[ok wire] rest] eqn:E.
  apply write_all_spec in E as (unsent & E & Hok).
  destruct ok as [[]|]; simpl.
  - rewrite E, (proj1 Hok eq_refl), app_nil_r. done.
  - right. split; [done|]. exists unsent. split; [by intros ?%Hok|done].
  - exists unsent. split; [by intros ?%Hok|done].
Qed.

(** Blocking round trip: a frame that has fully arrived, in any chunks and
    with any interruptions, is received as the message that was sent, and the
    bytes behind it stay unread. *)
Theorem protocol_receive_frame (m : NanokvmControlMessage) (s : recv_script) (rest : bytes) :
  message_ok m -> Forall event_blocking s -> script_bytes s = frame_of m ++ rest ->
  exists s', protocol_receive s = Some (Some m, s') /\ script_bytes s' = rest.
Proof.
  intros (Ht & Hp & Hl) Hs E. unfold protocol_receive.
  destruct (read_all_spec s 4 Hs) as (s1 & -> & E1 & Hs1).
  { rewrite E, length_app, frame_of_length. lia. }
  assert (Hh : take 4 (script_bytes s) = take 4 (frame_of m))
    by (rewrite E; apply take_app_le; rewrite frame_of_length; lia).
  rewrite Hh. cbn [negb]. change (byte_at (take 4 (frame_of m)) 0) with NANOKVM_PROTOCOL_VERSION.
  change (byte_at (take 4 (frame_of m)) 1) with (msg_type m).
  rewrite Z.eqb_refl. cbn [negb].
  assert (Hn : protocol_read_u16 (drop 2 (take 4 (frame_of m))) = Z.of_nat (msg_length m)).
  { exact (frame_payload_length (msg_type m) (msg_payload m) Hl). }
  rewrite Hn, Nat2Z.id. destruct (Nat.ltb_spec NANOKVM_CONTROL_MAX_PAYLOAD (msg_length m)); [lia|].
  assert (E2 : script_bytes s1 = msg_payload m ++ rest)
    by (rewrite E1, E, drop_app_le by (rewrite frame_of_length; lia); reflexivity).
  destruct (read_all_spec s1 (msg_length m) Hs1) as (s2 & -> & E3 & _).
  { rewrite E2, length_app. unfold msg_length. lia. }
  exists s2. rewrite E2 in *. unfold msg_length in *.
  rewrite take_app_length. rewrite drop_app_length in E3. split; [by destruct m|done].
Qed.

Lemma protocol_receive_frame_witness :
  exists s', protocol_receive [RecvData [1]; RecvIntr; RecvData [6; 0; 2; 9; 8; 1]] =
    Some (Some (Message 6 [9; 8]), s') /\ script_bytes s' = [1].
Proof.
  apply (protocol_receive_frame (Message 6 [9; 8]) _ [1]); [|repeat constructor; done|reflexivity].
  repeat constructor; unfold is_u8; simpl; lia.
Defined.
