(* ===== verification/H264.v ===== *)
(** * H.264 Annex-B helpers ([src/src/h264.h], [src/src/h264.c])

    Start-code scanning, the NAL-type mask of an access unit, and the cache of
    parameter sets that is prepended to recovery IDR frames.  A buffer pointer
    with its length is a list; the result of [malloc]/[realloc] is decided by an
    oracle [alloc] on the requested size. *)

From S2P Require Import Prelude.

(** ** Scanning *)

Definition h264_has_annexb_start_code (data : bytes) : bool :=
  (3 <=? length data)%nat && (byte_at data 0 =? 0) && (byte_at data 1 =? 0) &&
  ((byte_at data 2 =? 1) ||
   ((4 <=? length data)%nat && (byte_at data 2 =? 0) && (byte_at data 3 =? 1))).

(** One iteration of the loop of [h264_nal_type_mask]: the bit it adds. *)
Definition nal_mask_at (data : bytes) (index : nat) : Z :=
  let start_length :=
    if (byte_at data index =? 0) && (byte_at data (index + 1) =? 0) &&
       (byte_at data (index + 2) =? 1) then 3%nat
    else if (index + 4 <? length data)%nat && (byte_at data index =? 0) &&
            (byte_at data (index + 1) =? 0) && (byte_at data (index + 2) =? 0) &&
            (byte_at data (index + 3) =? 1) then 4%nat
    else 0%nat in
  if negb (start_length =? 0)%nat && (index + start_length <? length data)%nat
  then Z.shiftl 1 (Z.land (byte_at data (index + start_length)) 31) else 0.

(** [h264_nal_type_mask]; a null pointer gives 0 like the empty buffer. *)
Definition h264_nal_type_mask (data : bytes) : Z :=
  fold_left (fun mask index => Z.lor mask (nal_mask_at data index))
    (seq 0 (length data - 3)) 0.

Definition h264_contains_nal_type (data : bytes) (type : Z) : bool :=
  (type <? 32) && negb (Z.land (h264_nal_type_mask data) (Z.shiftl 1 type) =? 0).

Definition h264_annexb_size (data : bytes) : nat :=
  if (length data =? 0)%nat then 0%nat
  else (length data + (if h264_has_annexb_start_code data then 0 else 4))%nat.

(** [h264_copy_annexb]: the bytes written to the destination; their number is
    the returned value. *)
Definition h264_copy_annexb (data : bytes) : bytes :=
  if (length data =? 0)%nat then []
  else if h264_has_annexb_start_code data then data
  else [0; 0; 0; 1] ++ data.

(** [nal_start]: [Some start_length] for [true]. *)
Definition nal_start (data : bytes) (index : nat) : option nat :=
  if (length data <=? index + 3)%nat || negb (byte_at data index =? 0) ||
     negb (byte_at data (index + 1) =? 0) then None
  else if byte_at data (index + 2) =? 1 then Some 3%nat
  else if (index + 4 <? length data)%nat && (byte_at data (index + 2) =? 0) &&
          (byte_at data (index + 3) =? 1) then Some 4%nat
  else None.

Definition is_nal_start (data : bytes) (index : nat) : bool :=
  match nal_start data index with Some _ => true | None => false end.

(** The condition under which [find_nal] stops at [index]. *)
Definition nal_of_type_at (data : bytes) (type : Z) (index : nat) : bool :=
  match nal_start data index with
  | None => false
  | Some start_length =>
      negb (length data <=? index + start_length)%nat &&
      (Z.land (byte_at data (index + start_length)) 31 =? type)
  end.

(** [find_nal]: start and length of the first NAL unit of the given type. *)
Definition find_nal (data : bytes) (type : Z) : option (nat * nat) :=
  match find_from (nal_of_type_at data type) 0 (length data - 3) with
  | None => None
  | Some index =>
      let start_length := default 0%nat (nal_start data index) in
      let stop :=
        match find_from (is_nal_start data) (index + start_length + 1) (length data - 2) with
        | Some stop => stop
        | None => length data
        end in
      Some (index, (stop - index)%nat)
  end.

(** ** Buffers *)

(** [H264Buffer]: [buf_data = None] is the null pointer, otherwise the first
    [length] bytes of the allocation. *)
Record H264Buffer := MkBuffer { buf_data : option bytes; buf_capacity : nat }.

Record H264ParameterSets := MkSets { sps : H264Buffer; pps : H264Buffer; scratch : H264Buffer }.

Definition buffer_empty : H264Buffer := MkBuffer None 0.

Definition sets_empty : H264ParameterSets := MkSets buffer_empty buffer_empty buffer_empty.

Section Allocation.
Variable alloc : nat -> bool.

(** Grow to [needed] bytes if the capacity does not suffice. *)
Definition buffer_reserve (b : H264Buffer) (needed : nat) : option H264Buffer :=
  if (buf_capacity b <? needed)%nat
  then if alloc needed then Some (MkBuffer (Some (default [] (buf_data b))) needed) else None
  else Some b.

(** [buffer_copy_nal]: [None] for the return value [false]. *)
Definition buffer_copy_nal (b : H264Buffer) (data : bytes) (type : Z) : option H264Buffer :=
  match find_nal data type with
  | None => None
  | Some (start, nal_length) =>
      match buffer_reserve b nal_length with
      | None => None
      | Some b' => Some (MkBuffer (Some (take nal_length (drop start data))) (buf_capacity b'))
      end
  end.

Definition h264_parameter_sets_update (ps : H264ParameterSets) (au : bytes) (nal_mask : Z)
    : H264ParameterSets :=
  let ps1 := if negb (Z.land nal_mask (Z.shiftl 1 7) =? 0)
             then MkSets (default (sps ps) (buffer_copy_nal (sps ps) au 7)) (pps ps) (scratch ps)
             else ps in
  if negb (Z.land nal_mask (Z.shiftl 1 8) =? 0)
  then MkSets (sps ps1) (default (pps ps1) (buffer_copy_nal (pps ps1) au 8)) (scratch ps1)
  else ps1.

Definition SIZE_MAX : Z := 18446744073709551615.

(** [h264_parameter_sets_prepare_idr]: [None] for [false], otherwise the bytes
    [*out] points to and the new cache. *)
Definition h264_parameter_sets_prepare_idr (ps : H264ParameterSets) (au : bytes)
    (nal_mask : Z) : option (bytes * H264ParameterSets) :=
  let has_sps := negb (Z.land nal_mask (Z.shiftl 1 7) =? 0) in
  let has_pps := negb (Z.land nal_mask (Z.shiftl 1 8) =? 0) in
  let size_of (has : bool) (b : H264Buffer) : nat :=
    match has, buf_data b with
    | false, Some d => h264_annexb_size d
    | _, _ => 0%nat
    end in
  let sps_size := size_of has_sps (sps ps) in
  let pps_size := size_of has_pps (pps ps) in
  if (SIZE_MAX - Z.of_nat pps_size <? Z.of_nat sps_size) ||
     (SIZE_MAX - Z.of_nat (length au) <? Z.of_nat (sps_size + pps_size)) then None
  else
    let combined_length := (sps_size + pps_size + length au)%nat in
    if (sps_size =? 0)%nat && (pps_size =? 0)%nat then Some (au, ps)
    else
      match buffer_reserve (scratch ps) combined_length with
      | None => None
      | Some scratch' =>
          let out :=
            (if negb (sps_size =? 0)%nat
             then h264_copy_annexb (default [] (buf_data (sps ps))) else []) ++
            (if negb (pps_size =? 0)%nat
             then h264_copy_annexb (default [] (buf_data (pps ps))) else []) ++ au in
          Some (out, MkSets (sps ps) (pps ps) (MkBuffer (Some out) (buf_capacity scratch')))
      end.

Definition h264_ensure_annexb (buffer : H264Buffer) (data : bytes)
    : option (bytes * H264Buffer) :=
  if (length data =? 0)%nat || h264_has_annexb_start_code data then Some (data, buffer)
  else
    let needed := h264_annexb_size data in
    if (needed <? length data)%nat then None
    else match buffer_reserve buffer needed with
         | None => None
         | Some b =>
             let out := h264_copy_annexb data in
             Some (out, MkBuffer (Some out) (buf_capacity b))
         end.

(** [h264_copy_nal]: the new [*destination], or [None] for [false]. *)
Definition h264_copy_nal (data : bytes) (type : Z) : option bytes :=
  match find_from (nal_of_type_at data type) 0 (length data - 3) with
  | None => None
  | Some index =>
      let start_length := default 0%nat (nal_start data index) in
      let stop :=
        match find_from (is_nal_start data) (index + start_length + 1) (length data - 2) with
        | Some stop => stop
        | None => length data
        end in
      if alloc (stop - index)%nat then Some (take (stop - index) (drop index data)) else None
  end.
End Allocation.

Definition h264_parameter_sets_free (ps : H264ParameterSets) : H264ParameterSets := sets_empty.
Definition h264_buffer_free (b : H264Buffer) : H264Buffer := buffer_empty.

(** ** Lemmas on start codes *)

Lemma nal_start_Some data i sl :
  nal_start data i = Some sl <->
  (i + sl < length data)%nat /\ byte_at data i = 0 /\ byte_at data (i + 1) = 0 /\
  ((sl = 3%nat /\ byte_at data (i + 2) = 1) \/
   (sl = 4%nat /\ byte_at data (i + 2) = 0 /\ byte_at data (i + 3) = 1)).
Proof.
  unfold nal_start. split.
  - intros H. repeat case_match; simplify_eq; bool_hyps; split_and!; auto; lia.
  - intros (Hl & H0 & H1 & [[-> H2]|(-> & H2 & H3)]).
    + rewrite H0, H1, H2. destruct (Nat.leb_spec (length data) (i + 3)); [lia|done].
    + rewrite H0, H1, H2, H3. destruct (Nat.leb_spec (length data) (i + 3)); [lia|].
      destruct (Nat.ltb_spec (i + 4) (length data)); [done|lia].
Qed.

Lemma nal_of_type_at_true data t i :
  nal_of_type_at data t i = true <->
  exists sl, nal_start data i = Some sl /\ Z.land (byte_at data (i + sl)) 31 = t.
Proof.
  unfold nal_of_type_at. split.
  - intros H. case_match eqn:E; [|done]. bool_hyps. eauto.
  - intros (sl & E & <-). rewrite E. rewrite Z.eqb_refl, andb_true_r.
    apply nal_start_Some in E as [Hl _]. apply negb_true_iff, Nat.leb_gt. lia.
Qed.

Lemma is_nal_start_true data i :
  is_nal_start data i = true <-> exists sl, nal_start data i = Some sl.
Proof. unfold is_nal_start. case_match; split; eauto; try done; by intros [? [=]]. Qed.

Lemma nal_mask_at_eq data i : (i + 3 < length data)%nat ->
  nal_mask_at data i =
  match nal_start data i with
  | Some sl => Z.shiftl 1 (Z.land (byte_at data (i + sl)) 31)
  | None => 0
  end.
Proof.
  intros Hi. unfold nal_mask_at, nal_start.
  destruct (Nat.leb_spec (length data) (i + 3)); [lia|].
  destruct (byte_at data i =? 0); simpl; [|by rewrite ?andb_false_r].
  destruct (byte_at data (i + 1) =? 0); simpl; [|by rewrite ?andb_false_r].
  destruct (byte_at data (i + 2) =? 1); simpl.
  - destruct (Nat.ltb_spec (i + 3) (length data)); [done|lia].
  - destruct (Nat.ltb_spec (i + 4) (length data)); simpl; [|done].
    destruct ((byte_at data (i + 2) =? 0) && (byte_at data (i + 3) =? 1)); simpl; [|done].
    destruct (Nat.ltb_spec (i + 4) (length data)); [done|lia].
Qed.

(** The bits of the mask are the NAL types of the start codes. *)
Lemma testbit_nal_type_mask data t : 0 <= t ->
  Z.testbit (h264_nal_type_mask data) t = true <->
  exists i, nal_of_type_at data t i = true.
Proof.
  intros Ht. unfold h264_nal_type_mask. rewrite testbit_fold_lor, Z.bits_0, orb_false_l, existsb_exists.
  setoid_rewrite in_seq. setoid_rewrite nal_of_type_at_true. split.
  - intros (i & Hi & Hb). exists i. rewrite nal_mask_at_eq in Hb by lia.
    case_match eqn:E; [|by rewrite Z.bits_0 in Hb].
    rewrite testbit_shiftl1 in Hb by (try apply land_31_range; lia). bool_hyps. eauto.
  - intros (i & sl & E & Hb). exists i.
    pose proof (proj1 (nal_start_Some _ _ _) E) as (Hl & _ & _ & Hsl).
    assert (i + 3 < length data)%nat by (destruct Hsl as [[-> _]|[-> _]]; lia).
    split; [lia|]. rewrite nal_mask_at_eq, E by lia.
    rewrite testbit_shiftl1 by (try apply land_31_range; lia). by apply Z.eqb_eq.
Qed.

Lemma land_bit_testbit m t : 0 <= t -> negb (Z.land m (Z.shiftl 1 t) =? 0) = Z.testbit m t.
Proof.
  intros Ht. destruct (Z.testbit m t) eqn:E.
  - apply negb_true_iff, Z.eqb_neq. intros H0.
    apply (f_equal (fun z => Z.testbit z t)) in H0.
    rewrite Z.land_spec, testbit_shiftl1, Z.eqb_refl, E, Z.bits_0 in H0 by lia. done.
  - apply negb_false_iff, Z.eqb_eq. apply Z.bits_inj'. intros n Hn.
    rewrite Z.land_spec, testbit_shiftl1, Z.bits_0 by lia.
    destruct (Z.eqb_spec t n) as [->|]; [by rewrite E|apply andb_false_r].
Qed.

(** A NAL unit stays visible when its buffer is embedded in a larger one. *)
Lemma nal_start_embed pre data post i sl :
  nal_start data i = Some sl -> nal_start (pre ++ data ++ post) (length pre + i) = Some sl.
Proof.
  intros (Hl & H)%nal_start_Some. apply nal_start_Some.
  assert (Hb : forall k, (k <= sl)%nat ->
    byte_at (pre ++ data ++ post) (length pre + i + k) = byte_at data (i + k)).
  { intros k Hk. rewrite byte_at_app_r by lia.
    replace (length pre + i + k - length pre)%nat with (i + k)%nat by lia.
    apply byte_at_app_l. lia. }
  rewrite !length_app. split; [lia|].
  pose proof (Hb 0%nat ltac:(lia)) as Hb0. rewrite !Nat.add_0_r in Hb0.
  destruct H as (H0 & H1 & H2). rewrite Hb0. split; [done|].
  destruct H2 as [[-> H2]|(-> & H2 & H3)]; rewrite !Hb by lia; auto 10.
Qed.

Lemma nal_of_type_embed pre data post t i :
  nal_of_type_at data t i = true ->
  nal_of_type_at (pre ++ data ++ post) t (length pre + i) = true.
Proof.
  rewrite !nal_of_type_at_true. intros (sl & E & Ht). exists sl.
  split; [by apply nal_start_embed|]. apply nal_start_Some in E as [Hl _].
  rewrite byte_at_app_r by lia. rewrite byte_at_app_l by lia.
  by replace (length pre + i + sl - length pre)%nat with (i + sl)%nat by lia.
Qed.

Lemma testbit_mask_embed pre data post t : 0 <= t ->
  Z.testbit (h264_nal_type_mask data) t = true ->
  Z.testbit (h264_nal_type_mask (pre ++ data ++ post)) t = true.
Proof.
  intros Ht. rewrite !testbit_nal_type_mask by done. intros (i & Hi).
  eexists. by apply nal_of_type_embed.
Qed.

(** ** [find_nal] *)

Lemma find_nal_spec data t start n :
  find_nal data t = Some (start, n) ->
  exists sl, nal_start data start = Some sl /\ Z.land (byte_at data (start + sl)) 31 = t /\
    (sl < n)%nat /\ (start + n <= length data)%nat /\
    forall i, (start + sl < i < start + n)%nat -> (i + 2 < length data)%nat -> nal_start data i = None.
Proof.
  unfold find_nal. intros H. case_match eqn:Hf; [|done].
  apply find_from_Some in Hf as (Hr & Hp & _).
  apply nal_of_type_at_true in Hp as (sl & Hs & Ht).
  pose proof (proj1 (nal_start_Some _ _ _) Hs) as (Hl & _).
  rewrite Hs in H. simpl in H. exists sl.
  case_match eqn:He; simplify_eq.
  - apply find_from_Some in He as (Hr' & _ & Hno).
    split_and!; [done..|lia|lia|]. intros i Hi _. specialize (Hno i ltac:(lia)).
    unfold is_nal_start in Hno. by destruct (nal_start data i).
  - split_and!; [done..|lia|lia|]. intros i Hi Hi2.
    apply find_from_None with (j := i) in He; [|lia].
    unfold is_nal_start in He. by destruct (nal_start data i).
Qed.

Lemma find_nal_is_Some data t :
  is_Some (find_nal data t) <-> exists i, nal_of_type_at data t i = true.
Proof.
  unfold find_nal. split.
  - intros [x H]. case_match eqn:Hf; [|done]. apply find_from_Some in Hf as (_ & Hp & _). eauto.
  - intros (i & Hi). pose proof Hi as (sl & Hs & _)%nal_of_type_at_true.
    apply nal_start_Some in Hs as (Hl & _ & _ & Hsl).
    destruct (find_from_is_Some (nal_of_type_at data t) 0 (length data - 3) i) as [j ->]; eauto.
    destruct Hsl as [[-> _]|[-> _]]; lia.
Qed.

Lemma sub_embed (data : bytes) start n :
  (start + n <= length data)%nat ->
  data = take start data ++ take n (drop start data) ++ drop (start + n) data.
Proof.
  intros H. rewrite <- (take_drop start data) at 1. f_equal.
  rewrite <- (take_drop n (drop start data)) at 1. by rewrite drop_drop.
Qed.

Lemma byte_at_sub data start n i :
  (i < n)%nat -> byte_at (take n (drop start data)) i = byte_at data (start + i).
Proof. intros. by rewrite byte_at_take, byte_at_drop. Qed.

Lemma nal_start_sub data start n i sl :
  (start + n <= length data)%nat -> nal_start (take n (drop start data)) i = Some sl ->
  nal_start data (start + i) = Some sl.
Proof.
  intros Hl H. rewrite (sub_embed data start n) by done.
  replace (start + i)%nat with (length (take start data) + i)%nat by (rewrite length_take; lia).
  by apply nal_start_embed.
Qed.

(** Between a NAL unit's start code and its end, the only start codes are its
    own one (and the three-byte tail of a four-byte one). *)
Lemma find_nal_inner data t start n i sl' :
  0 < t -> find_nal data t = Some (start, n) ->
  nal_start data (start + i) = Some sl' -> (i + sl' < n)%nat ->
  Z.land (byte_at data (start + i + sl')) 31 = t.
Proof.
  intros Ht (sl & Hs & Hty & Hsl & Hn & Hno)%find_nal_spec Hi Hin.
  destruct (decide (sl < i)%nat) as [Hgt|Hle].
  { pose proof (proj1 (nal_start_Some _ _ _) Hi) as (Hb & _ & _ & Hsl').
    rewrite Hno in Hi; [done|lia|]. destruct Hsl' as [[-> _]|[-> _]]; lia. }
  destruct (decide (i = 0)%nat) as [->|Hi0].
  { rewrite Nat.add_0_r in *. rewrite Hs in Hi. by simplify_eq. }
  assert (Hh : byte_at data (start + sl) <> 0) by (intros E; rewrite E, Z.land_0_l in Hty; lia).
  apply nal_start_Some in Hs as (_ & _ & H1 & Hs). apply nal_start_Some in Hi as (_ & I0 & I1 & Hi).
  destruct Hs as [[-> H2]|(-> & H2 & H3)].
  - assert (i = 1 \/ i = 2 \/ i = 3)%nat as [-> | [-> | ->]] by lia.
    all: rewrite <- ?Nat.add_assoc in *; simpl in *; congruence.
  - assert (i = 1 \/ i = 2 \/ i = 3 \/ i = 4)%nat as [-> | [-> | [-> | ->]]] by lia.
    all: rewrite <- ?Nat.add_assoc in *; simpl in *; try congruence.
    destruct Hi as [[-> _]|(_ & Hi & _)]; [done|congruence].
Qed.

Lemma find_nal_single data t start n :
  0 < t < 32 -> find_nal data t = Some (start, n) ->
  h264_nal_type_mask (take n (drop start data)) = Z.shiftl 1 t.
Proof.
  intros Ht Hf. pose proof Hf as (sl & Hs & Hty & Hsl & Hn & _)%find_nal_spec.
  apply Z.bits_inj'. intros k Hk. rewrite testbit_shiftl1 by lia.
  apply eq_bool_prop_intro. rewrite !Is_true_true, testbit_nal_type_mask, Z.eqb_eq by lia.
  assert (Hlen : length (take n (drop start data)) = n) by (rewrite length_take, length_drop; lia).
  split.
  - intros (i & (sl' & Hi & <-)%nal_of_type_at_true).
    pose proof (proj1 (nal_start_Some _ _ _) Hi) as [Hl' _]. rewrite Hlen in Hl'.
    apply nal_start_sub in Hi; [|done]. rewrite byte_at_sub by done.
    rewrite Nat.add_assoc. symmetry. by eapply find_nal_inner; [lia|..].
  - intros <-. exists 0%nat. apply nal_of_type_at_true. exists sl. rewrite byte_at_sub by lia.
    split; [|done]. apply nal_start_Some in Hs as (Hl & H0 & H1 & H2). apply nal_start_Some.
    rewrite Hlen. rewrite !byte_at_sub by lia. rewrite Nat.add_0_r. simpl.
    split_and!; [lia|done..|]. destruct H2 as [[-> H2]|(-> & H2 & H3)]; auto.
Qed.

(** A NAL unit that was cut out begins with a start code. *)
Lemma find_nal_annexb data t start n :
  find_nal data t = Some (start, n) ->
  h264_has_annexb_start_code (take n (drop start data)) = true /\
  (0 < length (take n (drop start data)))%nat.
Proof.
  intros (sl & Hs & _ & Hsl & Hn & _)%find_nal_spec.
  apply nal_start_Some in Hs as (Hl & H0 & H1 & H2).
  assert (Hlen : length (take n (drop start data)) = n) by (rewrite length_take, length_drop; lia).
  split; [|lia]. unfold h264_has_annexb_start_code. rewrite Hlen.
  rewrite !byte_at_sub by lia. rewrite Nat.add_0_r, H0, H1.
  destruct (Nat.leb_spec 3 n); [|lia].
  destruct H2 as [[-> H2]|(-> & H2 & H3)]; rewrite H2; [done|].
  destruct (Nat.leb_spec 4 n); [|lia]. by rewrite H3.
Qed.

(** ** The cache *)

(** A cached parameter set is either absent or exactly one NAL unit of its type,
    start code included, within its capacity. *)
Definition cached_nal (t : Z) (b : H264Buffer) : Prop :=
  match buf_data b with
  | None => True
  | Some d => h264_nal_type_mask d = Z.shiftl 1 t /\ h264_has_annexb_start_code d = true /\
              (0 < length d <= buf_capacity b)%nat
  end.

Definition sets_ok (ps : H264ParameterSets) : Prop := cached_nal 7 (sps ps) /\ cached_nal 8 (pps ps).

Lemma sets_empty_ok : sets_ok sets_empty.
Proof. done. Qed.
#[export] Hint Resolve sets_empty_ok : kvm.

Lemma buffer_reserve_capacity alloc b n b' :
  buffer_reserve alloc b n = Some b' -> (n <= buf_capacity b')%nat.
Proof. unfold buffer_reserve. intros H. repeat case_match; simplify_eq; bool_hyps; simpl; lia. Qed.

Lemma buffer_copy_nal_ok alloc b data t b' :
  0 < t < 32 -> buffer_copy_nal alloc b data t = Some b' -> cached_nal t b' /\
  exists start n, find_nal data t = Some (start, n) /\ buf_data b' = Some (take n (drop start data)).
Proof.
  unfold buffer_copy_nal. intros Ht H. repeat case_match; simplify_eq.
  match goal with H : buffer_reserve _ _ _ = _ |- _ => apply buffer_reserve_capacity in H end.
  match goal with H : find_nal _ _ = _ |- _ => rename H into Hf end.
  pose proof (find_nal_annexb _ _ _ _ Hf) as [Ha Hp].
  split; [|eauto]. unfold cached_nal; simpl. split_and!; [by apply find_nal_single|done..|].
  rewrite length_take. lia.
Qed.

Lemma parameter_sets_update_ok alloc ps au mask :
  sets_ok ps -> sets_ok (h264_parameter_sets_update alloc ps au mask).
Proof.
  intros [Hs Hp]. unfold h264_parameter_sets_update.
  assert (Hd : forall t b, 0 < t < 32 -> cached_nal t b ->
    cached_nal t (default b (buffer_copy_nal alloc b au t))).
  { intros t b Ht Hb. destruct (buffer_copy_nal alloc b au t) eqn:E; simpl; [|done].
    by apply buffer_copy_nal_ok in E as [? _]. }
  repeat case_match; split; simpl; auto; apply Hd; auto; lia.
Qed.

Lemma copy_annexb_cached t b d :
  cached_nal t b -> buf_data b = Some d -> h264_copy_annexb d = d /\ h264_annexb_size d = length d.
Proof.
  unfold cached_nal. intros H E. rewrite E in H. destruct H as (_ & Ha & Hl).
  unfold h264_copy_annexb, h264_annexb_size. rewrite Ha.
  destruct (Nat.eqb_spec (length d) 0); [lia|]. split; [done|lia].
Qed.

(** What [h264_parameter_sets_prepare_idr] puts in front of the access unit. *)
Definition missing_set (mask t : Z) (b : H264Buffer) : bytes :=
  if Z.testbit mask t then [] else default [] (buf_data b).

Lemma missing_set_length mask t b : cached_nal t b ->
  match Z.testbit mask t, buf_data b with false, Some d => h264_annexb_size d | _, _ => 0%nat end =
  length (missing_set mask t b).
Proof.
  intros Hc. unfold missing_set. destruct (Z.testbit mask t); [done|].
  destruct (buf_data b) eqn:E; [|done]. by apply (copy_annexb_cached t b).
Qed.

Lemma missing_set_copy mask t b : cached_nal t b ->
  (if negb (length (missing_set mask t b) =? 0)%nat
   then h264_copy_annexb (default [] (buf_data b)) else []) = missing_set mask t b.
Proof.
  intros Hc. destruct (Nat.eqb_spec (length (missing_set mask t b)) 0) as [E|E]; simpl.
  - by rewrite (nil_length_inv _ E).
  - unfold missing_set in *. destruct (Z.testbit mask t); [done|].
    destruct (buf_data b) eqn:Eb; [|done]. by apply (copy_annexb_cached t b).
Qed.

Lemma prepare_idr_out alloc ps au mask :
  sets_ok ps ->
  match h264_parameter_sets_prepare_idr alloc ps au mask with
  | Some (out, ps') =>
      out = missing_set mask 7 (sps ps) ++ missing_set mask 8 (pps ps) ++ au /\
      sps ps' = sps ps /\ pps ps' = pps ps
  | None =>
      (exists n, alloc n = false) \/
      SIZE_MAX < Z.of_nat (length (missing_set mask 7 (sps ps)) +
                           length (missing_set mask 8 (pps ps)) + length au)
  end.
Proof.
  intros [Hs Hp]. unfold h264_parameter_sets_prepare_idr.
  rewrite !land_bit_testbit by lia. cbv zeta.
  rewrite (missing_set_length mask 7) by done. rewrite (missing_set_length mask 8) by done.
  rewrite (missing_set_copy mask 7) by done. rewrite (missing_set_copy mask 8) by done.
  destruct (_ || _) eqn:Hov; [right; bool_hyps; destruct Hov; bool_hyps; lia|].
  destruct (_ && _) eqn:H0.
  - bool_hyps. by rewrite !(nil_length_inv (missing_set mask _ _)) by done.
  - unfold buffer_reserve. destruct (_ <? _)%nat; [|done].
    destruct (alloc _) eqn:Ea; [done|left; eauto].
Qed.

Lemma missing_set_mask mask t b pre post :
  0 <= t -> cached_nal t b -> buf_data b <> None -> Z.testbit mask t = false ->
  Z.testbit (h264_nal_type_mask (pre ++ missing_set mask t b ++ post)) t = true.
Proof.
  intros Ht Hc Hb Hm. apply testbit_mask_embed; [done|]. unfold missing_set. rewrite Hm.
  unfold cached_nal in Hc. destruct (buf_data b) as [d|]; [|done]. simpl.
  destruct Hc as [-> _]. by rewrite testbit_shiftl1, Z.eqb_refl.
Qed.

(** ** Properties *)

(** The mask scanner and the NAL finder agree: [h264_contains_nal_type]
    answers true exactly when [find_nal] finds a unit of that type, and the unit
    found lies inside the buffer, starts with a start code and reaches up to the
    next start code or the end of the buffer. *)
Theorem contains_nal_type_find (data : bytes) (t : Z) :
  0 <= t < 32 ->
  (h264_contains_nal_type data t = true <-> is_Some (find_nal data t)) /\
  forall start n, find_nal data t = Some (start, n) ->
    (start + n <= length data)%nat /\
    h264_has_annexb_start_code (take n (drop start data)) = true /\
    (0 < t -> h264_nal_type_mask (take n (drop start data)) = Z.shiftl 1 t) /\
    (start + n = length data \/ is_nal_start data (start + n) = true)%nat.
Proof.
  intros Ht. split.
  - unfold h264_contains_nal_type. rewrite land_bit_testbit by lia.
    destruct (Z.ltb_spec t 32); [|lia]. rewrite andb_true_l, find_nal_is_Some.
    apply testbit_nal_type_mask; lia.
  - intros start n Hf. pose proof Hf as (sl & _ & _ & _ & Hn & _)%find_nal_spec.
    pose proof (find_nal_annexb _ _ _ _ Hf) as [Ha _].
    split_and!; [done..|intros; apply find_nal_single; auto; lia|].
    unfold find_nal in Hf. case_match eqn:Hi; [|done]. simplify_eq.
    apply find_from_Some in Hi as (Hr & (sl' & Hs & _)%nal_of_type_at_true & _).
    apply nal_start_Some in Hs as [? _].
    destruct (find_from (is_nal_start data) _ _) as [stop|] eqn:He; [right|left; lia].
    apply find_from_Some in He as (? & He & _).
    by replace (start + (stop - start))%nat with stop by lia.
Qed.

Lemma contains_nal_type_find_witness :
  let data := [0; 0; 0; 1; 103; 66; 0; 0; 1; 104; 1; 0; 0; 1; 101; 9] in
  find_nal data 8 = Some (6%nat, 5%nat) /\ h264_contains_nal_type data 8 = true.
Proof.
  split; [reflexivity|]. apply (contains_nal_type_find _ 8); [lia|]. by exists (6%nat, 5%nat).
Defined.

(** The parameter-set cache holds single NAL units: updating it from any
    access unit keeps every cached set a single SPS or PPS unit with its start
    code, so a set taken from an access unit that also carries an IDR never
    drags the IDR along. *)
Theorem parameter_sets_update_single alloc (ps : H264ParameterSets) (au : bytes) :
  sets_ok ps ->
  let ps' := h264_parameter_sets_update alloc ps au (h264_nal_type_mask au) in
  sets_ok ps' /\
  ((forall n, alloc n = true) -> h264_contains_nal_type au 7 = true ->
     exists start n, find_nal au 7 = Some (start, n) /\
       buf_data (sps ps') = Some (take n (drop start au))) /\
  (h264_contains_nal_type au 7 = false -> sps ps' = sps ps) /\
  (h264_contains_nal_type au 8 = false -> pps ps' = pps ps).
Proof.
  intros Hok ps'. split; [by apply parameter_sets_update_ok|].
  unfold ps', h264_parameter_sets_update, h264_contains_nal_type. rewrite !andb_true_l.
  split_and!.
  - intros Ha Hc. rewrite Hc. cbn [sps pps scratch].
    rewrite land_bit_testbit, testbit_nal_type_mask in Hc by lia.
    apply find_nal_is_Some in Hc as [[start n] Hf]. exists start, n. split; [done|].
    assert (Hb : buffer_copy_nal alloc (sps ps) au 7 <> None).
    { unfold buffer_copy_nal, buffer_reserve. rewrite Hf, Ha. by destruct (_ <? _)%nat. }
    destruct (buffer_copy_nal alloc (sps ps) au 7) eqn:E; [|done].
    apply buffer_copy_nal_ok in E as (_ & s' & n' & Hf' & E); [|lia]. rewrite Hf in Hf'.
    simplify_eq. by case_match.
  - intros ->. by case_match.
  - intros ->. by case_match.
Qed.

Lemma parameter_sets_update_single_witness :
  let au := [0; 0; 0; 1; 103; 66; 0; 0; 1; 104; 1; 0; 0; 1; 101; 9] in
  sets_ok (h264_parameter_sets_update (fun _ => true) sets_empty au (h264_nal_type_mask au)).
Proof. intros au. apply (parameter_sets_update_single (fun _ => true) sets_empty au). done. Defined.

(** C24: A recovery IDR is self-contained: once SPS and PPS are cached, the frame
    prepared from an IDR access unit is the missing sets followed by the unchanged
    access unit, so it contains SPS, PPS and every NAL type of the original; the
    preparation can fail only when an allocation fails or the size overflows. *)
Theorem prepare_idr_self_contained alloc (ps : H264ParameterSets) (au : bytes) :
  sets_ok ps -> buf_data (sps ps) <> None -> buf_data (pps ps) <> None ->
  let mask := h264_nal_type_mask au in
  match h264_parameter_sets_prepare_idr alloc ps au mask with
  | Some (out, ps') =>
      out = missing_set mask 7 (sps ps) ++ missing_set mask 8 (pps ps) ++ au /\
      (forall t, 0 <= t -> Z.testbit mask t = true \/ t = 7 \/ t = 8 ->
         Z.testbit (h264_nal_type_mask out) t = true) /\
      sets_ok ps'
  | None => (exists n, alloc n = false) \/
      SIZE_MAX < Z.of_nat (length (missing_set mask 7 (sps ps)) +
                           length (missing_set mask 8 (pps ps)) + length au)
  end.
Proof.
  intros [Hs Hp] Hds Hdp mask.
  pose proof (prepare_idr_out alloc ps au mask (conj Hs Hp)) as Hout.
  case_match; [|done]. case_match. destruct Hout as (-> & Es & Ep).
  split_and!; [done| |split; by rewrite ?Es, ?Ep].
  assert (Hau : forall t, 0 <= t -> Z.testbit mask t = true -> Z.testbit (h264_nal_type_mask
    (missing_set mask 7 (sps ps) ++ missing_set mask 8 (pps ps) ++ au)) t = true).
  { intros t Ht Hb. rewrite app_assoc, <- (app_nil_r au). by apply testbit_mask_embed. }
  intros t Ht [Hb|[-> | ->]]; [by apply Hau|..].
  - destruct (Z.testbit mask 7) eqn:E7; [by apply Hau|].
    apply (missing_set_mask _ _ _ []); auto; lia.
  - destruct (Z.testbit mask 8) eqn:E8; [by apply Hau|]. apply missing_set_mask; auto; lia.
Qed.

Lemma prepare_idr_self_contained_witness :
  let ps := MkSets (MkBuffer (Some [0; 0; 0; 1; 103; 66]) 6) (MkBuffer (Some [0; 0; 1; 104; 1]) 5)
                   buffer_empty in
  let au := [0; 0; 0; 1; 101; 9] in
  match h264_parameter_sets_prepare_idr (fun _ => true) ps au (h264_nal_type_mask au) with
  | Some (out, ps') =>
      out = missing_set (h264_nal_type_mask au) 7 (sps ps) ++
            missing_set (h264_nal_type_mask au) 8 (pps ps) ++ au /\
      (forall t, 0 <= t -> Z.testbit (h264_nal_type_mask au) t = true \/ t = 7 \/ t = 8 ->
         Z.testbit (h264_nal_type_mask out) t = true) /\ sets_ok ps'
  | None => (exists n : nat, true = false) \/
      SIZE_MAX < Z.of_nat (length (missing_set (h264_nal_type_mask au) 7 (sps ps)) +
        length (missing_set (h264_nal_type_mask au) 8 (pps ps)) + length au)
  end.
Proof.
  intros ps au. apply (prepare_idr_self_contained (fun _ => true) ps au); [|done..].
  repeat split; simpl; lia.
Defined.

(** The copying scanner and the caching scanner cut out the same bytes. *)
Lemma copy_nal_find alloc data t :
  h264_copy_nal alloc data t =
  match find_nal data t with
  | Some (start, n) => if alloc n then Some (take n (drop start data)) else None
  | None => None
  end.
Proof. unfold h264_copy_nal, find_nal. by case_match. Qed.

Lemma ensure_annexb_start alloc b data out b' :
  data <> [] -> h264_ensure_annexb alloc b data = Some (out, b') ->
  h264_has_annexb_start_code out = true /\ (out = data \/ out = [0; 0; 0; 1] ++ data).
Proof.
  intros Hd. unfold h264_ensure_annexb, h264_copy_annexb.
  destruct (Nat.eqb_spec (length data) 0) as [E|_]; [by destruct data|].
  destruct (h264_has_annexb_start_code data) eqn:Ea; simpl; [intros; simplify_eq; auto|].
  intros H. repeat case_match; simplify_eq; auto.
Qed.
