(* ===== verification/RtpH264.v ===== *)
(** * RTP/H.264 packetizer and reassembler ([src/src/rtp_h264.h], [src/src/rtp_h264.c])

    The callbacks of the C code act on a context of the caller's; here they are
    functions that thread a context value.  [alloc] decides [realloc] calls. *)

From S2P Require Import Prelude.

Definition RTP_H264_DEFAULT_MTU : nat := 1200.
Definition RTP_H264_MAX_NAL : Z := 2 * 1024 * 1024.
Definition RTP_HEADER_SIZE : nat := 12.
Definition RTP_PAYLOAD_TYPE : Z := 96.

(** ** Sending *)

Record RtpH264Packetizer := MkPacketizer { sequence : Z; ssrc : Z; mtu : nat }.

Definition rtp_h264_packetizer_init (mtu : nat) (ssrc : Z) : RtpH264Packetizer :=
  let m := if (mtu <? RTP_HEADER_SIZE + 3)%nat then RTP_H264_DEFAULT_MTU else mtu in
  MkPacketizer 1 ssrc (if (RTP_H264_DEFAULT_MTU <? m)%nat then RTP_H264_DEFAULT_MTU else m).

Section Packetizer.
Context {S : Type} (callback : S -> bytes -> bool * S).

(** The datagram [emit_packet] builds. *)
Definition rtp_packet (pk : RtpH264Packetizer) (payload : bytes) (marker : bool) (timestamp : Z)
    : bytes :=
  [128; u8 (Z.lor RTP_PAYLOAD_TYPE (if marker then 128 else 0))] ++
  write_u16 (sequence pk) ++ write_u32 timestamp ++ write_u32 (ssrc pk) ++ payload.

Definition emit_packet (pk : RtpH264Packetizer) (payload : bytes) (marker : bool)
    (timestamp : Z) (context : S) : bool * RtpH264Packetizer * S :=
  if (RTP_H264_DEFAULT_MTU <? length payload + RTP_HEADER_SIZE)%nat
  then (false, pk, context)
  else
    let packet := rtp_packet pk payload marker timestamp in
    let pk' := MkPacketizer (u16 (sequence pk + 1)) (ssrc pk) (mtu pk) in
    let '(result, context') := callback context packet in
    (result, pk', context').

(** The FU-A payload of the fragment [nal[offset, offset + fragment)]. *)
Definition fu_payload (nal : bytes) (offset fragment : nat) : bytes :=
  [u8 (Z.lor (Z.land (byte_at nal 0) 224) 28);
   u8 (Z.lor (Z.lor (Z.land (byte_at nal 0) 31) (if (offset =? 1)%nat then 128 else 0))
             (if (offset + fragment =? length nal)%nat then 64 else 0))] ++
  take fragment (drop offset nal).

(** The fragmentation loop; [fuel] bounds the iterations and [length nal]
    always suffices, because every fragment holds at least one byte. *)
Fixpoint fragment_loop (fuel : nat) (pk : RtpH264Packetizer) (nal : bytes) (offset : nat)
    (fragment_limit : nat) (timestamp : Z) (marker : bool) (context : S)
    : bool * RtpH264Packetizer * S :=
  if (offset <? length nal)%nat then
    match fuel with
    | O => (false, pk, context)
    | Datatypes.S fuel =>
        let fragment := if (length nal - offset <? fragment_limit)%nat
                        then (length nal - offset)%nat else fragment_limit in
        let '(ok, pk', context') :=
          emit_packet pk (fu_payload nal offset fragment)
            (marker && (offset + fragment =? length nal)%nat) timestamp context in
        if ok then fragment_loop fuel pk' nal (offset + fragment) fragment_limit timestamp
                     marker context'
        else (false, pk', context')
    end
  else (true, pk, context).

Definition rtp_h264_packetize_marker (pk : RtpH264Packetizer) (nal : bytes) (timestamp : Z)
    (marker : bool) (context : S) : bool * RtpH264Packetizer * S :=
  if (length nal =? 0)%nat || (RTP_H264_MAX_NAL <? Z.of_nat (length nal))
  then (false, pk, context)
  else
    let payload_limit := (mtu pk - RTP_HEADER_SIZE)%nat in
    if (length nal <=? payload_limit)%nat
    then emit_packet pk nal marker timestamp context
    else
      let fragment_limit := (payload_limit - 2)%nat in
      if (fragment_limit =? 0)%nat then (false, pk, context)
      else fragment_loop (length nal) pk nal 1 fragment_limit timestamp marker context.

Definition rtp_h264_packetize (pk : RtpH264Packetizer) (nal : bytes) (timestamp : Z)
    (context : S) : bool * RtpH264Packetizer * S :=
  rtp_h264_packetize_marker pk nal timestamp true context.

Definition start_code_length (data : bytes) (offset : nat) : nat :=
  if (offset + 3 <=? length data)%nat && (byte_at data offset =? 0) &&
     (byte_at data (offset + 1) =? 0) && (byte_at data (offset + 2) =? 1) then 3%nat
  else if (offset + 4 <=? length data)%nat && (byte_at data offset =? 0) &&
          (byte_at data (offset + 1) =? 0) && (byte_at data (offset + 2) =? 0) &&
          (byte_at data (offset + 3) =? 1) then 4%nat
  else 0%nat.

Definition at_start_code (data : bytes) (offset : nat) : bool :=
  negb (start_code_length data offset =? 0)%nat.

(** The main loop of [rtp_h264_packetize_access_unit]. *)
Fixpoint access_unit_loop (fuel : nat) (pk : RtpH264Packetizer) (data : bytes) (offset : nat)
    (timestamp : Z) (sent : bool) (context : S) : bool * RtpH264Packetizer * S :=
  if (offset <? length data)%nat then
    match fuel with
    | O => (false, pk, context)
    | Datatypes.S fuel =>
        let code := start_code_length data offset in
        if (code =? 0)%nat then (false, pk, context)
        else
          let start := (offset + code)%nat in
          let next := default (Nat.max start (length data))
                        (find_from (at_start_code data) start (length data)) in
          if (start <? next)%nat then
            let '(ok, pk', context') :=
              rtp_h264_packetize_marker pk (take (next - start) (drop start data)) timestamp
                (next =? length data)%nat context in
            if ok then access_unit_loop fuel pk' data next timestamp true context'
            else (false, pk', context')
          else access_unit_loop fuel pk data next timestamp sent context
    end
  else (sent, pk, context).

Definition rtp_h264_packetize_access_unit (pk : RtpH264Packetizer) (data : bytes)
    (timestamp : Z) (context : S) : bool * RtpH264Packetizer * S :=
  if (length data =? 0)%nat then (false, pk, context)
  else match find_from (at_start_code data) 0 (length data) with
       | None => rtp_h264_packetize pk data timestamp context
       | Some first => access_unit_loop (length data) pk data first timestamp false context
       end.
End Packetizer.

(** ** Receiving *)

(** [RtpH264Reassembler]: [buffer] is the first [length] bytes of the allocation
    of [capacity] bytes. *)
Record RtpH264Reassembler := MkReassembler {
  expected_sequence : Z;
  have_sequence : bool;
  assembling : bool;
  buffer : bytes;
  capacity : Z;
  nal_header : Z;
  timestamp : Z }.

Definition rtp_h264_reassembler_init : RtpH264Reassembler :=
  MkReassembler 0 false false [] 0 0 0.

Definition rtp_h264_reassembler_free (r : RtpH264Reassembler) : RtpH264Reassembler :=
  MkReassembler 0 false false [] 0 0 0.

(** [while (capacity < needed) capacity *= 2] *)
Fixpoint grow_capacity (fuel : nat) (capacity needed : Z) : Z :=
  match fuel with
  | O => capacity
  | S fuel => if capacity <? needed then grow_capacity fuel (capacity * 2) needed else capacity
  end.

Section Reassembler.
Variable alloc : Z -> bool.
Context {C : Type}.
Variable nal_callback : C -> bytes -> Z -> bool -> bool * C.
Variable loss_callback : C -> C.

Definition with_buffer (r : RtpH264Reassembler) (b : bytes) (cap : Z) : RtpH264Reassembler :=
  MkReassembler (expected_sequence r) (have_sequence r) (assembling r) b cap (nal_header r)
    (timestamp r).

(** Drop a partly assembled unit: [assembling = false; length = 0]. *)
Definition discard (r : RtpH264Reassembler) : RtpH264Reassembler :=
  MkReassembler (expected_sequence r) (have_sequence r) false [] (capacity r) (nal_header r)
    (timestamp r).

(** [append]; 22 doublings take any non-zero capacity past [RTP_H264_MAX_NAL]. *)
Definition append (r : RtpH264Reassembler) (data : bytes) : bool * RtpH264Reassembler :=
  if RTP_H264_MAX_NAL - Z.of_nat (length (buffer r)) <? Z.of_nat (length data)
  then (false, r)
  else
    let needed := Z.of_nat (length (buffer r) + length data) in
    if capacity r <? needed then
      let cap := grow_capacity 22 (if capacity r =? 0 then 2048 else capacity r) needed in
      if alloc cap then (true, with_buffer r (buffer r ++ data) cap) else (false, r)
    else (true, with_buffer r (buffer r ++ data) (capacity r)).

Definition deliver (r : RtpH264Reassembler) (marker : bool) (context : C)
    : bool * RtpH264Reassembler * C :=
  let '(result, context') := nal_callback context (buffer r) (timestamp r) marker in
  (result, discard r, context').

(** The STAP-A loop; every iteration advances by at least three bytes. *)
Fixpoint stap_loop (fuel : nat) (payload : bytes) (offset : nat) (delivered : bool)
    (ts : Z) (marker : bool) (context : C) : bool * C :=
  if (offset + 2 <=? length payload)%nat then
    match fuel with
    | O => (false, context)
    | S fuel =>
        let nal_length := Z.to_nat (read_u16 (drop offset payload)) in
        let offset := (offset + 2)%nat in
        if (nal_length =? 0)%nat || (length payload - offset <? nal_length)%nat
        then (false, context)
        else
          let nal_marker := marker && (offset + nal_length =? length payload)%nat in
          let '(ok, context') :=
            nal_callback context (take nal_length (drop offset payload)) ts nal_marker in
          if ok then stap_loop fuel payload (offset + nal_length) true ts marker context'
          else (false, context')
    end
  else (delivered && (offset =? length payload)%nat, context).

(** The fragment part of [rtp_h264_reassembler_push]. *)
Definition push_fragment (r : RtpH264Reassembler) (payload : bytes) (ts : Z) (marker : bool)
    (context : C) : bool * RtpH264Reassembler * C :=
  let start := negb (Z.land (byte_at payload 1) 128 =? 0) in
  let stop := negb (Z.land (byte_at payload 1) 64 =? 0) in
  let '(ok, r1) :=
    if start then
      let header := u8 (Z.lor (Z.land (byte_at payload 0) 224) (Z.land (byte_at payload 1) 31)) in
      append (MkReassembler (expected_sequence r) (have_sequence r) true [] (capacity r) header ts)
        [header]
    else (true, r) in
  if negb ok then (false, r1, context)
  else if negb (assembling r1) || negb (ts =? timestamp r1) then (false, r1, context)
  else
    let '(ok, r2) := append r1 (drop 2 payload) in
    if negb ok then (false, r2, context)
    else if stop then deliver r2 marker context else (true, r2, context).

(** The part of [rtp_h264_reassembler_push] behind the sequence check. *)
Definition push_payload (r : RtpH264Reassembler) (payload : bytes) (ts : Z) (marker : bool)
    (context : C) : bool * RtpH264Reassembler * C :=
  let type := Z.land (byte_at payload 0) 31 in
  if (1 <=? type) && (type <=? 23) then
    let '(ok, context') := nal_callback context payload ts marker in (ok, r, context')
  else if type =? 24 then
    let '(ok, context') := stap_loop (length payload) payload 1 false ts marker context in
    (ok, r, context')
  else if negb (type =? 28) || (length payload <? 3)%nat then (true, r, context)
  else push_fragment r payload ts marker context.

Definition rtp_h264_reassembler_push (r : RtpH264Reassembler) (packet : bytes) (context : C)
    : bool * RtpH264Reassembler * C :=
  if (length packet <=? RTP_HEADER_SIZE)%nat || negb (Z.shiftr (byte_at packet 0) 6 =? 2)
  then (false, r, context)
  else
    let seq := read_u16 (drop 2 packet) in
    let lost := have_sequence r && negb (seq =? expected_sequence r) in
    let r1 := if lost then discard r else r in
    let context1 := if lost then loss_callback context else context in
    let r2 := MkReassembler (u16 (seq + 1)) true (assembling r1) (buffer r1) (capacity r1)
                (nal_header r1) (timestamp r1) in
    push_payload r2 (drop RTP_HEADER_SIZE packet) (read_u32 (drop 4 packet))
      (negb (Z.land (byte_at packet 1) 128 =? 0)) context1.
End Reassembler.

(** ** Lemmas: headers *)

Definition packetizer_ok (pk : RtpH264Packetizer) : Prop :=
  is_u16 (sequence pk) /\ is_u32 (ssrc pk) /\ (15 <= mtu pk <= RTP_H264_DEFAULT_MTU)%nat.

Lemma packetizer_init_ok m s : is_u32 s -> packetizer_ok (rtp_h264_packetizer_init m s).
Proof.
  intros Hs. unfold rtp_h264_packetizer_init, packetizer_ok, RTP_HEADER_SIZE, RTP_H264_DEFAULT_MTU.
  simpl sequence. simpl ssrc. split_and!; [unfold is_u16; lia|done|..]; simpl mtu.
  all: destruct (Nat.ltb_spec m (12 + 3)); bool_cases; lia.
Qed.

Definition next_sequence (pk : RtpH264Packetizer) : RtpH264Packetizer :=
  MkPacketizer (u16 (sequence pk + 1)) (ssrc pk) (mtu pk).

Lemma next_sequence_ok pk : packetizer_ok pk -> packetizer_ok (next_sequence pk).
Proof. intros (? & ? & ?). split_and!; simpl; try done; mlia. Qed.
#[export] Hint Resolve packetizer_init_ok next_sequence_ok : kvm.

(** The FU-A indicator and header carry the original NAL header and both flags. *)
Lemma fu_bits b (s e : bool) : is_u8 b ->
  let p0 := u8 (Z.lor (Z.land b 224) 28) in
  let p1 := u8 (Z.lor (Z.lor (Z.land b 31) (if s then 128 else 0)) (if e then 64 else 0)) in
  Z.land p0 31 = 28 /\ negb (Z.land p1 128 =? 0) = s /\ negb (Z.land p1 64 =? 0) = e /\
  u8 (Z.lor (Z.land p0 224) (Z.land p1 31)) = b.
Proof.
  intros Hb.
  pose (check := fun b =>
    let p0 := u8 (Z.lor (Z.land b 224) 28) in
    let p1 := u8 (Z.lor (Z.lor (Z.land b 31) (if s then 128 else 0)) (if e then 64 else 0)) in
    (Z.land p0 31 =? 28) && Bool.eqb (negb (Z.land p1 128 =? 0)) s &&
    Bool.eqb (negb (Z.land p1 64 =? 0)) e && (u8 (Z.lor (Z.land p0 224) (Z.land p1 31)) =? b)).
  assert (Hc : check b = true).
  { apply byte_forallb; [|done]. destruct s, e; vm_compute; reflexivity. }
  unfold check in Hc. apply andb_true_iff in Hc as [[[H1 H2]%andb_true_iff H3]%andb_true_iff H4].
  apply Z.eqb_eq in H1, H4. apply eqb_prop in H2, H3. done.
Qed.

Section RoundTrip.
Context {C : Type}.
Variable nal_callback : C -> bytes -> Z -> bool -> bool * C.
Variable loss_callback : C -> C.
Variable alloc : Z -> bool.
Hypothesis alloc_ok : forall n, alloc n = true.

(** A lossless channel: every packet the sender emits is pushed at once. *)
Definition channel (rc : RtpH264Reassembler * C) (packet : bytes)
    : bool * (RtpH264Reassembler * C) :=
  let '(_, r, c) := rtp_h264_reassembler_push alloc nal_callback loss_callback rc.1 packet rc.2 in
  (true, (r, c)).

(** The receiver expects the sender's next packet. *)
Definition in_sync (pk : RtpH264Packetizer) (r : RtpH264Reassembler) : Prop :=
  have_sequence r = true -> expected_sequence r = sequence pk.

Definition received (pk : RtpH264Packetizer) (r : RtpH264Reassembler) : RtpH264Reassembler :=
  MkReassembler (u16 (sequence pk + 1)) true (assembling r) (buffer r) (capacity r)
    (nal_header r) (timestamp r).

Lemma received_sync pk r : in_sync (next_sequence pk) (received pk r).
Proof. done. Qed.

Lemma push_rtp_packet pk r payload marker ts c :
  packetizer_ok pk -> is_u32 ts -> payload <> [] -> in_sync pk r ->
  rtp_h264_reassembler_push alloc nal_callback loss_callback r (rtp_packet pk payload marker ts) c =
  push_payload alloc nal_callback (received pk r) payload ts marker c.
Proof.
  intros (Hseq & Hssrc & _) Hts Hp Hsync. unfold rtp_h264_reassembler_push.
  change (length (rtp_packet pk payload marker ts)) with (12 + length payload)%nat.
  destruct (Nat.leb_spec (12 + length payload) RTP_HEADER_SIZE) as [Hl|_].
  { destruct payload; [done|]. unfold RTP_HEADER_SIZE in Hl. simpl in Hl. lia. }
  change (Z.shiftr (byte_at (rtp_packet pk payload marker ts) 0) 6 =? 2) with true. simpl orb.
  assert (Eseq : read_u16 (drop 2 (rtp_packet pk payload marker ts)) = sequence pk)
    by (by apply read_write_u16).
  assert (Ets : read_u32 (drop 4 (rtp_packet pk payload marker ts)) = ts)
    by (by apply read_write_u32).
  assert (Em : negb (Z.land (byte_at (rtp_packet pk payload marker ts) 1) 128 =? 0) = marker)
    by (by destruct marker).
  rewrite Eseq, Ets, Em.
  assert (El : have_sequence r && negb (sequence pk =? expected_sequence r) = false).
  { destruct (have_sequence r) eqn:E; [|done]. by rewrite (Hsync E), Z.eqb_refl. }
  rewrite El. reflexivity.
Qed.

Lemma append_ok r data :
  Z.of_nat (length (buffer r) + length data) <= RTP_H264_MAX_NAL ->
  exists cap, append alloc r data = (true, with_buffer r (buffer r ++ data) cap).
Proof.
  intros H. unfold append. destruct (Z.ltb_spec (RTP_H264_MAX_NAL - Z.of_nat (length (buffer r)))
    (Z.of_nat (length data))); [lia|]. case_match; [rewrite alloc_ok|]; eauto.
Qed.

(** The receiver has assembled the first [offset] bytes of [nal]. *)
Definition assembled (nal : bytes) (ts : Z) (offset : nat) (r : RtpH264Reassembler) : Prop :=
  assembling r = true /\ timestamp r = ts /\ buffer r = take offset nal.

Definition same_sequence (r r' : RtpH264Reassembler) : Prop :=
  expected_sequence r' = expected_sequence r /\ have_sequence r' = have_sequence r.

Lemma take_extend (l : bytes) a b : take a l ++ take b (drop a l) = take (a + b) l.
Proof. by rewrite take_take_drop. Qed.

Lemma push_fu r nal offset fragment ts marker c :
  bytes_ok nal -> (1 <= offset)%nat -> (0 < fragment)%nat ->
  (offset + fragment <= length nal)%nat -> Z.of_nat (length nal) <= RTP_H264_MAX_NAL ->
  (offset <> 1%nat -> assembled nal ts offset r) ->
  exists r', same_sequence r r' /\
    if (offset + fragment =? length nal)%nat
    then push_payload alloc nal_callback r (fu_payload nal offset fragment) ts marker c =
         ((nal_callback c nal ts marker).1, r', (nal_callback c nal ts marker).2) /\
         assembling r' = false
    else push_payload alloc nal_callback r (fu_payload nal offset fragment) ts marker c =
         (true, r', c) /\ assembled nal ts (offset + fragment) r'.
Proof.
  intros Hok Ho Hf Hl Hmax Hr.
  destruct (fu_bits (byte_at nal 0) (offset =? 1)%nat (offset + fragment =? length nal)%nat)
    as (B0 & Bs & Be & Bh); [by apply byte_at_ok|]. cbv zeta in *.
  unfold push_payload.
  change (byte_at (fu_payload nal offset fragment) 0)
    with (u8 (Z.lor (Z.land (byte_at nal 0) 224) 28)).
  rewrite B0. simpl (_ && _). simpl (28 =? 24). cbv iota.
  change (length (fu_payload nal offset fragment))
    with (2 + length (take fragment (drop offset nal)))%nat.
  rewrite length_take, length_drop.
  destruct (Nat.ltb_spec (2 + fragment `min` (length nal - offset)) 3); [lia|].
  simpl (negb (28 =? 28) || false). cbv iota. unfold push_fragment.
  change (byte_at (fu_payload nal offset fragment) 0)
    with (u8 (Z.lor (Z.land (byte_at nal 0) 224) 28)).
  change (byte_at (fu_payload nal offset fragment) 1)
    with (u8 (Z.lor (Z.lor (Z.land (byte_at nal 0) 31) (if (offset =? 1)%nat then 128 else 0))
             (if (offset + fragment =? length nal)%nat then 64 else 0))).
  change (drop 2 (fu_payload nal offset fragment)) with (take fragment (drop offset nal)).
  rewrite Bs, Be, Bh. cbv zeta.
  (* the state after the optional start *)
  set (started := if (offset =? 1)%nat then _ else _).
  assert (exists r1, started = (true, r1) /\ same_sequence r r1 /\ assembled nal ts offset r1)
    as (r1 & -> & Hs1 & Ha & Hts & Hb).
  { unfold started. destruct (Nat.eqb_spec offset 1) as [->|Hne].
    - edestruct append_ok as [cap ->]; [|eexists; split; [done|]].
      + simpl. unfold RTP_H264_MAX_NAL. lia.
      + split; [done|]. split_and!; [done..|]. simpl. destruct nal; [simpl in *; lia|done].
    - exists r. split; [done|]. split; [done|]. by apply Hr. }
  simpl negb. rewrite Ha, Hts, Z.eqb_refl. cbn [negb orb].
  destruct (append_ok r1 (take fragment (drop offset nal))) as [cap ->].
  { rewrite Hb, !length_take, length_drop. lia. }
  cbn [negb]. rewrite Hb, take_extend.
  destruct (Nat.eqb_spec (offset + fragment) (length nal)) as [E|].
  - exists (discard (with_buffer r1 nal cap)). split; [done|].
    rewrite E, take_ge by lia. unfold deliver. simpl. rewrite Hts.
    split; [|done]. by destruct (nal_callback c nal ts marker).
  - by exists (with_buffer r1 (take (offset + fragment) nal) cap).
Qed.

Lemma channel_emit pk payload marker ts r c :
  packetizer_ok pk -> is_u32 ts -> payload <> [] -> (length payload + 12 <= mtu pk)%nat ->
  in_sync pk r ->
  emit_packet channel pk payload marker ts (r, c) =
  (true, next_sequence pk,
   let '(_, r', c') := push_payload alloc nal_callback (received pk r) payload ts marker c in
   (r', c')).
Proof.
  intros Hpk Hts Hp Hl Hsync. unfold emit_packet.
  destruct (Nat.ltb_spec RTP_H264_DEFAULT_MTU (length payload + RTP_HEADER_SIZE)) as [Hb|_].
  { destruct Hpk as (_ & _ & _ & Hm). unfold RTP_HEADER_SIZE in Hb. lia. }
  unfold channel. simpl. rewrite push_rtp_packet by done.
  by destruct (push_payload _ _ _ _ _ _ _) as [[ok r'] c'].
Qed.

Lemma length_fu_payload nal offset fragment :
  (offset + fragment <= length nal)%nat ->
  length (fu_payload nal offset fragment) = (2 + fragment)%nat.
Proof. intros H. unfold fu_payload. simpl. rewrite length_take, length_drop. lia. Qed.

Lemma fragment_loop_roundtrip fuel pk nal offset limit ts marker r c :
  packetizer_ok pk -> is_u32 ts -> bytes_ok nal -> Z.of_nat (length nal) <= RTP_H264_MAX_NAL ->
  (0 < limit)%nat -> (limit + 14 <= mtu pk)%nat ->
  (1 <= offset < length nal)%nat -> (length nal - offset <= fuel)%nat -> in_sync pk r ->
  (offset <> 1%nat -> assembled nal ts offset r) ->
  exists pk' r',
    fragment_loop channel fuel pk nal offset limit ts marker (r, c) =
    (true, pk', (r', (nal_callback c nal ts marker).2)) /\
    packetizer_ok pk' /\ mtu pk' = mtu pk /\ in_sync pk' r'.
Proof.
  revert pk offset r. induction fuel as [|fuel IH];
    intros pk offset r Hpk Hts Hok Hmax Hlim Hmtu Ho Hf Hsync Hr; [lia|].
  cbn [fragment_loop]. destruct (Nat.ltb_spec offset (length nal)); [|lia].
  set (fragment := if (length nal - offset <? limit)%nat then _ else _).
  assert (Hfr : (0 < fragment <= limit)%nat /\ (offset + fragment <= length nal)%nat).
  { unfold fragment. destruct (Nat.ltb_spec (length nal - offset) limit); lia. }
  clearbody fragment. destruct Hfr as [Hfr Hend]. cbv zeta.
  rewrite channel_emit; try done; [|rewrite length_fu_payload; lia].
  destruct (push_fu (received pk r) nal offset fragment ts
    (marker && (offset + fragment =? length nal)%nat) c) as (r' & [Hs1 Hs2] & Hpush); try done; [lia..|].
  destruct (Nat.eqb_spec (offset + fragment) (length nal)) as [E|E].
  - destruct Hpush as [Hpush _]. rewrite Hpush, andb_true_r. destruct fuel as [|fuel]; cbn [fragment_loop];
      rewrite E, Nat.ltb_irrefl; exists (next_sequence pk), r'; split_and!; auto with kvm;
      by intros _; rewrite Hs1.
  - destruct Hpush as [-> Ha]. apply (IH (next_sequence pk)); auto with kvm; try lia.
    by intros _; rewrite Hs1.
Qed.

(** NAL headers that travel as single packets or fragments, i.e. that the
    receiver does not take for an aggregation or fragmentation packet. *)
Definition plain_nal (nal : bytes) : Prop :=
  bytes_ok nal /\ nal <> [] /\ Z.of_nat (length nal) <= RTP_H264_MAX_NAL /\
  1 <= Z.land (byte_at nal 0) 31 <= 23.

Lemma packetize_marker_roundtrip pk nal ts marker r c :
  packetizer_ok pk -> is_u32 ts -> plain_nal nal -> in_sync pk r ->
  exists pk' r',
    rtp_h264_packetize_marker channel pk nal ts marker (r, c) =
    (true, pk', (r', (nal_callback c nal ts marker).2)) /\
    packetizer_ok pk' /\ mtu pk' = mtu pk /\ in_sync pk' r'.
Proof.
  intros Hpk Hts (Hok & Hne & Hmax & Hty) Hsync. unfold rtp_h264_packetize_marker.
  destruct (Nat.eqb_spec (length nal) 0) as [E|_]; [by destruct nal|].
  destruct (Z.ltb_spec RTP_H264_MAX_NAL (Z.of_nat (length nal))); [lia|]. simpl orb. cbv iota zeta.
  pose proof Hpk as (_ & _ & Hm). unfold RTP_HEADER_SIZE.
  destruct (Nat.leb_spec (length nal) (mtu pk - 12)).
  - rewrite channel_emit by (done || lia). unfold push_payload.
    destruct (Z.leb_spec 1 (Z.land (byte_at nal 0) 31)); [|lia].
    destruct (Z.leb_spec (Z.land (byte_at nal 0) 31) 23); [|lia]. simpl.
    exists (next_sequence pk), (received pk r).
    destruct (nal_callback c nal ts marker) as [ok c'].
    split_and!; auto using received_sync with kvm.
  - destruct (Nat.eqb_spec (mtu pk - 12 - 2) 0); [lia|].
    apply fragment_loop_roundtrip; auto; lia.
Qed.
End RoundTrip.

(** ** Access units *)

(** The Annex-B byte stream of a list of NAL units. *)
Definition annexb (nals : list bytes) : bytes := concat (map (fun n => [0; 0; 0; 1] ++ n) nals).

(** No start code begins inside the unit, not even one completed by the start
    code that follows it (the encoder's emulation prevention). *)
Definition nal_clean (nal : bytes) : Prop :=
  forall i, (i < length nal)%nat -> start_code_length (nal ++ [0; 0; 0; 1]) i = 0%nat.

Lemma start_code_shift pre x i :
  start_code_length (pre ++ x) (length pre + i) = start_code_length x i.
Proof.
  unfold start_code_length. rewrite <- !Nat.add_assoc.
  rewrite !byte_at_app_r by lia. rewrite length_app.
  replace (length pre + i - length pre)%nat with i by lia.
  rewrite !Nat.add_sub_swap by lia.
  rewrite Nat.sub_diag, !Nat.add_0_l.
  repeat match goal with |- context [(length pre + ?a <=? length pre + ?b)%nat] =>
    replace (length pre + a <=? length pre + b)%nat with (a <=? b)%nat
      by (destruct (Nat.leb_spec a b), (Nat.leb_spec (length pre + a) (length pre + b)); lia) end.
  done.
Qed.

Lemma start_code_local x rest i :
  (i + 4 <= length x)%nat -> start_code_length (x ++ rest) i = start_code_length x i.
Proof.
  intros H. unfold start_code_length. rewrite !byte_at_app_l by lia. rewrite length_app.
  destruct (Nat.leb_spec (i + 3) (length x + length rest)), (Nat.leb_spec (i + 3) (length x)),
    (Nat.leb_spec (i + 4) (length x + length rest)), (Nat.leb_spec (i + 4) (length x)); try lia.
Qed.

Lemma start_code_truncate x rest i :
  (i < length x)%nat -> start_code_length (x ++ rest) i = 0%nat -> start_code_length x i = 0%nat.
Proof.
  intros Hi. unfold start_code_length. rewrite length_app.
  destruct (Nat.leb_spec (i + 3) (length x)); simpl.
  - rewrite !(byte_at_app_l x rest) by lia.
    destruct (Nat.leb_spec (i + 3) (length x + length rest)); [|lia]. simpl.
    destruct (_ && _); [done|].
    destruct (Nat.leb_spec (i + 4) (length x)); simpl; [|done].
    rewrite byte_at_app_l by lia.
    destruct (Nat.leb_spec (i + 4) (length x + length rest)); [done|lia].
  - intros _. destruct (Nat.leb_spec (i + 4) (length x)); [lia|done].
Qed.

Lemma nal_clean_inside pre nal nals i :
  nal_clean nal -> (i < length nal)%nat ->
  at_start_code (pre ++ nal ++ annexb nals) (length pre + i) = false.
Proof.
  intros Hc Hi. unfold at_start_code. rewrite start_code_shift.
  specialize (Hc i Hi). destruct nals as [|n nals].
  - unfold annexb; simpl. rewrite app_nil_r. by rewrite (start_code_truncate _ _ _ Hi Hc).
  - change (annexb (n :: nals)) with (([0; 0; 0; 1] ++ n) ++ annexb nals).
    rewrite <- app_assoc, app_assoc. rewrite start_code_local by (rewrite length_app; simpl; lia).
    by rewrite Hc.
Qed.

Lemma annexb_start pre nal nals :
  start_code_length (pre ++ annexb (nal :: nals)) (length pre) = 4%nat.
Proof.
  rewrite <- (Nat.add_0_r (length pre)), start_code_shift.
  change (annexb (nal :: nals)) with ([0; 0; 0; 1] ++ (nal ++ annexb nals)).
  by rewrite start_code_local by (simpl; lia).
Qed.

(** Where the scan for the next start code stops. *)
Lemma annexb_next pre nal nals :
  nal_clean nal -> nal <> [] ->
  let data := pre ++ nal ++ annexb nals in
  default (Nat.max (length pre) (length data))
    (find_from (at_start_code data) (length pre) (length data)) = (length pre + length nal)%nat.
Proof.
  intros Hc Hne data. destruct nals as [|n nals].
  - replace (find_from _ _ _) with (@None nat).
    + simpl. unfold data, annexb; simpl. rewrite app_nil_r, length_app. lia.
    + symmetry. destruct (find_from _ _ _) as [j|] eqn:E; [|done]. exfalso.
      apply find_from_Some in E as (Hj & Hp & _). unfold data, annexb in Hj; simpl in Hj.
      rewrite app_nil_r, length_app in Hj.
      pose proof (nal_clean_inside pre nal [] (j - length pre) Hc ltac:(lia)) as Hin.
      replace (length pre + (j - length pre))%nat with j in Hin by lia. fold data in Hin. congruence.
  - assert (Hat : at_start_code data (length pre + length nal) = true).
    { unfold data, at_start_code. rewrite app_assoc, <- length_app. by rewrite annexb_start. }
    destruct (find_from_is_Some (at_start_code data) (length pre) (length data)
      (length pre + length nal)) as [j E]; [|done|].
    { unfold data. rewrite !length_app. unfold annexb; simpl. lia. }
    rewrite E. simpl. apply find_from_Some in E as (Hj & Hp & Hno).
    destruct (decide (j < length pre + length nal)%nat) as [Hlt|].
    + pose proof (nal_clean_inside pre nal (n :: nals) (j - length pre) Hc ltac:(lia)) as Hin.
      replace (length pre + (j - length pre))%nat with j in Hin by lia. fold data in Hin. congruence.
    + destruct (decide (j = length pre + length nal)%nat); [done|].
      rewrite Hno in Hat; [done|lia].
Qed.

(** [rtp_h264_packetize_access_unit] on an Annex-B stream sends the units one by
    one, the marker on the last. *)
Definition is_last (rest : list bytes) : bool := match rest with [] => true | _ => false end.

Fixpoint send_nals {S} (callback : S -> bytes -> bool * S) (pk : RtpH264Packetizer)
    (nals : list bytes) (ts : Z) (sent : bool) (context : S) : bool * RtpH264Packetizer * S :=
  match nals with
  | [] => (sent, pk, context)
  | nal :: rest =>
      let '(ok, pk', context') :=
        rtp_h264_packetize_marker callback pk nal ts (is_last rest) context in
      if ok then send_nals callback pk' rest ts true context' else (false, pk', context')
  end.

Lemma access_unit_loop_send {S} (callback : S -> bytes -> bool * S) fuel pk pre nals ts sent c :
  Forall (fun n => n <> []) nals -> Forall nal_clean nals -> (length (annexb nals) <= fuel)%nat ->
  access_unit_loop callback fuel pk (pre ++ annexb nals) (length pre) ts sent c =
  send_nals callback pk nals ts sent c.
Proof.
  revert fuel pk pre sent c. induction nals as [|nal nals IH]; intros fuel pk pre sent c Hn Hc Hf.
  { destruct fuel; cbn [access_unit_loop];
      rewrite length_app; simpl; rewrite Nat.add_0_r, Nat.ltb_irrefl; done. }
  apply Forall_cons_iff in Hn as [Hn1 Hn]. apply Forall_cons_iff in Hc as [Hc1 Hc].
  pose proof (annexb_start pre nal nals) as Hsc.
  change (annexb (nal :: nals)) with (([0; 0; 0; 1] ++ nal) ++ annexb nals) in *.
  rewrite !length_app in Hf. simpl in Hf. destruct fuel as [|fuel]; [lia|].
  cbn [access_unit_loop].
  destruct (Nat.ltb_spec (length pre) (length (pre ++ ([0; 0; 0; 1] ++ nal) ++ annexb nals)))
    as [_|Hb]; [|rewrite !length_app in Hb; simpl in Hb; lia].
  rewrite Hsc. change (4 =? 0)%nat with false. cbv iota zeta.
  replace (pre ++ ([0; 0; 0; 1] ++ nal) ++ annexb nals)
    with ((pre ++ [0; 0; 0; 1]) ++ nal ++ annexb nals) by (by rewrite <- !app_assoc).
  replace (length pre + 4)%nat with (length (pre ++ [0; 0; 0; 1])) by (rewrite length_app; done).
  generalize (pre ++ [0; 0; 0; 1]). intros pre4. rewrite annexb_next by done.
  destruct (Nat.ltb_spec (length pre4) (length pre4 + length nal)) as [_|Hb];
    [|destruct nal; [done|simpl in Hb; lia]].
  replace (length pre4 + length nal - length pre4)%nat with (length nal) by lia.
  rewrite drop_app_length, take_app_length.
  assert (Em : (length pre4 + length nal =? length (pre4 ++ nal ++ annexb nals))%nat = is_last nals).
  { rewrite !(length_app pre4), !(length_app nal). destruct nals.
    - apply Nat.eqb_eq. unfold annexb; simpl. lia.
    - apply Nat.eqb_neq. unfold annexb; simpl. lia. }
  rewrite Em. cbn [send_nals].
  destruct (rtp_h264_packetize_marker _ _ _ _ _ _) as [[[] pk'] c']; [|done].
  rewrite app_assoc, <- length_app. apply IH; auto. lia.
Qed.

Lemma packetize_access_unit_send {S} (callback : S -> bytes -> bool * S) pk nals ts c :
  nals <> [] -> Forall (fun n => n <> []) nals -> Forall nal_clean nals ->
  rtp_h264_packetize_access_unit callback pk (annexb nals) ts c =
  send_nals callback pk nals ts false c.
Proof.
  intros Hne Hn Hc. destruct nals as [|nal nals]; [done|].
  unfold rtp_h264_packetize_access_unit.
  change (length (annexb (nal :: nals)) =? 0)%nat with false. cbv iota.
  assert (H0 : at_start_code (annexb (nal :: nals)) 0 = true).
  { unfold at_start_code. pose proof (annexb_start [] nal nals) as H. simpl app in H.
    simpl length in H. by rewrite H. }
  destruct (find_from_is_Some (at_start_code (annexb (nal :: nals))) 0
    (length (annexb (nal :: nals))) 0) as [j E]; [simpl; lia|done|].
  rewrite E. apply find_from_Some in E as (_ & _ & Hno).
  destruct (decide (j = 0)%nat) as [->|]; [|rewrite (Hno 0%nat) in H0; [done|lia]].
  by apply (access_unit_loop_send callback _ pk []).
Qed.

Lemma plain_nonempty nals : Forall plain_nal nals -> Forall (fun n => n <> []) nals.
Proof. apply Forall_impl. intros n Hn. apply Hn. Qed.

(** The receiver's callback once per unit, the marker on the last one only. *)
Fixpoint deliver_all {C} (nal_callback : C -> bytes -> Z -> bool -> bool * C) (c : C)
    (nals : list bytes) (ts : Z) : C :=
  match nals with
  | [] => c
  | nal :: rest => deliver_all nal_callback (nal_callback c nal ts (is_last rest)).2 rest ts
  end.

Lemma send_nals_roundtrip {C} (nal_callback : C -> bytes -> Z -> bool -> bool * C) loss_callback
    alloc pk nals ts sent r c :
  (forall n, alloc n = true) -> packetizer_ok pk -> is_u32 ts -> Forall plain_nal nals ->
  in_sync pk r ->
  exists pk' r',
    send_nals (channel nal_callback loss_callback alloc) pk nals ts sent (r, c) =
    (match nals with [] => sent | _ => true end, pk', (r', deliver_all nal_callback c nals ts)) /\
    packetizer_ok pk' /\ mtu pk' = mtu pk /\ in_sync pk' r'.
Proof.
  intros Ha. revert pk sent r c. induction nals as [|nal nals IH];
    intros pk sent r c Hpk Hts Hp Hsync; [by exists pk, r|].
  apply Forall_cons_iff in Hp as [Hp1 Hp]. cbn [send_nals deliver_all].
  destruct (packetize_marker_roundtrip nal_callback loss_callback alloc Ha pk nal ts
    (is_last nals) r c) as (pk1 & r1 & -> & Hpk1 & Hm1 & Hs1); auto.
  destruct (IH pk1 true r1 (nal_callback c nal ts (is_last nals)).2)
    as (pk2 & r2 & -> & Hpk2 & Hm2 & Hs2); auto.
  exists pk2, r2. split_and!; auto; [|congruence]. by destruct nals.
Qed.

(** ** What the sender emits *)

(** The sender's callback that records every packet. *)
Definition record_packet (sent : list bytes) (packet : bytes) : bool * list bytes :=
  (true, sent ++ [packet]).

(** [l] was emitted since state [pk0]: every packet fits the MTU and the
    sequence numbers are consecutive modulo 2^16. *)
Definition emitted (pk0 pk : RtpH264Packetizer) (l : list bytes) : Prop :=
  mtu pk = mtu pk0 /\ ssrc pk = ssrc pk0 /\ sequence pk = u16 (sequence pk0 + Z.of_nat (length l)) /\
  forall i p, l !! i = Some p ->
    (RTP_HEADER_SIZE < length p <= mtu pk0)%nat /\
    read_u16 (drop 2 p) = u16 (sequence pk0 + Z.of_nat i).

Lemma emitted_nil pk : packetizer_ok pk -> emitted pk pk [].
Proof. intros (Hs & _). split_and!; [done..| |done]. simpl. rewrite Z.add_0_r. by rewrite u16_id. Qed.

Lemma emit_emitted pk0 pk payload marker ts l :
  packetizer_ok pk0 -> emitted pk0 pk l -> payload <> [] ->
  (length payload + RTP_HEADER_SIZE <= mtu pk0)%nat ->
  let '(_, pk', l') := emit_packet record_packet pk payload marker ts l in emitted pk0 pk' l'.
Proof.
  intros (_ & _ & Hm) (Em & Es & Eq & Hl) Hne Hfit. unfold emit_packet.
  destruct (_ <? _)%nat; [done|]. simpl.
  split_and!; simpl; try done.
  { rewrite Eq, length_app; simpl. mlia. }
  intros i p Hi. apply lookup_app_Some in Hi as [Hi|[Hge Hi]]; [by apply Hl|].
  apply list_lookup_singleton_Some in Hi as [Hi0 <-].
  replace i with (length l) by lia. split.
  - change (length (rtp_packet pk payload marker ts)) with (12 + length payload)%nat.
    unfold RTP_HEADER_SIZE in *. destruct payload; [done|]. simpl in *. lia.
  - rewrite <- Eq. apply read_write_u16. rewrite Eq. apply u16_range.
Qed.

Lemma fragment_loop_emitted fuel pk0 pk nal offset limit ts marker l :
  packetizer_ok pk0 -> emitted pk0 pk l -> (limit + 14 <= mtu pk0)%nat ->
  let '(_, pk', l') := fragment_loop record_packet fuel pk nal offset limit ts marker l in
  emitted pk0 pk' l'.
Proof.
  revert pk offset l. induction fuel as [|fuel IH]; intros pk offset l Hpk He Hlim;
    cbn [fragment_loop]; destruct (_ <? _)%nat; try done.
  set (fragment := if (length nal - offset <? limit)%nat then _ else _).
  assert (fragment <= limit)%nat
    by (unfold fragment; destruct (Nat.ltb_spec (length nal - offset) limit); lia).
  clearbody fragment. cbv zeta.
  pose proof (emit_emitted pk0 pk (fu_payload nal offset fragment)
    (marker && (offset + fragment =? length nal)%nat) ts l Hpk He ltac:(done)) as Hemit.
  destruct (emit_packet _ _ _ _ _ _) as [[ok pk'] l'].
  assert (emitted pk0 pk' l').
  { apply Hemit. unfold fu_payload, RTP_HEADER_SIZE. simpl. rewrite length_take. lia. }
  destruct ok; [by apply IH|done].
Qed.

Lemma packetize_marker_emitted pk0 pk nal ts marker l :
  packetizer_ok pk0 -> emitted pk0 pk l ->
  let '(_, pk', l') := rtp_h264_packetize_marker record_packet pk nal ts marker l in
  emitted pk0 pk' l'.
Proof.
  intros Hpk He. unfold rtp_h264_packetize_marker.
  destruct (Nat.eqb_spec (length nal) 0) as [|Hne]; [done|]. destruct (_ <? _); [done|]. simpl orb.
  pose proof He as (Em & _). pose proof Hpk as (_ & _ & Hm). unfold RTP_HEADER_SIZE in *. cbv zeta.
  destruct (Nat.leb_spec (length nal) (mtu pk - 12)).
  - apply emit_emitted; auto; [by intros ->|]. unfold RTP_HEADER_SIZE. lia.
  - destruct (_ =? 0)%nat; [done|]. apply fragment_loop_emitted; auto. lia.
Qed.

Lemma access_unit_loop_emitted fuel pk0 pk data offset ts sent l :
  packetizer_ok pk0 -> emitted pk0 pk l ->
  let '(_, pk', l') := access_unit_loop record_packet fuel pk data offset ts sent l in
  emitted pk0 pk' l'.
Proof.
  revert pk offset sent l. induction fuel as [|fuel IH]; intros pk offset sent l Hpk He;
    cbn [access_unit_loop]; destruct (_ <? _)%nat; try done.
  destruct (_ =? 0)%nat; [done|]. cbv zeta.
  set (next := default _ _). destruct (_ <? next)%nat; [|by apply IH].
  set (nal := take _ _).
  pose proof (packetize_marker_emitted pk0 pk nal ts (next =? length data)%nat l Hpk He) as Hp.
  destruct (rtp_h264_packetize_marker _ _ _ _ _ _) as [[ok pk'] l'].
  destruct ok; [by apply IH|done].
Qed.

(** ** The reassembler on arbitrary packets *)

(** Capacity is zero or 2048 times a power of two up to the NAL limit. *)
Definition capacity_ok (cap : Z) : Prop :=
  cap = 0 \/ exists k, 0 <= k <= 10 /\ cap = 2048 * 2 ^ k.

Definition reassembler_ok (r : RtpH264Reassembler) : Prop :=
  capacity_ok (capacity r) /\ Z.of_nat (length (buffer r)) <= capacity r.

Lemma reassembler_init_ok : reassembler_ok rtp_h264_reassembler_init.
Proof. split; [by left|done]. Qed.

Lemma capacity_ok_bound cap : capacity_ok cap -> 0 <= cap <= RTP_H264_MAX_NAL.
Proof.
  intros [->|(k & Hk & ->)]; [done|]. unfold RTP_H264_MAX_NAL.
  pose proof (Z.pow_le_mono_r 2 k 10 ltac:(lia) ltac:(lia)).
  pose proof (Z.pow_pos_nonneg 2 k ltac:(lia) ltac:(lia)). lia.
Qed.

Lemma grow_capacity_ok fuel k needed :
  0 <= k <= 10 -> needed <= RTP_H264_MAX_NAL -> 10 - k < Z.of_nat fuel ->
  exists k', 0 <= k' <= 10 /\ grow_capacity fuel (2048 * 2 ^ k) needed = 2048 * 2 ^ k' /\
    needed <= 2048 * 2 ^ k'.
Proof.
  revert k. induction fuel as [|fuel IH]; intros k Hk Hn Hf; [lia|]. simpl grow_capacity.
  destruct (Z.ltb_spec (2048 * 2 ^ k) needed) as [Hlt|Hge]; [|by exists k].
  destruct (decide (k = 10)) as [->|]; [unfold RTP_H264_MAX_NAL in Hn; lia|].
  replace (2048 * 2 ^ k * 2) with (2048 * 2 ^ (k + 1)) by (rewrite Z.pow_add_r by lia; lia).
  apply IH; lia.
Qed.

Lemma append_reassembler_ok alloc r data :
  reassembler_ok r -> reassembler_ok (append alloc r data).2.
Proof.
  intros [Hc Hb]. unfold append.
  destruct (Z.ltb_spec (RTP_H264_MAX_NAL - Z.of_nat (length (buffer r))) (Z.of_nat (length data)));
    [done|]. cbv zeta.
  destruct (Z.ltb_spec (capacity r) (Z.of_nat (length (buffer r) + length data))).
  - assert (exists k, 0 <= k <= 10 /\ (if capacity r =? 0 then 2048 else capacity r) = 2048 * 2 ^ k)
      as (k & Hk & ->).
    { destruct Hc as [->|(k & Hk & Ek)]; [by exists 0|]. exists k. split; [done|].
      destruct (Z.eqb_spec (capacity r) 0); [|done].
      pose proof (Z.pow_pos_nonneg 2 k ltac:(lia) ltac:(lia)). lia. }
    destruct (grow_capacity_ok 22 k (Z.of_nat (length (buffer r) + length data)))
      as (k' & Hk' & -> & Hn); [lia..|].
    destruct (alloc _); [|done]. split; [right; by exists k'|]. simpl. rewrite length_app. lia.
  - split; [done|]. simpl. rewrite length_app. lia.
Qed.

Section Safety.
Context {C : Type} (nal_callback : C -> bytes -> Z -> bool -> bool * C) (loss_callback : C -> C).
Variable alloc : Z -> bool.

Lemma push_fragment_ok r payload ts marker c :
  reassembler_ok r ->
  reassembler_ok (push_fragment alloc nal_callback r payload ts marker c).1.2.
Proof.
  intros Hr. unfold push_fragment. cbv zeta.
  set (started := if negb (Z.land (byte_at payload 1) 128 =? 0) then _ else _).
  assert (Hs : reassembler_ok started.2).
  { unfold started. case_match; [|done]. apply append_reassembler_ok. destruct Hr as [Hc _].
    split; [done|]. simpl. apply capacity_ok_bound in Hc. lia. }
  destruct started as [[] r1]; simpl in *; [|done].
  case_match; [done|].
  pose proof (append_reassembler_ok alloc r1 (drop 2 payload) Hs) as Ha.
  destruct (append alloc r1 (drop 2 payload)) as [[] r2]; simpl in *; [|done].
  case_match; [|done]. unfold deliver. destruct (nal_callback _ _ _ _). simpl.
  destruct Ha as [Hc _]. split; [done|]. simpl. apply capacity_ok_bound in Hc. lia.
Qed.

Lemma push_payload_ok r payload ts marker c :
  reassembler_ok r ->
  reassembler_ok (push_payload alloc nal_callback r payload ts marker c).1.2.
Proof.
  intros Hr. unfold push_payload. repeat case_match; try done. by apply push_fragment_ok.
Qed.

Lemma discard_ok r : reassembler_ok r -> reassembler_ok (discard r).
Proof. intros [Hc _]. split; [done|]. apply capacity_ok_bound in Hc. simpl. lia. Qed.

(** What every callback preserves, a push preserves. *)
Section Context.
Variable P : C -> Prop.
Hypothesis nal_P : forall c nal ts m, P c -> P (nal_callback c nal ts m).2.
Hypothesis loss_P : forall c, P c -> P (loss_callback c).

Lemma stap_loop_context fuel payload offset delivered ts marker c :
  P c -> P (stap_loop nal_callback fuel payload offset delivered ts marker c).2.
Proof.
  revert offset delivered c. induction fuel as [|fuel IH]; intros offset delivered c Hc;
    cbn [stap_loop]; destruct (_ <=? _)%nat; try done. cbv zeta. destruct (_ || _); [done|].
  match goal with |- context [nal_callback c ?n ts ?m] => pose proof (nal_P c n ts m Hc) end.
  destruct (nal_callback _ _ _ _) as [[] c']; [by apply IH|done].
Qed.

Lemma push_context r packet c :
  P c -> P (rtp_h264_reassembler_push alloc nal_callback loss_callback r packet c).2.
Proof.
  intros Hc. unfold rtp_h264_reassembler_push. destruct (_ || _); [done|]. cbv zeta.
  set (c1 := if _ && _ then loss_callback c else c).
  assert (H1 : P c1) by (unfold c1; destruct (_ && _); auto). clearbody c1.
  generalize (MkReassembler (u16 (read_u16 (drop 2 packet) + 1)) true). intros mk.
  match goal with |- context [push_payload _ _ ?r2 ?p ?t ?m _] =>
    generalize r2 p t m end. intros r2 p t m. unfold push_payload.
  destruct (_ && _).
  { pose proof (nal_P c1 p t m H1). by destruct (nal_callback _ _ _ _). }
  destruct (_ =? 24).
  { pose proof (stap_loop_context (length p) p 1 false t m c1 H1). by destruct (stap_loop _ _ _ _ _ _ _ _). }
  destruct (_ || _); [done|]. unfold push_fragment. cbv zeta.
  match goal with |- context [if ?b then append alloc ?x ?y else ?z] =>
    destruct (if b then append alloc x y else z) as [[] r3] end; [|done].
  simpl negb. cbv iota. destruct (_ || _); [done|].
  destruct (append _ _ _) as [[] r4]; [|done]. simpl negb. cbv iota.
  destruct (negb _); [|done]. unfold deliver.
  match goal with |- context [nal_callback c1 ?n ?t' ?m'] => pose proof (nal_P c1 n t' m' H1) end.
  by destruct (nal_callback _ _ _ _).
Qed.
End Context.

Lemma push_reassembler_ok r packet c :
  reassembler_ok r ->
  reassembler_ok (rtp_h264_reassembler_push alloc nal_callback loss_callback r packet c).1.2.
Proof.
  intros Hr. unfold rtp_h264_reassembler_push. destruct (_ || _); [done|]. apply push_payload_ok.
  destruct (_ && _); [|done]. by apply discard_ok.
Qed.

(** C25: whatever datagram arrives from the network, valid or not, and
    whatever the allocator answers, [rtp_h264_reassembler_push] keeps the
    reassembly buffer inside its allocation, and the allocation is either
    empty or 2048 bytes doubled at most ten times, so it never passes
    [RTP_H264_MAX_NAL]. *)
Theorem reassembler_push_bounded r packet c :
  reassembler_ok r ->
  let r' := (rtp_h264_reassembler_push alloc nal_callback loss_callback r packet c).1.2 in
  reassembler_ok r' /\ Z.of_nat (length (buffer r')) <= RTP_H264_MAX_NAL.
Proof.
  intros Hr r'. assert (Hok : reassembler_ok r') by (by apply push_reassembler_ok).
  split; [done|]. destruct Hok as [Hc Hl]. apply capacity_ok_bound in Hc. lia.
Qed.
End Safety.

Lemma packetize_access_unit_emitted pk data ts :
  packetizer_ok pk ->
  let '(_, pk', packets) := rtp_h264_packetize_access_unit record_packet pk data ts [] in
  emitted pk pk' packets.
Proof.
  intros Hpk. unfold rtp_h264_packetize_access_unit. destruct (_ =? 0)%nat; [by apply emitted_nil|].
  destruct (find_from _ _ _).
  - apply access_unit_loop_emitted; auto using emitted_nil.
  - apply packetize_marker_emitted; auto using emitted_nil.
Qed.

(** ** A lossy network

    [frame] says what one packet carries: a whole unit, or the bytes
    [offset, offset + size) of one.  The packets of a session are a chain of
    frames with consecutive sequence numbers. *)

Record frame := Frame {
  f_nal : bytes; f_part : option (nat * nat); f_ts : Z; f_marker : bool }.

Definition f_payload (f : frame) : bytes :=
  match f_part f with None => f_nal f | Some (o, n) => fu_payload (f_nal f) o n end.

Definition completed (f : frame) : option (bytes * Z * bool) :=
  match f_part f with
  | None => Some (f_nal f, f_ts f, f_marker f)
  | Some (o, n) => if (o + n =? length (f_nal f))%nat
                   then Some (f_nal f, f_ts f, f_marker f) else None
  end.

Definition frame_ok (f : frame) : Prop :=
  plain_nal (f_nal f) /\ is_u32 (f_ts f) /\
  match f_part f with
  | None => True
  | Some (o, n) => (1 <= o)%nat /\ (0 < n)%nat /\ (o + n <= length (f_nal f))%nat /\
      ((o + n)%nat <> length (f_nal f) -> f_marker f = false)
  end.

(** The unit the sender is in the middle of, with the bytes already sent. *)
Definition pending : Type := option (bytes * Z * nat).

Definition fits (s : pending) (f : frame) : Prop :=
  match s with
  | None => match f_part f with None => True | Some (o, _) => o = 1%nat end
  | Some (nal, ts, o) => f_nal f = nal /\ f_ts f = ts /\ exists n, f_part f = Some (o, n)
  end.

Definition after (f : frame) : pending :=
  match completed f, f_part f with
  | None, Some (o, n) => Some (f_nal f, f_ts f, (o + n)%nat)
  | _, _ => None
  end.

Fixpoint chained (s : pending) (fs : list frame) (s' : pending) : Prop :=
  match fs with
  | [] => s = s'
  | f :: fs => fits s f /\ chained (after f) fs s'
  end.

Lemma chained_app s fs s' fs' s'' :
  chained s fs s' -> chained s' fs' s'' -> chained s (fs ++ fs') s''.
Proof.
  revert s. induction fs as [|f fs IH]; intros s H H'; simpl in *; [by subst|].
  destruct H as [? H]. split; [done|by apply IH].
Qed.

Fixpoint frame_packets (pk : RtpH264Packetizer) (fs : list frame) : list bytes :=
  match fs with
  | [] => []
  | f :: fs => rtp_packet pk (f_payload f) (f_marker f) (f_ts f) ::
               frame_packets (next_sequence pk) fs
  end.

Fixpoint advance (pk : RtpH264Packetizer) (n : nat) : RtpH264Packetizer :=
  match n with O => pk | S n => advance (next_sequence pk) n end.

Lemma frame_packets_app pk fs fs' :
  frame_packets pk (fs ++ fs') = frame_packets pk fs ++ frame_packets (advance pk (length fs)) fs'.
Proof. revert pk. induction fs as [|f fs IH]; intros pk; simpl; [done|]. by rewrite IH. Qed.

Lemma length_frame_packets pk fs : length (frame_packets pk fs) = length fs.
Proof. revert pk. induction fs as [|f fs IH]; intros pk; simpl; [done|]. by rewrite IH. Qed.

Lemma advance_ok pk n : packetizer_ok pk -> packetizer_ok (advance pk n).
Proof. revert pk. induction n; simpl; auto with kvm. Qed.

Lemma advance_add pk n k : advance (advance pk n) k = advance pk (n + k).
Proof. revert pk. induction n; simpl; auto. Qed.

Lemma mtu_advance pk n : mtu (advance pk n) = mtu pk.
Proof. revert pk. induction n as [|n IH]; intros pk; simpl; [done|]. by rewrite IH. Qed.

(** *** The sender produces a chain of frames *)

Lemma emit_record pk payload marker ts l :
  packetizer_ok pk -> (length payload + 12 <= mtu pk)%nat ->
  emit_packet record_packet pk payload marker ts l =
  (true, next_sequence pk, l ++ [rtp_packet pk payload marker ts]).
Proof.
  intros (_ & _ & _ & Hm) Hl. unfold emit_packet, RTP_HEADER_SIZE.
  destruct (Nat.ltb_spec RTP_H264_DEFAULT_MTU (length payload + 12)); [lia|done].
Qed.

(** The frames [fs] were sent from state [pk] for the units [units]. *)
Definition framed (s : pending) (fs : list frame) (units : list (bytes * Z * bool)) : Prop :=
  chained s fs None /\ omap completed fs = units /\ Forall frame_ok fs.

Lemma fragment_loop_framed fuel pk nal offset limit ts marker l :
  packetizer_ok pk -> is_u32 ts -> plain_nal nal -> (0 < limit)%nat -> (limit + 14 <= mtu pk)%nat ->
  (1 <= offset < length nal)%nat -> (length nal - offset <= fuel)%nat ->
  exists fs,
    fragment_loop record_packet fuel pk nal offset limit ts marker l =
      (true, advance pk (length fs), l ++ frame_packets pk fs) /\
    framed (if (offset =? 1)%nat then None else Some (nal, ts, offset)) fs [(nal, ts, marker)].
Proof.
  revert pk offset l. induction fuel as [|fuel IH];
    intros pk offset l Hpk Hts Hp Hlim Hmtu Ho Hf; [lia|].
  cbn [fragment_loop]. destruct (Nat.ltb_spec offset (length nal)); [|lia].
  set (size := if (length nal - offset <? limit)%nat then _ else _).
  assert (Hs : (0 < size <= limit)%nat /\ (offset + size <= length nal)%nat).
  { unfold size. destruct (Nat.ltb_spec (length nal - offset) limit); lia. }
  clearbody size. destruct Hs as [Hs Hend]. cbv zeta.
  rewrite emit_record by (rewrite ?length_fu_payload; auto; lia).
  pose (f := Frame nal (Some (offset, size)) ts (marker && (offset + size =? length nal)%nat)).
  assert (Hfit : fits (if (offset =? 1)%nat then None else Some (nal, ts, offset)) f).
  { destruct (Nat.eqb_spec offset 1); simpl; eauto. }
  assert (Hfok : frame_ok f).
  { split; [done|]. split; [done|]. simpl. split_and!; [lia..|].
    intros Hn%Nat.eqb_neq. by rewrite Hn, andb_false_r. }
  assert (Hpkt : forall fs, (l ++ [rtp_packet pk (fu_payload nal offset size) (f_marker f) ts]) ++
    frame_packets (next_sequence pk) fs = l ++ frame_packets pk (f :: fs)).
  { intros fs. by rewrite <- app_assoc. }
  destruct (Nat.eqb_spec (offset + size) (length nal)) as [E|E].
  - exists [f]. simpl andb in *. split.
    + rewrite <- (Hpkt []), app_nil_r.
      destruct fuel; cbn [fragment_loop]; rewrite E, Nat.ltb_irrefl;
        unfold f; simpl f_marker; try rewrite E, Nat.eqb_refl; done.
    + assert (Hc : completed f = Some (nal, ts, marker)).
      { unfold completed; simpl. rewrite E, Nat.eqb_refl, andb_true_r. done. }
      split_and!; [split; [done|]|..|by constructor].
      * unfold after. by rewrite Hc.
      * cbn [omap list_omap]. by rewrite Hc.
  - destruct (IH (next_sequence pk) (offset + size)%nat
      (l ++ [rtp_packet pk (fu_payload nal offset size) (f_marker f) ts]))
      as (fs & Hloop & Hch & Hom & Hok); auto with kvm; try lia.
    assert (Hc : completed f = None).
    { unfold completed; simpl. destruct (Nat.eqb_spec (offset + size) (length nal)); done. }
    exists (f :: fs). split.
    + rewrite <- Hpkt. unfold f in Hloop |- *. simpl f_marker in *.
      destruct (Nat.eqb_spec (offset + size) (length nal)); [done|]. done.
    + split_and!; [split; [done|]|..|by constructor].
      * unfold after. rewrite Hc. simpl. destruct (Nat.eqb_spec (offset + size) 1); [lia|done].
      * cbn [omap list_omap]. by rewrite Hc.
Qed.

Lemma packetize_marker_framed pk nal ts marker l :
  packetizer_ok pk -> is_u32 ts -> plain_nal nal ->
  exists fs,
    rtp_h264_packetize_marker record_packet pk nal ts marker l =
      (true, advance pk (length fs), l ++ frame_packets pk fs) /\
    framed None fs [(nal, ts, marker)].
Proof.
  intros Hpk Hts Hp. pose proof Hp as (Hok & Hne & Hmax & Hty). unfold rtp_h264_packetize_marker.
  destruct (Nat.eqb_spec (length nal) 0) as [E|_]; [by destruct nal|].
  destruct (Z.ltb_spec RTP_H264_MAX_NAL (Z.of_nat (length nal))); [lia|]. simpl orb. cbv iota zeta.
  pose proof Hpk as (_ & _ & Hm). unfold RTP_HEADER_SIZE.
  destruct (Nat.leb_spec (length nal) (mtu pk - 12)).
  - rewrite emit_record by (done || lia). exists [Frame nal None ts marker].
    split; [done|]. split_and!; [done..|]. apply Forall_singleton. by split_and!.
  - destruct (Nat.eqb_spec (mtu pk - 12 - 2) 0); [lia|].
    apply (fragment_loop_framed (length nal) pk nal 1); auto; lia.
Qed.

(** The units of one access unit with the marker each is sent with. *)
Fixpoint units_of (nals : list bytes) (ts : Z) : list (bytes * Z * bool) :=
  match nals with
  | [] => []
  | nal :: rest => (nal, ts, is_last rest) :: units_of rest ts
  end.

Lemma framed_app fs us fs' us' :
  framed None fs us -> framed None fs' us' -> framed None (fs ++ fs') (us ++ us').
Proof.
  intros (Hc & Ho & Hf) (Hc' & Ho' & Hf'). split_and!.
  - by eapply chained_app.
  - by rewrite omap_app, Ho, Ho'.
  - by apply Forall_app.
Qed.

Lemma send_nals_framed pk nals ts sent l :
  packetizer_ok pk -> is_u32 ts -> Forall plain_nal nals ->
  exists fs,
    send_nals record_packet pk nals ts sent l =
      (match nals with [] => sent | _ => true end,
       advance pk (length fs), l ++ frame_packets pk fs) /\
    framed None fs (units_of nals ts).
Proof.
  revert pk sent l. induction nals as [|nal nals IH]; intros pk sent l Hpk Hts Hp.
  { exists []. simpl. rewrite app_nil_r. split; [done|]. by split_and!. }
  apply Forall_cons_iff in Hp as [Hp1 Hp]. cbn [send_nals units_of].
  destruct (packetize_marker_framed pk nal ts (is_last nals) l) as (fs & -> & Hfs); auto.
  destruct (IH (advance pk (length fs)) true (l ++ frame_packets pk fs)) as (fs' & -> & Hfs');
    auto using advance_ok.
  exists (fs ++ fs'). split; [|by apply (framed_app fs [_])].
  rewrite advance_add, length_app, frame_packets_app, app_assoc. by destruct nals.
Qed.

(** A chain that leaves nothing pending completes some unit. *)
Lemma chained_completes s fs :
  chained s fs None -> fs <> [] \/ s <> None -> omap completed fs <> [].
Proof.
  revert s. induction fs as [|f fs IH]; intros s Hc Hne; simpl in Hc; [by destruct Hne|].
  destruct Hc as [_ Hc]. cbn [omap list_omap]. destruct (completed f) eqn:E; [done|].
  apply (IH (after f) Hc). right. unfold after. rewrite E. unfold completed in E.
  by destruct (f_part f) as [[o n]|].
Qed.

(** A frame pushed into a receiver that has missed nothing: the callback gets
    the unit the frame completes, if any. *)
Lemma push_frame_sync {C} (nal_callback : C -> bytes -> Z -> bool -> bool * C) loss_callback alloc
    pk s f r c :
  (forall n, alloc n = true) -> packetizer_ok pk -> frame_ok f -> fits s f -> in_sync pk r ->
  (forall nal ts o, s = Some (nal, ts, o) -> assembled nal ts o r) ->
  exists r',
    rtp_h264_reassembler_push alloc nal_callback loss_callback r
      (rtp_packet pk (f_payload f) (f_marker f) (f_ts f)) c =
    match completed f with
    | Some (nal, ts, m) => ((nal_callback c nal ts m).1, r', (nal_callback c nal ts m).2)
    | None => (true, r', c)
    end /\ in_sync (next_sequence pk) r' /\
    (forall nal ts o, after f = Some (nal, ts, o) -> assembled nal ts o r').
Proof.
  intros Ha Hpk ((Hok & Hne & Hmax & Hty) & Hts & Hpart) Hfit Hsync Hr.
  rewrite push_rtp_packet; auto.
  2: { unfold f_payload. by destruct (f_part f) as [[o n]|]. }
  destruct f as [nal part ts m]. unfold f_payload, after, completed in *. simpl in *.
  destruct part as [[o n]|].
  - destruct Hpart as (Ho & Hn & Hl & _).
    destruct (push_fu nal_callback alloc Ha (received pk r) nal o n ts m c)
      as (r' & [Hs1 Hs2] & Hp); auto.
    { intros Ho1. destruct s as [[[nal' ts'] o']|]; simpl in Hfit; [|done].
      destruct Hfit as (-> & -> & n' & [= -> _]). by apply (Hr nal' ts' o'). }
    exists r'. destruct (o + n =? length nal)%nat.
    + destruct Hp as [-> _]. split_and!; [done| |done]. by intros _; rewrite Hs1.
    + destruct Hp as [-> Has]. split_and!; [done| |].
      * by intros _; rewrite Hs1.
      * intros nal' ts' o' [= <- <- <-]. done.
  - exists (received pk r). unfold push_payload.
    destruct (Z.leb_spec 1 (Z.land (byte_at nal 0) 31)); [|lia].
    destruct (Z.leb_spec (Z.land (byte_at nal 0) 31) 23); [|lia]. simpl.
    destruct (nal_callback c nal ts m) as [ok c']. split_and!; [done|by apply received_sync|done].
Qed.

(** *** The receiver on any sub-sequence of the packets *)

(** The receiver's callback that records every unit. *)
Definition record_nal (c : list (bytes * Z * bool)) (nal : bytes) (ts : Z) (marker : bool)
    : bool * list (bytes * Z * bool) := (true, c ++ [(nal, ts, marker)]).

Section Lossy.
Variable alloc : Z -> bool.
Hypothesis alloc_ok : forall n, alloc n = true.

(** The receiver fed with a list of packets; a rejected packet is ignored, as
    the read loop of the client does. *)
Fixpoint receive (r : RtpH264Reassembler) (packets : list bytes) (c : list (bytes * Z * bool))
    : RtpH264Reassembler * list (bytes * Z * bool) :=
  match packets with
  | [] => (r, c)
  | p :: packets =>
      let '(_, r', c') := rtp_h264_reassembler_push alloc record_nal (fun c => c) r p c in
      receive r' packets c'
  end.

(** A unit under assembly is exactly the sender's pending one. *)
Definition tracks (s : pending) (r : RtpH264Reassembler) : Prop :=
  assembling r = true ->
  exists nal ts o, s = Some (nal, ts, o) /\ assembled nal ts o r.

Lemma push_orphan r nal o n ts marker c :
  bytes_ok nal -> (0 < n)%nat -> (o + n <= length nal)%nat -> o <> 1%nat -> assembling r = false ->
  push_payload alloc record_nal r (fu_payload nal o n) ts marker c = (false, r, c).
Proof.
  intros Hok Hn Hl Ho Ha.
  destruct (fu_bits (byte_at nal 0) (o =? 1)%nat (o + n =? length nal)%nat)
    as (B0 & Bs & _); [by apply byte_at_ok|]. cbv zeta in *.
  unfold push_payload.
  change (byte_at (fu_payload nal o n) 0) with (u8 (Z.lor (Z.land (byte_at nal 0) 224) 28)).
  rewrite B0. simpl (_ && _). simpl (28 =? 24). cbv iota. rewrite length_fu_payload by lia.
  destruct (Nat.ltb_spec (2 + n) 3); [lia|]. simpl (negb (28 =? 28) || false). cbv iota.
  unfold push_fragment.
  change (byte_at (fu_payload nal o n) 1)
    with (u8 (Z.lor (Z.lor (Z.land (byte_at nal 0) 31) (if (o =? 1)%nat then 128 else 0))
             (if (o + n =? length nal)%nat then 64 else 0))).
  rewrite Bs. destruct (Nat.eqb_spec o 1); [done|]. cbv zeta. simpl. by rewrite Ha.
Qed.

(** One frame, pushed into a receiver that tracks the sender: at most the unit
    the frame completes is delivered, and the receiver still tracks. *)
Lemma push_frame s f r c :
  frame_ok f -> fits s f -> tracks s r ->
  exists ok r' d,
    push_payload alloc record_nal r (f_payload f) (f_ts f) (f_marker f) c = (ok, r', c ++ d) /\
    sublist d (option_list (completed f)) /\ same_sequence r r' /\ tracks (after f) r'.
Proof.
  intros ((Hok & Hne & Hmax & Hty) & Hts & Hpart) Hfit Htr. destruct f as [nal part ts m].
  unfold f_payload, after, completed in *. simpl in *. destruct part as [[o n]|].
  - destruct Hpart as (Ho & Hn & Hl & _). simpl in Hfit.
    destruct (decide (o <> 1%nat /\ assembling r = false)) as [[Ho1 Ha]|Hcase].
    { exists false, r, []. rewrite push_orphan by done. rewrite app_nil_r.
      split_and!; [done|apply sublist_nil_l|done..|]. by intros Ha'; rewrite Ha in Ha'. }
    destruct (push_fu record_nal alloc alloc_ok r nal o n ts m c) as (r' & Hs & Hp); auto.
    { intros Ho1. destruct (assembling r) eqn:Ha; [|tauto].
      destruct (Htr Ha) as (nal' & ts' & o' & -> & Has). simpl in Hfit.
      destruct Hfit as (-> & -> & n' & [= -> _]). done. }
    destruct (o + n =? length nal)%nat.
    + destruct Hp as [-> Ha']. exists true, r', [(nal, ts, m)].
      split_and!; [done|by apply sublist_skip|done|]. intros Hb. by rewrite Ha' in Hb.
    + destruct Hp as [-> Ha']. exists true, r', []. rewrite app_nil_r.
      split_and!; [done..|]. intros _. by exists nal, ts, (o + n)%nat.
  - unfold push_payload. destruct (Z.leb_spec 1 (Z.land (byte_at nal 0) 31)); [|lia].
    destruct (Z.leb_spec (Z.land (byte_at nal 0) 31) 23); [|lia]. simpl.
    exists true, r, [(nal, ts, m)]. split_and!; [done|by apply sublist_skip|done|].
    intros Ha. destruct (Htr Ha) as (nal' & ts' & o' & -> & _). simpl in Hfit.
    destruct Hfit as (_ & _ & n' & [=]).
Qed.

(** The receiver last heard of the sender [d] packets ago; only if none was
    lost since ([d = 0]) may a unit be under assembly across the gap. *)
Definition hears (pk : RtpH264Packetizer) (s : pending) (r : RtpH264Reassembler) (room : nat)
    : Prop :=
  Z.of_nat room <= 65536 /\
  if have_sequence r then
    exists d, expected_sequence r = u16 (sequence pk - Z.of_nat d) /\
      Z.of_nat (d + room) <= 65536 /\ (d = 0%nat -> tracks s r)
  else assembling r = false.

Lemma push_hears pk s f r c room :
  packetizer_ok pk -> frame_ok f -> fits s f -> hears pk s r (S room) ->
  exists ok r' d,
    rtp_h264_reassembler_push alloc record_nal (fun c => c) r
      (rtp_packet pk (f_payload f) (f_marker f) (f_ts f)) c = (ok, r', c ++ d) /\
    sublist d (option_list (completed f)) /\ hears (next_sequence pk) (after f) r' room.
Proof.
  intros Hpk Hf Hfit [Hroom Hh].
  pose proof Hpk as (Hseq & _). unfold rtp_h264_reassembler_push.
  set (p := rtp_packet pk (f_payload f) (f_marker f) (f_ts f)).
  assert (Hlen : (length p <=? RTP_HEADER_SIZE)%nat = false).
  { change (length p) with (12 + length (f_payload f))%nat. apply Nat.leb_gt.
    unfold RTP_HEADER_SIZE. destruct Hf as ((_ & Hne & _) & _). unfold f_payload.
    destruct (f_part f) as [[o n]|]; [simpl; lia|]. destruct (f_nal f); [done|simpl; lia]. }
  assert (Eseq : read_u16 (drop 2 p) = sequence pk) by (by apply read_write_u16).
  assert (Ets : read_u32 (drop 4 p) = f_ts f) by (apply read_write_u32, Hf).
  assert (Em : negb (Z.land (byte_at p 1) 128 =? 0) = f_marker f)
    by (unfold p; by destruct (f_marker f)).
  rewrite Hlen, Eseq, Ets, Em. change (Z.shiftr (byte_at p 0) 6 =? 2) with true. simpl orb.
  change (drop RTP_HEADER_SIZE p) with (f_payload f). cbv iota zeta.
  set (r1 := if have_sequence r && _ then discard r else r).
  set (r2 := MkReassembler _ _ _ _ _ _ _).
  assert (Htr : tracks s r2).
  { intros Ha. unfold r2 in Ha. simpl in Ha. unfold r1 in Ha.
    destruct (have_sequence r) eqn:Eh; simpl in Ha; [|congruence].
    destruct Hh as (d & He & Hd & Ht). destruct (decide (d = 0%nat)) as [->|Hd0].
    - rewrite He, Z.sub_0_r, u16_id, Z.eqb_refl in Ha by done. simpl in Ha.
      unfold r2, r1. rewrite He, Z.sub_0_r, (u16_id (sequence pk)), Z.eqb_refl by done. simpl. by apply Ht.
    - destruct (Z.eqb_spec (sequence pk) (expected_sequence r)) as [E|]; [|done].
      rewrite He in E. unfold is_u16, u16 in *. exfalso. Z.div_mod_to_equations. lia. }
  destruct (push_frame s f r2 c Hf Hfit Htr) as (ok & r' & d & Hp & Hsub & [Hs1 Hs2] & Htr').
  exists ok, r', d. split_and!; [|done|].
  - destruct (have_sequence r && _); exact Hp.
  - split; [lia|]. rewrite Hs2. simpl. exists 0%nat. rewrite Hs1. simpl.
    split_and!; [|lia|done].
    rewrite Z.sub_0_r. by rewrite (u16_id (u16 _)) by apply u16_range.
Qed.

Lemma receive_sublist fs : forall pk s s' r c l,
  packetizer_ok pk -> chained s fs s' -> Forall frame_ok fs -> hears pk s r (length fs) ->
  sublist l (frame_packets pk fs) ->
  exists r' d, receive r l c = (r', c ++ d) /\ sublist d (omap completed fs).
Proof.
  induction fs as [|f fs IH]; intros pk s s' r c l Hpk Hch Hok Hh Hsub.
  { apply sublist_nil_r in Hsub as ->. exists r, []. by rewrite app_nil_r. }
  simpl in Hch, Hsub. destruct Hch as [Hfit Hch]. apply Forall_cons_iff in Hok as [Hf Hok].
  change (omap completed (f :: fs)) with
    (match completed f with Some x => x :: omap completed fs | None => omap completed fs end).
  apply sublist_cons_r in Hsub as [Hsub|(l' & -> & Hsub)].
  - destruct (IH (next_sequence pk) (after f) s' r c l) as (r' & d & -> & Hd); auto with kvm.
    + destruct Hh as [Hroom Hh]. simpl in Hroom. split; [lia|].
      destruct (have_sequence r); [|done]. destruct Hh as (d & He & Hd & _). exists (S d). simpl in Hd. split_and!; [|lia|lia].
      rewrite He. simpl. mlia.
    + exists r', d. split; [done|]. destruct (completed f); [by apply sublist_cons|done].
  - cbn [receive].
    destruct (push_hears pk s f r c (length fs)) as (ok & r1 & d1 & -> & Hd1 & Hh1); auto.
    destruct (IH (next_sequence pk) (after f) s' r1 (c ++ d1) l') as (r' & d & -> & Hd);
      auto with kvm.
    exists r', (d1 ++ d). rewrite app_assoc. split; [done|].
    destruct (completed f); simpl in Hd1.
    + by apply (sublist_app d1 [p] d).
    + apply sublist_nil_r in Hd1 as ->. done.
Qed.
End Lossy.

(** A whole session: access units sent one after the other. *)
Fixpoint send_session {S} (callback : S -> bytes -> bool * S) (pk : RtpH264Packetizer)
    (aus : list (list bytes * Z)) (context : S) : RtpH264Packetizer * S :=
  match aus with
  | [] => (pk, context)
  | (nals, ts) :: aus =>
      let '(_, pk', context') := rtp_h264_packetize_access_unit callback pk (annexb nals) ts context in
      send_session callback pk' aus context'
  end.

Definition session_ok (aus : list (list bytes * Z)) : Prop :=
  Forall (fun '(nals, ts) => nals <> [] /\ Forall plain_nal nals /\ Forall nal_clean nals /\ is_u32 ts)
    aus.

Definition session_units (aus : list (list bytes * Z)) : list (bytes * Z * bool) :=
  concat (map (fun '(nals, ts) => units_of nals ts) aus).

Lemma send_session_framed pk aus l :
  packetizer_ok pk -> session_ok aus ->
  exists fs,
    send_session record_packet pk aus l = (advance pk (length fs), l ++ frame_packets pk fs) /\
    framed None fs (session_units aus).
Proof.
  revert pk l. induction aus as [|[nals ts] aus IH]; intros pk l Hpk Hs.
  { exists []. simpl. rewrite app_nil_r. split; [done|]. by split_and!. }
  apply Forall_cons_iff in Hs as [(Hne & Hp & Hc & Hts) Hs]. cbn [send_session].
  rewrite packetize_access_unit_send by auto using plain_nonempty.
  destruct (send_nals_framed pk nals ts false l) as (fs & -> & Hfs); auto.
  destruct (IH (advance pk (length fs)) (l ++ frame_packets pk fs)) as (fs' & -> & Hfs');
    auto using advance_ok.
  exists (fs ++ fs'). rewrite advance_add, length_app, frame_packets_app, app_assoc.
  split; [done|]. by apply framed_app.
Qed.

(** C3: when the network drops any of the packets of a session of access
    units, the units [rtp_h264_reassembler_push] hands to its callback are a
    sub-sequence of the units that were sent: whole, in order, with their
    timestamp and marker, never twice, never a unit with a hole in it or one
    spliced from two (as long as fewer than 2^16 packets are in flight, the
    range of the sequence number). *)
Theorem lossy_delivery_sound (alloc : Z -> bool) pk aus :
  (forall n, alloc n = true) -> packetizer_ok pk -> session_ok aus ->
  let packets := (send_session record_packet pk aus []).2 in
  Z.of_nat (length packets) <= 65536 ->
  forall received, sublist received packets ->
  sublist (receive alloc rtp_h264_reassembler_init received []).2 (session_units aus).
Proof.
  intros Ha Hpk Hs packets Hlen received Hsub. unfold packets in *.
  destruct (send_session_framed pk aus []) as (fs & E & Hch & Hom & Hok); auto.
  rewrite E in *. simpl in Hsub.
  destruct (receive_sublist alloc Ha fs pk None None rtp_h264_reassembler_init [] received)
    as (r' & d & -> & Hd); auto; [|by rewrite <- Hom].
  split; [|done]. rewrite <- (length_frame_packets pk). exact Hlen.
Qed.

(** C16: an access unit of any number of NAL units, sent through
    [rtp_h264_packetize_access_unit] and pushed packet by packet into
    [rtp_h264_reassembler_push], reaches the receiver's callback as exactly
    those NAL units, in order, byte for byte, with the timestamp it was sent
    with and the marker on the last unit only, whether the units travel as
    single packets or as FU-A fragments, and sender and receiver are in step
    for the next access unit. *)
Theorem rtp_access_unit_roundtrip {C} (nal_callback : C -> bytes -> Z -> bool -> bool * C)
    (loss_callback : C -> C) (alloc : Z -> bool) pk nals ts r c :
  (forall n, alloc n = true) ->
  packetizer_ok pk -> is_u32 ts -> nals <> [] -> Forall plain_nal nals -> Forall nal_clean nals ->
  in_sync pk r ->
  exists pk' r',
    rtp_h264_packetize_access_unit (channel nal_callback loss_callback alloc) pk (annexb nals) ts
      (r, c) = (true, pk', (r', deliver_all nal_callback c nals ts)) /\
    packetizer_ok pk' /\ mtu pk' = mtu pk /\ in_sync pk' r'.
Proof.
  intros Ha Hpk Hts Hne Hp Hc Hs.
  rewrite packetize_access_unit_send by auto using plain_nonempty.
  destruct (send_nals_roundtrip nal_callback loss_callback alloc pk nals ts false r c)
    as (pk' & r' & -> & H); auto.
  exists pk', r'. split; [|done]. by destruct nals.
Qed.

(** Whatever bytes [rtp_h264_packetize_access_unit] is given, every packet
    it hands to the callback holds an RTP header and at least one payload byte,
    fits the configured MTU, and carries the next sequence number modulo 2^16. *)
Theorem rtp_packets_fit pk data ts :
  packetizer_ok pk ->
  let '(_, pk', packets) := rtp_h264_packetize_access_unit record_packet pk data ts [] in
  mtu pk' = mtu pk /\ sequence pk' = u16 (sequence pk + Z.of_nat (length packets)) /\
  forall i p, packets !! i = Some p ->
    (RTP_HEADER_SIZE < length p <= mtu pk)%nat /\
    read_u16 (drop 2 p) = u16 (sequence pk + Z.of_nat i).
Proof.
  intros Hpk. pose proof (packetize_access_unit_emitted pk data ts Hpk) as H.
  destruct (rtp_h264_packetize_access_unit _ _ _ _ _) as [[ok pk'] packets].
  destruct H as (? & _ & ? & ?). done.
Qed.

(** ** Witnesses *)

Definition small_packetizer : RtpH264Packetizer := rtp_h264_packetizer_init 16 7.
Definition sample_nals : list bytes := [[103; 1; 2]; [101; 9; 8; 7; 6; 5; 4]].

Lemma nal_clean_check (nal : bytes) :
  forallb (fun i => negb (at_start_code (nal ++ [0; 0; 0; 1]) i)) (seq 0 (length nal)) = true ->
  nal_clean nal.
Proof.
  intros H i Hi. rewrite forallb_forall in H.
  specialize (H i ltac:(apply in_seq; lia)). unfold at_start_code in H.
  rewrite negb_involutive in H. by apply Nat.eqb_eq.
Qed.

Lemma rtp_access_unit_roundtrip_witness :
  exists pk' r',
    rtp_h264_packetize_access_unit
      (channel record_nal (fun c => c) (fun _ => true)) small_packetizer (annexb sample_nals) 3000
      (rtp_h264_reassembler_init, []) =
    (true, pk', (r', deliver_all record_nal [] sample_nals 3000)) /\
    packetizer_ok pk' /\ mtu pk' = mtu small_packetizer /\ in_sync pk' r'.
Proof.
  apply (rtp_access_unit_roundtrip record_nal (fun c => c) (fun _ => true) small_packetizer
    sample_nals 3000 rtp_h264_reassembler_init []); try done.
  - unfold packetizer_ok, is_u16, is_u32, RTP_H264_DEFAULT_MTU. simpl. lia.
  - repeat constructor; done.
  - repeat constructor; apply nal_clean_check; reflexivity.
Defined.

Lemma rtp_packets_fit_witness :
  let '(_, pk', packets) :=
    rtp_h264_packetize_access_unit record_packet small_packetizer (annexb sample_nals) 3000 [] in
  mtu pk' = mtu small_packetizer /\
  sequence pk' = u16 (sequence small_packetizer + Z.of_nat (length packets)) /\
  forall i p, packets !! i = Some p ->
    (RTP_HEADER_SIZE < length p <= mtu small_packetizer)%nat /\
    read_u16 (drop 2 p) = u16 (sequence small_packetizer + Z.of_nat i).
Proof.
  apply (rtp_packets_fit small_packetizer (annexb sample_nals) 3000).
  unfold packetizer_ok, is_u16, is_u32, RTP_H264_DEFAULT_MTU. simpl. lia.
Defined.

Definition middle_fragment : bytes := [128; 96; 0; 9; 0; 0; 0; 1; 0; 0; 0; 7; 124; 5; 1; 2; 3].
Definition waiting_reassembler : RtpH264Reassembler := MkReassembler 8 true true [101; 1; 2] 2048 101 1.

Lemma reassembler_push_bounded_witness :
  let r' := (rtp_h264_reassembler_push (fun _ => true) record_nal (fun c => c) waiting_reassembler
               middle_fragment []).1.2 in
  reassembler_ok r' /\ Z.of_nat (length (buffer r')) <= RTP_H264_MAX_NAL.
Proof.
  apply (reassembler_push_bounded record_nal (fun c => c) (fun _ => true) waiting_reassembler
    middle_fragment []).
  split; [right; by exists 0|done].
Defined.

Lemma lossy_delivery_sound_witness :
  let packets := (send_session record_packet small_packetizer [(sample_nals, 3000)] []).2 in
  sublist (receive (fun _ => true) rtp_h264_reassembler_init (take 2 packets) []).2
    (session_units [(sample_nals, 3000)]).
Proof.
  refine (lossy_delivery_sound (fun _ => true) small_packetizer [(sample_nals, 3000)] _ _ _ _
    (take 2 (send_session record_packet small_packetizer [(sample_nals, 3000)] []).2) _).
  - done.
  - unfold packetizer_ok, is_u16, is_u32, RTP_H264_DEFAULT_MTU. simpl. lia.
  - constructor; [|done]. split_and!; [done|by repeat constructor| |done].
    repeat constructor; apply nal_clean_check; reflexivity.
  - by vm_compute.
  - apply sublist_take.
Defined.

(** A fragment that cannot be appended leaves the unit under assembly: the next
    fragments are appended behind the hole, and the end fragment delivers a unit
    that was never sent. *)
Example reassembler_hole_after_failed_append :
  let packet n payload := [128; 96; 0; n; 0; 0; 0; 1; 0; 0; 0; 7] ++ payload in
  let push r p c :=
    let '(_, r', c') :=
      rtp_h264_reassembler_push (fun n => n <=? 2048) record_nal (fun c => c) r p c in (r', c') in
  let '(r1, c1) := push rtp_h264_reassembler_init (packet 1 ([124; 133] ++ replicate 1200 9)) [] in
  let '(r2, c2) := push r1 (packet 2 ([124; 5] ++ replicate 900 8)) c1 in
  let '(r3, c3) := push r2 (packet 3 [124; 69; 7]) c2 in
  c3 = [([101] ++ replicate 1200 9 ++ [7], 1, false)].
Proof. vm_compute. reflexivity. Qed.
