(* ===== verification/RtpClient.v ===== *)
(** * RTP client of the gateway ([src/src/rtp_client.h], [src/src/rtp_client.c])

    Collects the NAL units of one timestamp into an Annex-B access unit and
    hands it over at the packet that carries the marker.  The socket is a script
    of the results its [recv] calls give. *)

From S2P Require Import Prelude RtpH264.

(** [access_unit] is the first [access_unit_length] bytes of the allocation. *)
Record RtpClient := MkClient {
  fd : Z;
  receive_buffer_bytes : Z;
  reassembler : RtpH264Reassembler;
  access_unit : bytes;
  access_unit_capacity : Z;
  access_unit_capacity_hint : Z;
  access_unit_timestamp : Z;
  access_unit_ssrc : Z;
  have_access_unit : bool;
  losses : Z }.

(** [*client = (RtpClient){ .fd = fd }] *)
Definition empty_client (fd : Z) : RtpClient :=
  MkClient fd 0 rtp_h264_reassembler_init [] 0 0 0 0 false 0.

Definition set_unit (c : RtpClient) (unit : bytes) (cap : Z) : RtpClient :=
  MkClient (fd c) (receive_buffer_bytes c) (reassembler c) unit cap (access_unit_capacity_hint c)
    (access_unit_timestamp c) (access_unit_ssrc c) (have_access_unit c) (losses c).

Definition set_reassembler (c : RtpClient) (r : RtpH264Reassembler) : RtpClient :=
  MkClient (fd c) (receive_buffer_bytes c) r (access_unit c) (access_unit_capacity c)
    (access_unit_capacity_hint c) (access_unit_timestamp c) (access_unit_ssrc c)
    (have_access_unit c) (losses c).

(** One step of the growth loops: double, saturating at the limit. *)
Definition double_capacity (cap : Z) : Z :=
  if RTP_H264_MAX_NAL / 2 <? cap then RTP_H264_MAX_NAL else cap * 2.

(** [while (capacity < needed) ...]; ten steps reach the limit from 4096. *)
Fixpoint grow_unit (fuel : nat) (cap needed : Z) : Z :=
  match fuel with
  | O => cap
  | S fuel => if cap <? needed then grow_unit fuel (double_capacity cap) needed else cap
  end.

Section Client.
Variable alloc : Z -> bool.

Definition append_access_unit (c : RtpClient) (data : bytes) : bool * RtpClient :=
  if RTP_H264_MAX_NAL - Z.of_nat (length (access_unit c)) <? Z.of_nat (length data)
  then (false, c)
  else
    let needed := Z.of_nat (length (access_unit c) + length data) in
    if access_unit_capacity c <? needed then
      let cap0 := if access_unit_capacity c =? 0 then access_unit_capacity_hint c
                  else access_unit_capacity c in
      let cap1 := if (cap0 <? 4096) || (RTP_H264_MAX_NAL <? cap0) then 4096 else cap0 in
      let cap := grow_unit 10 cap1 needed in
      if alloc cap then (true, set_unit c (access_unit c ++ data) cap) else (false, c)
    else (true, set_unit c (access_unit c ++ data) (access_unit_capacity c)).

(** [access_unit_capacity_hint] *)
Fixpoint capacity_hint_loop (fuel : nat) (cap length : Z) : Z :=
  match fuel with
  | O => cap
  | S fuel => if (cap <? length) && (cap <? RTP_H264_MAX_NAL)
              then capacity_hint_loop fuel (double_capacity cap) length else cap
  end.

Definition capacity_hint (length : Z) : Z := capacity_hint_loop 10 4096 length.

Definition save_nal (c : RtpClient) (nal : bytes) (ts : Z) (marker : bool) : bool * RtpClient :=
  let c1 :=
    if negb (have_access_unit c) || negb (access_unit_timestamp c =? ts)
    then MkClient (fd c) (receive_buffer_bytes c) (reassembler c) [] (access_unit_capacity c)
           (access_unit_capacity_hint c) ts (access_unit_ssrc c) true (losses c)
    else c in
  let '(ok, c2) := append_access_unit c1 [0; 0; 0; 1] in
  if ok then append_access_unit c2 nal else (false, c2).

Definition count_loss (c : RtpClient) : RtpClient :=
  MkClient (fd c) (receive_buffer_bytes c) (reassembler c) [] (access_unit_capacity c)
    (access_unit_capacity_hint c) (access_unit_timestamp c) (access_unit_ssrc c) false
    (u32 (losses c + 1)).

(** [socket], [setsockopt(SO_RCVTIMEO)] and [bind] succeed or fail; [buffer]
    is what [getsockopt(SO_RCVBUF)] reports. *)
Definition rtp_client_open (port : Z) (socket : Z) (timeout_ok bind_ok : bool) (buffer : Z)
    (c : RtpClient) : bool * RtpClient :=
  if port =? 0 then (false, c)
  else if socket <? 0 then (false, empty_client socket)
  else
    let opened fd := MkClient fd buffer rtp_h264_reassembler_init [] 0 0 0 0 false 0 in
    if negb timeout_ok then (false, opened (-1))
    else if negb bind_ok then (false, opened (-1))
    else (true, opened socket).

Definition rtp_client_close (c : RtpClient) : RtpClient := empty_client (-1).

Inductive recv_result := Datagram (packet : bytes) | Interrupted | Failed.

(** One datagram: [recv] truncates it to the 1500-byte packet buffer. *)
Definition client_push (c : RtpClient) (packet : bytes) : bool * RtpClient :=
  let '(ok, r, c') :=
    rtp_h264_reassembler_push alloc save_nal count_loss (reassembler c) packet c in
  (ok, set_reassembler c' r).

Inductive read_result :=
| ReadFrame (data : bytes) (c : RtpClient) (rest : list recv_result)
| ReadFailed (c : RtpClient) (rest : list recv_result)
| ReadBlocked (c : RtpClient).

(** The access unit is handed over and the client forgets the allocation. *)
Definition take_access_unit (c : RtpClient) (packet : bytes) : RtpClient :=
  MkClient (fd c) (receive_buffer_bytes c) (reassembler c) [] 0
    (capacity_hint (Z.of_nat (length (access_unit c)))) (access_unit_timestamp c)
    (read_u32 (drop 8 packet)) false (losses c).

Fixpoint read_loop (c : RtpClient) (socket : list recv_result) : read_result :=
  match socket with
  | [] => ReadBlocked c
  | Interrupted :: socket => read_loop c socket
  | Failed :: socket => ReadFailed c socket
  | Datagram data :: socket =>
      if (length data =? 0)%nat then ReadFailed c socket
      else
        let packet := take 1500 data in
        let '(ok, c1) := client_push c packet in
        if negb ok then read_loop c1 socket
        else if (Z.land (byte_at packet 1) 128 =? 0) || (length (access_unit c1) =? 0)%nat
        then read_loop c1 socket
        else ReadFrame (access_unit c1) (take_access_unit c1 packet) socket
  end.

Definition rtp_client_read_h264 (c : RtpClient) (socket : list recv_result) : read_result :=
  if fd c <? 0 then ReadFailed c socket else read_loop c socket.
End Client.

(** ** Lemmas: the access-unit buffer *)

Definition unit_ok (c : RtpClient) : Prop :=
  0 <= access_unit_capacity c <= RTP_H264_MAX_NAL /\
  Z.of_nat (length (access_unit c)) <= access_unit_capacity c.

Lemma double_capacity_range cap :
  0 < cap <= RTP_H264_MAX_NAL ->
  cap <= double_capacity cap <= RTP_H264_MAX_NAL /\
  (double_capacity cap = 2 * cap \/ double_capacity cap = RTP_H264_MAX_NAL).
Proof.
  unfold double_capacity, RTP_H264_MAX_NAL. intros H.
  destruct (Z.ltb_spec (2 * 1024 * 1024 / 2) cap) as [Hl|Hl]; change (2 * 1024 * 1024 / 2) with 1048576 in Hl; lia.
Qed.

(** The growth loop ends above [needed] and inside the limit. *)
Lemma grow_unit_range fuel cap needed :
  0 < cap <= RTP_H264_MAX_NAL -> needed <= RTP_H264_MAX_NAL ->
  RTP_H264_MAX_NAL <= cap * 2 ^ Z.of_nat fuel ->
  needed <= grow_unit fuel cap needed <= RTP_H264_MAX_NAL.
Proof.
  revert cap. induction fuel as [|fuel IH]; intros cap Hc Hn Hf; cbn [grow_unit];
    [change (2 ^ Z.of_nat 0) with 1 in Hf; lia|].
  destruct (Z.ltb_spec cap needed); [|lia].
  destruct (double_capacity_range cap Hc) as [Hr Hd]. apply IH; [lia|done|].
  rewrite Nat2Z.inj_succ, Z.pow_succ_r in Hf by lia.
  pose proof (Z.pow_pos_nonneg 2 (Z.of_nat fuel) ltac:(lia) ltac:(lia)).
  destruct Hd as [->| ->]; nia.
Qed.

Section Proofs.
Variable alloc : Z -> bool.

Lemma append_unit_ok c data : unit_ok c -> unit_ok (append_access_unit alloc c data).2.
Proof.
  intros [Hcap Hlen]. unfold append_access_unit.
  destruct (Z.ltb_spec (RTP_H264_MAX_NAL - Z.of_nat (length (access_unit c)))
    (Z.of_nat (length data))); [done|]. cbv zeta.
  destruct (Z.ltb_spec (access_unit_capacity c)
    (Z.of_nat (length (access_unit c) + length data))).
  - set (cap1 := if _ || _ then 4096 else _).
    assert (4096 <= cap1 <= RTP_H264_MAX_NAL).
    { unfold cap1, RTP_H264_MAX_NAL in *. generalize (if access_unit_capacity c =? 0
        then access_unit_capacity_hint c else access_unit_capacity c). intros cap0.
      destruct (Z.ltb_spec cap0 4096), (Z.ltb_spec (2 * 1024 * 1024) cap0); simpl; lia. }
    pose proof (grow_unit_range 10 cap1 (Z.of_nat (length (access_unit c) + length data))
      ltac:(lia) ltac:(lia) ltac:(unfold RTP_H264_MAX_NAL; change (2 ^ Z.of_nat 10) with 1024; lia)).
    destruct (alloc _); [|done]. unfold unit_ok. cbn [snd set_unit access_unit access_unit_capacity].
    rewrite length_app. lia.
  - split; [done|]. simpl. rewrite length_app. lia.
Qed.

Lemma save_nal_unit_ok c nal ts m : unit_ok c -> unit_ok (save_nal alloc c nal ts m).2.
Proof.
  intros Hc. unfold save_nal. set (c1 := if _ || _ then _ else _).
  assert (H1 : unit_ok c1).
  { unfold c1. destruct (_ || _); [|done]. destruct Hc as [? ?]. split; simpl; lia. }
  pose proof (append_unit_ok c1 [0; 0; 0; 1] H1) as H2.
  destruct (append_access_unit alloc c1 [0; 0; 0; 1]) as [[] c2]; [|done].
  by apply append_unit_ok.
Qed.

Lemma count_loss_unit_ok c : unit_ok c -> unit_ok (count_loss c).
Proof. intros [? ?]. split; simpl; lia. Qed.

Definition client_ok (c : RtpClient) : Prop := unit_ok c /\ reassembler_ok (reassembler c).

Lemma client_push_ok c packet : client_ok c -> client_ok (client_push alloc c packet).2.
Proof.
  intros [Hu Hr]. unfold client_push.
  pose proof (push_context (save_nal alloc) count_loss alloc unit_ok
    (save_nal_unit_ok) (count_loss_unit_ok) (reassembler c) packet c Hu) as H1.
  pose proof (push_reassembler_ok (save_nal alloc) count_loss alloc (reassembler c) packet c Hr) as H2.
  destruct (rtp_h264_reassembler_push _ _ _ _ _ _) as [[ok r] c']. done.
Qed.

Lemma take_access_unit_ok c packet : client_ok c -> client_ok (take_access_unit c packet).
Proof. intros [_ Hr]. split; [|done]. done. Qed.

(** Whatever datagrams, interruptions and errors the socket yields and
    whatever the allocator answers, [rtp_client_read_h264] keeps both buffers
    of the client inside their allocations of at most 2 MB, and a returned
    access unit is never empty and never larger than [RTP_H264_MAX_NAL]. *)
Theorem client_read_bounded c socket :
  client_ok c ->
  match rtp_client_read_h264 alloc c socket with
  | ReadFrame data c' _ =>
      0 < Z.of_nat (length data) <= RTP_H264_MAX_NAL /\ access_unit c' = [] /\ client_ok c'
  | ReadFailed c' _ | ReadBlocked c' => client_ok c'
  end.
Proof.
  intros Hc. unfold rtp_client_read_h264. destruct (_ <? 0); [done|].
  revert c Hc. induction socket as [|[data| |] socket IH]; intros c Hc; cbn [read_loop];
    [done| |by apply IH|done].
  destruct (_ =? 0)%nat; [done|]. cbv zeta.
  pose proof (client_push_ok c (take 1500 data) Hc) as Hp.
  destruct (client_push _ _ _) as [[] c1]; simpl in Hp |- *; [|by apply IH].
  destruct (_ || _) eqn:E; [by apply IH|]. apply orb_false_iff in E as [_ E%Nat.eqb_neq].
  split; [|split; [done|by apply take_access_unit_ok]].
  destruct Hp as [[? ?] _]. lia.
Qed.

(** *** Round trip *)

Hypothesis alloc_ok : forall n, alloc n = true.

Lemma append_unit_fits c data :
  Z.of_nat (length (access_unit c) + length data) <= RTP_H264_MAX_NAL ->
  exists cap, append_access_unit alloc c data = (true, set_unit c (access_unit c ++ data) cap).
Proof.
  intros H. unfold append_access_unit.
  destruct (Z.ltb_spec (RTP_H264_MAX_NAL - Z.of_nat (length (access_unit c)))
    (Z.of_nat (length data))); [lia|]. cbv zeta. destruct (_ <? _); [rewrite alloc_ok|]; eauto.
Qed.

(** What the client has collected of the access unit with timestamp [ts]. *)
Definition collected (c : RtpClient) (ts : Z) : bytes :=
  if negb (have_access_unit c) || negb (access_unit_timestamp c =? ts) then [] else access_unit c.

Definition same_client (c c' : RtpClient) : Prop :=
  fd c' = fd c /\ losses c' = losses c /\ reassembler c' = reassembler c.

Lemma save_nal_collects c nal ts m :
  Z.of_nat (length (collected c ts) + (4 + length nal)) <= RTP_H264_MAX_NAL ->
  exists c', save_nal alloc c nal ts m = (true, c') /\ same_client c c' /\
    access_unit c' = collected c ts ++ [0; 0; 0; 1] ++ nal /\
    collected c' ts = collected c ts ++ [0; 0; 0; 1] ++ nal.
Proof.
  intros Hl. unfold save_nal.
  set (c1 := if _ || _ then _ else _).
  assert (H1 : access_unit c1 = collected c ts /\ have_access_unit c1 = true /\
    access_unit_timestamp c1 = ts /\ same_client c c1).
  { unfold c1, collected. destruct (have_access_unit c) eqn:Eh, (Z.eqb_spec (access_unit_timestamp c) ts);
      simpl; split_and!; auto; by split_and!. }
  clearbody c1. destruct H1 as (Eu & Eh & Et & Hs).
  destruct (append_unit_fits c1 [0; 0; 0; 1]) as [cap ->]; [rewrite Eu; simpl length; lia|].
  destruct (append_unit_fits (set_unit c1 (access_unit c1 ++ [0; 0; 0; 1]) cap) nal) as [cap2 ->].
  { simpl access_unit. rewrite Eu, length_app. simpl length. lia. }
  eexists; split; [done|]. split; [done|]. unfold collected at 2. simpl.
  rewrite Eh, Et, Z.eqb_refl, Eu, <- app_assoc. done.
Qed.

Lemma client_push_frame pk s f c :
  packetizer_ok pk -> frame_ok f -> fits s f -> in_sync pk (reassembler c) ->
  (forall nal ts o, s = Some (nal, ts, o) -> assembled nal ts o (reassembler c)) ->
  exists r', client_push alloc c (rtp_packet pk (f_payload f) (f_marker f) (f_ts f)) =
    match completed f with
    | Some (nal, ts, m) => ((save_nal alloc c nal ts m).1, set_reassembler (save_nal alloc c nal ts m).2 r')
    | None => (true, set_reassembler c r')
    end /\ in_sync (next_sequence pk) r' /\
    (forall nal ts o, after f = Some (nal, ts, o) -> assembled nal ts o r').
Proof.
  intros Hpk Hf Hfit Hsync Hr. unfold client_push.
  destruct (push_frame_sync (save_nal alloc) count_loss alloc pk s f (reassembler c) c)
    as (r' & -> & H); auto.
  exists r'. split; [|done]. by destruct (completed f) as [[[nal ts] m]|].
Qed.

(** The client's state after it handed over the last access unit. *)
Definition idle (pk : RtpH264Packetizer) (c : RtpClient) : Prop :=
  have_access_unit c = false /\ access_unit c = [] /\ in_sync pk (reassembler c).

Lemma rtp_packet_fields pk payload marker ts :
  packetizer_ok pk -> (length payload + 12 <= 1200)%nat ->
  let p := rtp_packet pk payload marker ts in
  (length p =? 0)%nat = false /\ take 1500 p = p /\ read_u32 (drop 8 p) = ssrc pk /\
  (Z.land (byte_at p 1) 128 =? 0) = negb marker.
Proof.
  intros (_ & Hssrc & _) Hl p. split; [done|]. split_and!.
  - apply take_ge. change (length p) with (12 + length payload)%nat. lia.
  - by apply read_write_u32.
  - unfold p. by destruct marker.
Qed.

Lemma read_frames ts fs : forall pk s c nals tail,
  packetizer_ok pk -> chained s fs None -> Forall frame_ok fs ->
  Forall (fun f => (length (f_payload f) + 12 <= 1200)%nat) fs ->
  omap completed fs = units_of nals ts -> nals <> [] ->
  in_sync pk (reassembler c) ->
  (forall nal ts o, s = Some (nal, ts, o) -> assembled nal ts o (reassembler c)) ->
  Z.of_nat (length (collected c ts) + length (annexb nals)) <= RTP_H264_MAX_NAL ->
  exists c',
    read_loop alloc c (map Datagram (frame_packets pk fs) ++ tail) =
      ReadFrame (collected c ts ++ annexb nals) c' tail /\
    idle (advance pk (length fs)) c' /\ access_unit_ssrc c' = ssrc pk /\ losses c' = losses c /\
    fd c' = fd c.
Proof.
  induction fs as [|f fs IH]; intros pk s c nals tail Hpk Hch Hok Hsz Hom Hne Hsync Hr Hmax.
  { by destruct nals. }
  simpl in Hch. destruct Hch as [Hfit Hch]. apply Forall_cons_iff in Hok as [Hf Hok].
  apply Forall_cons_iff in Hsz as [Hsz1 Hsz].
  destruct (client_push_frame pk s f c) as (r' & Hpush & Hsync' & Hr'); auto.
  destruct (rtp_packet_fields pk (f_payload f) (f_marker f) (f_ts f) Hpk Hsz1)
    as (Hp0 & Hpt & Hps & Hpm).
  cbn [frame_packets map app read_loop]. cbv zeta in *. rewrite Hp0, Hpt, Hpush, Hpm.
  cbn [omap list_omap] in Hom. cbn [length advance].
  destruct (completed f) as [[[nal ts'] m]|] eqn:Ec.
  - destruct nals as [|nal' nals]; [done|]. cbn [units_of] in Hom. injection Hom as -> -> -> Hom.
    assert (Em : f_marker f = is_last nals).
    { unfold completed in Ec. destruct (f_part f) as [[o n]|];
        [destruct (_ =? _)%nat|]; congruence. }
    change (annexb (nal' :: nals)) with (([0; 0; 0; 1] ++ nal') ++ annexb nals) in *.
    rewrite (length_app ([0; 0; 0; 1] ++ nal')) in Hmax.
    change (length ([0; 0; 0; 1] ++ nal')) with (4 + length nal')%nat in Hmax.
    destruct (save_nal_collects c nal' ts (is_last nals)) as (c1 & Es & (Efd & El & _) & Eu & Ecol);
      [lia|].
    rewrite Es, Em. cbn [fst snd negb].
    destruct nals as [|nal2 nals].
    + assert (fs = []) as ->.
      { destruct fs as [|g fs]; [done|]. unfold after in Hch. rewrite Ec in Hch.
        exfalso. by apply (chained_completes None (g :: fs) Hch); [left|]. }
      cbn [is_last negb orb set_reassembler access_unit]. rewrite Eu.
      destruct (Nat.eqb_spec (length (collected c ts ++ [0; 0; 0; 1] ++ nal')) 0) as [E0|_].
      { rewrite !length_app in E0. simpl in E0. lia. }
      eexists. split; [by rewrite app_nil_r|]. unfold idle. split_and!; try done; simpl; congruence.
    + cbn [is_last negb orb].
      destruct (IH (next_sequence pk) (after f) (set_reassembler c1 r') (nal2 :: nals) tail)
        as (c' & -> & Hid & Hss & Hlo & Hfd); auto with kvm.
      { change (collected (set_reassembler c1 r') ts) with (collected c1 ts).
        rewrite Ecol, length_app. change (length ([0; 0; 0; 1] ++ nal')) with (4 + length nal')%nat. lia. }
      exists c'. change (collected (set_reassembler c1 r') ts) with (collected c1 ts).
      rewrite Ecol, <- app_assoc. split_and!; try apply Hid; auto; simpl in *; congruence.
  - assert (Em : f_marker f = false).
    { destruct Hf as (_ & _ & Hf). unfold completed in Ec. destruct (f_part f) as [[o n]|]; [|done].
      apply Hf. intros E. by rewrite E, Nat.eqb_refl in Ec. }
    rewrite Em. cbn [negb orb].
    by apply (IH (next_sequence pk) (after f) (set_reassembler c r') nals tail); auto with kvm.
Qed.
End Proofs.

Lemma frame_packets_sizes pk0 fs :
  packetizer_ok pk0 ->
  (forall i p, frame_packets pk0 fs !! i = Some p ->
     (RTP_HEADER_SIZE < length p <= mtu pk0)%nat /\ read_u16 (drop 2 p) = u16 (sequence pk0 + Z.of_nat i)) ->
  Forall (fun f => (length (f_payload f) + 12 <= 1200)%nat) fs.
Proof.
  intros (_ & _ & _ & Hm) H.
  assert (Hall : Forall (fun p => (length p <= 1200)%nat) (frame_packets pk0 fs)).
  { apply Forall_lookup. intros i p Hi. destruct (H i p Hi) as [? _].
    unfold RTP_H264_DEFAULT_MTU in Hm. lia. }
  clear H Hm. revert pk0 Hall. induction fs as [|f fs IH]; intros pk0 Hall; [done|].
  apply Forall_cons_iff in Hall as [H1 Hall]. constructor; [|by apply (IH (next_sequence pk0))].
  change (length (rtp_packet pk0 (f_payload f) (f_marker f) (f_ts f)))
    with (12 + length (f_payload f))%nat in H1. lia.
Qed.

(** An access unit sent with [rtp_h264_packetize_access_unit] and received
    without loss is returned by one [rtp_client_read_h264] call as exactly the
    Annex-B bytes that were sent, tagged with the sender's SSRC, with no loss
    counted; the datagrams behind it stay unread and the client is ready for the
    next access unit. *)
Theorem client_reads_access_unit alloc pk nals ts c tail :
  (forall n, alloc n = true) -> packetizer_ok pk -> is_u32 ts ->
  nals <> [] -> Forall plain_nal nals -> Forall nal_clean nals ->
  Z.of_nat (length (annexb nals)) <= RTP_H264_MAX_NAL ->
  0 <= fd c -> idle pk c ->
  let '(_, pk', packets) := rtp_h264_packetize_access_unit record_packet pk (annexb nals) ts [] in
  exists c',
    rtp_client_read_h264 alloc c (map Datagram packets ++ tail) = ReadFrame (annexb nals) c' tail /\
    idle pk' c' /\ access_unit_ssrc c' = ssrc pk /\ losses c' = losses c /\ fd c' = fd c.
Proof.
  intros Ha Hpk Hts Hne Hp Hc Hmax Hfd (Hh & Hu & Hs).
  pose proof (packetize_access_unit_emitted pk (annexb nals) ts Hpk) as He.
  rewrite packetize_access_unit_send in * by auto using plain_nonempty.
  destruct (send_nals_framed pk nals ts false []) as (fs & E & Hch & Hom & Hok); auto.
  rewrite E in *. destruct He as (_ & _ & _ & He). simpl in He.
  unfold rtp_client_read_h264. destruct (Z.ltb_spec (fd c) 0); [lia|].
  assert (Hcol : collected c ts = []) by (unfold collected; by rewrite Hh).
  destruct (read_frames alloc Ha ts fs pk None c nals tail) as (c' & Hread & H'); auto.
  - by apply (frame_packets_sizes pk).
  - done.
  - rewrite Hcol. simpl. lia.
  - rewrite Hcol in Hread. by exists c'.
Qed.

(** ** Witnesses *)

Lemma client_read_bounded_witness :
  match rtp_client_read_h264 (fun _ => true) (empty_client 5)
          [Interrupted; Datagram middle_fragment; Datagram []] with
  | ReadFrame data c' _ =>
      0 < Z.of_nat (length data) <= RTP_H264_MAX_NAL /\ access_unit c' = [] /\ client_ok c'
  | ReadFailed c' _ | ReadBlocked c' => client_ok c'
  end.
Proof.
  apply (client_read_bounded (fun _ => true) (empty_client 5)
    [Interrupted; Datagram middle_fragment; Datagram []]).
  split; [done|apply reassembler_init_ok].
Defined.

Lemma client_reads_access_unit_witness :
  let '(_, pk', packets) :=
    rtp_h264_packetize_access_unit record_packet small_packetizer (annexb sample_nals) 3000 [] in
  exists c',
    rtp_client_read_h264 (fun _ => true) (empty_client 5) (map Datagram packets ++ [Interrupted]) =
      ReadFrame (annexb sample_nals) c' [Interrupted] /\
    idle pk' c' /\ access_unit_ssrc c' = ssrc small_packetizer /\
    losses c' = losses (empty_client 5) /\ fd c' = fd (empty_client 5).
Proof.
  apply (client_reads_access_unit (fun _ => true) small_packetizer sample_nals 3000
    (empty_client 5) [Interrupted]); try done.
  - unfold packetizer_ok, is_u16, is_u32, RTP_H264_DEFAULT_MTU. simpl. lia.
  - by repeat constructor.
  - repeat constructor; apply nal_clean_check; reflexivity.
Defined.
