(* ===== verification/VideoSource.v ===== *)
(** * Video source ([src/src/video_source.h], [src/src/video_source.c])

    Filters the access units of the RTP client: after an open or a packet loss
    it asks the producer for an IDR and holds back dependent access units.
    [VideoSourceRtpOps] is the interface to the transport; the production
    instance is the RTP client of [RtpClient]. *)

From S2P Require Import Prelude H264 RtpH264 RtpClient.

(** What one successful [read] of the transport yields. *)
Record RawUnit := MkRaw { r_data : bytes; r_timestamp : Z; r_ssrc : Z; r_losses : Z }.

(** The transport's operations over its context [R]. *)
Class VideoSourceRtpOps (R : Type) := {
  rtp_open : R -> Z -> option Z * R;
  rtp_read : R -> option RawUnit * R;
  rtp_close : R -> R }.

(** What the source relies on: only finitely many units can be read before the
    transport's read times out. *)
Class RtpOpsLaws (R : Type) `{VideoSourceRtpOps R} := {
  rtp_pending : R -> nat;
  rtp_read_consumes : forall rc raw rc',
    rtp_read rc = (Some raw, rc') -> (rtp_pending rc' < rtp_pending rc)%nat }.

Record VideoSource := MkSource {
  epoch : Z;
  observed_losses : Z;
  source_buffer_bytes : Z;
  awaiting_idr : bool;
  have_sps : bool;
  have_pps : bool;
  pending_packet_loss : bool;
  pending_idr_requested : bool;
  opened : bool }.

Record VideoSourceAccessUnit := MkUnit {
  data : bytes;
  unit_timestamp : Z;
  unit_ssrc : Z;
  unit_losses : Z;
  nal_types : Z;
  unit_epoch : Z;
  packet_loss : bool;
  idr_requested : bool }.

(** [calloc] succeeds or not; a configuration with a missing operation is
    refused. *)
Definition video_source_create (allocated ops_complete : bool) : option VideoSource :=
  if negb allocated then None
  else if negb ops_complete then None
  else Some (MkSource 0 0 0 false false false false false false).

Definition has_nal (types : Z) (n : Z) : bool := negb (Z.land types (Z.shiftl 1 n) =? 0).

Section Source.
Context {R : Type} {ops : VideoSourceRtpOps R}.
(** The callback that asks for an IDR, with its context; [None] is [NULL]. *)
Context {I : Type} (request_idr : option (I -> Z -> bool * I)).

Definition video_source_request_idr (s : VideoSource) (i : I) : bool * I :=
  match request_idr with
  | Some f => if opened s then f i (epoch s) else (false, i)
  | None => (false, i)
  end.

Definition video_source_open (s : VideoSource) (port : Z) (rc : R) (i : I)
    : bool * VideoSource * R * I :=
  if opened s then (false, s, rc, i)
  else
    match rtp_open rc port with
    | (None, rc') => (false, s, rc', i)
    | (Some buffer, rc') =>
        let e := u64 (epoch s + 1) in
        let s' := MkSource (if e =? 0 then 1 else e) 0 buffer true false false false false true in
        let '(_, i') := video_source_request_idr s' i in
        (true, s', rc', i')
    end.

(** The body of the loop of [video_source_read] behind a successful read. *)
Definition source_step (s : VideoSource) (raw : RawUnit) (i : I)
    : option VideoSourceAccessUnit * VideoSource * I :=
  let '(loss, awaiting, requested, i') :=
    if negb (r_losses raw =? observed_losses s) then
      let '(ok, i') := video_source_request_idr s i in
      (true, true, ok || pending_idr_requested s, i')
    else (pending_packet_loss s, awaiting_idr s, pending_idr_requested s, i) in
  let types := h264_nal_type_mask (r_data raw) in
  let sps := has_nal types 7 in
  let pps := has_nal types 8 in
  let idr := has_nal types 5 in
  let hs := have_sps s || sps in
  let hp := have_pps s || pps in
  let awaiting := if idr && hs && hp then false else awaiting in
  if negb awaiting || sps || pps then
    (Some (MkUnit (r_data raw) (r_timestamp raw) (r_ssrc raw) (r_losses raw) types (epoch s)
             loss requested),
     MkSource (epoch s) (r_losses raw) (source_buffer_bytes s) awaiting hs hp false false
       (opened s), i')
  else
    (None,
     MkSource (epoch s) (r_losses raw) (source_buffer_bytes s) awaiting hs hp loss requested
       (opened s), i').

Inductive source_read :=
| SourceUnit (u : VideoSourceAccessUnit) (s : VideoSource) (rc : R) (i : I)
| SourceFailed (s : VideoSource) (rc : R) (i : I)
| SourceRunning (s : VideoSource) (rc : R) (i : I).

(** [for (;;)] with [fuel] reads. *)
Fixpoint source_loop (fuel : nat) (s : VideoSource) (rc : R) (i : I) : source_read :=
  match fuel with
  | O => SourceRunning s rc i
  | S fuel =>
      match rtp_read rc with
      | (None, rc') => SourceFailed s rc' i
      | (Some raw, rc') =>
          match source_step s raw i with
          | (Some u, s', i') => SourceUnit u s' rc' i'
          | (None, s', i') => source_loop fuel s' rc' i'
          end
      end
  end.

Definition video_source_read (fuel : nat) (s : VideoSource) (rc : R) (i : I) : source_read :=
  if opened s then source_loop fuel s rc i else SourceFailed s rc i.

Definition video_source_close (s : VideoSource) (rc : R) : VideoSource * R :=
  if opened s
  then (MkSource (epoch s) 0 0 false false false false false false, rtp_close rc)
  else (s, rc).

(** [video_source_destroy]: close, then [free]. *)
Definition video_source_destroy (s : VideoSource) (rc : R) : R := (video_source_close s rc).2.

Definition video_source_epoch (s : VideoSource) : Z := epoch s.
Definition video_source_receive_buffer_bytes (s : VideoSource) : Z := source_buffer_bytes s.
End Source.

(** [free] and zero the unit. *)
Definition video_source_release_access_unit (u : VideoSourceAccessUnit) : VideoSourceAccessUnit :=
  MkUnit [] 0 0 0 0 0 false false.

(** ** The production transport *)

(** The RTP client, the results of its [socket]/[setsockopt]/[bind] calls and
    what its socket will yield.  A socket with nothing left times out after the
    second set by [SO_RCVTIMEO], which is a failed read. *)
Record Production := MkProduction {
  client : RtpClient;
  sock_fd : Z; sock_timeout_ok : bool; sock_bind_ok : bool; sock_buffer : Z;
  sock_script : list recv_result }.

Section ProductionOps.
Variable alloc : Z -> bool.

Definition set_client (p : Production) (c : RtpClient) (script : list recv_result) : Production :=
  MkProduction c (sock_fd p) (sock_timeout_ok p) (sock_bind_ok p) (sock_buffer p) script.

Definition production_open (p : Production) (port : Z) : option Z * Production :=
  let '(ok, c) :=
    rtp_client_open port (sock_fd p) (sock_timeout_ok p) (sock_bind_ok p) (sock_buffer p) (client p) in
  (if ok then Some (receive_buffer_bytes c) else None, set_client p c (sock_script p)).

Definition production_read (p : Production) : option RawUnit * Production :=
  match rtp_client_read_h264 alloc (client p) (sock_script p) with
  | ReadFrame d c rest =>
      (Some (MkRaw d (access_unit_timestamp c) (access_unit_ssrc c) (losses c)), set_client p c rest)
  | ReadFailed c rest => (None, set_client p c rest)
  | ReadBlocked c => (None, set_client p c [])
  end.

Definition production_close (p : Production) : Production :=
  set_client p (rtp_client_close (client p)) (sock_script p).

#[global] Instance production_rtp_ops : VideoSourceRtpOps Production := {
  rtp_open := production_open; rtp_read := production_read; rtp_close := production_close }.

Lemma read_loop_consumes c script d c' rest :
  read_loop alloc c script = ReadFrame d c' rest -> (length rest < length script)%nat.
Proof.
  revert c. induction script as [|[p| |] script IH]; intros c H; cbn [read_loop] in H; try done.
  - destruct (_ =? 0)%nat; [done|]. cbv zeta in H. destruct (client_push _ _ _) as [ok c1].
    destruct (negb ok); [apply IH in H; simpl; lia|].
    destruct (_ || _); [apply IH in H; simpl; lia|]. injection H as _ _ <-. simpl. lia.
  - apply IH in H. simpl. lia.
Qed.

Lemma production_read_consumes (p : Production) raw p' :
  rtp_read p = (Some raw, p') -> (length (sock_script p') < length (sock_script p))%nat.
Proof.
  intros H. simpl in H. unfold production_read, rtp_client_read_h264 in H.
  destruct (_ <? 0); [done|].
  destruct (read_loop _ _ _) as [d c rest| |] eqn:E; [|done..].
  injection H as _ <-. by apply read_loop_consumes in E.
Qed.

#[global] Instance production_laws : RtpOpsLaws Production := {
  rtp_pending p := length (sock_script p);
  rtp_read_consumes := production_read_consumes }.
End ProductionOps.

(** ** Specification: what the history of an epoch allows

    The history [h] is the list of the units read since the open, oldest first. *)

Definition sps_in (x : RawUnit) : Prop := h264_contains_nal_type (r_data x) 7 = true.
Definition pps_in (x : RawUnit) : Prop := h264_contains_nal_type (r_data x) 8 = true.
Definition idr_in (x : RawUnit) : Prop := h264_contains_nal_type (r_data x) 5 = true.

Definition last_losses (h : list RawUnit) : Z :=
  match list.last h with Some x => r_losses x | None => 0 end.

(** An IDR came, with both parameter sets seen by then, and the loss counter has
    not moved since. *)
Definition decodable (h : list RawUnit) : Prop :=
  exists h1 x h2, h = h1 ++ x :: h2 /\ idr_in x /\
    Exists sps_in (h1 ++ [x]) /\ Exists pps_in (h1 ++ [x]) /\
    Forall (fun y => r_losses y = r_losses x) h2.

(** The newest unit of [h] may be handed to a decoder. *)
Definition deliverable (h : list RawUnit) : Prop :=
  decodable h \/ exists x, list.last h = Some x /\ (sps_in x \/ pps_in x).

(** The loss counter moved at some unit, and no unit before the newest has been
    delivered since. *)
Definition loss_unreported (h : list RawUnit) : Prop :=
  exists h1 x h2, h = h1 ++ x :: h2 /\ r_losses x <> last_losses h1 /\
    forall a b, x :: h2 = a ++ b -> a <> [] -> b <> [] -> ~ deliverable (h1 ++ a).

Lemma last_losses_snoc h x : last_losses (h ++ [x]) = r_losses x.
Proof. unfold last_losses. by rewrite last_snoc. Qed.

Lemma snoc_split {A} (h h1 h2 : list A) x y :
  h ++ [x] = h1 ++ y :: h2 ->
  (h2 = [] /\ h = h1 /\ x = y) \/ exists h2', h2 = h2' ++ [x] /\ h = h1 ++ y :: h2'.
Proof.
  intros E. destruct h2 as [|z h2 _] using rev_ind.
  - apply app_inj_2 in E as [-> [= ->]]; [by left|done].
  - right. exists h2. rewrite app_comm_cons, app_assoc in E. apply app_inj_2 in E as [-> [= ->]]; done.
Qed.

Lemma decodable_snoc h x :
  decodable (h ++ [x]) <->
  (idr_in x /\ Exists sps_in (h ++ [x]) /\ Exists pps_in (h ++ [x])) \/
  (decodable h /\ r_losses x = last_losses h).
Proof.
  split.
  - intros (h1 & y & h2 & E & Hi & Hs & Hp & Hl).
    destruct (snoc_split h h1 h2 x y E) as [(-> & -> & ->)|(h2' & -> & ->)]; [by left|].
    right. apply Forall_app in Hl as [Hl Hx]. apply Forall_cons_iff in Hx as [Hx _]. split.
    + by exists h1, y, h2'.
    + rewrite Hx. destruct h2' as [|z h2' _] using rev_ind; [by rewrite last_losses_snoc|].
      rewrite app_comm_cons, app_assoc, last_losses_snoc.
      apply Forall_app in Hl as [_ Hz]. by apply Forall_cons_iff in Hz as [Hz _].
  - intros [(Hi & Hs & Hp)|[(h1 & y & h2 & -> & Hi & Hs & Hp & Hl) Hx]].
    + exists h, x, []. by split_and!.
    + exists h1, y, (h2 ++ [x]). rewrite <- app_assoc. split_and!; [done..|].
      apply Forall_app. split; [done|]. constructor; [|done]. rewrite Hx.
      destruct h2 as [|z h2 _] using rev_ind; [by rewrite last_losses_snoc|].
      rewrite app_comm_cons, app_assoc, last_losses_snoc.
      apply Forall_app in Hl as [_ Hz]. by apply Forall_cons_iff in Hz as [Hz _].
Qed.

Lemma decodable_nil : ~ decodable [].
Proof. intros (h1 & x & h2 & E & _). by destruct h1. Qed.

Lemma loss_unreported_nil : ~ loss_unreported [].
Proof. intros (h1 & x & h2 & E & _). by destruct h1. Qed.

Lemma loss_unreported_snoc h x :
  loss_unreported (h ++ [x]) <->
  r_losses x <> last_losses h \/ (loss_unreported h /\ ~ deliverable h).
Proof.
  split.
  - intros (h1 & y & h2 & E & Hl & Hn).
    destruct (snoc_split h h1 h2 x y E) as [(-> & -> & ->)|(h2' & -> & ->)]; [by left|].
    right. split.
    + exists h1, y, h2'. split_and!; [done..|]. intros a b Hab Ha Hb.
      apply (Hn a (b ++ [x])); [|done|by destruct b].
      by rewrite app_comm_cons, Hab, app_assoc.
    + apply (Hn (y :: h2') [x]); done.
  - intros [Hx|[(h1 & y & h2 & -> & Hl & Hn) Hd]].
    + exists h, x, []. split_and!; [done..|]. intros a b Hab Ha Hb.
      destruct a as [|? a]; [done|]. simpl in Hab. injection Hab as _ Hab. by destruct a, b.
    + exists h1, y, (h2 ++ [x]). rewrite <- app_assoc. split_and!; [done..|].
      intros a b Hab Ha Hb. rewrite app_comm_cons in Hab.
      destruct b as [|z b _] using rev_ind; [done|]. rewrite app_assoc in Hab.
      apply app_inj_2 in Hab as [Hab _]; [|done].
      destruct b as [|w b]; [|by apply (Hn a (w :: b))].
      rewrite app_nil_r in Hab. by subst.
Qed.

(** The source's state is what the history says. *)
Definition source_tracks (h : list RawUnit) (s : VideoSource) : Prop :=
  opened s = true /\ observed_losses s = last_losses h /\
  (have_sps s = true <-> Exists sps_in h) /\ (have_pps s = true <-> Exists pps_in h) /\
  (awaiting_idr s = false <-> decodable h) /\
  (pending_packet_loss s = true <-> loss_unreported h /\ ~ deliverable h).

Lemma open_tracks {R} {ops : VideoSourceRtpOps R} {I} (request_idr : option (I -> Z -> bool * I))
    s port rc i s' rc' i' :
  video_source_open request_idr s port rc i = (true, s', rc', i') -> source_tracks [] s'.
Proof.
  unfold video_source_open. destruct (opened s); [done|].
  destruct (rtp_open rc port) as [[buffer|] rc1]; [|done].
  destruct (video_source_request_idr _ _ _) as [ok i1]. intros [= <- _ _].
  pose proof decodable_nil. pose proof loss_unreported_nil.
  split_and!; simpl; try done.
  all: split; try done; try (intros H'; inversion H'; done).
Qed.

Lemma Exists_snoc {A} (P : A -> Prop) h x : Exists P (h ++ [x]) <-> Exists P h \/ P x.
Proof. rewrite Exists_app, Exists_cons, Exists_nil. tauto. Qed.

Section Gate.
Context {I : Type} (request_idr : option (I -> Z -> bool * I)).

Lemma source_step_spec h s x i :
  source_tracks h s ->
  let '(o, s', _) := source_step request_idr s x i in
  source_tracks (h ++ [x]) s' /\ epoch s' = epoch s /\
  match o with
  | Some u => deliverable (h ++ [x]) /\ data u = r_data x /\ unit_timestamp u = r_timestamp x /\
      unit_ssrc u = r_ssrc x /\ unit_losses u = r_losses x /\
      unit_epoch u = epoch s /\ (packet_loss u = true <-> loss_unreported (h ++ [x]))
  | None => ~ deliverable (h ++ [x])
  end.
Proof.
  intros (Ho & Hl & Hs & Hp & Ha & Hpl). unfold source_step.
  set (pre := if negb _ then _ else _).
  assert (Epre : exists req i', pre =
    (negb (r_losses x =? last_losses h) || pending_packet_loss s,
     negb (r_losses x =? last_losses h) || awaiting_idr s, req, i')).
  { unfold pre. rewrite Hl. destruct (r_losses x =? last_losses h); simpl; [by eexists _, _|].
    destruct (video_source_request_idr _ _ _). by eexists _, _. }
  destruct Epre as (req & i' & ->).
  change (has_nal (h264_nal_type_mask (r_data x)) 7) with (h264_contains_nal_type (r_data x) 7).
  change (has_nal (h264_nal_type_mask (r_data x)) 8) with (h264_contains_nal_type (r_data x) 8).
  change (has_nal (h264_nal_type_mask (r_data x)) 5) with (h264_contains_nal_type (r_data x) 5).
  set (sps := h264_contains_nal_type (r_data x) 7). set (pps := h264_contains_nal_type (r_data x) 8).
  set (idr := h264_contains_nal_type (r_data x) 5).
  set (aw := if idr && (have_sps s || sps) && (have_pps s || pps) then false else _).
  assert (Hs' : have_sps s || sps = true <-> Exists sps_in (h ++ [x])).
  { rewrite Exists_snoc, orb_true_iff, Hs. done. }
  assert (Hp' : have_pps s || pps = true <-> Exists pps_in (h ++ [x])).
  { rewrite Exists_snoc, orb_true_iff, Hp. done. }
  assert (Ha' : aw = false <-> decodable (h ++ [x])).
  { rewrite decodable_snoc, <- Hs', <- Hp', <- Ha. unfold aw, idr_in. fold idr.
    destruct (Z.eqb_spec (r_losses x) (last_losses h)), idr, (have_sps s || sps),
      (have_pps s || pps), (awaiting_idr s); simpl; intuition congruence. }
  assert (Hd : negb aw || sps || pps = true <-> deliverable (h ++ [x])).
  { unfold deliverable. rewrite <- Ha', last_snoc. unfold sps_in, pps_in.
    rewrite !orb_true_iff, negb_true_iff.
    split; [intros [[?|?]|?]; eauto|]. intros [?|(y & [= <-] & [?|?])]; auto. }
  assert (Hlu : negb (r_losses x =? last_losses h) || pending_packet_loss s = true <->
    loss_unreported (h ++ [x])).
  { rewrite loss_unreported_snoc, orb_true_iff, negb_true_iff, Z.eqb_neq, Hpl. done. }
  destruct (negb aw || sps || pps) eqn:E.
  - assert (D : deliverable (h ++ [x])) by (by apply Hd).
    unfold source_tracks. simpl. rewrite last_losses_snoc. split_and!; try done; try tauto.
    split; [done|tauto].
  - assert (D : ~ deliverable (h ++ [x])) by (intros D; apply Hd in D; congruence).
    unfold source_tracks. simpl. rewrite last_losses_snoc. split_and!; try done; try tauto.
Qed.
End Gate.

(** [n] consecutive reads of the transport, all of which yield a unit. *)
Fixpoint transport_reads {R} {ops : VideoSourceRtpOps R} (n : nat) (rc : R) : option (list RawUnit * R) :=
  match n with
  | O => Some ([], rc)
  | S n =>
      match rtp_read rc with
      | (Some x, rc) => prod_map (cons x) id <$> transport_reads n rc
      | (None, _) => None
      end
  end.

(** No unit of [l], read behind the history [h], is deliverable. *)
Definition none_deliverable (h l : list RawUnit) : Prop :=
  forall a b, l = a ++ b -> a <> [] -> ~ deliverable (h ++ a).

Lemma none_deliverable_cons h x l :
  ~ deliverable (h ++ [x]) -> none_deliverable (h ++ [x]) l -> none_deliverable h (x :: l).
Proof.
  intros Hx Hl [|y a] b E Ha; [done|]. injection E as <- E.
  destruct a as [|z a]; [done|]. specialize (Hl (z :: a) b E ltac:(done)).
  by rewrite <- app_assoc in Hl.
Qed.

(** The unit carries what the transport yielded. *)
Definition unit_of (x : RawUnit) (u : VideoSourceAccessUnit) : Prop :=
  data u = r_data x /\ unit_timestamp u = r_timestamp x /\ unit_ssrc u = r_ssrc x /\
  unit_losses u = r_losses x.

(** What a read behind the history [h] does to the transport and the source. *)
Definition read_end {R} {ops : VideoSourceRtpOps R} {I} (h : list RawUnit) (s : VideoSource) (rc : R)
    (fuel : nat) (result : source_read (R := R) (I := I)) : Prop :=
  match result with
  | SourceUnit u s' rc' _ =>
      exists skipped x,
        transport_reads (S (length skipped)) rc = Some (skipped ++ [x], rc') /\
        none_deliverable h skipped /\ deliverable (h ++ skipped ++ [x]) /\
        unit_of x u /\ unit_epoch u = epoch s /\
        (packet_loss u = true <-> loss_unreported (h ++ skipped ++ [x])) /\
        source_tracks (h ++ skipped ++ [x]) s'
  | SourceFailed s' rc' _ =>
      exists skipped rc1,
        transport_reads (length skipped) rc = Some (skipped, rc1) /\ rtp_read rc1 = (None, rc') /\
        none_deliverable h skipped /\ source_tracks (h ++ skipped) s'
  | SourceRunning s' rc' _ =>
      exists skipped,
        transport_reads fuel rc = Some (skipped, rc') /\
        none_deliverable h skipped /\ source_tracks (h ++ skipped) s'
  end.

(** A unit that is skipped comes before the others. *)
Lemma read_end_skip {R} {ops : VideoSourceRtpOps R} {I} h s s1 (rc rc1 : R) raw fuel
    (result : source_read (R := R) (I := I)) :
  rtp_read rc = (Some raw, rc1) -> ~ deliverable (h ++ [raw]) -> epoch s1 = epoch s ->
  read_end (h ++ [raw]) s1 rc1 fuel result -> read_end h s rc (S fuel) result.
Proof.
  intros Er Hn He. destruct result as [u s' rc' i'|s' rc' i'|s' rc' i']; cbn [read_end].
  - intros (skipped & x & Et & Hs & Hd & Hu & Hep & Hp & Ht). exists (raw :: skipped), x.
    rewrite <- !app_assoc in *. cbn [length]. split_and!; try done; [|by apply none_deliverable_cons|congruence].
    cbn [transport_reads] in *. rewrite Er. by rewrite Et.
  - intros (skipped & rc2 & Et & Ef & Hs & Ht). exists (raw :: skipped), rc2.
    rewrite <- !app_assoc in *. split_and!; try done; [|by apply none_deliverable_cons].
    cbn [length transport_reads]. rewrite Er. by rewrite Et.
  - intros (skipped & Et & Hs & Ht). exists (raw :: skipped).
    rewrite <- !app_assoc in *. split_and!; try done; [|by apply none_deliverable_cons].
    cbn [transport_reads]. rewrite Er. by rewrite Et.
Qed.

(** C18: [video_source_read] hands out exactly what the history of the epoch
    allows, and nothing the transport yields is lost on the way.  The units of its
    consecutive reads of the transport are, in order, those it skips and then the
    one it returns: the skipped ones are not deliverable, the returned one is the
    first that is (one behind a complete IDR, both parameter sets seen and the loss
    counter unchanged since, or one that brings a parameter set itself), and it
    carries the data, timestamp, source and loss count of that read.  No loss goes
    unreported: the returned unit has [packet_loss] set exactly when the loss
    counter moved at some unit since the last one returned.  The read fails only
    when the transport's own read does, and then nothing deliverable was read. *)
Theorem video_source_read_gate {R} {ops : VideoSourceRtpOps R} {I}
    (request_idr : option (I -> Z -> bool * I)) fuel h s rc i :
  source_tracks h s -> read_end h s rc fuel (video_source_read request_idr fuel s rc i).
Proof.
  intros Ht. unfold video_source_read. pose proof Ht as (-> & _).
  revert h s rc i Ht. induction fuel as [|fuel IH]; intros h s rc i Ht; cbn [source_loop].
  - exists []. rewrite app_nil_r. split_and!; [done| |done]. by intros [|] b E.
  - destruct (rtp_read rc) as [[raw|] rc1] eqn:Er.
    + pose proof (source_step_spec request_idr h s raw i Ht) as Hstep.
      destruct (source_step request_idr s raw i) as [[[u1|] s1] i1].
      * destruct Hstep as (Ht1 & _ & Hd & ? & ? & ? & ? & He & Hp). exists [], raw.
        cbn [length transport_reads app]. rewrite Er. split_and!; try done. by intros [|] b E.
      * destruct Hstep as (Ht1 & He & Hn). eapply read_end_skip; [done..|]. by apply IH.
    + exists [], rc. rewrite app_nil_r. split_and!; try done. by intros [|] b E.
Qed.

(** [video_source_read] always returns when the transport can yield only
    finitely many units before a read fails: one more read than the units
    pending is enough. *)
Theorem video_source_read_terminates {R} `{RtpOpsLaws R} {I}
    (request_idr : option (I -> Z -> bool * I)) fuel s rc i :
  (rtp_pending rc < fuel)%nat ->
  forall s' rc' i', video_source_read request_idr fuel s rc i <> SourceRunning s' rc' i'.
Proof.
  intros Hf s' rc' i'. unfold video_source_read. destruct (opened s); [|done].
  revert s rc i Hf. induction fuel as [|fuel IH]; intros s rc i Hf; cbn [source_loop]; [lia|].
  destruct (rtp_read rc) as [[raw|] rc1] eqn:E; [|done].
  apply rtp_read_consumes in E.
  destruct (source_step request_idr s raw i) as [[[u1|] s1] i1]; [done|].
  apply IH. lia.
Qed.

(** ** Witnesses *)

(** A transport that yields a list of units. *)
#[local] Instance list_rtp_ops : VideoSourceRtpOps (list RawUnit) := {
  rtp_open rc _ := (Some 65536, rc);
  rtp_read rc := match rc with [] => (None, []) | x :: rc => (Some x, rc) end;
  rtp_close rc := rc }.

Definition p_unit : RawUnit := MkRaw [0; 0; 0; 1; 65; 1] 1 7 0.
Definition key_unit : RawUnit :=
  MkRaw [0; 0; 0; 1; 103; 1; 0; 0; 0; 1; 104; 1; 0; 0; 0; 1; 101; 1] 2 7 0.

Definition opened_source : VideoSource := MkSource 1 0 65536 true false false false false true.

Lemma opened_source_tracks : source_tracks [] opened_source.
Proof.
  refine (open_tracks (R := list RawUnit) (I := unit) None
    (MkSource 0 0 0 false false false false false false) 5004 [] tt opened_source [] tt _).
  reflexivity.
Qed.

Lemma video_source_read_gate_witness :
  exists u s', video_source_read (R := list RawUnit) (I := unit) None 2 opened_source
      [p_unit; key_unit; p_unit] tt = SourceUnit u s' [p_unit] tt /\ data u = r_data key_unit /\
    exists skipped x, [p_unit; key_unit] = skipped ++ [x] /\ none_deliverable [] skipped /\
      deliverable (skipped ++ [x]).
Proof.
  pose proof (video_source_read_gate (R := list RawUnit) (I := unit) None 2 [] opened_source
    [p_unit; key_unit; p_unit] tt opened_source_tracks) as H.
  assert (E : exists u s', video_source_read (R := list RawUnit) (I := unit) None 2 opened_source
      [p_unit; key_unit; p_unit] tt = SourceUnit u s' [p_unit] tt /\ data u = r_data key_unit)
    by (eexists _, _; split; [vm_compute|]; reflexivity).
  destruct E as (u & s' & E & Ed). rewrite E in H. exists u, s'. split; [exact E|]. split; [exact Ed|].
  destruct H as (skipped & x & Et & Hs & Hd & _). exists skipped, x. split; [|done].
  destruct skipped as [|y [|y2 [|y3 skipped]]]; cbn in Et; try discriminate Et.
  injection Et as <- <-. reflexivity.
Defined.

Definition timeout_transport : Production :=
  MkProduction (empty_client 5) 5 true true 65536 [Interrupted; Datagram middle_fragment].

Lemma video_source_read_terminates_witness :
  video_source_read (ops := production_rtp_ops (fun _ => true)) (I := unit) None 3 opened_source
    timeout_transport tt <> SourceRunning opened_source timeout_transport tt.
Proof.
  apply (video_source_read_terminates (H := production_rtp_ops (fun _ => true))
    (H0 := production_laws (fun _ => true)) None 3 opened_source timeout_transport tt).
  vm_compute. lia.
Defined.
