(* ===== verification/DeviceSession.v ===== *)
(** * Device session ([src/src/device_session.h], [src/src/device_session.c])

    One consumer at a time leases the video source.  Every operation holds the
    session lock from its first to its last access to the session, so it is one
    atomic step here; the leases belong to the callers and live in numbered
    slots of a world that any interleaving of the operations acts on. *)

From S2P Require Import Prelude H264 RtpH264 RtpClient VideoSource.

Inductive DeviceSessionConsumer :=
| DEVICE_SESSION_CONSUMER_DIRECT_GFX
| DEVICE_SESSION_CONSUMER_BITMAP
| DEVICE_SESSION_CONSUMER_HTTP.

Record DeviceSession := MkSession {
  source : VideoSource;
  video_port : Z;
  generation : Z;
  leased : bool }.

(** [lease_session] says whether the [session] pointer is set; [consumer] is
    zero until an acquire succeeds. *)
Record DeviceSessionLease := MkLease {
  lease_session : bool;
  lease_generation : Z;
  consumer : option DeviceSessionConsumer }.

Definition no_lease : DeviceSessionLease := MkLease false 0 None.

(** [lease_is_active] *)
Definition lease_is_active (session : DeviceSession) (lease : DeviceSessionLease) : bool :=
  if negb (lease_session lease) || (lease_generation lease =? 0) then false
  else leased session && (generation session =? lease_generation lease).

Definition device_session_create (port : Z) (allocated lock_ok : bool)
    (created : option VideoSource) : option DeviceSession :=
  if port =? 0 then None
  else if negb allocated then None
  else if negb lock_ok then None
  else match created with
       | None => None
       | Some s => Some (MkSession s port 0 false)
       end.

Section Session.
Context {R : Type} {ops : VideoSourceRtpOps R}.
Context {I : Type} (request_idr : option (I -> Z -> bool * I)).

Definition device_session_destroy (session : DeviceSession) (rc : R) : R :=
  video_source_destroy (source session) rc.

Definition device_session_acquire (session : DeviceSession) (c : DeviceSessionConsumer)
    (rc : R) (i : I) : bool * DeviceSession * DeviceSessionLease * R * I :=
  if leased session then (false, session, no_lease, rc, i)
  else
    let '(ok, s, rc', i') :=
      video_source_open request_idr (source session) (video_port session) rc i in
    if ok then
      let g := u64 (generation session + 1) in
      let g := if g =? 0 then 1 else g in
      (true, MkSession s (video_port session) g true, MkLease true g (Some c), rc', i')
    else (false, MkSession s (video_port session) (generation session) false, no_lease, rc', i').

Definition device_session_release (session : DeviceSession) (lease : DeviceSessionLease) (rc : R)
    : DeviceSession * DeviceSessionLease * R :=
  if negb (lease_session lease) then (session, lease, rc)
  else if leased session && (generation session =? lease_generation lease) then
    let '(s, rc') := video_source_close (source session) rc in
    (MkSession s (video_port session) (generation session) false, no_lease, rc')
  else (session, no_lease, rc).

(** The result of a refused read is that of a failed one.  The source checks the lease
    under the lock and reads behind it, without the lock; as one operation this is
    faithful because only the holder of the active lease gets to the source, and it is
    the same thread that releases the lease or reads with it: no other operation
    changes the source in between ([device_session_exclusive] has the lease, and
    [Handoff] the threads). *)
Definition device_session_read (fuel : nat) (session : DeviceSession)
    (lease : DeviceSessionLease) (rc : R) (i : I) : source_read (R := R) (I := I) :=
  if lease_is_active session lease
  then video_source_read request_idr fuel (source session) rc i
  else SourceFailed (source session) rc i.

Definition device_session_receive_buffer_bytes (session : DeviceSession)
    (lease : DeviceSessionLease) : Z :=
  if lease_is_active session lease
  then video_source_receive_buffer_bytes (source session) else 0.

(** ** The world of callers *)

Record world := World { w_session : DeviceSession; w_leases : list DeviceSessionLease;
                        w_rc : R; w_idr : I }.

Definition slot (w : world) (k : nat) : DeviceSessionLease := default no_lease (w_leases w !! k).

Inductive op :=
| Acquire (k : nat) (c : DeviceSessionConsumer)
| Release (k : nat)
| ReadUnit (k : nat) (fuel : nat).

Definition step (w : world) (o : op) : world :=
  match o with
  | Acquire k c =>
      let '(_, s, l, rc, i) := device_session_acquire (w_session w) c (w_rc w) (w_idr w) in
      World s (<[k := l]> (w_leases w)) rc i
  | Release k =>
      let '(s, l, rc) := device_session_release (w_session w) (slot w k) (w_rc w) in
      World s (<[k := l]> (w_leases w)) rc (w_idr w)
  | ReadUnit k fuel =>
      match device_session_read fuel (w_session w) (slot w k) (w_rc w) (w_idr w) with
      | SourceUnit _ s rc i | SourceFailed s rc i | SourceRunning s rc i =>
          World (MkSession s (video_port (w_session w)) (generation (w_session w))
                   (leased (w_session w))) (w_leases w) rc i
      end
  end.

Definition run (w : world) (os : list op) : world := fold_left step os w.

Definition active (w : world) (k : nat) : Prop :=
  lease_is_active (w_session w) (slot w k) = true.

(** The source is open exactly while the session is leased, no lease is from
    the future, and only one slot holds the current generation. *)
Definition world_ok (w : world) (acquired : nat) : Prop :=
  0 <= generation (w_session w) <= Z.of_nat acquired /\
  opened (source (w_session w)) = leased (w_session w) /\
  (forall k, lease_session (slot w k) = true ->
     0 < lease_generation (slot w k) <= generation (w_session w)) /\
  (forall k j, lease_session (slot w k) = true -> lease_session (slot w j) = true ->
     lease_generation (slot w k) = lease_generation (slot w j) -> k = j).

Lemma slot_insert w k l s rc i j :
  slot (World s (<[k := l]> (w_leases w)) rc i) j =
  if decide (k = j /\ (k < length (w_leases w))%nat) then l else slot w j.
Proof.
  unfold slot. simpl. case_decide as H; [destruct H as [-> H]; by rewrite list_lookup_insert_eq|].
  destruct (decide (k = j)) as [->|Hne]; [|by rewrite list_lookup_insert_ne].
  rewrite list_insert_ge; [done|]. apply Nat.nlt_ge. tauto.
Qed.

Lemma source_loop_opened fuel s rc i :
  match source_loop request_idr fuel s rc i with
  | SourceUnit _ s' _ _ | SourceFailed s' _ _ | SourceRunning s' _ _ => opened s' = opened s
  end.
Proof.
  revert s rc i. induction fuel as [|fuel IH]; intros s rc i; cbn [source_loop]; [done|].
  destruct (rtp_read rc) as [[raw|] rc']; [|done].
  assert (E : opened (source_step request_idr s raw i).1.2 = opened s).
  { unfold source_step. repeat match goal with |- context [let '(_, _) := ?x in _] => destruct x end.
    by destruct (_ || _). }
  destruct (source_step request_idr s raw i) as [[[u|] s'] i']; simpl in E; [done|].
  rewrite <- E. apply IH.
Qed.

(** A step that grants nothing: the slot is cleared or left as it is. *)
Lemma world_ok_forget w k l s rc i n :
  world_ok w n -> lease_session l = false \/ l = slot w k ->
  generation s = generation (w_session w) -> opened (source s) = leased s ->
  world_ok (World s (<[k := l]> (w_leases w)) rc i) (S n).
Proof.
  intros (Hg & Ho & Hl & Hu) Hk Eg Es.
  assert (Hslot : forall j, lease_session (slot (World s (<[k := l]> (w_leases w)) rc i) j) = true ->
    slot (World s (<[k := l]> (w_leases w)) rc i) j = slot w j).
  { intros j. rewrite slot_insert. case_decide as H; [|done]. destruct H as [-> _].
    destruct Hk as [Hf|Hf]; congruence. }
  unfold world_ok. cbn [w_session]. rewrite Eg. split_and!; [lia..|done| |].
  - intros j Hj. pose proof (Hslot j Hj) as E. rewrite E in Hj |- *. by apply Hl.
  - intros a b Ha Hb. pose proof (Hslot a Ha) as Ea. pose proof (Hslot b Hb) as Eb.
    rewrite Ea in Ha |- *. rewrite Eb in Hb |- *. by apply Hu.
Qed.

(** A granted lease has a generation no slot holds. *)
Lemma world_ok_grant w k c s rc i n :
  world_ok w n -> generation s = generation (w_session w) + 1 -> opened (source s) = leased s ->
  world_ok (World s (<[k := MkLease true (generation s) (Some c)]> (w_leases w)) rc i) (S n).
Proof.
  intros (Hg & Ho & Hl & Hu) Eg Es. unfold world_ok. cbn [w_session].
  split_and!; [lia..|done| |].
  - intros j. rewrite slot_insert. case_decide; simpl; [lia|]. intros Hj%Hl. lia.
  - intros a b. rewrite !slot_insert.
    repeat case_decide; simpl; intros Ha Hb E; [lia| | |by apply Hu].
    + apply Hl in Hb. lia.
    + apply Hl in Ha. lia.
Qed.

Lemma world_ok_read w s rc i n :
  world_ok w n -> opened s = opened (source (w_session w)) ->
  world_ok (World (MkSession s (video_port (w_session w)) (generation (w_session w))
    (leased (w_session w))) (w_leases w) rc i) (S n).
Proof.
  intros (Hg & Ho & Hl & Hu) Es.
  split_and!; simpl; [lia..|congruence|apply Hl|apply Hu].
Qed.

Lemma world_ok_step w o n :
  world_ok w n -> Z.of_nat (S n) < 2 ^ 64 -> world_ok (step w o) (S n).
Proof.
  intros Hw Hn. pose proof Hw as (Hg & Ho & _). destruct o as [k c|k|k fuel]; simpl.
  - unfold device_session_acquire. destruct (leased (w_session w)) eqn:El.
    { apply world_ok_forget; auto. congruence. }
    unfold video_source_open. rewrite Ho. destruct (rtp_open _ _) as [[buf|] rc'].
    + destruct (video_source_request_idr _ _ _) as [ok i'].
      apply world_ok_grant; [done| |done]. simpl.
      unfold u64. rewrite Z.mod_small by lia.
      destruct (Z.eqb_spec (generation (w_session w) + 1) 0); lia.
    + apply world_ok_forget; auto.
  - unfold device_session_release. destruct (lease_session (slot w k)); simpl;
      [|apply world_ok_forget; auto].
    destruct (leased (w_session w)) eqn:El; simpl; [|apply world_ok_forget; auto; congruence].
    destruct (_ =? _); [|apply world_ok_forget; auto; congruence].
    unfold video_source_close. rewrite Ho. apply world_ok_forget; auto.
  - unfold device_session_read. destruct (lease_is_active _ _); [|by apply world_ok_read].
    unfold video_source_read. destruct (opened (source (w_session w))) eqn:Eo;
      [|by apply world_ok_read; rewrite ?Eo].
    pose proof (source_loop_opened fuel (source (w_session w)) (w_rc w) (w_idr w)) as Hop.
    destruct (source_loop _ _ _ _ _); by apply world_ok_read.
Qed.

Lemma world_ok_run os w n :
  world_ok w n -> Z.of_nat (n + length os) < 2 ^ 64 -> world_ok (run w os) (n + length os).
Proof.
  revert w n. induction os as [|o os IH]; intros w n Hw Hn; simpl in *; [by rewrite Nat.add_0_r|].
  rewrite <- Nat.add_succ_comm in *. apply IH; [|done]. apply world_ok_step; [done|lia].
Qed.

Definition initial_world (s : VideoSource) (port : Z) (slots : nat) (rc : R) (i : I) : world :=
  World (MkSession s port 0 false) (replicate slots no_lease) rc i.

Lemma initial_world_ok s port slots rc i :
  opened s = false -> world_ok (initial_world s port slots rc i) 0.
Proof.
  intros Ho.
  assert (Hs : forall k, slot (initial_world s port slots rc i) k = no_lease).
  { intros k. unfold slot. simpl. destruct (replicate slots no_lease !! k) eqn:E; [|done].
    by apply lookup_replicate in E as [-> _]. }
  split_and!; simpl; try lia; [done| |].
  - intros k. by rewrite Hs.
  - intros k j. by rewrite Hs.
Qed.

Lemma active_unique w n k j : world_ok w n -> active w k -> active w j -> k = j.
Proof.
  intros (_ & _ & _ & Hu). unfold active, lease_is_active. intros Hk Hj.
  destruct (lease_session (slot w k)) eqn:Ek; [|done]. destruct (lease_session (slot w j)) eqn:Ej; [|done].
  simpl in Hk, Hj. destruct (_ =? 0); [done|]. destruct (lease_generation (slot w j) =? 0); [done|].
  apply andb_true_iff in Hk as [_ Hk%Z.eqb_eq], Hj as [_ Hj%Z.eqb_eq]. apply Hu; congruence.
Qed.

Lemma release_inactive w n k : world_ok w n -> ~ active w k ->
  w_session (step w (Release k)) = w_session w /\ w_rc (step w (Release k)) = w_rc w.
Proof.
  intros (_ & _ & Hl & _) Hk. unfold active, lease_is_active in Hk. simpl. unfold device_session_release.
  destruct (lease_session (slot w k)) eqn:Ek; [|done]. simpl in *.
  destruct (Z.eqb_spec (lease_generation (slot w k)) 0) as [E0|_]; [apply Hl in Ek; lia|].
  destruct (leased (w_session w) && _); done.
Qed.

End Session.

(** ** Witness *)

