(* ===== verification/FrameFlow.v ===== *)
(** * Frame pacing, tracing and change detection
    ([src/src/frame_flow.h], [src/src/frame_trace.h], [src/src/bitmap_diff.h])

    [FrameFlow] decides when the next frame may be sent to the RDP client from
    the frames in flight and the pace of its acknowledgements. *)

From S2P Require Import Prelude.

Definition FRAME_FLOW_LIMIT : nat := 3.
Definition FRAME_FLOW_DEFAULT_INTERVAL : Z := 40.
Definition FRAME_FLOW_MIN_INTERVAL : Z := 16.
Definition FRAME_FLOW_SUSPENDED_INTERVAL : Z := 20.
Definition FRAME_FLOW_MAX_INTERVAL : Z := 100.
Definition FRAME_FLOW_SLOW_ACK_MS : Z := 250.
Definition FRAME_FLOW_MAX_INFLIGHT_BYTES : Z := 192 * 1024.
Definition FRAME_FLOW_AVC_WAIT_MS : Z := 150.

Inductive FrameFlowAvcAdmission := FRAME_FLOW_AVC_SEND | FRAME_FLOW_AVC_WAIT | FRAME_FLOW_AVC_RESYNC.

(** One column of the arrays [ids], [sent_at] and [bytes]. *)
Record flow_slot := Slot { slot_id : Z; slot_bytes : Z; slot_sent_at : Z }.

(** [in_flight] holds the first [count] columns, oldest first. *)
Record FrameFlow := MkFlow {
  suspended : bool;
  have_ack : bool;
  interval_ms : Z;
  fast_acks : Z;
  fast_sends : Z;
  last_slow_at : Z;
  in_flight : list flow_slot;
  inflight_bytes : Z;
  last_ack_at : Z }.

Definition flow_init : FrameFlow := MkFlow false false 0 0 0 0 [] 0 0.

Definition flow_count (f : FrameFlow) : nat := length (in_flight f).

Definition frame_flow_interval (f : FrameFlow) : Z :=
  let interval := if interval_ms f =? 0 then FRAME_FLOW_DEFAULT_INTERVAL else interval_ms f in
  let interval :=
    if negb (have_ack f) && negb (suspended f) && (interval <? FRAME_FLOW_DEFAULT_INTERVAL)
    then FRAME_FLOW_DEFAULT_INTERVAL else interval in
  if suspended f && (interval <? FRAME_FLOW_SUSPENDED_INTERVAL)
  then FRAME_FLOW_SUSPENDED_INTERVAL else interval.

Definition frame_flow_slow (f : FrameFlow) (now : Z) : FrameFlow :=
  if negb (last_slow_at f =? 0) && (u64 (now - last_slow_at f) <? 100) then
    MkFlow (suspended f) (have_ack f) (interval_ms f) 0 0 (last_slow_at f) (in_flight f)
      (inflight_bytes f) (last_ack_at f)
  else
    let interval := u32 (frame_flow_interval f + 8) in
    MkFlow (suspended f) (have_ack f)
      (if FRAME_FLOW_MAX_INTERVAL <? interval then FRAME_FLOW_MAX_INTERVAL else interval)
      0 0 now (in_flight f) (inflight_bytes f) (last_ack_at f).

(** The pace fields alone. *)
Definition set_pace (f : FrameFlow) (interval acks sends : Z) : FrameFlow :=
  MkFlow (suspended f) (have_ack f) interval acks sends (last_slow_at f) (in_flight f)
    (inflight_bytes f) (last_ack_at f).

Definition frame_flow_send_cost (f : FrameFlow) (cost_ms now : Z) : FrameFlow :=
  let interval := frame_flow_interval f in
  if interval <=? cost_ms then frame_flow_slow f now
  else if suspended f && (cost_ms <=? interval / 2) then
    let sends := u32 (fast_sends f + 1) in
    if 8 <=? sends
    then set_pace f (if FRAME_FLOW_SUSPENDED_INTERVAL + 1 <? interval then interval - 2
                     else FRAME_FLOW_SUSPENDED_INTERVAL) (fast_acks f) 0
    else set_pace f (interval_ms f) (fast_acks f) sends
  else set_pace f (interval_ms f) (fast_acks f) 0.

Definition frame_flow_blocked (f : FrameFlow) : bool :=
  negb (suspended f) && (flow_count f =? FRAME_FLOW_LIMIT)%nat.

(** The columns at [count] are written and [count] is incremented. *)
Definition flow_track (f : FrameFlow) (id bytes now : Z) : FrameFlow :=
  MkFlow (suspended f) (have_ack f) (interval_ms f) (fast_acks f) (fast_sends f) (last_slow_at f)
    (in_flight f ++ [Slot id bytes now]) (u32 (inflight_bytes f + bytes)) (last_ack_at f).

Definition frame_flow_sent_sized (f : FrameFlow) (id bytes now : Z) : bool * FrameFlow :=
  if suspended f then (true, f)
  else if frame_flow_blocked f then (false, f)
  else if negb (flow_count f =? 0)%nat &&
          (FRAME_FLOW_MAX_INFLIGHT_BYTES <? u32 (inflight_bytes f + bytes)) then (false, f)
  else (true, flow_track f id bytes now).

Definition frame_flow_sent_keyframe_sized (f : FrameFlow) (id bytes now : Z) : bool * FrameFlow :=
  if suspended f then (true, f)
  else if frame_flow_blocked f then (false, f)
  else (true, flow_track f id bytes now).

Definition frame_flow_sent (f : FrameFlow) (id now : Z) : bool * FrameFlow :=
  frame_flow_sent_sized f id 0 now.

(** The client has not acknowledged anything for a while. *)
Definition ack_stale (f : FrameFlow) (now : Z) : bool :=
  negb (last_ack_at f =? 0) && (FRAME_FLOW_SLOW_ACK_MS <=? u64 (now - last_ack_at f)).

Definition frame_flow_ready (f : FrameFlow) (bytes now : Z) : bool :=
  if suspended f || (flow_count f =? 0)%nat then true
  else if frame_flow_blocked f then false
  else if FRAME_FLOW_MAX_INFLIGHT_BYTES <? u32 (inflight_bytes f + bytes) then false
  else if ack_stale f now then false
  else true.

Definition frame_flow_ready_keyframe (f : FrameFlow) (now : Z) : bool :=
  if suspended f || (flow_count f =? 0)%nat then true
  else if frame_flow_blocked f then false
  else if ack_stale f now then false
  else true.

Definition frame_flow_avc_admit (f : FrameFlow) (bytes : Z) (idr : bool) (now wait_started_at : Z)
    : FrameFlowAvcAdmission :=
  if negb (wait_started_at =? 0) && (FRAME_FLOW_AVC_WAIT_MS <=? u64 (now - wait_started_at))
  then FRAME_FLOW_AVC_RESYNC
  else if (if idr then frame_flow_ready_keyframe f now else frame_flow_ready f bytes now)
  then FRAME_FLOW_AVC_SEND
  else FRAME_FLOW_AVC_WAIT.

Definition frame_flow_avc_should_send (need_idr idr p_frame : bool) : bool :=
  idr || (negb need_idr && p_frame).

(** Returns whether a resync must be requested, and the new [need_idr]. *)
Definition frame_flow_avc_flow_rejected (need_idr : bool) : bool * bool :=
  if need_idr then (false, need_idr) else (true, true).

Definition frame_flow_avc_send_failed (need_idr : bool) : bool := true.

Definition frame_flow_avc_sent (need_idr idr : bool) : bool := if idr then false else need_idr.

(** The column that carries [id], split off the others. *)
Fixpoint take_slot (id : Z) (l : list flow_slot) : option (flow_slot * list flow_slot) :=
  match l with
  | [] => None
  | x :: l =>
      if slot_id x =? id then Some (x, l)
      else match take_slot id l with
           | Some (y, rest) => Some (y, x :: rest)
           | None => None
           end
  end.

Definition UINT32_MAX : Z := 4294967295.

(** The pace after an ACK that took [elapsed]. *)
Definition ack_pace (f : FrameFlow) (elapsed depth now : Z) : FrameFlow :=
  if 120 <? elapsed then frame_flow_slow f now
  else if (depth =? 0) && (elapsed <=? 60) then
    let acks := u32 (fast_acks f + 1) in
    if 8 <=? acks then
      let interval := frame_flow_interval f in
      set_pace f (if FRAME_FLOW_MIN_INTERVAL + 1 <? interval then interval - 2
                  else FRAME_FLOW_MIN_INTERVAL) 0 (fast_sends f)
    else set_pace f (interval_ms f) acks (fast_sends f)
  else set_pace f (interval_ms f) 0 (fast_sends f).

(** The body of the loop of [frame_flow_ack] at the column with the id; the
    columns behind it move down by one. *)
Definition ack_slot (f : FrameFlow) (x : flow_slot) (rest : list flow_slot) (depth now : Z)
    : Z * FrameFlow :=
  let elapsed := u64 (now - slot_sent_at x) in
  let f1 := MkFlow (suspended f) true (interval_ms f) (fast_acks f) (fast_sends f) (last_slow_at f)
              (in_flight f) (u32 (inflight_bytes f - slot_bytes x)) (last_ack_at f) in
  let f2 := ack_pace f1 elapsed depth now in
  (elapsed, MkFlow (suspended f2) (have_ack f2) (interval_ms f2) (fast_acks f2) (fast_sends f2)
              (last_slow_at f2) rest (inflight_bytes f2) (last_ack_at f2)).

(** Returns whether the ACK named a frame in flight, [*elapsed] and the state. *)
Definition frame_flow_ack (f : FrameFlow) (id depth now : Z) : bool * Z * FrameFlow :=
  if depth =? UINT32_MAX then
    (false, 0, MkFlow true false FRAME_FLOW_SUSPENDED_INTERVAL 0 0 0 [] 0 0)
  else
    let f1 := MkFlow false (have_ack f) (interval_ms f) (fast_acks f) (fast_sends f)
                (last_slow_at f) (in_flight f) (inflight_bytes f) now in
    let f2 := if 256 * 1024 <? depth then frame_flow_slow f1 now else f1 in
    match take_slot id (in_flight f2) with
    | None => (false, 0, f2)
    | Some (x, rest) => let '(elapsed, f3) := ack_slot f2 x rest depth now in (true, elapsed, f3)
    end.

(** ** Frame tracing *)

Definition FRAME_TRACE_CAPACITY : Z := 256.

Record FrameTraceEntry := MkEntry {
  valid : bool; frame_id : Z; trace_ssrc : Z; rtp_timestamp : Z; received_at : Z; sent_at : Z }.

(** The array of entries by index. *)
Definition FrameTrace : Type := Z -> FrameTraceEntry.

Definition trace_init : FrameTrace := fun _ => MkEntry false 0 0 0 0 0.

Definition frame_trace_sample (timestamp : Z) : bool := (timestamp / 9000) mod 50 =? 0.

(** [clock_gettime] gives seconds and nanoseconds, or fails. *)
Definition frame_trace_wall_ms (clock : option (Z * Z)) : Z :=
  match clock with
  | None => 0
  | Some (sec, nsec) => u64 (u64 (u64 sec * 1000) + nsec / 1000000)
  end.

Definition trace_set (t : FrameTrace) (i : Z) (e : FrameTraceEntry) : FrameTrace :=
  fun j => if j =? i then e else t j.

Definition frame_trace_sent (t : FrameTrace) (id ssrc timestamp received sent : Z) : FrameTrace :=
  trace_set t (id mod FRAME_TRACE_CAPACITY) (MkEntry true id ssrc timestamp received sent).

Definition frame_trace_ack (t : FrameTrace) (id now : Z) : option FrameTraceEntry * FrameTrace :=
  let candidate := t (id mod FRAME_TRACE_CAPACITY) in
  if negb (valid candidate) || negb (frame_id candidate =? id) || (now <? sent_at candidate)
  then (None, t)
  else (Some candidate,
        trace_set t (id mod FRAME_TRACE_CAPACITY)
          (MkEntry false (frame_id candidate) (trace_ssrc candidate) (rtp_timestamp candidate)
             (received_at candidate) (sent_at candidate))).

(** ** Tile comparison *)

(** The first byte of the pixel at ([column], [row]) of the tile at
    ([left], [top]) of a frame [width] pixels wide. *)
Definition tile_pixel (width left top column row : nat) : nat :=
  (((top + row) * width + left) * 4 + column * 4)%nat.

Definition pixel_changed (previous current : bytes) (pixel : nat) : bool :=
  negb (byte_at previous pixel =? byte_at current pixel) ||
  negb (byte_at previous (pixel + 1) =? byte_at current (pixel + 1)) ||
  negb (byte_at previous (pixel + 2) =? byte_at current (pixel + 2)).

(** The two loops with their early [return true]. *)
Fixpoint columns_changed (previous current : bytes) (width left top row column n : nat) : bool :=
  match n with
  | O => false
  | S n => pixel_changed previous current (tile_pixel width left top column row) ||
           columns_changed previous current width left top row (column + 1) n
  end.

Fixpoint rows_changed (previous current : bytes) (width left top columns row n : nat) : bool :=
  match n with
  | O => false
  | S n => columns_changed previous current width left top row 0 columns ||
           rows_changed previous current width left top columns (row + 1) n
  end.

Definition bitmap_tile_changed (previous : option bytes) (current : bytes)
    (width left top columns rows : nat) : bool :=
  match previous with
  | None => true
  | Some previous => rows_changed previous current width left top columns 0 rows
  end.

(** ** Invariant *)

Definition slots_bytes (l : list flow_slot) : Z := foldr (fun x acc => slot_bytes x + acc) 0 l.

Definition interval_ok (i : Z) : Prop :=
  i = 0 \/ FRAME_FLOW_MIN_INTERVAL <= i <= FRAME_FLOW_MAX_INTERVAL.

Definition pace_ok (f : FrameFlow) : Prop :=
  interval_ok (interval_ms f) /\ 0 <= fast_acks f < 8 /\ 0 <= fast_sends f < 8.

Definition flow_ok (f : FrameFlow) : Prop :=
  pace_ok f /\ (flow_count f <= FRAME_FLOW_LIMIT)%nat /\
  inflight_bytes f = u32 (slots_bytes (in_flight f)) /\
  (suspended f = true -> in_flight f = []).

Lemma slots_bytes_app l l' : slots_bytes (l ++ l') = slots_bytes l + slots_bytes l'.
Proof. induction l as [|x l IH]; simpl; lia. Qed.

Lemma u32_add_l a b : u32 (u32 a + b) = u32 (a + b).
Proof. unfold u32. by rewrite Zplus_mod_idemp_l. Qed.

Lemma u32_sub_l a b : u32 (u32 a - b) = u32 (a - b).
Proof. unfold u32. by rewrite Zminus_mod_idemp_l. Qed.

Lemma frame_flow_interval_range f :
  interval_ok (interval_ms f) ->
  FRAME_FLOW_MIN_INTERVAL <= frame_flow_interval f <= FRAME_FLOW_MAX_INTERVAL /\
  (suspended f = true -> FRAME_FLOW_SUSPENDED_INTERVAL <= frame_flow_interval f) /\
  (suspended f = false -> have_ack f = false ->
     FRAME_FLOW_DEFAULT_INTERVAL <= frame_flow_interval f).
Proof.
  unfold interval_ok, frame_flow_interval, FRAME_FLOW_MIN_INTERVAL, FRAME_FLOW_MAX_INTERVAL,
    FRAME_FLOW_SUSPENDED_INTERVAL, FRAME_FLOW_DEFAULT_INTERVAL.
  intros H. destruct (suspended f), (have_ack f); simpl;
    destruct (Z.eqb_spec (interval_ms f) 0); bool_cases; lia.
Qed.

(** An operation that only changes the pace. *)
Definition same_flight (f f' : FrameFlow) : Prop :=
  in_flight f' = in_flight f /\ inflight_bytes f' = inflight_bytes f /\ suspended f' = suspended f.

Lemma same_flight_ok f f' : flow_ok f -> same_flight f f' -> pace_ok f' -> flow_ok f'.
Proof.
  intros (_ & Hc & Hb & Hs) (E1 & E2 & E3) Hp. unfold flow_ok, flow_count in *.
  rewrite E1, E2, E3. by split_and!.
Qed.

Lemma slow_same_flight f now : same_flight f (frame_flow_slow f now).
Proof. unfold frame_flow_slow. by destruct (_ && _). Qed.

Lemma slow_pace f now : pace_ok f -> pace_ok (frame_flow_slow f now).
Proof.
  intros (Hi & Ha & Hs). pose proof (frame_flow_interval_range f Hi) as [Hr _].
  unfold frame_flow_slow. destruct (_ && _); split_and!; simpl; try (done || lia).
  unfold interval_ok, u32, FRAME_FLOW_MIN_INTERVAL, FRAME_FLOW_MAX_INTERVAL in *.
  right. rewrite Z.mod_small by lia. destruct (Z.ltb_spec 100 (frame_flow_interval f + 8)); lia.
Qed.

(** Both speed-ups lower the interval by two, down to a floor inside the range. *)
Lemma faster_interval_ok interval floor :
  FRAME_FLOW_MIN_INTERVAL <= floor <= FRAME_FLOW_MAX_INTERVAL ->
  FRAME_FLOW_MIN_INTERVAL <= interval <= FRAME_FLOW_MAX_INTERVAL ->
  interval_ok (if floor + 1 <? interval then interval - 2 else floor).
Proof. intros Hf Hi. unfold interval_ok. destruct (Z.ltb_spec (floor + 1) interval); lia. Qed.

Lemma send_cost_ok f cost now : flow_ok f -> flow_ok (frame_flow_send_cost f cost now).
Proof.
  intros Hf. apply (same_flight_ok f); [done|..].
  - unfold frame_flow_send_cost. destruct (_ <=? cost); [apply slow_same_flight|].
    destruct (_ && _); [|done]. by destruct (8 <=? _).
  - destruct Hf as ((Hi & Ha & Hs) & _). pose proof (frame_flow_interval_range f Hi) as [Hr _].
    unfold frame_flow_send_cost. destruct (_ <=? cost); [by apply slow_pace|].
    destruct (_ && _); [|split_and!; simpl; (done || lia)].
    unfold u32. rewrite Z.mod_small by lia.
    destruct (Z.leb_spec 8 (fast_sends f + 1)); split_and!; simpl; try (done || lia).
    apply faster_interval_ok; [|done].
    unfold FRAME_FLOW_MIN_INTERVAL, FRAME_FLOW_MAX_INTERVAL, FRAME_FLOW_SUSPENDED_INTERVAL. lia.
Qed.

Lemma ack_pace_same_flight f elapsed depth now : same_flight f (ack_pace f elapsed depth now).
Proof.
  unfold ack_pace. destruct (120 <? _); [apply slow_same_flight|]. destruct (_ && _); [|done].
  by destruct (8 <=? _).
Qed.

Lemma ack_pace_ok f elapsed depth now : pace_ok f -> pace_ok (ack_pace f elapsed depth now).
Proof.
  intros Hp. pose proof Hp as (Hi & Ha & Hs). pose proof (frame_flow_interval_range f Hi) as [Hr _].
  unfold ack_pace. destruct (120 <? _); [by apply slow_pace|].
  destruct (_ && _); [|split_and!; simpl; (done || lia)].
  unfold u32. rewrite Z.mod_small by lia.
  destruct (Z.leb_spec 8 (fast_acks f + 1)); split_and!; simpl; try (done || lia).
  apply faster_interval_ok; [|done]. unfold FRAME_FLOW_MIN_INTERVAL, FRAME_FLOW_MAX_INTERVAL. lia.
Qed.

Lemma flow_track_ok f id bytes now :
  flow_ok f -> suspended f = false -> frame_flow_blocked f = false ->
  flow_ok (flow_track f id bytes now).
Proof.
  intros (Hp & Hc & Hb & _) Hsus Hbl. unfold frame_flow_blocked in Hbl. rewrite Hsus in Hbl.
  apply Nat.eqb_neq in Hbl. unfold flow_ok, flow_count in *. simpl.
  rewrite length_app, slots_bytes_app, Hb, u32_add_l. simpl. rewrite Z.add_0_r.
  split; [done|]. split_and!; [lia|done|congruence].
Qed.

Lemma sent_sized_ok f id bytes now : flow_ok f -> flow_ok (frame_flow_sent_sized f id bytes now).2.
Proof.
  intros Hf. unfold frame_flow_sent_sized. destruct (suspended f) eqn:Es; [done|].
  destruct (frame_flow_blocked f) eqn:Eb; [done|]. destruct (_ && _); [done|]. by apply flow_track_ok.
Qed.

Lemma sent_keyframe_ok f id bytes now :
  flow_ok f -> flow_ok (frame_flow_sent_keyframe_sized f id bytes now).2.
Proof.
  intros Hf. unfold frame_flow_sent_keyframe_sized. destruct (suspended f) eqn:Es; [done|].
  destruct (frame_flow_blocked f) eqn:Eb; [done|]. by apply flow_track_ok.
Qed.

Lemma take_slot_Some id l x rest :
  take_slot id l = Some (x, rest) <->
  exists l1 l2, l = l1 ++ x :: l2 /\ rest = l1 ++ l2 /\ slot_id x = id /\
    Forall (fun y => slot_id y <> id) l1.
Proof.
  split.
  - revert x rest. induction l as [|y l IH]; intros x rest; simpl; [done|].
    destruct (Z.eqb_spec (slot_id y) id).
    + intros [= <- <-]. by exists [], l.
    + destruct (take_slot id l) as [[z r]|]; [|done]. intros [= <- <-].
      destruct (IH z r eq_refl) as (l1 & l2 & -> & -> & Hx & Hl1).
      exists (y :: l1), l2. split_and!; auto.
  - intros (l1 & l2 & -> & -> & Hx & Hl1). induction l1 as [|y l1 IH]; simpl.
    + rewrite Hx, Z.eqb_refl. done.
    + apply Forall_cons_iff in Hl1 as [Hy Hl1]. destruct (Z.eqb_spec (slot_id y) id); [done|].
      by rewrite IH.
Qed.

Lemma take_slot_None id l : take_slot id l = None <-> Forall (fun y => slot_id y <> id) l.
Proof.
  induction l as [|y l IH]; simpl; [done|]. rewrite Forall_cons_iff.
  destruct (Z.eqb_spec (slot_id y) id); [split; [done|tauto]|].
  destruct (take_slot id l) as [[z r]|]; [|tauto]. split; [done|]. intros [_ H]. by apply IH in H.
Qed.

Lemma ack_slot_ok f x l1 l2 depth now :
  flow_ok f -> in_flight f = l1 ++ x :: l2 -> suspended f = false ->
  let f' := (ack_slot f x (l1 ++ l2) depth now).2 in
  flow_ok f' /\ in_flight f' = l1 ++ l2.
Proof.
  intros (Hp & Hc & Hb & _) El Hsus. unfold ack_slot. cbv zeta.
  set (f1 := MkFlow (suspended f) _ _ _ _ _ _ _ _). set (elapsed := u64 _).
  pose proof (ack_pace_ok f1 elapsed depth now Hp) as Hp2.
  destruct (ack_pace_same_flight f1 elapsed depth now) as (_ & E2 & E3).
  cbn [snd]. split; [|done]. split; [done|].
  unfold flow_count in *. simpl. rewrite E2, E3. simpl.
  rewrite Hb, u32_sub_l, El, !slots_bytes_app. simpl.
  rewrite El, length_app in Hc. rewrite length_app. simpl in Hc.
  split_and!; [lia|f_equal; lia|congruence].
Qed.

Lemma frame_flow_ack_ok f id depth now : flow_ok f -> flow_ok (frame_flow_ack f id depth now).2.
Proof.
  intros Hf. unfold frame_flow_ack. destruct (_ =? UINT32_MAX).
  { split; [|split_and!; simpl; try done; unfold flow_count, FRAME_FLOW_LIMIT; simpl; lia].
    split_and!; simpl; try lia. right.
    unfold FRAME_FLOW_MIN_INTERVAL, FRAME_FLOW_MAX_INTERVAL, FRAME_FLOW_SUSPENDED_INTERVAL. lia. }
  cbv zeta. set (f1 := MkFlow false _ _ _ _ _ _ _ _). set (f2 := if _ <? depth then _ else f1).
  assert (H1 : flow_ok f1) by (destruct Hf as (? & ? & ? & ?); by split_and!).
  assert (H2 : flow_ok f2 /\ suspended f2 = false).
  { unfold f2. destruct (_ <? depth); [|done]. split; [|by apply (slow_same_flight f1 now)].
    apply (same_flight_ok f1); [done|apply slow_same_flight|apply slow_pace, H1]. }
  destruct H2 as [H2 Hs2].
  destruct (take_slot id (in_flight f2)) as [[x rest]|] eqn:E; [|done].
  apply take_slot_Some in E as (l1 & l2 & El & -> & _).
  pose proof (ack_slot_ok f2 x l1 l2 depth now H2 El Hs2) as [H3 _].
  by destruct (ack_slot _ _ _ _ _).
Qed.

(** ** Every sequence of operations *)

Inductive flow_op :=
| SendCost (cost now : Z)
| SentSized (id bytes now : Z)
| SentKeyframe (id bytes now : Z)
| Ack (id depth now : Z).

Definition flow_step (f : FrameFlow) (o : flow_op) : FrameFlow :=
  match o with
  | SendCost cost now => frame_flow_send_cost f cost now
  | SentSized id bytes now => (frame_flow_sent_sized f id bytes now).2
  | SentKeyframe id bytes now => (frame_flow_sent_keyframe_sized f id bytes now).2
  | Ack id depth now => (frame_flow_ack f id depth now).2
  end.

Lemma flow_step_ok f o : flow_ok f -> flow_ok (flow_step f o).
Proof.
  destruct o; simpl;
    auto using send_cost_ok, sent_sized_ok, sent_keyframe_ok, frame_flow_ack_ok.
Qed.

Lemma flow_init_ok : flow_ok flow_init.
Proof.
  split; [split_and!; simpl; [by left|lia..]|].
  split_and!; [unfold flow_count, FRAME_FLOW_LIMIT; simpl; lia|done..].
Qed.

Lemma flow_run_ok f os : flow_ok f -> flow_ok (fold_left flow_step os f).
Proof. revert f. induction os; simpl; auto using flow_step_ok. Qed.

(** C22: after any sequence of sends and acknowledgements, with any times and
    sizes, at most three frames are tracked, the byte counter is the sum of the
    tracked sizes modulo 2^32, the interval to the next frame is between 16 and
    100 ms, at least 20 ms while the client has suspended acknowledgements and
    at least 40 ms before the first acknowledgement. *)
Theorem frame_flow_invariant os :
  let f := fold_left flow_step os flow_init in
  (flow_count f <= FRAME_FLOW_LIMIT)%nat /\
  inflight_bytes f = u32 (slots_bytes (in_flight f)) /\
  FRAME_FLOW_MIN_INTERVAL <= frame_flow_interval f <= FRAME_FLOW_MAX_INTERVAL /\
  (suspended f = true -> FRAME_FLOW_SUSPENDED_INTERVAL <= frame_flow_interval f) /\
  (suspended f = false -> have_ack f = false ->
     FRAME_FLOW_DEFAULT_INTERVAL <= frame_flow_interval f).
Proof.
  intros f. destruct (flow_run_ok flow_init os flow_init_ok) as ((Hi & _) & Hc & Hb & _).
  fold f in Hi, Hc, Hb. split; [done|]. split; [done|]. by apply frame_flow_interval_range.
Qed.

(** An acknowledgement (without the suspend depth) releases exactly the
    oldest frame in flight with its id, keeps the others in order, gives its
    size back to the budget and measures its age; an unknown or duplicate id
    releases nothing. *)
Theorem frame_flow_ack_exact f id depth now :
  flow_ok f -> depth <> UINT32_MAX ->
  let '(found, elapsed, f') := frame_flow_ack f id depth now in
  if found then
    exists l1 x l2, in_flight f = l1 ++ x :: l2 /\ slot_id x = id /\
      Forall (fun y => slot_id y <> id) l1 /\ in_flight f' = l1 ++ l2 /\
      inflight_bytes f' = u32 (slots_bytes (l1 ++ l2)) /\ elapsed = u64 (now - slot_sent_at x)
  else
    Forall (fun y => slot_id y <> id) (in_flight f) /\ in_flight f' = in_flight f /\
    inflight_bytes f' = inflight_bytes f.
Proof.
  intros Hf Hd. pose proof (frame_flow_ack_ok f id depth now Hf) as Hok.
  unfold frame_flow_ack in *. destruct (Z.eqb_spec depth UINT32_MAX); [done|]. cbv zeta in *.
  set (f1 := MkFlow false _ _ _ _ _ _ _ _) in *. set (f2 := if _ <? depth then _ else f1) in *.
  assert (E2 : in_flight f2 = in_flight f /\ inflight_bytes f2 = inflight_bytes f).
  { unfold f2. destruct (_ <? depth); [|done]. by destruct (slow_same_flight f1 now) as (-> & -> & _). }
  destruct E2 as [El Eb]. rewrite El in *.
  destruct (take_slot id (in_flight f)) as [[x rest]|] eqn:E.
  - apply take_slot_Some in E as (l1 & l2 & Ef & -> & Hx & Hl1).
    unfold ack_slot in *. cbv zeta in *. exists l1, x, l2. split_and!; auto.
    destruct Hok as (_ & _ & Hb & _). exact Hb.
  - apply take_slot_None in E. done.
Qed.

(** A frame that [frame_flow_avc_admit] lets through is always accepted by
    the matching [frame_flow_sent] call, and an admitted dependent frame never
    takes the bytes in flight past the budget when other frames are
    unacknowledged. *)
Theorem frame_flow_admission_sound f id bytes idr now wait_started_at :
  frame_flow_avc_admit f bytes idr now wait_started_at = FRAME_FLOW_AVC_SEND ->
  let '(ok, f') := if (idr : bool) then frame_flow_sent_keyframe_sized f id bytes now
                   else frame_flow_sent_sized f id bytes now in
  ok = true /\
  (suspended f = false -> in_flight f' = in_flight f ++ [Slot id bytes now]) /\
  (idr = false -> suspended f = false -> in_flight f <> [] ->
     inflight_bytes f' <= FRAME_FLOW_MAX_INFLIGHT_BYTES).
Proof.
  unfold frame_flow_avc_admit, frame_flow_ready, frame_flow_ready_keyframe,
    frame_flow_sent_keyframe_sized, frame_flow_sent_sized.
  destruct (_ && _); [done|]. destruct (suspended f) eqn:Es; simpl.
  { destruct idr; done. }
  unfold frame_flow_blocked, flow_count. rewrite Es. simpl.
  destruct (in_flight f) as [|x l] eqn:El; simpl.
  { destruct idr; simpl; rewrite ?El; done. }
  destruct (_ =? 2)%nat || destruct (length l) as [|[|[|]]]; destruct idr; simpl; rewrite ?El; try done.
  all: destruct (Z.ltb_spec FRAME_FLOW_MAX_INFLIGHT_BYTES (u32 (inflight_bytes f + bytes)));
    simpl; rewrite ?El; try done.
Qed.

(** ** Tiles *)

Lemma pixel_changed_false previous current p :
  pixel_changed previous current p = false <->
  forall channel, (channel < 3)%nat ->
    byte_at previous (p + channel) = byte_at current (p + channel).
Proof.
  unfold pixel_changed. rewrite !orb_false_iff, !negb_false_iff, !Z.eqb_eq. split.
  - intros [[H0 H1] H2] [|[|[|c]]] Hc; [by rewrite Nat.add_0_r|done|done|lia].
  - intros H. pose proof (H 0%nat ltac:(lia)) as H0. rewrite Nat.add_0_r in H0.
    split_and!; [done|apply H; lia..].
Qed.

(** One more index at the front of a scan. *)
Lemma scan_front (P : nat -> Prop) i n :
  (forall k, (i <= k < i + S n)%nat -> P k) <->
  P i /\ forall k, (i + 1 <= k < i + 1 + n)%nat -> P k.
Proof.
  split.
  - intros H. split; [apply H; lia|]. intros k Hk. apply H. lia.
  - intros [H0 H] k Hk. destruct (decide (k = i)) as [->|]; [done|]. apply H. lia.
Qed.

Lemma columns_changed_false previous current width left top row column n :
  columns_changed previous current width left top row column n = false <->
  forall c, (column <= c < column + n)%nat ->
    pixel_changed previous current (tile_pixel width left top c row) = false.
Proof.
  revert column. induction n as [|n IH]; intros column; cbn [columns_changed].
  - split; [intros _ c Hc; lia|done].
  - by rewrite orb_false_iff, IH, scan_front.
Qed.

Lemma rows_changed_false previous current width left top columns row n :
  rows_changed previous current width left top columns row n = false <->
  forall r, (row <= r < row + n)%nat ->
    columns_changed previous current width left top r 0 columns = false.
Proof.
  revert row. induction n as [|n IH]; intros row; cbn [rows_changed].
  - split; [intros _ c Hc; lia|done].
  - by rewrite orb_false_iff, IH, scan_front.
Qed.

(** [bitmap_tile_changed] reports no change exactly when a previous frame
    exists and every pixel of the tile has the same three visible channels in
    both frames: no changed pixel is ever missed, and padding never counts. *)
Theorem bitmap_tile_changed_spec previous current width left top columns rows :
  bitmap_tile_changed previous current width left top columns rows = false <->
  exists prev, previous = Some prev /\
    forall row column channel, (row < rows)%nat -> (column < columns)%nat -> (channel < 3)%nat ->
      byte_at prev (tile_pixel width left top column row + channel) =
      byte_at current (tile_pixel width left top column row + channel).
Proof.
  unfold bitmap_tile_changed. destruct previous as [prev|].
  - rewrite rows_changed_false. split.
    + intros H. exists prev. split; [done|]. intros row column channel Hr Hc Hch.
      apply pixel_changed_false; [|done].
      apply (columns_changed_false prev current width left top row 0 columns); [apply H; lia|lia].
    + intros (p & [= <-] & H) r Hr. apply columns_changed_false. intros c Hc.
      apply pixel_changed_false. intros ch Hch. apply H; lia.
  - split; [done|]. by intros (p & ? & _).
Qed.

(** ** Witnesses *)

Definition sample_flow : FrameFlow :=
  fold_left flow_step [SentSized 1 1000 10; SentKeyframe 2 250000 20; SendCost 5 21] flow_init.

Lemma frame_flow_ack_exact_witness :
  let '(found, elapsed, f') := frame_flow_ack sample_flow 1 0 50 in
  if found then
    exists l1 x l2, in_flight sample_flow = l1 ++ x :: l2 /\ slot_id x = 1 /\
      Forall (fun y => slot_id y <> 1) l1 /\ in_flight f' = l1 ++ l2 /\
      inflight_bytes f' = u32 (slots_bytes (l1 ++ l2)) /\ elapsed = u64 (50 - slot_sent_at x)
  else
    Forall (fun y => slot_id y <> 1) (in_flight sample_flow) /\
    in_flight f' = in_flight sample_flow /\ inflight_bytes f' = inflight_bytes sample_flow.
Proof.
  apply (frame_flow_ack_exact sample_flow 1 0 50).
  - apply flow_run_ok, flow_init_ok.
  - done.
Defined.

Lemma frame_flow_admission_sound_witness :
  let '(ok, f') := frame_flow_sent_keyframe_sized sample_flow 3 400000 60 in
  ok = true /\
  (suspended sample_flow = false -> in_flight f' = in_flight sample_flow ++ [Slot 3 400000 60]) /\
  (true = false -> suspended sample_flow = false -> in_flight sample_flow <> [] ->
     inflight_bytes f' <= FRAME_FLOW_MAX_INFLIGHT_BYTES).
Proof.
  apply (frame_flow_admission_sound sample_flow 3 400000 true 60 0). reflexivity.
Defined.
