(* ===== verification/RdpGfx.v ===== *)
(** * The RDPGFX video path ([src/src/rdp_gfx.c], [src/src/gateway_internal.h])

    Capability selection, acknowledgements, and the thread that passes H.264
    access units on to the RDP client.  The client's fields are shared with the
    threads that handle acknowledgements and shut the client down; what those do
    between two sections of the video thread is an argument of each step.  The
    values of the FreeRDP constants are parameters. *)

From S2P Require Import Prelude Protocol H264 VideoSource FrameFlow.

(** ** Capabilities *)

Record RDPGFX_CAPSET := MkCap { version : Z; flags : Z }.

Section Caps.
Context (RDPGFX_CAPVERSION_81 RDPGFX_CAPVERSION_10 RDPGFX_CAPS_FLAG_AVC420_ENABLED
  RDPGFX_CAPS_FLAG_AVC_DISABLED : Z) (preferred_versions : list Z).

Definition client_cap_supports_avc420 (cap : RDPGFX_CAPSET) : bool :=
  if version cap =? RDPGFX_CAPVERSION_81
  then negb (Z.land (flags cap) RDPGFX_CAPS_FLAG_AVC420_ENABLED =? 0)
  else (RDPGFX_CAPVERSION_10 <=? version cap) &&
       (Z.land (flags cap) RDPGFX_CAPS_FLAG_AVC_DISABLED =? 0).

(** The innermost loop: the first set of a version, in the first pass one that
    supports AVC420. *)
Fixpoint select_index (first_pass : bool) (wanted : Z) (sets : list RDPGFX_CAPSET)
    : option (RDPGFX_CAPSET * bool) :=
  match sets with
  | [] => None
  | current :: sets =>
      if negb (version current =? wanted) then select_index first_pass wanted sets
      else
        let avc420 := client_cap_supports_avc420 current in
        if first_pass && negb avc420 then select_index first_pass wanted sets
        else Some (current, avc420)
  end.

Fixpoint select_version (first_pass : bool) (versions : list Z) (sets : list RDPGFX_CAPSET)
    : option (RDPGFX_CAPSET * bool) :=
  match versions with
  | [] => None
  | wanted :: versions =>
      match select_index first_pass wanted sets with
      | Some found => Some found
      | None => select_version first_pass versions sets
      end
  end.

Definition client_select_gfx_cap (sets : list RDPGFX_CAPSET) : option (RDPGFX_CAPSET * bool) :=
  match select_version true preferred_versions sets with
  | Some found => Some found
  | None => select_version false preferred_versions sets
  end.

End Caps.

(** ** The client *)

Record GfxStats := MkGfxStats {
  rtp_nals : Z;
  rtp_access_units : Z;
  rtp_idr_units : Z;
  rtp_p_units : Z;
  bitmap_frames : Z;
  avc_skipped : Z;
  avc_resyncs : Z;
  avc_waits : Z;
  last_rdp_send_ms : Z }.

(** The fields of [Client] this path uses. *)
Record GfxClient := MkGfx {
  direct_gfx_active : bool;
  bitmap_fallback_active : bool;
  gfx_ready : bool;
  gfx_uses_progressive : bool;
  stopping : bool;
  need_idr : bool;
  frame_flow : FrameFlow;
  frame_trace : FrameTrace;
  next_frame_id : Z;
  parameter_sets : H264ParameterSets;
  last_rtp_received_at : Z;
  stats : GfxStats }.

Definition set_stopping (c : GfxClient) : GfxClient :=
  MkGfx (direct_gfx_active c) (bitmap_fallback_active c) (gfx_ready c) (gfx_uses_progressive c)
    true (need_idr c) (frame_flow c) (frame_trace c) (next_frame_id c) (parameter_sets c)
    (last_rtp_received_at c) (stats c).
Definition set_need_idr (c : GfxClient) (b : bool) : GfxClient :=
  MkGfx (direct_gfx_active c) (bitmap_fallback_active c) (gfx_ready c) (gfx_uses_progressive c)
    (stopping c) b (frame_flow c) (frame_trace c) (next_frame_id c) (parameter_sets c)
    (last_rtp_received_at c) (stats c).
Definition set_flow (c : GfxClient) (f : FrameFlow) : GfxClient :=
  MkGfx (direct_gfx_active c) (bitmap_fallback_active c) (gfx_ready c) (gfx_uses_progressive c)
    (stopping c) (need_idr c) f (frame_trace c) (next_frame_id c) (parameter_sets c)
    (last_rtp_received_at c) (stats c).
Definition set_trace (c : GfxClient) (t : FrameTrace) : GfxClient :=
  MkGfx (direct_gfx_active c) (bitmap_fallback_active c) (gfx_ready c) (gfx_uses_progressive c)
    (stopping c) (need_idr c) (frame_flow c) t (next_frame_id c) (parameter_sets c)
    (last_rtp_received_at c) (stats c).
Definition set_frame_id (c : GfxClient) (id : Z) : GfxClient :=
  MkGfx (direct_gfx_active c) (bitmap_fallback_active c) (gfx_ready c) (gfx_uses_progressive c)
    (stopping c) (need_idr c) (frame_flow c) (frame_trace c) id (parameter_sets c)
    (last_rtp_received_at c) (stats c).
Definition set_params (c : GfxClient) (ps : H264ParameterSets) : GfxClient :=
  MkGfx (direct_gfx_active c) (bitmap_fallback_active c) (gfx_ready c) (gfx_uses_progressive c)
    (stopping c) (need_idr c) (frame_flow c) (frame_trace c) (next_frame_id c) ps
    (last_rtp_received_at c) (stats c).
Definition set_received (c : GfxClient) (now : Z) : GfxClient :=
  MkGfx (direct_gfx_active c) (bitmap_fallback_active c) (gfx_ready c) (gfx_uses_progressive c)
    (stopping c) (need_idr c) (frame_flow c) (frame_trace c) (next_frame_id c) (parameter_sets c)
    now (stats c).
Definition set_stats (c : GfxClient) (s : GfxStats) : GfxClient :=
  MkGfx (direct_gfx_active c) (bitmap_fallback_active c) (gfx_ready c) (gfx_uses_progressive c)
    (stopping c) (need_idr c) (frame_flow c) (frame_trace c) (next_frame_id c) (parameter_sets c)
    (last_rtp_received_at c) s.

(** Counters are 32 bits wide. *)
Definition count_skipped (s : GfxStats) : GfxStats :=
  MkGfxStats (rtp_nals s) (rtp_access_units s) (rtp_idr_units s) (rtp_p_units s) (bitmap_frames s)
    (u32 (avc_skipped s + 1)) (avc_resyncs s) (avc_waits s) (last_rdp_send_ms s).
Definition count_resync (s : GfxStats) : GfxStats :=
  MkGfxStats (rtp_nals s) (rtp_access_units s) (rtp_idr_units s) (rtp_p_units s) (bitmap_frames s)
    (avc_skipped s) (u32 (avc_resyncs s + 1)) (avc_waits s) (last_rdp_send_ms s).
Definition count_wait (s : GfxStats) : GfxStats :=
  MkGfxStats (rtp_nals s) (rtp_access_units s) (rtp_idr_units s) (rtp_p_units s) (bitmap_frames s)
    (avc_skipped s) (avc_resyncs s) (u32 (avc_waits s + 1)) (last_rdp_send_ms s).
Definition count_frame (s : GfxStats) : GfxStats :=
  MkGfxStats (rtp_nals s) (rtp_access_units s) (rtp_idr_units s) (rtp_p_units s)
    (u32 (bitmap_frames s + 1)) (avc_skipped s) (avc_resyncs s) (avc_waits s) (last_rdp_send_ms s).
Definition note_send_ms (s : GfxStats) (ms : Z) : GfxStats :=
  MkGfxStats (rtp_nals s) (rtp_access_units s) (rtp_idr_units s) (rtp_p_units s) (bitmap_frames s)
    (avc_skipped s) (avc_resyncs s) (avc_waits s) ms.
Definition count_unit (s : GfxStats) (idr p_frame : bool) : GfxStats :=
  MkGfxStats (u32 (rtp_nals s + 1)) (u32 (rtp_access_units s + 1))
    (if idr then u32 (rtp_idr_units s + 1) else rtp_idr_units s)
    (if p_frame then u32 (rtp_p_units s + 1) else rtp_p_units s) (bitmap_frames s)
    (avc_skipped s) (avc_resyncs s) (avc_waits s) (last_rdp_send_ms s).

Definition client_should_stop (c : GfxClient) : bool := stopping c.
Definition client_stop (c : GfxClient) : GfxClient := set_stopping c.

(** ** Other threads *)

(** [on_gfx_frame_ack]: the clock is read twice. *)
Definition on_gfx_frame_ack (c : GfxClient) (id depth now acknowledged_at : Z) : GfxClient :=
  let '(_, _, flow) := frame_flow_ack (frame_flow c) id depth now in
  let c := set_flow c flow in
  if gfx_uses_progressive c then c
  else set_trace c (frame_trace_ack (frame_trace c) id acknowledged_at).2.

(** ** Surface setup *)

Inductive gfx_thread := VideoThread | BitmapVideoThread.

Inductive caps_result :=
| CapsNotSupported            (** [ERROR_NOT_SUPPORTED] *)
| CapsUnsupportedVersion      (** [CHANNEL_RC_UNSUPPORTED_VERSION] *)
| CapsError                   (** an error of the channel or of the encoder *)
| CapsNoThread                (** [ERROR_NOT_ENOUGH_MEMORY] *)
| CapsOk.                     (** [CHANNEL_RC_OK] *)

(** Whether each of the calls succeeds. *)
Record caps_answers := MkCapsAnswers {
  caps_confirmed : bool;
  surface_created : bool;
  surface_mapped : bool;
  progressive_ready : bool;
  thread_created : bool }.

(** [on_gfx_caps_advertise] behind the selection: the result, the client, the
    thread that was started, and whether the stream was requested. *)
Definition on_gfx_caps_advertise (selected : option (RDPGFX_CAPSET * bool)) (a : caps_answers)
    (c : GfxClient) : caps_result * GfxClient * option gfx_thread * bool :=
  if negb (direct_gfx_active c) || bitmap_fallback_active c then (CapsNotSupported, c, None, false)
  else
    match selected with
    | None => (CapsUnsupportedVersion, client_stop c, None, false)
    | Some (_, use_avc420) =>
        if negb (caps_confirmed a) || negb (surface_created a) || negb (surface_mapped a) ||
           (negb use_avc420 && negb (progressive_ready a))
        then (CapsError, c, None, false)
        else
          let c := MkGfx (direct_gfx_active c) (negb use_avc420) true (negb use_avc420) (stopping c)
                     use_avc420 (frame_flow c) (frame_trace c) (next_frame_id c)
                     (parameter_sets c) (last_rtp_received_at c) (stats c) in
          if negb (thread_created a) then (CapsNoThread, client_stop c, None, false)
          else (CapsOk, c, Some (if use_avc420 then VideoThread else BitmapVideoThread), true)
    end.

(** ** What other threads do meanwhile *)

(** The client acknowledges a frame, the client is stopped, or the client
    advertises its capabilities again. *)
Inductive gfx_event :=
| Ack (id depth now acknowledged_at : Z)
| Stop
| Advertise (selected : option (RDPGFX_CAPSET * bool)) (a : caps_answers).

Definition gfx_apply (c : GfxClient) (e : gfx_event) : GfxClient :=
  match e with
  | Ack id depth now later => on_gfx_frame_ack c id depth now later
  | Stop => client_stop c
  | Advertise selected a => (on_gfx_caps_advertise selected a c).1.1.2
  end.
Definition interfere (c : GfxClient) (es : list gfx_event) : GfxClient := fold_left gfx_apply es c.

(** ** Admission of a frame *)

(** How a round's wait ends: there is no event to wait for, the wait fails, or it
    returns (signalled or timed out). *)
Inductive wait_end := NoEvent | WaitFailed | WaitReturned.

(** One round of the loop: what other threads did before it, the clock, what
    they do before the stop flag is read, and how the wait ends. *)
Record wait_sample := MkSample {
  ws_before : list gfx_event;
  ws_now : Z;
  ws_between : list gfx_event;
  ws_wait : wait_end }.

Definition ws_failed (s : wait_sample) : bool :=
  match ws_wait s with WaitReturned => false | _ => true end.

(** [Blocked] when no more samples are given: the thread is still waiting. *)
Inductive admission := Accepted | Refused | Blocked.

(** A call of [WaitForSingleObject]: the clock of its round and the timeout. *)
Record wait_call := MkWait { wait_at : Z; wait_ms : Z }.

(** The timeout of the wait in a round at [now]: a DWORD. *)
Definition wait_remaining (now wait_started_at : Z) : Z :=
  let elapsed := u64 (now - wait_started_at) in
  if FRAME_FLOW_AVC_WAIT_MS <=? elapsed then 0 else u32 (FRAME_FLOW_AVC_WAIT_MS - elapsed).

(** The loop of [client_accept_avc_frame]: the answer, the client, whether an IDR
    was requested, and the waits. *)
Fixpoint accept_loop (samples : list wait_sample) (wait_started_at : Z) (bytes : Z) (idr : bool)
    (c : GfxClient) : admission * GfxClient * bool * list wait_call :=
  match samples with
  | [] => (Blocked, c, false, [])
  | s :: samples =>
      let c := interfere c (ws_before s) in
      let now := ws_now s in
      if negb (gfx_ready c) || stopping c then (Refused, c, false, [])
      else
        match frame_flow_avc_admit (frame_flow c) bytes idr now wait_started_at with
        | FRAME_FLOW_AVC_SEND => (Accepted, c, false, [])
        | FRAME_FLOW_AVC_RESYNC =>
            let '(request_idr, need) := frame_flow_avc_flow_rejected (need_idr c) in
            let st := count_skipped (stats c) in
            (Refused, set_stats (set_need_idr c need) (if request_idr then count_resync st else st),
             request_idr, [])
        | FRAME_FLOW_AVC_WAIT =>
            let c := if wait_started_at =? 0 then set_stats c (count_wait (stats c)) else c in
            let wait_started_at := if wait_started_at =? 0 then now else wait_started_at in
            let c := interfere c (ws_between s) in
            let wait := MkWait now (wait_remaining now wait_started_at) in
            if client_should_stop c then (Refused, c, false, [])
            else match ws_wait s with
                 | NoEvent => (Refused, c, false, [])
                 | WaitFailed => (Refused, c, false, [wait])
                 | WaitReturned =>
                     let '(answer, c, request, waits) := accept_loop samples wait_started_at bytes idr c in
                     (answer, c, request, wait :: waits)
                 end
        end
  end.

Definition client_accept_avc_frame (samples : list wait_sample) (bytes : Z) (idr : bool)
    (c : GfxClient) : admission * GfxClient * bool * list wait_call :=
  accept_loop samples 0 bytes idr c.

(** ** Sending a frame *)

(** What the client is sent: the id of the frame and the bytes. *)
Record submission := MkSubmission { sub_id : Z; sub_data : bytes }.

Record send_env := MkSendEnv {
  se_before : list gfx_event;       (** before the first section *)
  se_started : Z;
  se_ok : bool;                     (** [SurfaceFrameCommand] succeeds *)
  se_after : list gfx_event;        (** between the submission and its bookkeeping *)
  se_done : Z }.

(** [send_avc420_frame]: the result, the client and what was submitted. *)
Definition send_avc420_frame (e : send_env) (data : bytes) (ssrc timestamp received_at : Z)
    (idr : bool) (c : GfxClient) : bool * GfxClient * option submission :=
  let c := interfere c (se_before e) in
  if negb (gfx_ready c) || stopping c then (false, c, None)
  else
    let id := next_frame_id c in
    let c := set_trace (set_frame_id c (u32 (id + 1)))
               (frame_trace_sent (frame_trace c) id ssrc timestamp received_at (se_started e)) in
    let c := interfere c (se_after e) in
    let c := set_stats c (note_send_ms (stats c) (u64 (se_done e - se_started e))) in
    if negb (se_ok e) then
      (false, set_stats (set_need_idr c (frame_flow_avc_send_failed (need_idr c)))
                (count_skipped (stats c)), None)
    else
      let bytes := u32 (Z.of_nat (length data)) in
      let flow := if idr then (frame_flow_sent_keyframe_sized (frame_flow c) id bytes (se_done e)).2
                  else (frame_flow_sent_sized (frame_flow c) id bytes (se_done e)).2 in
      (true, set_stats (set_need_idr (set_flow c flow) (frame_flow_avc_sent (need_idr c) idr))
               (count_frame (stats c)), Some (MkSubmission id data)).

(** ** The video thread *)

Definition unit_idr (u : VideoSourceAccessUnit) : bool := has_nal (nal_types u) 5.
Definition unit_p (u : VideoSourceAccessUnit) : bool := has_nal (nal_types u) 1.

Record unit_env := MkUnitEnv {
  ue_before : list gfx_event;
  ue_received_at : Z;
  ue_samples : list wait_sample;
  ue_send : send_env }.

(** How the body of the loop ends. *)
Inductive flow_end := Continue | Break | Waiting.

(** The first section: counters, the IDR gate, and [should_send]. *)
Definition unit_gate (u : VideoSourceAccessUnit) (received_at : Z) (c : GfxClient) : bool * GfxClient :=
  let idr := unit_idr u in
  let c := set_received (set_stats c (count_unit (stats c) idr (unit_p u))) received_at in
  let c := if packet_loss u then set_need_idr c (frame_flow_avc_send_failed (need_idr c)) else c in
  let should_send := negb (packet_loss u) &&
                     frame_flow_avc_should_send (need_idr c) idr (unit_p u) &&
                     gfx_ready c && negb (stopping c) in
  (should_send,
   if negb should_send && gfx_ready c && negb (stopping c) && (packet_loss u || need_idr c)
   then set_stats c (count_skipped (stats c)) else c).

Section VideoThread.
(** Whether [realloc] grants a size. *)
Context (can_grow : nat -> bool).

(** One access unit: how the body ends, the client, what was submitted, and
    whether an IDR was requested. *)
Definition video_unit (u : VideoSourceAccessUnit) (e : unit_env) (c : GfxClient)
    : flow_end * GfxClient * option submission * bool :=
  let c := set_params c (h264_parameter_sets_update can_grow (parameter_sets c) (data u) (nal_types u)) in
  let c := interfere c (ue_before e) in
  let '(should_send, c) := unit_gate u (ue_received_at e) c in
  if negb should_send then (Continue, c, None, false)
  else
    match (if unit_idr u
           then h264_parameter_sets_prepare_idr can_grow (parameter_sets c) (data u) (nal_types u)
           else Some (data u, parameter_sets c)) with
    | None =>
        (Break, client_stop (set_stats (set_need_idr c (frame_flow_avc_send_failed (need_idr c)))
                               (count_skipped (stats c))), None, false)
    | Some (payload, ps) =>
        let c := set_params c ps in
        match client_accept_avc_frame (ue_samples e) (u32 (Z.of_nat (length payload))) (unit_idr u) c with
        | (Blocked, c, r, _) => (Waiting, c, None, r)
        | (Refused, c, r, _) => (Continue, c, None, r)
        | (Accepted, c, r, _) =>
            let '(ok, c, sub) := send_avc420_frame (ue_send e) payload (unit_ssrc u)
                                   (unit_timestamp u) (ue_received_at e) (unit_idr u) c in
            (Continue, if ok then c else client_stop c, sub, r)
        end
    end.

(** The result of [device_session_read], with what other threads did meanwhile. *)
Inductive read_result :=
| ReadUnit (u : VideoSourceAccessUnit) (e : unit_env)
| ReadAgain (before : list gfx_event)
| ReadFailed (before : list gfx_event).

(** The loop of [video_thread] over the results of its reads: every access unit
    it has handled with what was submitted for it, and the client at the end. *)
Fixpoint video_loop (reads : list read_result) (c : GfxClient)
    : list (VideoSourceAccessUnit * option submission) * GfxClient :=
  match reads with
  | [] => ([], c)
  | r :: reads =>
      if client_should_stop c then ([], c)
      else
        match r with
        | ReadAgain before => video_loop reads (interfere c before)
        | ReadFailed before =>
            let c := interfere c before in
            ([], if client_should_stop c then c else client_stop c)
        | ReadUnit u e =>
            if (length (data u) =? 0)%nat then video_loop reads c
            else
              let '(ended, c, sub, _) := video_unit u e c in
              match ended with
              | Continue => let '(h, c) := video_loop reads c in ((u, sub) :: h, c)
              | Break | Waiting => ([(u, sub)], c)
              end
        end
  end.

(** [video_thread]: up to twenty attempts to get the lease, then the loop. *)
Definition video_thread (attempts : list bool) (reads : list read_result) (c : GfxClient)
    : list (VideoSourceAccessUnit * option submission) * GfxClient :=
  if negb (stopping c) && existsb id (take 20 attempts) then video_loop reads c
  else ([], client_stop c).

End VideoThread.
