(* ===== verification/RdpGfxSpec.v ===== *)
(** * Correctness of the RDPGFX video path

    The client is only given frames it can decode, waiting for the client ends,
    and the best capability is selected. *)

From S2P Require Import Prelude Protocol H264 VideoSource FrameFlow RdpGfx.

(** ** Capability selection *)

Section CapsSpec.
Context (V81 V10 AVC420 AVC_OFF : Z) (preferred : list Z).
Abbreviation supports := (client_cap_supports_avc420 V81 V10 AVC420 AVC_OFF).
Abbreviation sel_index := (select_index V81 V10 AVC420 AVC_OFF).
Abbreviation sel_version := (select_version V81 V10 AVC420 AVC_OFF).

(** The sets a pass considers. *)
Definition eligible (first_pass : bool) (cap : RDPGFX_CAPSET) : Prop :=
  first_pass = true -> supports cap = true.

Lemma eligible_first cap : supports cap = true -> eligible true cap.
Proof. by intros ? _. Qed.
Lemma eligible_second cap : eligible false cap.
Proof. by intros ?. Qed.

Lemma select_index_spec fp wanted sets :
  match sel_index fp wanted sets with
  | Some (cap, avc) => cap ∈ sets /\ version cap = wanted /\ avc = supports cap /\ eligible fp cap
  | None => forall cap, cap ∈ sets -> version cap = wanted -> ~ eligible fp cap
  end.
Proof.
  induction sets as [|x sets IH]; cbn [select_index]; [by intros cap ?%not_elem_of_nil|].
  destruct (Z.eqb_spec (version x) wanted) as [Hv|Hv]; cbn [negb].
  - destruct (fp && negb (supports x)) eqn:E.
    + bool_hyps. destruct (sel_index fp wanted sets) as [[cap avc]|].
      * destruct IH as (Hin & Hrest). split; [by right|done].
      * intros cap [->|Hin]%elem_of_cons Hw; [|by apply IH]. intros He. specialize (He ltac:(done)). congruence.
    + split_and!; [by left|done|done|]. intros ->. cbn in E. by bool_hyps.
  - destruct (sel_index fp wanted sets) as [[cap avc]|].
    + destruct IH as (Hin & Hrest). split; [by right|done].
    + intros cap [->|Hin]%elem_of_cons Hw; [done|by apply IH].
Qed.

(** The versions before the one that is found have no eligible set. *)
Lemma select_version_spec fp versions sets :
  match sel_version fp versions sets with
  | Some (cap, avc) => exists before after,
      versions = before ++ version cap :: after /\ cap ∈ sets /\ avc = supports cap /\
      eligible fp cap /\
      forall other, other ∈ sets -> version other ∈ before -> ~ eligible fp other
  | None => forall other, other ∈ sets -> version other ∈ versions -> ~ eligible fp other
  end.
Proof.
  induction versions as [|v versions IH]; cbn [select_version]; [by intros o _ ?%not_elem_of_nil|].
  pose proof (select_index_spec fp v sets) as Hi.
  destruct (sel_index fp v sets) as [[cap avc]|].
  - destruct Hi as (Hin & Hv & Ha & He). exists [], versions. split_and!; [by rewrite Hv|done..|].
    by intros o _ ?%not_elem_of_nil.
  - destruct (sel_version fp versions sets) as [[cap avc]|].
    + destruct IH as (before & after & -> & Hin & Ha & He & Hb). exists (v :: before), after.
      split_and!; [done..|]. intros o Ho [Hv|Hv]%elem_of_cons; [by apply (Hi o Ho Hv)|by apply Hb].
    + intros o Ho [Hv|Hv]%elem_of_cons; [by apply (Hi o Ho Hv)|by apply IH].
Qed.

(** An advertised set of a version the gateway knows. *)
Definition known (sets : list RDPGFX_CAPSET) (cap : RDPGFX_CAPSET) : Prop :=
  cap ∈ sets /\ version cap ∈ preferred.

(** Capability selection: AVC420 is used exactly when a set of a known
    version that the client advertises supports it; the selected set is one of
    the advertised ones, of the most preferred version among those that support
    AVC420, or else among all, and the handshake fails only if the client
    advertises no known version. *)
Theorem select_gfx_cap_spec sets :
  match client_select_gfx_cap V81 V10 AVC420 AVC_OFF preferred sets with
  | Some (cap, avc) =>
      cap ∈ sets /\
      (avc = true <-> exists other, known sets other /\ supports other = true) /\
      exists before after, preferred = before ++ version cap :: after /\
        forall other, other ∈ sets -> version other ∈ before -> avc = true /\ supports other = false
  | None => forall other, ~ known sets other
  end.
Proof.
  unfold client_select_gfx_cap.
  pose proof (select_version_spec true preferred sets) as H1.
  destruct (sel_version true preferred sets) as [[cap avc]|].
  - destruct H1 as (before & after & Hp & Hin & -> & He & Hb). specialize (He eq_refl).
    split_and!; [done| |].
    + split; [|done]. intros _. exists cap. split; [split; [done|]|done].
      rewrite Hp. apply elem_of_app. right. by left.
    + exists before, after. split; [done|]. intros o Ho Hv. split; [done|].
      specialize (Hb o Ho Hv). unfold eligible in Hb. destruct (supports o) eqn:Es; [exfalso; by apply Hb|done].
  - pose proof (select_version_spec false preferred sets) as H2.
    destruct (sel_version false preferred sets) as [[cap avc]|].
    + destruct H2 as (before & after & Hp & Hin & -> & _ & Hb). split_and!; [done| |].
      * split; [|intros (o & [Ho Hv] & Hs); exfalso; by apply (H1 o Ho Hv), eligible_first].
        intros Hs. exfalso. apply (H1 cap Hin); [rewrite Hp; apply elem_of_app; right; by left|by apply eligible_first].
      * exists before, after. split; [done|]. intros o Ho Hv. exfalso. apply (Hb o Ho Hv), eligible_second.
    + intros o [Ho Hv]. apply (H2 o Ho Hv), eligible_second.
Qed.

End CapsSpec.

(** ** What other threads leave alone *)

(** An advertisement that turns the session to the progressive codec. *)
Definition downgrades (e : gfx_event) : bool :=
  match e with Advertise (Some (_, false)) _ => true | _ => false end.

Definition calm (es : list gfx_event) : Prop := Forall (fun e => downgrades e = false) es.

(** The gate of a running session can be closed by others but not opened. *)
Record undisturbed (c c' : GfxClient) : Prop := {
  und_ready : gfx_ready c = true -> gfx_ready c' = true;
  und_idr : need_idr c = true -> need_idr c' = true;
  und_stop : stopping c = true -> stopping c' = true }.

#[export] Instance undisturbed_preorder : PreOrder undisturbed.
Proof. split; [by split|]. intros a b c [] []. split; auto. Qed.

Lemma apply_undisturbed c e : downgrades e = false -> undisturbed c (gfx_apply c e).
Proof.
  destruct e as [id depth now later| |[[cap avc]|] a]; intros Hd; cbn.
  - unfold on_gfx_frame_ack. destruct (frame_flow_ack _ _ _ _) as [[m el] f].
    by destruct (gfx_uses_progressive _).
  - by split.
  - destruct avc; [|done]. unfold on_gfx_caps_advertise. destruct (_ || _); [done|].
    destruct (_ || _); [done|]. by destruct (thread_created a).
  - unfold on_gfx_caps_advertise. by destruct (_ || _).
Qed.

Lemma interfere_undisturbed es : forall c, calm es -> undisturbed c (interfere c es).
Proof.
  induction es as [|e es IH]; intros c Hes; [done|]. apply Forall_cons_iff in Hes as [He Hes].
  etrans; [by apply apply_undisturbed|by apply IH].
Qed.

(** ** Decodable frames *)

Abbreviation entry := (VideoSourceAccessUnit * option submission)%type.

(** The client can decode a dependent frame next: going back from the newest
    access unit, every dependent one was sent and none followed a loss, down to
    an IDR that was sent. *)
Fixpoint can_depend (newest_first : list entry) : Prop :=
  match newest_first with
  | [] => False
  | (u, sub) :: older =>
      packet_loss u = false /\
      (if unit_idr u then is_Some sub
       else if unit_p u then is_Some sub /\ can_depend older
       else can_depend older)
  end.

Definition gate_inv (h : list entry) (c : GfxClient) : Prop :=
  gfx_ready c = true /\ (need_idr c = false -> can_depend h \/ stopping c = true).

Definition sample_ok (s : wait_sample) : Prop :=
  ws_failed s = false /\ calm (ws_before s) /\ calm (ws_between s).

Lemma accept_loop_gate samples bytes idr : forall started c ans c' r w,
  Forall sample_ok samples -> gfx_ready c = true ->
  accept_loop samples started bytes idr c = (ans, c', r, w) ->
  gfx_ready c' = true /\ (stopping c = true -> stopping c' = true) /\
  match ans with
  | Refused => need_idr c' = true \/ stopping c' = true
  | _ => need_idr c = true -> need_idr c' = true
  end.
Proof.
  induction samples as [|s samples IH]; intros started c ans c' r w Hs Hg H; cbn [accept_loop] in H;
    [by simplify_eq|].
  apply Forall_cons_iff in Hs as [(Hf & Hb & Hw) Hs].
  destruct (interfere_undisturbed (ws_before s) c Hb) as [Hr Hn Hst]. specialize (Hr Hg).
  set (c1 := interfere c (ws_before s)) in *. rewrite Hr in H. cbn [negb orb] in H.
  destruct (stopping c1) eqn:E1; [simplify_eq; by split_and!; [..|right]|].
  destruct (frame_flow_avc_admit _ _ _ _ _).
  - simplify_eq. split_and!; [done|intros Hc%Hst; congruence|done].
  - set (c2 := if started =? 0 then _ else c1) in H.
    assert (gfx_ready c2 = gfx_ready c1 /\ need_idr c2 = need_idr c1 /\ stopping c2 = stopping c1)
      as (Hr2 & Hn2 & Hs2) by (unfold c2; by destruct (_ =? _)).
    destruct (interfere_undisturbed (ws_between s) c2 Hw) as [Hr3 Hn3 Hst3].
    rewrite Hr2 in Hr3. specialize (Hr3 Hr). unfold client_should_stop in H.
    destruct (stopping (interfere c2 (ws_between s))) eqn:E3; [simplify_eq; by split_and!; [..|right]|].
    unfold ws_failed in Hf. destruct (ws_wait s); [done..|].
    destruct (accept_loop samples _ bytes idr _) as [[[ans1 c4] r4] w4] eqn:E.
    apply IH in E as (Hr4 & Hst4 & Hans); [|done..]. simplify_eq. split_and!; [done| |].
    + intros Hc%Hst. congruence.
    + destruct ans; [|done|]; intros ?%Hn; apply Hans, Hn3; congruence.
  - unfold frame_flow_avc_flow_rejected in H.
    destruct (need_idr c1) eqn:En; simplify_eq; cbn; (split_and!; [done| |by left]);
      intros Hc%Hst; congruence.
Qed.

Definition send_calm (e : send_env) : Prop := calm (se_before e) /\ calm (se_after e).

Lemma send_gate e payload ssrc ts at_ idr c ok c' sub :
  send_calm e -> gfx_ready c = true ->
  send_avc420_frame e payload ssrc ts at_ idr c = (ok, c', sub) ->
  gfx_ready c' = true /\ (stopping c = true -> stopping c' = true) /\
  if ok then is_Some sub /\ stopping c = false /\ (need_idr c' = false -> idr = true \/ need_idr c = false)
  else sub = None.
Proof.
  unfold send_avc420_frame. intros [Hb Ha] Hg H.
  destruct (interfere_undisturbed (se_before e) c Hb) as [Hr Hn Hst]. specialize (Hr Hg).
  set (c1 := interfere c (se_before e)) in *. rewrite Hr in H. cbn [negb orb] in H.
  destruct (stopping c1) eqn:E1; [by simplify_eq|].
  set (c2 := set_trace (set_frame_id c1 _) _) in H.
  destruct (interfere_undisturbed (se_after e) c2 Ha) as [Hr3 Hn3 Hst3].
  set (c3 := interfere c2 (se_after e)) in *.
  change (gfx_ready c2) with (gfx_ready c1) in Hr3. change (need_idr c2) with (need_idr c1) in Hn3.
  destruct (se_ok e); cbn [negb] in H; simplify_eq; cbn.
  - split_and!; [auto|intros Hc; apply Hst in Hc; congruence|by eexists| |].
    + destruct (stopping c) eqn:Es; [|done]. specialize (Hst eq_refl). congruence.
    + unfold frame_flow_avc_sent. destruct idr; [by left|]. intros Hn4. right.
      destruct (need_idr c); [|done]. rewrite Hn3 in Hn4; auto.
  - split_and!; [auto|intros Hc; apply Hst in Hc; congruence|done].
Qed.

Lemma unit_gate_spec u at_ c send c' :
  unit_gate u at_ c = (send, c') ->
  gfx_ready c' = gfx_ready c /\ stopping c' = stopping c /\
  need_idr c' = (packet_loss u || need_idr c) /\
  send = negb (packet_loss u) && (unit_idr u || (negb (need_idr c) && unit_p u)) &&
         gfx_ready c && negb (stopping c).
Proof.
  unfold unit_gate, frame_flow_avc_should_send, frame_flow_avc_send_failed. intros H. simplify_eq.
  destruct (packet_loss u); cbn; [by destruct (gfx_ready c && _)|].
  destruct (negb _ && _ && _ && _); done.
Qed.

Section Decodable.
Context (can_grow : nat -> bool).

Definition waits_ok (e : unit_env) : Prop :=
  calm (ue_before e) /\ Forall sample_ok (ue_samples e) /\ send_calm (ue_send e).
Definition read_ok (r : read_result) : Prop :=
  match r with
  | ReadUnit _ e => waits_ok e
  | ReadAgain before | ReadFailed before => calm before
  end.

(** A submitted unit does not depend on anything the client lacks. *)
Definition submission_ok (older : list entry) (x : entry) : Prop :=
  is_Some x.2 -> packet_loss x.1 = false /\
    (unit_idr x.1 = true \/ (unit_p x.1 = true /\ can_depend older)).

Lemma gate_inv_stop h c : gfx_ready c = true -> gate_inv h (client_stop c).
Proof. intros H. split; [done|]. intros _. by right. Qed.

Lemma video_unit_gate h u e c ended c' sub r :
  gate_inv h c -> waits_ok e -> video_unit can_grow u e c = (ended, c', sub, r) ->
  submission_ok h (u, sub) /\ (ended = Continue -> gate_inv ((u, sub) :: h) c').
Proof.
  intros [Hready Hneed] (Hb & Hw & Hsc) H. unfold video_unit in H.
  set (c0 := set_params c _) in H.
  destruct (interfere_undisturbed (ue_before e) c0 Hb) as [Hr1 Hn1 Hst1].
  set (c1 := interfere c0 (ue_before e)) in *. specialize (Hr1 Hready).
  change (need_idr c0) with (need_idr c) in Hn1. change (stopping c0) with (stopping c) in Hst1.
  destruct (unit_gate u (ue_received_at e) c1) as [send c2] eqn:Eg.
  apply unit_gate_spec in Eg as (Hr2 & Hs2 & Hn2 & Hsend). rewrite Hr1 in *.
  assert (Hclosed : need_idr c1 = false -> need_idr c = false)
    by (destruct (need_idr c); [|done]; rewrite Hn1; [done..|]; auto).
  destruct send; cbn [negb] in H; symmetry in Hsend.
  - bool_hyps. rename select (packet_loss u = false) into Hloss. rename select (stopping c1 = false) into Hns.
    rewrite Hloss in Hn2. cbn [orb] in Hn2.
    assert (Hdep : need_idr c1 = false -> can_depend h).
    { intros Hn%Hclosed. destruct (Hneed Hn) as [|Hstop]; [done|]. specialize (Hst1 Hstop). congruence. }
    assert (Hsub : submission_ok h (u, sub)).
    { intros _. split; [done|]. cbn. rename select (_ \/ _) into Hor. destruct Hor as [|Hor]; [by left|].
      bool_hyps. right. auto. }
    split; [done|]. intros ->.
    destruct (if unit_idr u then _ else _) as [[payload ps]|]; [|done].
    destruct (client_accept_avc_frame _ _ _ _) as [[[ans c3] r3] w3] eqn:Ea.
    apply accept_loop_gate in Ea as (Hr3 & Hst3 & Hans); [|done..]. cbn in Hst3, Hans.
    destruct ans; [|simplify_eq|done].
    + destruct (send_avc420_frame _ _ _ _ _ _ c3) as [[ok c4] sub4] eqn:Es.
      apply send_gate in Es as (Hr4 & Hst4 & Hok); [|done..]. simplify_eq.
      destruct ok; [|by apply gate_inv_stop]. destruct Hok as (Hsome & Hns3 & Hn4).
      split; [done|]. intros Hn. left. split; [done|]. destruct (unit_idr u) eqn:Ei; [done|].
      destruct (Hsub Hsome) as [_ [Hi|[Hp Hd]]]; [cbn in Hi; congruence|]. cbn in Hp. by rewrite Hp.
    + split; [done|]. intros Hn. right. destruct Hans as [?|?]; [congruence|done].
  - simplify_eq. split; [by intros [? [=]]|]. intros _. split; [congruence|]. intros Hn.
    rewrite Hn2 in Hn. apply orb_false_iff in Hn as [Hloss Hn]. rewrite Hloss, Hn in Hsend. cbn in Hsend.
    rewrite Hs2. destruct (stopping c1) eqn:Es; [by right|]. left.
    destruct (Hneed (Hclosed Hn)) as [Hd|Hstop]; [|by apply Hst1 in Hstop].
    cbn [can_depend]. split; [done|]. rewrite !andb_true_r in Hsend.
    destruct (unit_idr u), (unit_p u); done.
Qed.

Lemma gfx_loop_gate reads : forall h c out c',
  gate_inv h c -> Forall read_ok reads -> video_loop can_grow reads c = (out, c') ->
  forall pre x post, out = pre ++ x :: post -> submission_ok (rev pre ++ h) x.
Proof.
  induction reads as [|r reads IH]; intros h c out c' Hi Hr H pre x post Ho; cbn [video_loop] in H.
  { simplify_eq. by destruct pre. }
  apply Forall_cons_iff in Hr as [Hr0 Hr].
  assert (Hempty : forall c1, ([], c1) = (out, c') -> submission_ok (rev pre ++ h) x).
  { intros c1 E. simplify_eq. by destruct pre. }
  assert (Hint : forall es, calm es -> gate_inv h (interfere c es)).
  { intros es Hes. destruct (interfere_undisturbed es c Hes) as [Hr1 Hn1 Hst1]. destruct Hi as [Hg Hn].
    split; [auto|]. intros Hc. destruct (need_idr c); [by rewrite Hn1 in Hc|].
    destruct (Hn eq_refl); auto. }
  destruct (client_should_stop c); [by eapply Hempty|].
  destruct r as [u e|before|before]; [| by eapply (IH h _ _ _ (Hint before Hr0) Hr H)|by eapply Hempty].
  destruct (_ =? 0)%nat; [by eapply (IH h _ _ _ Hi Hr H)|].
  destruct (video_unit can_grow u e c) as [[[ended c1] sub] req] eqn:Eu.
  destruct (video_unit_gate h u e c ended c1 sub req Hi Hr0 Eu) as [Hsub Hnext].
  destruct ended; [|simplify_eq; destruct pre as [|y [|y2 pre]]; simplify_eq/=; done..].
  destruct (video_loop can_grow reads c1) as [out1 c2] eqn:El. simplify_eq.
  destruct pre as [|y pre]; simplify_eq/=; [done|].
  rewrite <- app_assoc. by eapply (IH ((u, sub) :: h)); [apply Hnext| |exact El|].
Qed.

(** C8: decodable video, as long as no wait of the operating system fails and the
    client does not advertise itself down to the progressive codec during the
    session: whatever the client acknowledges, whenever it is stopped or
    advertises AVC420 again, and however long it makes the thread wait, every
    access unit the thread submits was received without loss and is an IDR, or a
    dependent frame for which all dependent frames since the last submitted IDR
    were submitted and no loss came between.  Without the two assumptions it
    fails: [failed_wait_breaks_reference] and [downgrade_opens_gate]. *)
Theorem gfx_frames_decodable attempts reads c out c' :
  gfx_ready c = true -> need_idr c = true -> Forall read_ok reads ->
  video_thread can_grow attempts reads c = (out, c') ->
  forall pre u sub post, out = pre ++ (u, Some sub) :: post ->
  packet_loss u = false /\ (unit_idr u = true \/ (unit_p u = true /\ can_depend (rev pre))).
Proof.
  intros Hr Hn Hreads H pre u sub post Ho. unfold video_thread in H.
  destruct (_ && _); [|simplify_eq; by destruct pre].
  assert (Hi : gate_inv [] c) by (split; [done|congruence]).
  pose proof (gfx_loop_gate reads [] c out c' Hi Hreads H pre _ post Ho) as Hs.
  rewrite app_nil_r in Hs. apply Hs. by eexists.
Qed.
End Decodable.

(** ** Waiting for the client *)

Definition clock_ok (s : wait_sample) : Prop := 0 < ws_now s < 2 ^ 64.

Lemma admit_resync f bytes idr now started : 0 < started < 2 ^ 64 -> 0 < now < 2 ^ 64 ->
  started + FRAME_FLOW_AVC_WAIT_MS <= now ->
  frame_flow_avc_admit f bytes idr now started = FRAME_FLOW_AVC_RESYNC.
Proof.
  intros Hs Hn Hw. unfold frame_flow_avc_admit, FRAME_FLOW_AVC_WAIT_MS in *.
  rewrite (proj2 (Z.eqb_neq started 0)) by lia. unfold u64.
  rewrite Z.mod_small, (proj2 (Z.leb_le 150 (now - started))) by lia. done.
Qed.

Lemma resync_waited f bytes idr now started :
  frame_flow_avc_admit f bytes idr now started = FRAME_FLOW_AVC_RESYNC ->
  0 <= started < 2 ^ 64 -> 0 < now < 2 ^ 64 -> started <= now ->
  0 < started /\ started + FRAME_FLOW_AVC_WAIT_MS <= now.
Proof.
  unfold frame_flow_avc_admit, FRAME_FLOW_AVC_WAIT_MS. intros H Hs Hn Hle.
  destruct (negb (started =? 0) && _) eqn:E; [|by destruct (if idr then _ else _)].
  bool_hyps. rename select (150 <= _) into Hw. unfold u64 in Hw. rewrite Z.mod_small in Hw by lia. lia.
Qed.

(** A wait is asked to end at the deadline, and not before its round. *)
Definition ends_at (deadline : Z) (w : wait_call) : Prop :=
  wait_at w + wait_ms w = deadline /\ 0 < wait_ms w <= FRAME_FLOW_AVC_WAIT_MS.

Lemma wait_until_deadline f bytes idr now started :
  0 < started < 2 ^ 64 -> 0 < now < 2 ^ 64 -> started <= now ->
  frame_flow_avc_admit f bytes idr now started = FRAME_FLOW_AVC_WAIT ->
  ends_at (started + FRAME_FLOW_AVC_WAIT_MS) (MkWait now (wait_remaining now started)).
Proof.
  intros Hs Hn Hle Ha. destruct (Z.le_gt_cases (started + FRAME_FLOW_AVC_WAIT_MS) now) as [Hw|Hw].
  { by rewrite admit_resync in Ha. }
  unfold ends_at, wait_remaining, FRAME_FLOW_AVC_WAIT_MS in *. cbn [wait_at wait_ms].
  unfold u64, u32. rewrite (Z.mod_small (now - started)) by lia.
  rewrite (proj2 (Z.leb_gt 150 (now - started))) by lia. rewrite Z.mod_small by lia. lia.
Qed.

(** The waits are those of the first rounds, in order. *)
Definition rounds_waited (samples : list wait_sample) (waits : list wait_call) : Prop :=
  map wait_at waits = map ws_now (take (length waits) samples).

Lemma accept_loop_bounded samples bytes idr : forall started c ans c' r waits,
  0 < started < 2 ^ 64 -> Forall clock_ok samples ->
  Forall (fun s => started <= ws_now s) samples ->
  accept_loop samples started bytes idr c = (ans, c', r, waits) ->
  Forall (ends_at (started + FRAME_FLOW_AVC_WAIT_MS)) waits /\ rounds_waited samples waits /\
  (Exists (fun s => started + FRAME_FLOW_AVC_WAIT_MS <= ws_now s) samples -> ans <> Blocked) /\
  (r = true -> Exists (fun s => started + FRAME_FLOW_AVC_WAIT_MS <= ws_now s) samples).
Proof.
  induction samples as [|s samples IH]; intros started c ans c' r waits Hst Hc Hm H; cbn [accept_loop] in H.
  { simplify_eq. split_and!; [constructor|done|by intros ?%Exists_nil|done]. }
  apply Forall_cons_iff in Hc as [Hc0 Hc], Hm as [Hm0 Hm]. unfold clock_ok in Hc0.
  assert (Hstop : forall c1 w, (Refused, c1, false, w) = (ans, c', r, waits) ->
    Forall (ends_at (started + FRAME_FLOW_AVC_WAIT_MS)) w -> rounds_waited (s :: samples) w ->
    Forall (ends_at (started + FRAME_FLOW_AVC_WAIT_MS)) waits /\ rounds_waited (s :: samples) waits /\
    (Exists (fun s => started + FRAME_FLOW_AVC_WAIT_MS <= ws_now s) (s :: samples) -> ans <> Blocked) /\
    (r = true -> Exists (fun s => started + FRAME_FLOW_AVC_WAIT_MS <= ws_now s) (s :: samples))).
  { intros c1 w E ? ?. by simplify_eq. }
  destruct (_ || _); [by eapply Hstop; [exact H|constructor|]|].
  destruct (frame_flow_avc_admit _ _ _ _ _) eqn:Ea; [simplify_eq; split_and!; [constructor|done..]| |].
  - rewrite (proj2 (Z.eqb_neq started 0)) in H by lia.
    pose proof (wait_until_deadline _ _ _ _ _ Hst Hc0 Hm0 Ea) as Hend.
    destruct (client_should_stop _); [by eapply Hstop; [exact H|constructor|]|].
    destruct (ws_wait s); [by eapply Hstop; [exact H|constructor|]|by eapply Hstop; [exact H|by constructor|]|].
    destruct (accept_loop samples _ _ _ _) as [[[a1 c1] r1] w1] eqn:E.
    apply IH in E as (H0 & H1 & H2 & H3); [|done..]. simplify_eq. split_and!.
    + by constructor.
    + unfold rounds_waited in *. cbn. by rewrite H1.
    + intros [Hw|Hw]%Exists_cons; [|by apply H2]. by rewrite admit_resync in Ea.
    + intros ?%H3. by apply Exists_cons; right.
  - apply resync_waited in Ea; [|lia..].
    destruct (frame_flow_avc_flow_rejected _). simplify_eq. split_and!; [constructor|done..|].
    intros _. apply Exists_cons. left. lia.
Qed.

(** Every wait returns at most [d] ms behind its timeout: the next round starts
    by then. *)
Definition returns_within (d : Z) (samples : list wait_sample) (waits : list wait_call) : Prop :=
  forall i w t, waits !! i = Some w -> samples !! S i = Some t -> ws_now t <= wait_at w + wait_ms w + d.

Lemma rounds_in_time deadline d s samples waits :
  ws_now s <= deadline -> 0 <= d -> Forall (ends_at deadline) waits ->
  returns_within d (s :: samples) waits ->
  Forall (fun t => ws_now t <= deadline + d) (take (S (length waits)) (s :: samples)).
Proof.
  intros Hs Hd Hw Hr. apply Forall_lookup. intros i t Hi. apply lookup_take_Some in Hi as [Hi Hlt].
  destruct i as [|i]; [injection Hi as <-; lia|].
  destruct (lookup_lt_is_Some_2 waits i ltac:(lia)) as [w Ew].
  pose proof (Hr i w t Ew Hi). apply (Forall_lookup_1 _ _ _ _ Hw) in Ew as [Ee _]. lia.
Qed.

(** C32: bounded waiting.  Every time the video thread waits for an
    acknowledgement, it asks for exactly the time left of the 150 ms that began
    when it first found the client unready; so if each wait returns at most [d]
    ms late, no round of the loop starts more than 150 + [d] ms behind the first.
    A round that starts at or behind the deadline decides the frame, and the
    thread asks for an IDR in its place only in such a round. *)
Theorem accept_avc_frame_bounded s samples bytes idr c ans c' r waits :
  Forall clock_ok (s :: samples) -> Forall (fun t => ws_now s <= ws_now t) samples ->
  client_accept_avc_frame (s :: samples) bytes idr c = (ans, c', r, waits) ->
  let deadline := ws_now s + FRAME_FLOW_AVC_WAIT_MS in
  rounds_waited (s :: samples) waits /\ Forall (ends_at deadline) waits /\
  (forall d, 0 <= d -> returns_within d (s :: samples) waits ->
     Forall (fun t => ws_now t <= deadline + d) (take (S (length waits)) (s :: samples))) /\
  (Exists (fun t => deadline <= ws_now t) samples -> ans <> Blocked) /\
  (r = true -> Exists (fun t => deadline <= ws_now t) samples).
Proof.
  intros [Hc0 Hc]%Forall_cons_iff Hm H deadline.
  assert (Hall : rounds_waited (s :: samples) waits /\ Forall (ends_at deadline) waits /\
    (Exists (fun t => deadline <= ws_now t) samples -> ans <> Blocked) /\
    (r = true -> Exists (fun t => deadline <= ws_now t) samples)).
  { unfold client_accept_avc_frame in H. cbn [accept_loop] in H. unfold clock_ok in Hc0.
    assert (Hfirst : ends_at deadline (MkWait (ws_now s) (wait_remaining (ws_now s) (ws_now s)))).
    { unfold ends_at, wait_remaining, deadline, FRAME_FLOW_AVC_WAIT_MS. rewrite Z.sub_diag.
      vm_compute (if _ <=? _ then _ else _). cbn [wait_at wait_ms]. lia. }
    destruct (_ || _); [by simplify_eq|].
    destruct (frame_flow_avc_admit _ _ _ _ _) eqn:Ea; [by simplify_eq| |].
    - cbn [Z.eqb] in H. destruct (client_should_stop _); [by simplify_eq|].
      destruct (ws_wait s); [by simplify_eq|simplify_eq; by split_and!; [|constructor|..]|].
      destruct (accept_loop samples _ _ _ _) as [[[a1 c1] r1] w1] eqn:E.
      apply accept_loop_bounded in E as (H0 & H1 & H2 & H3); [|lia|done..]. simplify_eq.
      split_and!; [|by constructor|done..]. unfold rounds_waited in *. cbn. by rewrite H1.
    - apply resync_waited in Ea; lia. }
  destruct Hall as (H1 & H2 & H3). split_and!; [done|done| |by destruct H3|by destruct H3].
  intros d Hd Hr. apply rounds_in_time; try done. unfold deadline, FRAME_FLOW_AVC_WAIT_MS. lia.
Qed.

(** ** Concrete runs *)

Definition gfx_client : GfxClient :=
  MkGfx true false true false false true flow_init trace_init 1 sets_empty 0
    (MkGfxStats 0 0 0 0 0 0 0 0 0).

Definition idr_data : bytes := [0; 0; 0; 1; 103; 1; 0; 0; 0; 1; 104; 2; 0; 0; 0; 1; 101; 3].
Definition p_data : bytes := [0; 0; 0; 1; 65; 4].
Definition idr_unit : VideoSourceAccessUnit := MkUnit idr_data 9000 1 0 (h264_nal_type_mask idr_data) 1 false false.
Definition p_unit (loss : bool) : VideoSourceAccessUnit :=
  MkUnit p_data 9000 1 0 (h264_nal_type_mask p_data) 1 loss loss.

(** A unit that is admitted at once and acknowledged before the next. *)
Definition quick (id at_ : Z) : unit_env :=
  MkUnitEnv [] at_ [MkSample [] at_ [] WaitReturned] (MkSendEnv [] at_ true [] (at_ + 1)).

Definition gfx_reads : list read_result :=
  [ReadUnit (p_unit false) (quick 0 10); ReadUnit idr_unit (quick 1 20);
   ReadAgain [Ack 1 0 25 25]; ReadUnit (p_unit false) (quick 2 30);
   ReadUnit (p_unit true) (quick 3 40); ReadUnit (p_unit false) (quick 3 50)].

Definition gfx_out : list entry := (video_thread (fun _ => true) [false; true] gfx_reads gfx_client).1.

Lemma gfx_frames_decodable_witness :
  map (fun x => sub_id <$> x.2) gfx_out = [None; Some 1; Some 2; None; None] /\
  can_depend (rev (take 2 gfx_out)).
Proof.
  split; [vm_compute; reflexivity|].
  destruct (gfx_frames_decodable (fun _ => true) [false; true] gfx_reads gfx_client gfx_out
    (video_thread (fun _ => true) [false; true] gfx_reads gfx_client).2) with
    (pre := take 2 gfx_out) (u := p_unit false) (sub := MkSubmission 2 p_data) (post := drop 3 gfx_out)
    as [_ [H|[_ H]]].
  - reflexivity.
  - reflexivity.
  - repeat constructor.
  - vm_compute. reflexivity.
  - vm_compute. reflexivity.
  - vm_compute in H. discriminate H.
  - exact H.
Defined.

(** A client whose window is full and that never acknowledges. *)
Definition full_client : GfxClient :=
  set_flow gfx_client (MkFlow false true 40 0 0 0 [Slot 1 10 1; Slot 2 10 1; Slot 3 10 1] 30 5).

Definition full_samples : list wait_sample :=
  [MkSample [] 10 [] WaitReturned; MkSample [] 90 [] WaitReturned; MkSample [] 160 [] WaitReturned].

(** It is woken once and given up at the deadline, behind waits of 150 and 70 ms. *)
Lemma accept_avc_frame_bounded_witness :
  exists c', client_accept_avc_frame full_samples 100 true full_client =
               (Refused, c', false, [MkWait 10 150; MkWait 90 70]) /\
    Forall (ends_at 160) [MkWait 10 150; MkWait 90 70].
Proof.
  destruct (client_accept_avc_frame full_samples 100 true full_client) as [[[ans c'] r] waits] eqn:E.
  assert (Hc : Forall clock_ok full_samples) by (repeat constructor; cbn; lia).
  assert (Hm : Forall (fun t => 10 <= ws_now t) [MkSample [] 90 [] WaitReturned; MkSample [] 160 [] WaitReturned])
    by (repeat constructor; cbn; lia).
  destruct (accept_avc_frame_bounded (MkSample [] 10 [] WaitReturned) _ 100 true full_client ans c' r waits
              Hc Hm E) as (_ & H & _).
  assert (Ev : (client_accept_avc_frame full_samples 100 true full_client).1.1.1 = Refused /\
    (client_accept_avc_frame full_samples 100 true full_client).1.2 = false /\
    (client_accept_avc_frame full_samples 100 true full_client).2 = [MkWait 10 150; MkWait 90 70])
    by (vm_compute; split_and!; reflexivity).
  rewrite E in Ev. cbn [fst snd] in Ev. destruct Ev as (-> & -> & ->).
  exists c'. split; [reflexivity|exact H].
Defined.

(** *** Deviations *)

(** The units [reads] make the thread submit, by id. *)
Definition submitted_ids (reads : list read_result) : list (option Z) :=
  map (fun x => sub_id <$> x.2) (video_thread (fun _ => true) [true] reads gfx_client).1.

Definition handled_units (reads : list read_result) : list entry :=
  (video_thread (fun _ => true) [true] reads gfx_client).1.

(** Three frames fill the window and the wait for the fourth fails: it is skipped
    without asking for an IDR, and the fifth is sent although it depends on it. *)
Definition failed_wait_reads : list read_result :=
  [ReadUnit idr_unit (quick 1 10); ReadUnit (p_unit false) (quick 2 20);
   ReadUnit (p_unit false) (quick 3 30);
   ReadUnit (p_unit false)
     (MkUnitEnv [] 40 [MkSample [] 40 [] WaitFailed] (MkSendEnv [] 40 true [] 41));
   ReadAgain [Ack 1 0 45 45; Ack 2 0 46 46; Ack 3 0 47 47];
   ReadUnit (p_unit false) (quick 4 50)].

Example failed_wait_breaks_reference :
  submitted_ids failed_wait_reads = [Some 1; Some 2; Some 3; None; Some 4] /\
  ~ can_depend (rev (take 4 (handled_units failed_wait_reads))).
Proof. split; [vm_compute; reflexivity|]. vm_compute. intros [_ [[? [=]] _]]. Qed.

(** Behind a loss the thread waits for an IDR; a client that now advertises only
    the progressive codec resets [need_idr], and the next dependent frame is sent. *)
Definition downgrade_reads : list read_result :=
  [ReadUnit idr_unit (quick 1 10); ReadUnit (p_unit true) (quick 2 20);
   ReadAgain [Ack 1 0 25 25; Advertise (Some (MkCap 0 0, false)) (MkCapsAnswers true true true true true)];
   ReadUnit (p_unit false) (quick 2 30)].

Example downgrade_opens_gate :
  submitted_ids downgrade_reads = [Some 1; None; Some 2] /\
  ~ can_depend (rev (take 2 (handled_units downgrade_reads))).
Proof. split; [vm_compute; reflexivity|]. vm_compute. intros [[=] _]. Qed.

(** Frames are registered behind their submission.  An acknowledgement that is
    handled in between finds nothing to release, the registration that follows
    is never undone, and three such frames close the window for good: no frame
    is admitted any more. *)
Definition early_ack (id : Z) : unit_env :=
  let now := 100 * id in
  MkUnitEnv [] now [MkSample [] now [] WaitReturned]
    (MkSendEnv [] now true [Ack id 0 (now + 1) (now + 1)] (now + 2)).

Definition after_early_acks : GfxClient :=
  (video_loop (fun _ => true)
     [ReadUnit idr_unit (early_ack 1); ReadUnit (p_unit false) (early_ack 2);
      ReadUnit (p_unit false) (early_ack 3)] gfx_client).2.

Example early_acks_stall bytes idr now started :
  frame_flow_avc_admit (frame_flow after_early_acks) bytes idr now started <> FRAME_FLOW_AVC_SEND.
Proof.
  unfold frame_flow_avc_admit. destruct (_ && _); [done|].
  replace (frame_flow after_early_acks) with
    (MkFlow false false 0 0 0 0 [Slot 1 18 102; Slot 2 6 202; Slot 3 6 302] 30 301)
    by (vm_compute; reflexivity).
  by destruct idr.
Qed.

(** A client without AVC420 gets the thread that decodes, and nothing that
    sends what was decoded. *)
Example progressive_starts_decoder_only :
  (on_gfx_caps_advertise (Some (MkCap 0 0, false)) (MkCapsAnswers true true true true true)
     (MkGfx true false false false false true flow_init trace_init 1 sets_empty 0
        (MkGfxStats 0 0 0 0 0 0 0 0 0))).1.2 = Some BitmapVideoThread.
Proof. reflexivity. Qed.
