(* ===== verification/RdpBitmap.v ===== *)
(** * The bitmap path ([src/src/rdp_bitmap.c])

    Clients without AVC420 get decoded pictures: whole frames through RemoteFX,
    NSCodec or Progressive, or 64x64 tiles of 16-bit colour.  The peer's output
    buffer, the encoders and the clock are answers of the environment. *)

From S2P Require Import Prelude H264 VideoSource FrameFlow.

Definition CLASSIC_TILE : Z := 64.
Definition CLASSIC_TILE_MAX_ENCODED : Z := CLASSIC_TILE * CLASSIC_TILE * 2.
Definition CLASSIC_BITMAP_BATCH : nat := 1.
Definition CLASSIC_MAX_UPDATE_SIZE : Z := 32 * 1024.
Definition BITMAP_FRAME_INTERVAL_MS : Z := 10.

(** ** Codecs of the client *)

(** The settings the choice depends on; the command flags are FreeRDP's. *)
Record rdpSettings := MkSettings {
  SurfaceCommandsSupported : Z;
  RemoteFxCodec : bool;
  RemoteFxCodecId : Z;
  NSCodec : bool;
  NSCodecId : Z }.

Definition bitmap_stream_rfx_supported (SURFCMDS_STREAM_SURFACE_BITS : Z) (s : rdpSettings) : bool :=
  RemoteFxCodec s && negb (RemoteFxCodecId s =? 0) &&
  negb (Z.land (SurfaceCommandsSupported s) SURFCMDS_STREAM_SURFACE_BITS =? 0).

Definition bitmap_stream_nsc_supported (SURFCMDS_SET_SURFACE_BITS : Z) (s : rdpSettings) : bool :=
  NSCodec s && negb (NSCodecId s =? 0) &&
  negb (Z.land (SurfaceCommandsSupported s) SURFCMDS_SET_SURFACE_BITS =? 0).

(** ** Pixels *)

(** [memcpy(destination + offset, source + offset, n)] *)
Definition copy_at (destination source : bytes) (offset n : nat) : bytes :=
  take offset destination ++ take n (drop offset source) ++ drop (offset + n) destination.

Fixpoint tile_copy_rows (destination source : bytes) (width left top columns row n : nat) : bytes :=
  match n with
  | O => destination
  | S n =>
      let offset := (((top + row) * width + left) * 4)%nat in
      tile_copy_rows (copy_at destination source offset (columns * 4)) source width left top columns
        (row + 1) n
  end.

Definition classic_tile_copy (destination source : bytes) (width left top columns rows : nat) : bytes :=
  tile_copy_rows destination source width left top columns 0 rows.

(** The colour of a pixel in RGB565. *)
Definition rgb16 (bgra : bytes) (pixel : nat) : Z :=
  u16 (Z.lor (Z.lor (Z.shiftl (Z.land (byte_at bgra (pixel + 2)) 0xF8) 8)
                    (Z.shiftl (Z.land (byte_at bgra (pixel + 1)) 0xFC) 3))
             (Z.shiftr (byte_at bgra pixel) 3)).

Definition pack_row (bgra : bytes) (width left top columns row : nat) : bytes :=
  flat_map (fun column =>
              let color := rgb16 bgra (tile_pixel width left top column row) in
              [u8 color; u8 (Z.shiftr color 8)]) (seq 0 columns).

Definition classic_pack_rgb16 (bgra : bytes) (width left top columns rows : nat) : bytes :=
  flat_map (pack_row bgra width left top columns) (seq 0 rows).

(** ** The peer's output *)

(** What the peer answers: its callbacks exist, it is connected and not being
    stopped, and its output is blocked; before and after a drain. *)
Record peer_probe := MkProbe {
  pr_present : bool;
  pr_open : bool;
  pr_blocked : bool;
  pr_open_drained : bool;
  pr_blocked_drained : bool }.

Definition client_output_write_ready (p : peer_probe) : bool :=
  if negb (pr_present p) || negb (pr_open p) then false
  else if negb (pr_blocked p) then true
  else pr_open_drained p && negb (pr_blocked_drained p).

(** ** Tiles *)

(** A rectangle of a bitmap update. *)
Record BITMAP_DATA := MkBitmapData {
  destLeft : Z;
  destTop : Z;
  destRight : Z;
  destBottom : Z;
  bd_width : Z;
  bd_height : Z;
  bitmapDataStream : bytes }.

Record ClassicState := MkClassic {
  previous_bitmap : option bytes;
  previous_bitmap_valid : bool;
  classic_resume_left : Z;
  classic_resume_top : Z;
  classic_frame_open : bool }.

Definition set_previous (s : ClassicState) (p : bytes) : ClassicState :=
  MkClassic (Some p) (previous_bitmap_valid s) (classic_resume_left s) (classic_resume_top s)
    (classic_frame_open s).
Definition set_resume (s : ClassicState) (left top : Z) : ClassicState :=
  MkClassic (previous_bitmap s) (previous_bitmap_valid s) left top true.

(** The locals of [send_classic_bitmap_frame], with the rectangles of the
    updates written so far. *)
Record slice := MkSlice {
  sl_state : ClassicState;
  rectangles : list BITMAP_DATA;
  update_size : Z;
  frame_tiles : Z;
  frame_bytes : Z;
  written : list BITMAP_DATA }.

(** The answers at one tile: the budget is used up; the first write and the
    probe behind it; the second write and whether the output blocks then. *)
Record tile_answers := MkTile {
  ta_late : bool;
  ta_wrote_full : bool;
  ta_ready : peer_probe;
  ta_wrote : bool;
  ta_blocked : bool }.

Inductive tile_end := TileNext | TileYield | TileFailed.

(** The tile at ([left], [top]). *)
Definition classic_tile (width height max_update_size : Z) (bgra : bytes) (a : tile_answers)
    (left top : Z) (s : slice) : tile_end * slice :=
  let columns := Z.min CLASSIC_TILE (u16 (width - left)) in
  let rows := Z.min CLASSIC_TILE (u16 (height - top)) in
  let w := Z.to_nat width in let l := Z.to_nat left in let t := Z.to_nat top in
  let c := Z.to_nat columns in let r := Z.to_nat rows in
  let st := sl_state s in
  if (1 <=? frame_tiles s) && ta_late a then
    (TileYield, MkSlice (set_resume st left top) (rectangles s) (update_size s) (frame_tiles s)
                  (frame_bytes s) (written s))
  else if previous_bitmap_valid st && negb (bitmap_tile_changed (previous_bitmap st) bgra w l t c r)
  then (TileNext, s)
  else
    let encoded_length := u32 (columns * rows * 2) in
    if (encoded_length =? 0) || (CLASSIC_TILE_MAX_ENCODED <? encoded_length) then (TileFailed, s)
    else
      let full := negb (length (rectangles s) =? 0)%nat &&
                  (max_update_size <=? u32 (update_size s + encoded_length + 16)) in
      if full && negb (ta_wrote_full a) then (TileFailed, s)
      else
        let s := if full then MkSlice st [] 1024 (frame_tiles s) (frame_bytes s)
                                (written s ++ rectangles s) else s in
        if full && negb (client_output_write_ready (ta_ready a)) then
          (TileYield, MkSlice (set_resume st left top) (rectangles s) (update_size s) (frame_tiles s)
                        (frame_bytes s) (written s))
        else
          let rectangle := MkBitmapData left top (left + columns - 1) (top + rows - 1) columns rows
                             (classic_pack_rgb16 bgra w l t c r) in
          let previous := classic_tile_copy (default [] (previous_bitmap st)) bgra w l t c r in
          let s := MkSlice (set_previous st previous) (rectangles s ++ [rectangle])
                     (u32 (update_size s + encoded_length + 16)) (frame_tiles s + 1)
                     (frame_bytes s + encoded_length) (written s) in
          if (length (rectangles s) =? CLASSIC_BITMAP_BATCH)%nat then
            if negb (ta_wrote a) then (TileFailed, s)
            else
              let s := MkSlice (sl_state s) [] 1024 (frame_tiles s) (frame_bytes s)
                         (written s ++ rectangles s) in
              if ta_blocked a then
                let next := u16 (left + CLASSIC_TILE) in
                let st := if width <=? next then set_resume (sl_state s) 0 (u16 (top + CLASSIC_TILE))
                          else set_resume (sl_state s) next top in
                (TileYield, MkSlice st [] 1024 (frame_tiles s) (frame_bytes s) (written s))
              else (TileNext, s)
          else (TileNext, s).

(** The inner loop; [None] if it does not end within the fuel.  The answers are
    those of the n-th tile of the slice. *)
Fixpoint classic_row (fuel : nat) (width height max_update_size : Z) (bgra : bytes)
    (a : nat -> tile_answers) (n : nat) (left top : Z) (s : slice)
    : option (tile_end * nat * slice) :=
  match fuel with
  | O => None
  | S fuel =>
      if left <? width then
        match classic_tile width height max_update_size bgra (a n) left top s with
        | (TileNext, s) =>
            classic_row fuel width height max_update_size bgra a (S n) (u16 (left + CLASSIC_TILE)) top s
        | (e, s) => Some (e, S n, s)
        end
      else Some (TileNext, n, s)
  end.

(** The outer loop. *)
Fixpoint classic_rows (fuel : nat) (width height max_update_size : Z) (bgra : bytes)
    (a : nat -> tile_answers) (n : nat) (top : Z) (s : slice) : option (tile_end * slice) :=
  match fuel with
  | O => None
  | S fuel =>
      if top <? height then
        let first_left := if top =? classic_resume_top (sl_state s)
                          then classic_resume_left (sl_state s) else 0 in
        match classic_row (S (Z.to_nat (width / CLASSIC_TILE + 1))) width height max_update_size bgra a
                n first_left top s with
        | None => None
        | Some (TileNext, n, s) =>
            classic_rows fuel width height max_update_size bgra a n (u16 (top + CLASSIC_TILE)) s
        | Some (e, _, s) => Some (e, s)
        end
      else Some (TileNext, s)
  end.

(** The answers of one call: the update callback, the settings and the encode
    buffer exist and the client is not being stopped; the first probe; [malloc];
    the tiles; the last write.  (No code of this version allocates the encode
    buffer, [classic_encoded], so that [ce_usable] is false in practice, and a client
    that supports neither RemoteFX nor NSCodec is refused by [client_prepare_bitmap].) *)
Record classic_env := MkClassicEnv {
  ce_usable : bool;
  ce_ready : peer_probe;
  ce_alloc : bool;
  ce_negotiated : Z;
  ce_tiles : nat -> tile_answers;
  ce_wrote_last : bool }.

(** The result of a call: the returned value, the state, the rectangles the
    client was sent, and the tiles and bytes to count. *)
Record classic_result := MkClassicResult {
  cr_ok : bool;
  cr_state : ClassicState;
  cr_written : list BITMAP_DATA;
  cr_tiles : Z;
  cr_bytes : Z }.

Definition expected_length (width height : Z) : nat := Z.to_nat (width * height * 4).

Definition classic_failed (s : ClassicState) (written : list BITMAP_DATA) : classic_result :=
  MkClassicResult false s written 0 0.

(** [malloc] leaves the contents undefined; the model has zeros there, and
    nothing reads them before they are written. *)
Definition ensure_previous (alloc : bool) (n : nat) (s : ClassicState) : ClassicState :=
  match previous_bitmap s with
  | Some _ => s
  | None => if alloc then set_previous s (replicate n 0) else s
  end.

(** [None] if a loop does not end. *)
Definition send_classic_bitmap_frame (e : classic_env) (width height : Z) (bgra : bytes)
    (s : ClassicState) : option classic_result :=
  let n := expected_length width height in
  let max_update_size := if ce_negotiated e <? CLASSIC_MAX_UPDATE_SIZE then ce_negotiated e
                         else CLASSIC_MAX_UPDATE_SIZE in
  if negb (ce_usable e) || negb (length bgra =? n)%nat then Some (classic_failed s [])
  else if negb (client_output_write_ready (ce_ready e)) then
    Some (MkClassicResult true
            (set_resume s (classic_resume_left s) (classic_resume_top s)) [] 0 0)
  else
    let s := ensure_previous (ce_alloc e) n s in
    match previous_bitmap s with
    | None => Some (classic_failed s [])
    | Some previous =>
        if negb (length previous =? n)%nat then Some (classic_failed s [])
        else
          match classic_rows (S (Z.to_nat (height / CLASSIC_TILE + 1))) width height max_update_size
                  bgra (ce_tiles e) 0 (classic_resume_top s) (MkSlice s [] 1024 0 0 []) with
          | None => None
          | Some (TileFailed, sl) => Some (classic_failed (sl_state sl) (written sl))
          | Some (e', sl) =>
              if negb (length (rectangles sl) =? 0)%nat && negb (ce_wrote_last e)
              then Some (classic_failed (sl_state sl) (written sl))
              else
                let st := sl_state sl in
                Some (MkClassicResult true
                        (match e' with
                         | TileNext => MkClassic (previous_bitmap st)
                                         (if 0 <? frame_tiles sl then true else previous_bitmap_valid st)
                                         0 0 false
                         | _ => st
                         end) (written sl ++ rectangles sl) (frame_tiles sl) (frame_bytes sl))
          end
    end.

(** ** Decoded frames *)

Section Queue.
Context {F : Type}.

(** The queue of decoded frames and the counters that go with it. *)
Record Queue := MkQueue {
  pending_decoded : option F;
  pending_next_decoded : option F;
  decoded_frames : Z;
  bitmap_queued_frames : Z;
  bitmap_queue_drops : Z;
  bitmap_stale_drops : Z }.

Definition count_drop (q : Queue) : Queue :=
  MkQueue (pending_decoded q) (pending_next_decoded q) (decoded_frames q) (bitmap_queued_frames q)
    (u32 (bitmap_queue_drops q + 1)) (u32 (bitmap_stale_drops q + 1)).

(** [on_decoded_frame] with the retained frame, while the client runs. *)
Definition on_decoded_frame (frame_open : bool) (f : F) (q : Queue) : Queue :=
  let stale := if frame_open then pending_next_decoded q else pending_decoded q in
  let q := MkQueue (if frame_open then pending_decoded q else Some f)
             (if frame_open then Some f else pending_next_decoded q)
             (u32 (decoded_frames q + 1)) (u32 (bitmap_queued_frames q + 1))
             (bitmap_queue_drops q) (bitmap_stale_drops q) in
  match stale with Some _ => count_drop q | None => q end.

(** The section of [client_flush_pending_bitmap] behind a completed frame. *)
Definition promote_next (q : Queue) : Queue :=
  match pending_next_decoded q with
  | None => q
  | Some next =>
      let q := match pending_decoded q with Some _ => count_drop q | None => q end in
      MkQueue (Some next) None (decoded_frames q) (bitmap_queued_frames q)
        (bitmap_queue_drops q) (bitmap_stale_drops q)
  end.

(** *** Flushing *)

(** The frame a flush works on, if any. *)
Inductive flush_take := FlushNothing | FlushResume | FlushFrame (f : F).

(** The fields of [Client] of the bitmap path. *)
Record BitmapClient := MkBitmap {
  queue : Queue;
  classic : ClassicState;
  converter_frame : bytes;
  gfx_uses_progressive : bool;
  bitmap_uses_rfx : bool;
  has_nsc : bool;
  flow : FrameFlow;
  bitmap_last_send_started_at : Z;
  bitmap_flushes : Z;
  bitmap_empty_flushes : Z;
  converted_frames : Z;
  bitmap_frames : Z;
  client_stopping : bool;
  next_frame_id : Z }.

Definition set_queue (c : BitmapClient) (q : Queue) : BitmapClient :=
  MkBitmap q (classic c) (converter_frame c) (gfx_uses_progressive c) (bitmap_uses_rfx c) (has_nsc c)
    (flow c) (bitmap_last_send_started_at c) (bitmap_flushes c) (bitmap_empty_flushes c)
    (converted_frames c) (bitmap_frames c) (client_stopping c) (next_frame_id c).
Definition set_classic (c : BitmapClient) (s : ClassicState) : BitmapClient :=
  MkBitmap (queue c) s (converter_frame c) (gfx_uses_progressive c) (bitmap_uses_rfx c) (has_nsc c)
    (flow c) (bitmap_last_send_started_at c) (bitmap_flushes c) (bitmap_empty_flushes c)
    (converted_frames c) (bitmap_frames c) (client_stopping c) (next_frame_id c).
Definition set_flow (c : BitmapClient) (f : FrameFlow) : BitmapClient :=
  MkBitmap (queue c) (classic c) (converter_frame c) (gfx_uses_progressive c) (bitmap_uses_rfx c)
    (has_nsc c) f (bitmap_last_send_started_at c) (bitmap_flushes c) (bitmap_empty_flushes c)
    (converted_frames c) (bitmap_frames c) (client_stopping c) (next_frame_id c).
Definition set_sent_at (c : BitmapClient) (now : Z) : BitmapClient :=
  MkBitmap (queue c) (classic c) (converter_frame c) (gfx_uses_progressive c) (bitmap_uses_rfx c)
    (has_nsc c) (flow c) now (bitmap_flushes c) (bitmap_empty_flushes c)
    (converted_frames c) (bitmap_frames c) (client_stopping c) (next_frame_id c).
Definition count_flush (c : BitmapClient) : BitmapClient :=
  MkBitmap (queue c) (classic c) (converter_frame c) (gfx_uses_progressive c) (bitmap_uses_rfx c)
    (has_nsc c) (flow c) (bitmap_last_send_started_at c) (u32 (bitmap_flushes c + 1))
    (bitmap_empty_flushes c) (converted_frames c) (bitmap_frames c) (client_stopping c) (next_frame_id c).
Definition count_empty (c : BitmapClient) : BitmapClient :=
  MkBitmap (queue c) (classic c) (converter_frame c) (gfx_uses_progressive c) (bitmap_uses_rfx c)
    (has_nsc c) (flow c) (bitmap_last_send_started_at c) (bitmap_flushes c)
    (u32 (bitmap_empty_flushes c + 1)) (converted_frames c) (bitmap_frames c) (client_stopping c) (next_frame_id c).
Definition set_converted (c : BitmapClient) (b : bytes) : BitmapClient :=
  MkBitmap (queue c) (classic c) b (gfx_uses_progressive c) (bitmap_uses_rfx c)
    (has_nsc c) (flow c) (bitmap_last_send_started_at c) (bitmap_flushes c) (bitmap_empty_flushes c)
    (u32 (converted_frames c + 1)) (bitmap_frames c) (client_stopping c) (next_frame_id c).
Definition count_frame (c : BitmapClient) : BitmapClient :=
  MkBitmap (queue c) (classic c) (converter_frame c) (gfx_uses_progressive c) (bitmap_uses_rfx c)
    (has_nsc c) (flow c) (bitmap_last_send_started_at c) (bitmap_flushes c) (bitmap_empty_flushes c)
    (converted_frames c) (u32 (bitmap_frames c + 1)) (client_stopping c) (next_frame_id c).
Definition stop_bitmap (c : BitmapClient) : BitmapClient :=
  MkBitmap (queue c) (classic c) (converter_frame c) (gfx_uses_progressive c) (bitmap_uses_rfx c)
    (has_nsc c) (flow c) (bitmap_last_send_started_at c) (bitmap_flushes c) (bitmap_empty_flushes c)
    (converted_frames c) (bitmap_frames c) true (next_frame_id c).

Definition take_frame_id (c : BitmapClient) : BitmapClient :=
  MkBitmap (queue c) (classic c) (converter_frame c) (gfx_uses_progressive c) (bitmap_uses_rfx c)
    (has_nsc c) (flow c) (bitmap_last_send_started_at c) (bitmap_flushes c) (bitmap_empty_flushes c)
    (converted_frames c) (bitmap_frames c) (client_stopping c) (u32 (next_frame_id c + 1)).

(** The first section of [client_flush_pending_bitmap]. *)
Definition flush_begin (now : Z) (c : BitmapClient) : flush_take * BitmapClient :=
  let c := count_flush c in
  let interval := if gfx_uses_progressive c then frame_flow_interval (flow c)
                  else BITMAP_FRAME_INTERVAL_MS in
  let resume := negb (gfx_uses_progressive c) && classic_frame_open (classic c) in
  if (gfx_uses_progressive c && frame_flow_blocked (flow c)) ||
     (negb resume && negb (bitmap_last_send_started_at c =? 0) &&
      (u64 (now - bitmap_last_send_started_at c) <? interval))
  then (FlushNothing, c)
  else
    let q := queue c in
    match pending_decoded q with
    | None => if resume then (FlushResume, c) else (FlushNothing, count_empty c)
    | Some f =>
        let q := MkQueue None (pending_next_decoded q) (decoded_frames q) (bitmap_queued_frames q)
                   (bitmap_queue_drops q) (bitmap_stale_drops q) in
        let c := set_queue c q in
        if resume then (FlushResume, c) else (FlushFrame f, set_sent_at c now)
    end.

(** *** Sending *)

(** What a client is sent for a frame. *)
Inductive bitmap_output :=
| SentNothing
| SentWhole                                      (** RemoteFX or NSCodec *)
| SentRegion (id : Z) (region : list (Z * Z * Z * Z))
| SentTiles (rects : list BITMAP_DATA).

(** The rectangles (left, top, right, bottom) of the tiles that changed. *)
Definition changed_region (width height : Z) (previous : option bytes) (bgra : bytes)
    : list (Z * Z * Z * Z) :=
  let tile_columns := u16 ((width + 63) / 64) in
  let tile_rows := u16 ((height + 63) / 64) in
  flat_map (fun tile_y =>
    flat_map (fun tile_x =>
      let left := u16 (tile_x * 64) in
      let top := u16 (tile_y * 64) in
      let columns := if width <? left + 64 then u16 (width - left) else 64 in
      let rows := if height <? top + 64 then u16 (height - top) else 64 in
      if bitmap_tile_changed previous bgra (Z.to_nat width) (Z.to_nat left) (Z.to_nat top)
           (Z.to_nat columns) (Z.to_nat rows)
      then [(left, top, u16 (left + columns), u16 (top + rows))] else [])
    (seqZ 0 tile_columns)) (seqZ 0 tile_rows).

(** The answers of the graphics channel and its encoder. *)
Record progressive_env := MkProgressiveEnv {
  pe_usable : bool;
  pe_alloc : bool;
  pe_region_ok : bool;
  pe_encoded : Z;
  pe_now : Z;
  pe_submitted : bool }.

Definition send_progressive_frame (e : progressive_env) (width height : Z) (bgra : bytes)
    (c : BitmapClient) : bool * BitmapClient * bitmap_output :=
  let n := expected_length width height in
  if negb (pe_usable e) || negb (length bgra =? n)%nat then (false, c, SentNothing)
  else
    let s := ensure_previous (pe_alloc e) n (classic c) in
    let c := set_classic c s in
    let same_length := match previous_bitmap s with Some p => (length p =? n)%nat | None => false end in
    let previous := if previous_bitmap_valid s && same_length then previous_bitmap s else None in
    let region := changed_region width height previous bgra in
    if negb (pe_region_ok e) then (false, c, SentNothing)
    else if (length region =? 0)%nat then (true, c, SentNothing)
    else if pe_encoded e <? 0 then (false, c, SentNothing)
    else if pe_encoded e =? 0 then (true, c, SentNothing)
    else
      let id := next_frame_id c in
      let c := take_frame_id c in
      let '(tracked, fl) := frame_flow_sent (flow c) id (pe_now e) in
      let c := set_flow c fl in
      if negb tracked || negb (pe_submitted e) then (false, c, SentNothing)
      else
        (true,
         if same_length
         then set_classic c (MkClassic (Some bgra) true (classic_resume_left s) (classic_resume_top s)
                               (classic_frame_open s))
         else c,
         SentRegion id region).

Record send_env := MkBitmapSend {
  be_usable : bool;
  be_progressive : progressive_env;
  be_composed : bool;          (** the encoder exists, is supported and composes *)
  be_ready : peer_probe;
  be_wrote : bool;
  be_classic : classic_env }.

(** [None] if the classic loops do not end. *)
Definition send_bitmap_frame (e : send_env) (width height : Z) (bgra : bytes) (c : BitmapClient)
    : option (bool * BitmapClient * bitmap_output) :=
  if negb (be_usable e) || negb (length bgra =? expected_length width height)%nat
  then Some (false, c, SentNothing)
  else if gfx_uses_progressive c then
    let '(ok, c, out) := send_progressive_frame (be_progressive e) width height bgra c in
    Some (ok, if ok then count_frame c else c, out)
  else if negb (bitmap_uses_rfx c) && negb (has_nsc c) then
    match send_classic_bitmap_frame (be_classic e) width height bgra (classic c) with
    | None => None
    | Some r =>
        let c := set_classic c (cr_state r) in
        Some (cr_ok r, if cr_ok r then count_frame c else c, SentTiles (cr_written r))
    end
  else if negb (be_composed e) then Some (false, c, SentNothing)
  else if negb (client_output_write_ready (be_ready e)) then Some (true, c, SentNothing)
  else if negb (be_wrote e) then Some (false, c, SentNothing)
  else Some (true, count_frame c, SentWhole).

(** *** The flush *)

Record flush_env := MkFlushEnv {
  fl_ready : peer_probe;
  fl_now : Z;
  fl_before : list F;           (** decoded between the first section and the send *)
  fl_convert : F -> option bytes;   (** the answer of [ffmpeg_converter_convert] for a frame *)
  fl_send : send_env;
  fl_after : list F;            (** decoded between the send and the next section *)
  fl_completed : Z }.

Definition decode_all (fs : list F) (c : BitmapClient) : BitmapClient :=
  fold_left (fun c f => set_queue c (on_decoded_frame (classic_frame_open (classic c)) f (queue c))) fs c.

(** What follows the send of a frame or of a slice. *)
Definition flush_finish (e : flush_env) (ok : bool) (c : BitmapClient) (out : bitmap_output)
    : bool * BitmapClient * bitmap_output :=
  let c := decode_all (fl_after e) c in
  let c := if ok && negb (classic_frame_open (classic c))
           then set_queue c (promote_next (queue c)) else c in
  let c := if gfx_uses_progressive c
           then set_flow c (frame_flow_send_cost (flow c) (u64 (fl_completed e - fl_now e))
                              (fl_completed e)) else c in
  (ok, if ok then c else stop_bitmap c, out).

(** The returned value, the client, what was sent, and the frame that was taken from
    the queue and given to the converter.  A pending frame that is taken while a slice
    is resumed is neither: it is not used any more. *)
Definition client_flush_pending_bitmap (e : flush_env) (width height : Z) (c : BitmapClient)
    : option (bool * BitmapClient * bitmap_output * option F) :=
  if negb (client_output_write_ready (fl_ready e)) then Some (true, c, SentNothing, None)
  else
    match flush_begin (fl_now e) c with
    | (FlushNothing, c) => Some (true, c, SentNothing, None)
    | (FlushResume, c) =>
        let c := decode_all (fl_before e) c in
        match send_classic_bitmap_frame (be_classic (fl_send e)) width height (converter_frame c)
                (classic c) with
        | None => None
        | Some r =>
            Some (flush_finish e (cr_ok r) (set_classic c (cr_state r)) (SentTiles (cr_written r)), None)
        end
    | (FlushFrame f, c) =>
        let c := decode_all (fl_before e) c in
        match fl_convert e f with
        | None => Some (flush_finish e false c SentNothing, Some f)
        | Some bgra =>
            match send_bitmap_frame (fl_send e) width height bgra (set_converted c bgra) with
            | None => None
            | Some (ok, c, out) => Some (flush_finish e ok c out, Some f)
            end
        end
    end.

(** *** The output thread *)

Inductive output_action := OutputFlush | OutputWait (timeout : Z).

(** One round of [output_thread]: flush, or wait. *)
Definition output_round (bitmap_fallback_active : bool) (now : Z) (c : BitmapClient) : output_action :=
  if negb bitmap_fallback_active then OutputWait 50
  else
    let is_some {A} (o : option A) := match o with Some _ => true | None => false end in
    let pending := is_some (pending_decoded (queue c)) || is_some (pending_next_decoded (queue c)) ||
                   classic_frame_open (classic c) in
    let waiting_for_ack := gfx_uses_progressive c && frame_flow_blocked (flow c) in
    let last_send := bitmap_last_send_started_at c in
    let interval := if gfx_uses_progressive c then frame_flow_interval (flow c)
                    else BITMAP_FRAME_INTERVAL_MS in
    if pending && negb waiting_for_ack then
      if classic_frame_open (classic c) || (last_send =? 0) || (interval <=? u64 (now - last_send))
      then OutputFlush
      else OutputWait (u32 (interval - u64 (now - last_send)))
    else OutputWait 50.

End Queue.

(** ** The decoding thread *)

Section Decoding.
Context (can_grow : nat -> bool).

Record UnitStats := MkUnitStats {
  rtp_units : Z;
  rtp_idr_units : Z;
  rtp_p_units : Z;
  last_rtp_received_at : Z }.

Inductive decode_result := DecodePush (d : bytes) | DecodeStop.

(** One access unit of [bitmap_video_thread]: what the decoder is given, the
    buffer and the counters; [DecodeStop] where the client is stopped. *)
Definition bitmap_video_unit (u : VideoSourceAccessUnit) (now : Z) (fallback : H264Buffer)
    (st : UnitStats) : option (decode_result * H264Buffer * UnitStats) :=
  if (length (data u) =? 0)%nat then None
  else
    let st := MkUnitStats (u32 (rtp_units st + 1))
                (if has_nal (nal_types u) 5 then u32 (rtp_idr_units st + 1) else rtp_idr_units st)
                (if has_nal (nal_types u) 1 then u32 (rtp_p_units st + 1) else rtp_p_units st) now in
    match h264_ensure_annexb can_grow fallback (data u) with
    | None => Some (DecodeStop, fallback, st)
    | Some (d, fallback) => Some (DecodePush d, fallback, st)
    end.

End Decoding.
