(* ===== verification/RdpBitmapSpec.v ===== *)
(** * Correctness of the bitmap path

    The client's screen follows the frames tile by tile, the region of a
    progressive frame covers every change, and the newest decoded frame is kept
    until it is rendered. *)

From S2P Require Import Prelude FrameFlow RdpBitmap.

(** ** Buffers *)

Lemma copy_at_length d s off n :
  (off + n <= length d)%nat -> (off + n <= length s)%nat -> length (copy_at d s off n) = length d.
Proof. intros. unfold copy_at. rewrite !length_app, !length_take, !length_drop. lia. Qed.

Lemma copy_at_byte d s off n i :
  (off + n <= length d)%nat -> (off + n <= length s)%nat ->
  byte_at (copy_at d s off n) i =
  if decide (off <= i < off + n)%nat then byte_at s i else byte_at d i.
Proof.
  intros Hd Hs. unfold copy_at.
  assert (Ho : length (take off d) = off) by (rewrite length_take; lia).
  assert (Hn : length (take n (drop off s)) = n) by (rewrite length_take, length_drop; lia).
  destruct (decide _) as [Hi|Hi].
  - rewrite byte_at_app_r, byte_at_app_l, byte_at_take, byte_at_drop by (rewrite ?Ho, ?Hn; lia).
    f_equal. lia.
  - destruct (decide (i < off)%nat).
    + by rewrite byte_at_app_l, byte_at_take by (rewrite ?Ho; lia).
    + rewrite !byte_at_app_r, byte_at_drop by (rewrite ?Ho, ?Hn; lia). f_equal. rewrite Ho, Hn. lia.
Qed.

(** The first byte of a pixel of a frame. *)
Definition pix (w x y : nat) : nat := ((y * w + x) * 4)%nat.

(** A pixel lies in a row of a tile exactly when its coordinates do. *)
Lemma pixel_in_row w left columns y0 x y ch :
  (left + columns <= w)%nat -> (x < w)%nat -> (ch < 4)%nat ->
  ((y0 * w + left) * 4 <= pix w x y + ch < (y0 * w + left) * 4 + columns * 4)%nat <->
  y = y0 /\ (left <= x < left + columns)%nat.
Proof.
  intros Hc Hx Hch. unfold pix. destruct (lt_eq_lt_dec y y0) as [[Hlt| ->]|Hgt]; [|lia|].
  - assert ((y + 1) * w <= y0 * w)%nat by (apply Nat.mul_le_mono_r; lia). lia.
  - assert ((y0 + 1) * w <= y * w)%nat by (apply Nat.mul_le_mono_r; lia). lia.
Qed.

Lemma row_fits w h left columns y0 n :
  (left + columns <= w)%nat -> (y0 < h)%nat -> n = (w * h * 4)%nat ->
  ((y0 * w + left) * 4 + columns * 4 <= n)%nat.
Proof.
  intros Hc Hy ->. assert ((y0 + 1) * w <= h * w)%nat by (apply Nat.mul_le_mono_r; lia). lia.
Qed.

Section Copy.
Context (w h left top columns : nat) (Hc : (left + columns <= w)%nat).

Lemma tile_copy_rows_spec s n : forall d row,
  length d = (w * h * 4)%nat -> length s = (w * h * 4)%nat -> (top + row + n <= h)%nat ->
  length (tile_copy_rows d s w left top columns row n) = (w * h * 4)%nat /\
  forall x y ch, (x < w)%nat -> (ch < 4)%nat ->
    byte_at (tile_copy_rows d s w left top columns row n) (pix w x y + ch) =
    if decide ((top + row <= y < top + row + n)%nat /\ (left <= x < left + columns)%nat)
    then byte_at s (pix w x y + ch) else byte_at d (pix w x y + ch).
Proof.
  induction n as [|n IH]; intros d row Hd Hs Hr; cbn [tile_copy_rows].
  { split; [done|]. intros x y ch Hx Hch. rewrite decide_False by lia. done. }
  assert (Hfit : (((top + row) * w + left) * 4 + columns * 4 <= w * h * 4)%nat)
    by (by apply (row_fits w h); [|lia|]).
  set (d' := copy_at d s _ _).
  destruct (IH d' (row + 1)%nat) as [Hl Hb]; [unfold d'; rewrite copy_at_length; lia|done|lia|].
  split; [done|]. intros x y ch Hx Hch. rewrite Hb by done. unfold d'.
  rewrite copy_at_byte by lia.
  pose proof (pixel_in_row w left columns (top + row) x y ch Hc Hx Hch) as Hin.
  repeat case_decide; try done; exfalso; intuition lia.
Qed.
End Copy.

(** Blocks of equal length. *)
Lemma flat_map_lookup {A} (f : nat -> list A) k a n i j :
  (forall b, length (f b) = k) -> (i < n)%nat -> (j < k)%nat ->
  flat_map f (seq a n) !! (i * k + j)%nat = f (a + i)%nat !! j.
Proof.
  intros Hk. revert a i. induction n as [|n IH]; intros a i Hi Hj; [lia|]. cbn [seq flat_map].
  destruct i as [|i].
  - rewrite lookup_app_l by (rewrite Hk; lia). f_equal. f_equal. lia.
  - rewrite lookup_app_r by (rewrite Hk; lia). rewrite Hk.
    replace (S i * k + j - k)%nat with (i * k + j)%nat by lia. rewrite IH by lia. f_equal. f_equal. lia.
Qed.

Lemma flat_map_length_const {A} (f : nat -> list A) k a n :
  (forall b, length (f b) = k) -> length (flat_map f (seq a n)) = (n * k)%nat.
Proof.
  intros Hk. revert a. induction n as [|n IH]; intros a; [done|]. cbn. rewrite length_app, Hk, IH. lia.
Qed.

Lemma pack_rgb16_byte bgra w left top columns rows row column ch :
  (row < rows)%nat -> (column < columns)%nat -> (ch < 2)%nat ->
  byte_at (classic_pack_rgb16 bgra w left top columns rows) ((row * columns + column) * 2 + ch) =
  byte_at [u8 (rgb16 bgra (tile_pixel w left top column row));
           u8 (Z.shiftr (rgb16 bgra (tile_pixel w left top column row)) 8)] ch.
Proof.
  intros Hr Hc Hch. unfold byte_at. f_equal. unfold classic_pack_rgb16.
  replace ((row * columns + column) * 2 + ch)%nat with (row * (columns * 2) + (column * 2 + ch))%nat by lia.
  rewrite (flat_map_lookup _ (columns * 2)); [|intros b; by apply flat_map_length_const|done|lia].
  unfold pack_row. by rewrite (flat_map_lookup _ 2).
Qed.

(** ** The client's screen *)

(** The 16-bit colour of each pixel, where one was drawn. *)
Definition screen : Type := nat -> nat -> option Z.

(** What a client draws for a rectangle of 16-bit pixels. *)
Definition draw (scr : screen) (d : BITMAP_DATA) : screen := fun x y =>
  if (destLeft d <=? Z.of_nat x) && (Z.of_nat x <=? destRight d) &&
     (destTop d <=? Z.of_nat y) && (Z.of_nat y <=? destBottom d)
  then
    let i := (((y - Z.to_nat (destTop d)) * Z.to_nat (bd_width d) + (x - Z.to_nat (destLeft d))) * 2)%nat in
    Some (byte_at (bitmapDataStream d) i + 256 * byte_at (bitmapDataStream d) (i + 1))
  else scr x y.
Definition draw_all (scr : screen) (ds : list BITMAP_DATA) : screen := fold_left draw ds scr.

Lemma draw_all_app scr ds ds' : draw_all scr (ds ++ ds') = draw_all (draw_all scr ds) ds'.
Proof. apply fold_left_app. Qed.

Lemma rgb16_range bgra p : is_u16 (rgb16 bgra p).
Proof. apply u16_range. Qed.

Lemma u16_bytes v : is_u16 v -> u8 v + 256 * u8 (Z.shiftr v 8) = v.
Proof. intros Hv. rewrite Z.shiftr_div_pow2 by lia. change (2 ^ 8) with 256. mlia. Qed.

Lemma rgb16_ext b b' p p' :
  (forall ch, (ch < 3)%nat -> byte_at b (p + ch) = byte_at b' (p' + ch)) -> rgb16 b p = rgb16 b' p'.
Proof.
  intros H. unfold rgb16. rewrite (H 2%nat), (H 1%nat) by lia.
  specialize (H 0%nat). rewrite !Nat.add_0_r in H. by rewrite H by lia.
Qed.

Section Classic.
Context (W H : Z) (HW : 0 < W <= 65472) (HH : 0 < H <= 65472).
Abbreviation w := (Z.to_nat W).
Abbreviation h := (Z.to_nat H).

Definition on_screen (x y : nat) : Prop := (x < w)%nat /\ (y < h)%nat.

(** The tile a rectangle of the model covers. *)
Definition tile_columns (left : Z) : Z := Z.min CLASSIC_TILE (u16 (W - left)).
Definition tile_rows (top : Z) : Z := Z.min CLASSIC_TILE (u16 (H - top)).
Definition in_tile (left top : Z) (x y : nat) : Prop :=
  left <= Z.of_nat x < left + CLASSIC_TILE /\ top <= Z.of_nat y < top + CLASSIC_TILE.

Lemma tile_columns_eq left : 0 <= left < W -> tile_columns left = Z.min 64 (W - left).
Proof. intros. unfold tile_columns, CLASSIC_TILE. rewrite u16_id by (unfold is_u16; lia). done. Qed.
Lemma tile_rows_eq top : 0 <= top < H -> tile_rows top = Z.min 64 (H - top).
Proof. intros. unfold tile_rows, CLASSIC_TILE. rewrite u16_id by (unfold is_u16; lia). done. Qed.

Definition tile_rectangle (bgra : bytes) (left top : Z) : BITMAP_DATA :=
  MkBitmapData left top (left + tile_columns left - 1) (top + tile_rows top - 1)
    (tile_columns left) (tile_rows top)
    (classic_pack_rgb16 bgra w (Z.to_nat left) (Z.to_nat top)
       (Z.to_nat (tile_columns left)) (Z.to_nat (tile_rows top))).

Lemma draw_tile scr bgra left top x y :
  0 <= left < W -> 0 <= top < H -> on_screen x y ->
  draw scr (tile_rectangle bgra left top) x y =
  if decide (in_tile left top x y) then Some (rgb16 bgra (pix w x y)) else scr x y.
Proof.
  intros Hl Ht [Hx Hy]. unfold draw, tile_rectangle. cbn [destLeft destTop destRight destBottom bd_width bitmapDataStream].
  rewrite tile_columns_eq, tile_rows_eq by done.
  set (c := Z.min 64 (W - left)). set (r := Z.min 64 (H - top)). unfold in_tile, CLASSIC_TILE.
  destruct (decide _) as [Hin|Hin].
  - rewrite (proj2 (Z.leb_le left _)), (proj2 (Z.leb_le (Z.of_nat x) _)), (proj2 (Z.leb_le top _)),
      (proj2 (Z.leb_le (Z.of_nat y) _)) by lia. cbn [andb]. f_equal.
    set (row := (y - Z.to_nat top)%nat). set (col := (x - Z.to_nat left)%nat).
    replace ((row * Z.to_nat c + col) * 2)%nat with ((row * Z.to_nat c + col) * 2 + 0)%nat at 1 by lia.
    rewrite !pack_rgb16_byte by (unfold row, col; lia). unfold byte_at at 1 2. cbn [lookup list_lookup default].
    replace (tile_pixel w (Z.to_nat left) (Z.to_nat top) col row) with (pix w x y)
      by (unfold tile_pixel, pix, row, col; replace (Z.to_nat top + (y - Z.to_nat top))%nat with y by lia; lia).
    apply u16_bytes, rgb16_range.
  - destruct (Z.leb_spec left (Z.of_nat x)), (Z.leb_spec (Z.of_nat x) (left + c - 1)),
      (Z.leb_spec top (Z.of_nat y)), (Z.leb_spec (Z.of_nat y) (top + r - 1)); cbn [andb]; try done; lia.
Qed.

(** The mirror of the screen is right wherever something was drawn, complete
    once it counts as valid, and of the size of a frame. *)
Record mirrors (scr : screen) (s : ClassicState) : Prop := {
  mir_length : forall p, previous_bitmap s = Some p -> length p = (w * h * 4)%nat;
  mir_color : forall p x y c, previous_bitmap s = Some p -> on_screen x y -> scr x y = Some c ->
    c = rgb16 p (pix w x y);
  mir_blank : previous_bitmap s = None -> forall x y, on_screen x y -> scr x y = None;
  mir_valid : previous_bitmap_valid s = true -> forall x y, on_screen x y -> scr x y <> None }.

(** Tiles are handled row by row. *)
Definition before (left top : Z) (x y : nat) : Prop :=
  Z.of_nat y < top \/ (Z.of_nat y < top + CLASSIC_TILE /\ Z.of_nat x < left).

Definition shown (bgra : bytes) (left top : Z) (scr : screen) : Prop :=
  forall x y, on_screen x y -> before left top x y -> scr x y = Some (rgb16 bgra (pix w x y)).

Lemma shown_next_row bgra left top scr :
  W <= left -> shown bgra left top scr -> shown bgra 0 (top + CLASSIC_TILE) scr.
Proof. intros Hl Hs x y Ho Hb. apply Hs; [done|]. destruct Ho. unfold before in *. lia. Qed.

(** Drawing a tile and copying it into the mirror. *)
Lemma mirrors_draw scr s p bgra left top :
  length bgra = (w * h * 4)%nat -> 0 <= left < W -> 0 <= top < H ->
  previous_bitmap s = Some p -> mirrors scr s ->
  mirrors (draw scr (tile_rectangle bgra left top))
    (set_previous s (classic_tile_copy p bgra w (Z.to_nat left) (Z.to_nat top)
                       (Z.to_nat (tile_columns left)) (Z.to_nat (tile_rows top)))).
Proof.
  intros Hb Hl Ht Hp [Hlen Hcol _ Hval]. specialize (Hlen p Hp).
  assert (Hc : (Z.to_nat left + Z.to_nat (tile_columns left) <= w)%nat) by (rewrite tile_columns_eq by done; lia).
  assert (Hr : (Z.to_nat top + 0 + Z.to_nat (tile_rows top) <= h)%nat) by (rewrite tile_rows_eq by done; lia).
  destruct (tile_copy_rows_spec w h (Z.to_nat left) (Z.to_nat top) (Z.to_nat (tile_columns left)) Hc
              bgra (Z.to_nat (tile_rows top)) p 0 Hlen Hb Hr) as [Hl' Hbytes].
  fold (classic_tile_copy p bgra w (Z.to_nat left) (Z.to_nat top) (Z.to_nat (tile_columns left))
          (Z.to_nat (tile_rows top))) in Hl', Hbytes.
  split; cbn.
  - by intros q [= <-].
  - intros q x y c [= <-] Ho. rewrite draw_tile by done. destruct Ho as [Hx Hy].
    assert (Hin : in_tile left top x y <->
      (Z.to_nat top + 0 <= y < Z.to_nat top + 0 + Z.to_nat (tile_rows top))%nat /\
      (Z.to_nat left <= x < Z.to_nat left + Z.to_nat (tile_columns left))%nat).
    { unfold in_tile, CLASSIC_TILE. rewrite tile_rows_eq, tile_columns_eq by done. lia. }
    destruct (decide (in_tile left top x y)) as [Hi|Hi].
    + intros [= <-]. apply rgb16_ext. intros ch Hch. rewrite Hbytes by lia.
      by rewrite decide_True by (by apply Hin).
    + intros Hs. rewrite (Hcol p x y c Hp ltac:(by split) Hs). apply rgb16_ext. intros ch Hch.
      rewrite Hbytes by lia. by rewrite decide_False by (by rewrite <- Hin).
  - done.
  - intros Hv x y Ho. rewrite draw_tile by done. destruct (decide _); [done|]. by apply Hval.
Qed.

Lemma shown_draw bgra left top scr :
  0 <= left < W -> 0 <= top < H -> shown bgra left top scr ->
  shown bgra (left + CLASSIC_TILE) top (draw scr (tile_rectangle bgra left top)).
Proof.
  intros Hl Ht Hs x y Ho Hb. rewrite draw_tile by done. destruct (decide _) as [|Hn]; [done|].
  apply Hs; [done|]. unfold before, in_tile, CLASSIC_TILE in *. lia.
Qed.

(** A tile that is skipped shows the frame already. *)
Lemma shown_skip bgra left top scr s :
  0 <= left < W -> 0 <= top < H -> mirrors scr s -> previous_bitmap_valid s = true ->
  bitmap_tile_changed (previous_bitmap s) bgra w (Z.to_nat left) (Z.to_nat top)
    (Z.to_nat (tile_columns left)) (Z.to_nat (tile_rows top)) = false ->
  shown bgra left top scr -> shown bgra (left + CLASSIC_TILE) top scr.
Proof.
  intros Hl Ht Hm Hv (p & Hp & Heq)%bitmap_tile_changed_spec Hs x y Ho Hb.
  destruct (decide (in_tile left top x y)) as [Hi|Hn];
    [|apply Hs; [done|]; unfold before, in_tile, CLASSIC_TILE in *; lia].
  destruct (scr x y) as [c|] eqn:Ec; [|by destruct (mir_valid _ _ Hm Hv x y Ho)]. f_equal.
  rewrite (mir_color _ _ Hm p x y c Hp Ho Ec). apply rgb16_ext. intros ch Hch.
  assert (Hx : (x - Z.to_nat left < Z.to_nat (tile_columns left))%nat /\
               (y - Z.to_nat top < Z.to_nat (tile_rows top))%nat).
  { destruct Ho. unfold in_tile, CLASSIC_TILE in Hi. rewrite tile_columns_eq, tile_rows_eq by done. lia. }
  specialize (Heq (y - Z.to_nat top)%nat (x - Z.to_nat left)%nat ch (proj2 Hx) (proj1 Hx) Hch).
  replace (tile_pixel w (Z.to_nat left) (Z.to_nat top) (x - Z.to_nat left) (y - Z.to_nat top))
    with (pix w x y) in Heq; [done|].
  unfold tile_pixel, pix, in_tile in *.
  replace (Z.to_nat top + (y - Z.to_nat top))%nat with y by lia. lia.
Qed.

(** The state of a slice between two tiles: nothing is batched, the mirror and
    the screen agree, and the frame is shown up to the position. *)
Record slice_ok (scr0 : screen) (bgra : bytes) (left top : Z) (s : slice) : Prop := {
  so_batch : rectangles s = [];
  so_some : is_Some (previous_bitmap (sl_state s));
  so_mirror : mirrors (draw_all scr0 (written s)) (sl_state s);
  so_shown : shown bgra left top (draw_all scr0 (written s)) }.

(** Where a yielded slice resumes. *)
Definition yield_ok (scr0 : screen) (bgra : bytes) (s : slice) : Prop :=
  let st := sl_state s in
  classic_frame_open st = true /\ 0 <= classic_resume_left st < W /\ 0 <= classic_resume_top st < H + CLASSIC_TILE /\
  slice_ok scr0 bgra (classic_resume_left st) (classic_resume_top st) s.

Lemma mirrors_resume scr s left top : mirrors scr s -> mirrors scr (set_resume s left top).
Proof. intros []. by split. Qed.

Lemma classic_tile_spec scr0 maxsize bgra a left top s :
  length bgra = (w * h * 4)%nat -> 0 <= left < W -> 0 <= top < H -> slice_ok scr0 bgra left top s ->
  match classic_tile W H maxsize bgra a left top s with
  | (TileNext, s') => slice_ok scr0 bgra (left + CLASSIC_TILE) top s' /\
      classic_resume_top (sl_state s') = classic_resume_top (sl_state s) /\
      classic_resume_left (sl_state s') = classic_resume_left (sl_state s)
  | (TileYield, s') => yield_ok scr0 bgra s'
  | (TileFailed, _) => True
  end.
Proof.
  intros Hb Hl Ht [Hbatch [p Hp] Hm Hs]. unfold classic_tile.
  fold (tile_columns left). fold (tile_rows top). rewrite Hbatch. cbn [length app].
  destruct (_ && ta_late a).
  { split_and!; cbn; try (done || unfold CLASSIC_TILE; lia). split; cbn; [done|by eexists|by apply mirrors_resume|done]. }
  destruct (previous_bitmap_valid (sl_state s) && _) eqn:Ev.
  { apply andb_true_iff in Ev as [Hv Hch%negb_true_iff]. split; [|done].
    split; [done|by eexists|done|]. by eapply shown_skip. }
  destruct (_ || _); [done|].
  change (negb (0 =? 0)%nat) with false. cbn [andb negb]. rewrite Hbatch, Hp. cbn [app length].
  change (default [] (Some p)) with p.
  change (1 =? CLASSIC_BITMAP_BATCH)%nat with true. cbv iota.
  destruct (ta_wrote a); [|done]. cbn [negb].
  fold (tile_rectangle bgra left top).
  set (st' := set_previous _ _). set (wr := written s ++ [tile_rectangle bgra left top]).
  assert (Hnext : forall s', sl_state s' = st' -> written s' = wr -> rectangles s' = [] ->
    slice_ok scr0 bgra (left + CLASSIC_TILE) top s').
  { intros s' E1 E2 E3. split; [done|rewrite E1; by eexists| |]; rewrite ?E1, E2; unfold wr;
      rewrite draw_all_app; cbn [draw_all fold_left].
    - by apply mirrors_draw.
    - by apply shown_draw. }
  destruct (ta_blocked a).
  - unfold CLASSIC_TILE in *. rewrite u16_id by (unfold is_u16; lia).
    destruct (Hnext (MkSlice st' [] 1024 (frame_tiles s + 1) (frame_bytes s + u32 (tile_columns left * tile_rows top * 2)) wr) eq_refl eq_refl eq_refl)
      as [_ _ Hm' Hs'].
    rewrite u16_id by (unfold is_u16; lia).
    destruct (Z.leb_spec W (left + 64)); split_and!; cbn; try (done || unfold CLASSIC_TILE; lia);
      (split; cbn; [done|by eexists|by apply mirrors_resume|]); [|done].
    by apply (shown_next_row _ (left + 64)).
  - split; [|done]. by apply Hnext.
Qed.

Lemma slice_ok_next_row scr0 bgra left top s :
  W <= left -> slice_ok scr0 bgra left top s -> slice_ok scr0 bgra 0 (top + CLASSIC_TILE) s.
Proof. intros Hl []. split; try done. by apply (shown_next_row _ left). Qed.

Lemma classic_row_spec scr0 maxsize bgra a fuel : forall n left top s,
  length bgra = (w * h * 4)%nat -> 0 <= left -> left < W + CLASSIC_TILE -> 0 <= top < H ->
  (W - left <= CLASSIC_TILE * (Z.of_nat fuel - 1)) -> slice_ok scr0 bgra left top s ->
  match classic_row fuel W H maxsize bgra a n left top s with
  | Some (TileNext, _, s') => slice_ok scr0 bgra 0 (top + CLASSIC_TILE) s' /\
      classic_resume_top (sl_state s') = classic_resume_top (sl_state s) /\
      classic_resume_left (sl_state s') = classic_resume_left (sl_state s)
  | Some (TileYield, _, s') => yield_ok scr0 bgra s'
  | Some (TileFailed, _, _) => True
  | None => (fuel = 0)%nat
  end.
Proof.
  induction fuel as [|fuel IH]; intros n left top s Hb H0 Hl Ht Hf Hs; [done|]. cbn [classic_row].
  destruct (Z.ltb_spec left W) as [Hlt|Hge]; [|split; [by apply (slice_ok_next_row _ _ left)|done]].
  pose proof (classic_tile_spec scr0 maxsize bgra (a n) left top s Hb ltac:(lia) Ht Hs) as Hspec.
  destruct (classic_tile _ _ _ _ _ _ _ _) as [[] s']; [|done|done].
  destruct Hspec as (Hs' & Hrt & Hrl). unfold CLASSIC_TILE in *.
  rewrite u16_id by (unfold is_u16; lia).
  specialize (IH (S n) (left + 64) top s' Hb ltac:(lia) ltac:(lia) Ht ltac:(lia) Hs').
  destruct (classic_row _ _ _ _ _ _ _ _ _ _) as [[[[] m] s'']|]; [|done|done|].
  - destruct IH as (? & ? & ?). split_and!; congruence.
  - subst fuel. cbn in Hf. lia.
Qed.

Definition all_shown (bgra : bytes) (scr : screen) : Prop :=
  forall x y, on_screen x y -> scr x y = Some (rgb16 bgra (pix w x y)).

Lemma shown_all bgra left top scr : H <= top -> shown bgra left top scr -> all_shown bgra scr.
Proof. intros Ht Hs x y Ho. apply Hs; [done|]. destruct Ho. unfold before. lia. Qed.

(** The column a row of tiles starts with. *)
Definition row_start (s : slice) (top : Z) : Z :=
  if top =? classic_resume_top (sl_state s) then classic_resume_left (sl_state s) else 0.

Lemma classic_rows_spec scr0 maxsize bgra a fuel : forall n top s,
  length bgra = (w * h * 4)%nat -> 0 <= classic_resume_left (sl_state s) < W ->
  0 <= classic_resume_top (sl_state s) <= top -> top < H + CLASSIC_TILE ->
  H - top <= CLASSIC_TILE * (Z.of_nat fuel - 1) -> slice_ok scr0 bgra (row_start s top) top s ->
  match classic_rows fuel W H maxsize bgra a n top s with
  | Some (TileNext, s') => exists left' top', H <= top' /\ slice_ok scr0 bgra left' top' s'
  | Some (TileYield, s') => yield_ok scr0 bgra s'
  | Some (TileFailed, _) => True
  | None => (fuel = 0)%nat
  end.
Proof.
  induction fuel as [|fuel IH]; intros n top s Hb Hrl Hrt Ht Hf Hs; [done|]. cbn [classic_rows].
  fold (row_start s top).
  destruct (Z.ltb_spec top H) as [Hlt|Hge]; [|by exists (row_start s top), top].
  assert (Hstart : 0 <= row_start s top < W) by (unfold row_start; destruct (_ =? _); lia).
  assert (Hq : W / CLASSIC_TILE * CLASSIC_TILE <= W < (W / CLASSIC_TILE + 1) * CLASSIC_TILE)
    by (unfold CLASSIC_TILE; mlia).
  assert (0 <= W / CLASSIC_TILE) by (unfold CLASSIC_TILE; mlia).
  pose proof (classic_row_spec scr0 maxsize bgra a (S (Z.to_nat (W / CLASSIC_TILE + 1))) n
    (row_start s top) top s Hb ltac:(lia) ltac:(unfold CLASSIC_TILE; lia) ltac:(lia) ltac:(lia) Hs) as Hrow.
  destruct (classic_row _ _ _ _ _ _ _ _ _ _) as [[[[] m] s']|]; [|done|done|done].
  destruct Hrow as (Hs' & Ert & Erl). unfold CLASSIC_TILE in *.
  rewrite u16_id by (unfold is_u16; lia).
  assert (Hstart' : row_start s' (top + 64) = 0)
    by (unfold row_start; rewrite Ert, (proj2 (Z.eqb_neq _ _)) by lia; done).
  specialize (IH m (top + 64) s'). rewrite Hstart', Ert, Erl in IH.
  specialize (IH Hb Hrl ltac:(lia) ltac:(lia) ltac:(lia) Hs').
  destruct (classic_rows _ _ _ _ _ _ _ _ _) as [[[] s'']|]; [done..|]. subst fuel. cbn in Hf. lia.
Qed.

(** What a client must have drawn, given the state and the frame in the making. *)
Definition classic_inv (scr : screen) (bgra : bytes) (s : ClassicState) : Prop :=
  mirrors scr s /\ 0 <= classic_resume_left s < W /\ 0 <= classic_resume_top s < H + CLASSIC_TILE /\
  (classic_frame_open s = false -> classic_resume_left s = 0 /\ classic_resume_top s = 0) /\
  shown bgra (classic_resume_left s) (classic_resume_top s) scr.

Lemma ensure_previous_mirrors alloc scr s :
  mirrors scr s -> mirrors scr (ensure_previous alloc (w * h * 4) s).
Proof.
  intros Hm. unfold ensure_previous. destruct (previous_bitmap s) as [p|] eqn:Ep; [done|].
  destruct alloc; [|done]. destruct Hm as [Hlen Hcol Hblank Hval]. split; cbn.
  - intros q [= <-]. apply length_replicate.
  - intros q x y c [= <-] Ho Hs. by rewrite Hblank in Hs.
  - done.
  - done.
Qed.

Lemma ensure_previous_resume alloc n s :
  classic_resume_left (ensure_previous alloc n s) = classic_resume_left s /\
  classic_resume_top (ensure_previous alloc n s) = classic_resume_top s.
Proof. unfold ensure_previous. by destruct (previous_bitmap s), alloc. Qed.

Lemma expected_length_eq : expected_length W H = (w * h * 4)%nat.
Proof. unfold expected_length. lia. Qed.

Lemma send_classic_spec scr bgra s e :
  classic_inv scr bgra s -> exists r, send_classic_bitmap_frame e W H bgra s = Some r /\
  (cr_ok r = true ->
   classic_inv (draw_all scr (cr_written r)) bgra (cr_state r) /\
   (classic_frame_open (cr_state r) = false -> all_shown bgra (draw_all scr (cr_written r)))).
Proof.
  intros (Hm & Hrl & Hrt & Hopen & Hs). unfold send_classic_bitmap_frame. rewrite expected_length_eq.
  destruct (negb (ce_usable e) || _) eqn:Eu; [by eexists|].
  apply orb_false_iff in Eu as [_ Hb%negb_false_iff%Nat.eqb_eq].
  destruct (client_output_write_ready _); cbn [negb].
  2: { eexists. split; [done|]. intros _. split; [|done]. cbn.
       split; [by apply mirrors_resume|]. split; [done|]. split; [done|]. split; [discriminate|done]. }
  pose proof (ensure_previous_mirrors (ce_alloc e) scr s Hm) as Hm1.
  destruct (ensure_previous_resume (ce_alloc e) (w * h * 4) s) as [El Et].
  set (s1 := ensure_previous _ _ s) in *.
  destruct (previous_bitmap s1) as [p|] eqn:Ep; [|by eexists].
  destruct (negb _); [by eexists|].
  assert (Hq : 0 <= H / CLASSIC_TILE /\ H < (H / CLASSIC_TILE + 1) * CLASSIC_TILE)
    by (unfold CLASSIC_TILE; mlia).
  set (fuel := S (Z.to_nat (H / CLASSIC_TILE + 1))). set (sl := MkSlice s1 [] 1024 0 0 []).
  assert (Hrow : row_start sl (classic_resume_top s1) = classic_resume_left s1)
    by (unfold row_start; cbn; by rewrite Z.eqb_refl).
  assert (Hsl : slice_ok scr bgra (classic_resume_left s1) (classic_resume_top s1) sl)
    by (rewrite El, Et; split; cbn; [done|by eexists|done|done]).
  pose proof (classic_rows_spec scr (if ce_negotiated e <? CLASSIC_MAX_UPDATE_SIZE then ce_negotiated e
    else CLASSIC_MAX_UPDATE_SIZE) bgra (ce_tiles e) fuel 0 (classic_resume_top s1) sl Hb) as Hspec.
  rewrite Hrow in Hspec. cbn [sl_state sl] in Hspec.
  specialize (Hspec ltac:(rewrite El; done) ltac:(rewrite Et; lia) ltac:(rewrite Et; lia)
    ltac:(unfold fuel, CLASSIC_TILE in *; rewrite Et; lia) Hsl).
  destruct (classic_rows _ _ _ _ _ _ _ _ _) as [[[] sl']|]; [| |by eexists|done].
  - destruct Hspec as (left' & top' & Htop & [Hbatch Hsome Hm' Hs']).
    rewrite Hbatch. cbn [length Nat.eqb negb andb]. eexists. split; [done|]. intros _.
    cbn [cr_state cr_written classic_frame_open]. rewrite app_nil_r.
    pose proof (shown_all _ _ _ _ Htop Hs') as Hall. split; [|done].
    split; [|cbn; split_and!; try (done || unfold CLASSIC_TILE; lia); intros x y Ho _; by apply Hall].
    destruct Hm' as [M1 M2 M3 M4]. split; cbn; try done.
    intros _ x y Ho. by rewrite Hall.
  - destruct Hspec as (Hop & Hyl & Hyt & [Hbatch Hsome Hm' Hs']).
    rewrite Hbatch. cbn [length Nat.eqb negb andb]. eexists. split; [done|]. intros _.
    cbn [cr_state cr_written]. rewrite app_nil_r. split; [|by rewrite Hop].
    split; [done|]. split_and!; try (done || lia); by rewrite Hop.
Qed.

(** *** Sessions *)

(** [Ended]: a call failed, or the frame was not finished. *)
Inductive classic_run := Ran (s : ClassicState) (out : list BITMAP_DATA) | Ended | Diverged.

(** One frame, a slice per answer of the environment, until it is complete. *)
Fixpoint send_slices (envs : list classic_env) (bgra : bytes) (s : ClassicState)
    (out : list BITMAP_DATA) : classic_run :=
  match envs with
  | [] => Ended
  | e :: envs =>
      match send_classic_bitmap_frame e W H bgra s with
      | None => Diverged
      | Some r =>
          if cr_ok r then
            if classic_frame_open (cr_state r) then send_slices envs bgra (cr_state r) (out ++ cr_written r)
            else Ran (cr_state r) (out ++ cr_written r)
          else Ended
      end
  end.

Fixpoint send_frames (frames : list (bytes * list classic_env)) (s : ClassicState)
    (out : list BITMAP_DATA) : classic_run :=
  match frames with
  | [] => Ran s out
  | (bgra, envs) :: frames =>
      match send_slices envs bgra s out with
      | Ran s out => send_frames frames s out
      | other => other
      end
  end.

Definition blank : screen := fun _ _ => None.
Definition classic_init : ClassicState := MkClassic None false 0 0 false.

Lemma send_slices_spec scr0 bgra envs : forall s out,
  classic_inv (draw_all scr0 out) bgra s ->
  match send_slices envs bgra s out with
  | Ran s' out' => all_shown bgra (draw_all scr0 out') /\ classic_inv (draw_all scr0 out') bgra s' /\
      classic_frame_open s' = false
  | Ended => True
  | Diverged => False
  end.
Proof.
  induction envs as [|e envs IH]; intros s out Hi; cbn [send_slices]; [done|].
  destruct (send_classic_spec _ bgra s e Hi) as (r & -> & Hr).
  destruct (cr_ok r); [|done]. destruct (Hr eq_refl) as [Hi' Hall]. rewrite <- draw_all_app in Hi', Hall.
  destruct (classic_frame_open (cr_state r)) eqn:Eo; [by apply IH|]. by split_and!; [apply Hall| |].
Qed.

(** A new frame starts with nothing shown of it. *)
Lemma classic_inv_start scr bgra bgra' s :
  classic_inv scr bgra s -> classic_frame_open s = false -> classic_inv scr bgra' s.
Proof.
  intros (Hm & Hrl & Hrt & Hop & Hs) Hclosed. destruct (Hop Hclosed) as [El Et].
  split; [done|]. split; [done|]. split; [done|]. split; [done|].
  intros x y Ho Hb. unfold before in Hb. rewrite El, Et in Hb. lia.
Qed.

Lemma send_frames_spec scr0 frames : forall s out bgra0,
  classic_inv (draw_all scr0 out) bgra0 s -> classic_frame_open s = false ->
  match send_frames frames s out with
  | Ran s' out' => frames = [] \/ exists pre bgra envs, frames = pre ++ [(bgra, envs)] /\
      all_shown bgra (draw_all scr0 out')
  | Ended => True
  | Diverged => False
  end.
Proof.
  induction frames as [|[bgra envs] frames IH]; intros s out bgra0 Hi Hc; cbn [send_frames]; [by left|].
  pose proof (send_slices_spec scr0 bgra envs s out (classic_inv_start _ _ bgra _ Hi Hc)) as Hs.
  destruct (send_slices envs bgra s out) as [s1 out1| |]; [|done|done].
  destruct Hs as (Hall & Hi1 & Hc1). specialize (IH s1 out1 bgra Hi1 Hc1).
  destruct (send_frames frames s1 out1) as [s2 out2| |] eqn:Ef; [|done|done]. right.
  destruct IH as [->|(pre & b & es & -> & Hb)].
  - injection Ef as <- <-. by exists [], bgra, envs.
  - by exists ((bgra, envs) :: pre), b, es.
Qed.

(** Before the first frame nothing is shown. *)
Lemma classic_inv_init bgra : classic_inv blank bgra classic_init.
Proof.
  split; [by split|]. cbn. unfold CLASSIC_TILE. split; [lia|]. split; [lia|]. split; [done|].
  intros x y Ho Hb. unfold before in Hb. lia.
Qed.

(** C12: classic bitmaps: for a desktop of up to 65472 pixels a side, however
    a frame is sliced by time, by a blocked output and by tiles that did not
    change, the loops end, and once the last of a sequence of frames is
    complete the client's screen shows every pixel of that frame in 16-bit
    colour. *)
Theorem classic_frames_displayed frames bgra envs :
  match send_frames (frames ++ [(bgra, envs)]) classic_init [] with
  | Ran _ out => all_shown bgra (draw_all blank out)
  | Ended => True
  | Diverged => False
  end.
Proof.
  assert (Hi : classic_inv (draw_all blank []) bgra classic_init) by apply classic_inv_init.
  pose proof (send_frames_spec blank (frames ++ [(bgra, envs)]) classic_init [] bgra Hi eq_refl) as Hs.
  destruct (send_frames _ _ _) as [s out| |]; [|done|done].
  destruct Hs as [Hnil|(pre & b & es & Heq & Hb)]; [by destruct frames|].
  by apply app_inj_tail in Heq as [_ [= -> ->]].
Qed.
End Classic.

(** ** Progressive frames *)

Section Progressive.
Context (W H : Z) (HW : 0 < W <= 65472) (HH : 0 < H <= 65472).

Definition in_rect (r : Z * Z * Z * Z) (x y : nat) : Prop :=
  let '(l, t, r, b) := r in l <= Z.of_nat x < r /\ t <= Z.of_nat y < b.

Definition same_color (previous : option bytes) (bgra : bytes) (x y : nat) : Prop :=
  exists p, previous = Some p /\ forall ch, (ch < 3)%nat ->
    byte_at p (pix (Z.to_nat W) x y + ch) = byte_at bgra (pix (Z.to_nat W) x y + ch).

(** The bounds of the tile with a given number. *)
Lemma tile_bounds D i : 0 < D <= 65472 -> 0 <= i < u16 ((D + 63) / 64) ->
  u16 (i * 64) = i * 64 /\ i * 64 < D /\
  (if D <? u16 (i * 64) + 64 then u16 (D - u16 (i * 64)) else 64) = Z.min 64 (D - i * 64) /\
  u16 (u16 (i * 64) + (if D <? u16 (i * 64) + 64 then u16 (D - u16 (i * 64)) else 64)) =
    Z.min (i * 64 + 64) D.
Proof.
  intros HD Hi.
  assert (Hi' : 0 <= i < (D + 63) / 64) by (rewrite u16_id in Hi; [done|mlia]).
  assert (Hlt : i * 64 < D) by mlia.
  assert (E : u16 (i * 64) = i * 64) by (apply u16_id; unfold is_u16; lia).
  rewrite E. destruct (Z.ltb_spec D (i * 64 + 64)).
  - rewrite (u16_id (D - i * 64)) by (unfold is_u16; lia). rewrite u16_id by (unfold is_u16; lia). lia.
  - rewrite u16_id by (unfold is_u16; lia). lia.
Qed.

Lemma tile_of D x : 0 < D <= 65472 -> 0 <= x < D -> 0 <= x / 64 < u16 ((D + 63) / 64).
Proof. intros HD Hx. rewrite u16_id by mlia. mlia. Qed.

(** The region of a progressive frame lies on the desktop and contains
    every pixel whose colour differs from the frame the client shows; where
    there is no such frame it contains every pixel. *)
Theorem changed_region_covers previous bgra :
  let region := changed_region W H previous bgra in
  (forall l t r b, (l, t, r, b) ∈ region -> 0 <= l < r /\ r <= W /\ 0 <= t < b /\ b <= H) /\
  (forall x y, on_screen W H x y ->
     Exists (fun r => in_rect r x y) region \/ same_color previous bgra x y).
Proof.
  split.
  - intros l t r b Hin. apply list_elem_of_In, in_flat_map in Hin as (j & Hj & Hin).
    apply in_flat_map in Hin as (i & Hi & Hin).
    apply list_elem_of_In, elem_of_seqZ in Hi, Hj.
    destruct (tile_bounds W i HW ltac:(lia)) as (E1 & L1 & C1 & R1).
    destruct (tile_bounds H j HH ltac:(lia)) as (E2 & L2 & C2 & R2).
    cbv zeta in Hin. destruct (bitmap_tile_changed _ _ _ _ _ _ _); [|done].
    destruct Hin as [[= <- <- <- <-]|[]]. rewrite R1, R2, E1, E2. lia.
  - intros x y [Hx Hy]. set (i := Z.of_nat x / 64). set (j := Z.of_nat y / 64).
    assert (Hi : 0 <= i < u16 ((W + 63) / 64)) by (apply tile_of; lia).
    assert (Hj : 0 <= j < u16 ((H + 63) / 64)) by (apply tile_of; lia).
    destruct (tile_bounds W i HW Hi) as (E1 & L1 & C1 & R1).
    destruct (tile_bounds H j HH Hj) as (E2 & L2 & C2 & R2).
    assert (Bx : i * 64 <= Z.of_nat x < i * 64 + 64) by (unfold i; mlia).
    assert (By : j * 64 <= Z.of_nat y < j * 64 + 64) by (unfold j; mlia).
    destruct (bitmap_tile_changed previous bgra (Z.to_nat W) (Z.to_nat (i * 64)) (Z.to_nat (j * 64))
                (Z.to_nat (Z.min 64 (W - i * 64))) (Z.to_nat (Z.min 64 (H - j * 64)))) eqn:Ec.
    + left. apply Exists_exists. exists (i * 64, j * 64, Z.min (i * 64 + 64) W, Z.min (j * 64 + 64) H).
      split; [|cbn; lia]. apply in_flat_map. exists j.
      split; [apply list_elem_of_In, elem_of_seqZ; lia|].
      apply in_flat_map. exists i. split; [apply list_elem_of_In, elem_of_seqZ; lia|].
      cbv zeta. rewrite R1, R2, C1, C2, E1, E2, Ec. by left.
    + right. apply bitmap_tile_changed_spec in Ec as (p & Hp & Heq). exists p. split; [done|].
      intros ch Hch.
      specialize (Heq (y - Z.to_nat (j * 64))%nat (x - Z.to_nat (i * 64))%nat ch ltac:(lia) ltac:(lia) Hch).
      replace (tile_pixel _ _ _ _ _) with (pix (Z.to_nat W) x y) in Heq; [done|].
      unfold tile_pixel, pix. replace (Z.to_nat (j * 64) + (y - Z.to_nat (j * 64)))%nat with y by lia. lia.
Qed.
End Progressive.

(** ** The queue of decoded frames *)

Section Pending.
Context {F : Type} (W H : Z).

(** The newest element, in front of what was there. *)
Definition newest (older : option F) (fs : list F) : option F := fold_left (fun _ f => Some f) fs older.

Lemma newest_app o fs gs : newest o (fs ++ gs) = newest (newest o fs) gs.
Proof. apply fold_left_app. Qed.

Lemma newest_cases (P : option F -> Prop) o fs :
  P o -> (forall f, P (Some f)) -> P (newest o fs).
Proof.
  intros Ho HP. destruct (decide (fs = [])) as [->|Hne]; [done|].
  destruct (exists_last Hne) as (pre & f & ->). rewrite newest_app. apply HP.
Qed.

(** A client whose frames are sent whole: RemoteFX, NSCodec or Progressive. *)
Definition whole_mode (c : BitmapClient (F := F)) : bool :=
  gfx_uses_progressive c || bitmap_uses_rfx c || has_nsc c.

Definition whole_frames (c : BitmapClient (F := F)) : Prop :=
  whole_mode c = true /\
  classic_frame_open (classic c) = false /\ pending_next_decoded (queue c) = None.

(** Nothing but the queue matters. *)
Record same_queue (c c' : BitmapClient (F := F)) : Prop := {
  sq_pending : pending_decoded (queue c') = pending_decoded (queue c);
  sq_next : pending_next_decoded (queue c') = pending_next_decoded (queue c);
  sq_open : classic_frame_open (classic c') = classic_frame_open (classic c);
  sq_mode : whole_mode c' = whole_mode c;
  sq_picture : converter_frame c' = converter_frame c }.

Lemma whole_same c c' : same_queue c c' -> whole_frames c -> whole_frames c'.
Proof. intros [] (? & ? & ?). unfold whole_frames. split_and!; congruence. Qed.

Lemma decode_all_spec fs : forall c, whole_frames c ->
  whole_frames (decode_all fs c) /\
  pending_decoded (queue (decode_all fs c)) = newest (pending_decoded (queue c)) fs.
Proof.
  induction fs as [|f fs IH]; intros c Hw; [done|].
  destruct Hw as (Hm & Ho & Hn). unfold decode_all. cbn [fold_left].
  set (c1 := set_queue c _). fold (decode_all fs c1).
  assert (H1 : whole_frames c1 /\ pending_decoded (queue c1) = Some f).
  { unfold c1, on_decoded_frame. rewrite Ho. cbn.
    destruct (pending_decoded (queue c)); (split; [split_and!|]); try done. }
  destruct H1 as [Hw1 Hp1]. destruct (IH c1 Hw1) as [Hw2 Hp2]. split; [done|]. by rewrite Hp2, Hp1.
Qed.

(** Decoding leaves everything but the queue alone. *)
Lemma decode_all_rest fs : forall c : BitmapClient (F := F),
  whole_mode (decode_all fs c) = whole_mode c /\ classic (decode_all fs c) = classic c /\
  converter_frame (decode_all fs c) = converter_frame c /\
  client_stopping (decode_all fs c) = client_stopping c.
Proof.
  induction fs as [|f fs IH]; intros c; [done|]. unfold decode_all. cbn [fold_left].
  set (c1 := set_queue c _). fold (decode_all fs c1). destruct (IH c1) as (-> & -> & -> & ->). done.
Qed.

Lemma ensure_previous_open alloc n s :
  classic_frame_open (ensure_previous alloc n s) = classic_frame_open s.
Proof. unfold ensure_previous. destruct (previous_bitmap s); [done|]. by destruct alloc. Qed.

Lemma progressive_same e bgra c ok c' out :
  send_progressive_frame e W H bgra c = (ok, c', out) -> same_queue c c'.
Proof.
  unfold send_progressive_frame. intros Hs.
  pose proof (ensure_previous_open (pe_alloc e) (expected_length W H) (classic c)) as Hens.
  destruct (_ || _); [by simplify_eq|].
  destruct (negb (pe_region_ok e)); [simplify_eq; split; cbn; done|].
  destruct (_ =? 0)%nat; [simplify_eq; split; cbn; done|].
  destruct (_ <? 0); [simplify_eq; split; cbn; done|].
  destruct (_ =? 0); [simplify_eq; split; cbn; done|].
  destruct (frame_flow_sent _ _ _) as [tracked fl].
  destruct (_ || _); [simplify_eq; split; cbn; done|].
  destruct (match previous_bitmap _ with Some _ => _ | None => _ end); simplify_eq; split; cbn; done.
Qed.

Lemma send_same e bgra c :
  whole_frames c -> exists ok c' out, send_bitmap_frame e W H bgra c = Some (ok, c', out) /\ same_queue c c'.
Proof.
  intros (Hm & _ & _). unfold whole_mode in Hm. unfold send_bitmap_frame.
  destruct (negb (be_usable e) || _); [do 3 eexists; split; [reflexivity|by split]|].
  destruct (gfx_uses_progressive c) eqn:Ep.
  - destruct (send_progressive_frame _ _ _ _ _) as [[ok c'] out] eqn:Es.
    apply progressive_same in Es. do 3 eexists. split; [done|]. destruct ok; [|done].
    destruct Es. split; cbn; done.
  - rewrite orb_false_l in Hm. destruct (negb (bitmap_uses_rfx c) && negb (has_nsc c)) eqn:E1.
    { apply andb_true_iff in E1 as [E1%negb_true_iff E2%negb_true_iff]. by rewrite E1, E2 in Hm. }
    destruct (negb (be_composed e)); [do 3 eexists; split; [reflexivity|by split]|].
    destruct (negb (client_output_write_ready _)); [do 3 eexists; split; [reflexivity|by split]|].
    destruct (negb (be_wrote e)); do 3 eexists; (split; [reflexivity|by split]).
Qed.

(** The frame a flush takes from the queue. *)
Definition flush_frame (e : flush_env (F := F)) (c : BitmapClient) : option F :=
  if client_output_write_ready (fl_ready e) then
    match (flush_begin (fl_now e) c).1 with FlushFrame f => Some f | _ => None end
  else None.

Lemma flush_begin_spec now c : whole_frames c ->
  let '(t, c') := flush_begin now c in
  whole_frames c' /\
  match t with
  | FlushFrame f => pending_decoded (queue c) = Some f /\ pending_decoded (queue c') = None
  | FlushNothing => pending_decoded (queue c') = pending_decoded (queue c)
  | FlushResume => False
  end.
Proof.
  intros (Hm & Ho & Hn). unfold flush_begin. cbn [classic gfx_uses_progressive count_flush].
  rewrite Ho, andb_false_r. cbn [negb andb].
  destruct (gfx_uses_progressive c && _ || _); [cbv beta iota; split; [split_and!|]; done|]. cbn [queue count_flush].
  destruct (pending_decoded (queue c)) eqn:Ep; cbv beta iota; (split; [split_and!|]; done).
Qed.

Lemma flush_finish_whole e ok c out : whole_frames c ->
  let '(ok', c', out') := flush_finish e ok c out in
  ok' = ok /\ out' = out /\ whole_frames c' /\ converter_frame c' = converter_frame c /\
  (ok = false -> client_stopping c' = true) /\
  pending_decoded (queue c') = newest (pending_decoded (queue c)) (fl_after e).
Proof.
  intros Hw. destruct (decode_all_spec (fl_after e) c Hw) as [Hw4 Hp4].
  destruct (decode_all_rest (fl_after e) c) as (_ & _ & Hpic & _).
  unfold flush_finish. set (c4 := decode_all (fl_after e) c) in *.
  destruct Hw4 as (Hm4 & Ho4 & Hn4). rewrite Ho4. cbn [negb]. rewrite andb_true_r.
  assert (Hpr : promote_next (queue c4) = queue c4) by (unfold promote_next; by rewrite Hn4).
  unfold whole_frames, whole_mode in *.
  destruct ok; rewrite ?Hpr; cbn [gfx_uses_progressive set_queue];
    destruct (gfx_uses_progressive c4) eqn:Eg; split_and!; cbn; rewrite ?Eg in *; done.
Qed.

(** Nothing that sending depends on differs. *)
Definition sends_like (c c' : BitmapClient (F := F)) : Prop :=
  gfx_uses_progressive c' = gfx_uses_progressive c /\ bitmap_uses_rfx c' = bitmap_uses_rfx c /\
  has_nsc c' = has_nsc c /\ classic c' = classic c /\ flow c' = flow c /\ next_frame_id c' = next_frame_id c.

(** What a flush does for a client that gets whole frames: it takes nothing, sends
    nothing and leaves the pending frame; or it takes the pending frame, converts that
    frame, sends what [send_bitmap_frame] makes of the picture, and leaves the newest of
    the frames decoded meanwhile.  A failure stops the client. *)
Definition flushed (e : flush_env (F := F)) (c : BitmapClient) (ok : bool) (c' : BitmapClient)
    (out : bitmap_output) (taken : option F) : Prop :=
  (ok = false -> client_stopping c' = true) /\
  match taken with
  | Some f =>
      pending_decoded (queue c) = Some f /\
      pending_decoded (queue c') = newest None (fl_before e ++ fl_after e) /\
      match fl_convert e f with
      | Some bgra => converter_frame c' = bgra /\
          exists c2 c3, sends_like c c2 /\ send_bitmap_frame (fl_send e) W H bgra c2 = Some (ok, c3, out)
      | None => ok = false /\ out = SentNothing
      end
  | None =>
      ok = true /\ out = SentNothing /\ pending_decoded (queue c') = pending_decoded (queue c) /\
      converter_frame c' = converter_frame c
  end.

(** A peer that is ready is sent the whole picture. *)
Definition takes_whole (e : send_env) (bgra : bytes) : bool :=
  be_usable e && (length bgra =? expected_length W H)%nat && be_composed e &&
  client_output_write_ready (be_ready e) && be_wrote e.

Lemma send_whole e bgra (c : BitmapClient (F := F)) :
  whole_mode c = true -> gfx_uses_progressive c = false -> takes_whole e bgra = true ->
  exists c', send_bitmap_frame e W H bgra c = Some (true, c', SentWhole).
Proof.
  unfold whole_mode, takes_whole, send_bitmap_frame. intros Hm Hg Ht. rewrite Hg in *. cbn [orb] in Hm.
  rewrite !andb_true_iff in Ht. destruct Ht as [[[[-> ->] ->] ->] ->]. rewrite <- negb_orb, Hm. cbn. by eexists.
Qed.

Lemma decode_all_sends fs : forall c : BitmapClient (F := F), sends_like c (decode_all fs c).
Proof.
  induction fs as [|f fs IH]; intros c; [done|]. unfold decode_all. cbn [fold_left].
  set (c1 := set_queue c _). fold (decode_all fs c1). apply (IH c1).
Qed.

Lemma flush_begin_sends now (c : BitmapClient (F := F)) : sends_like c (flush_begin now c).2.
Proof.
  unfold flush_begin. cbn [queue count_flush]. destruct (_ || _); [done|].
  by destruct (pending_decoded (queue c)), (_ && _).
Qed.

Lemma sends_like_trans c1 c2 c3 : sends_like c1 c2 -> sends_like c2 c3 -> sends_like c1 c3.
Proof. unfold sends_like. intuition congruence. Qed.

Lemma flush_begin_picture now (c : BitmapClient (F := F)) :
  converter_frame (flush_begin now c).2 = converter_frame c /\
  whole_mode (flush_begin now c).2 = whole_mode c /\ classic (flush_begin now c).2 = classic c /\
  client_stopping (flush_begin now c).2 = client_stopping c.
Proof.
  unfold flush_begin. cbn [queue count_flush]. destruct (_ || _); [done|].
  by destruct (pending_decoded (queue c)), (_ && _).
Qed.

Lemma flush_spec e c : whole_frames c ->
  exists ok c' out taken, client_flush_pending_bitmap e W H c = Some (ok, c', out, taken) /\
    whole_frames c' /\ flushed e c ok c' out taken /\ taken = flush_frame e c.
Proof.
  intros Hw. unfold client_flush_pending_bitmap, flush_frame.
  destruct (client_output_write_ready _); cbn [negb]; [|by do 4 eexists].
  pose proof (flush_begin_spec (fl_now e) c Hw) as Hb.
  destruct (flush_begin_picture (fl_now e) c) as [Hpic1 _].
  pose proof (flush_begin_sends (fl_now e) c) as Hlike.
  destruct (flush_begin (fl_now e) c) as [t c1]. cbn [fst snd] in *. destruct Hb as [Hw1 Ht].
  destruct t as [| |f]; [by do 4 eexists|done|]. destruct Ht as [Hp Hp1].
  destruct (decode_all_spec (fl_before e) c1 Hw1) as [Hw2 Hp2].
  pose proof (sends_like_trans _ _ _ Hlike (decode_all_sends (fl_before e) c1)) as Hlike2.
  set (c2 := decode_all (fl_before e) c1) in *. unfold flushed.
  destruct (fl_convert e f) as [bgra|] eqn:Ef.
  - assert (Hw2' : whole_frames (set_converted c2 bgra)) by exact Hw2.
    destruct (send_same (fl_send e) bgra (set_converted c2 bgra) Hw2') as (ok & c3 & out & Hsend & Hs3).
    rewrite Hsend. pose proof (flush_finish_whole e ok c3 out (whole_same _ _ Hs3 Hw2')) as Hfin.
    destruct (flush_finish e ok c3 out) as [[ok' c'] out']. destruct Hfin as (-> & -> & Hw' & Hpic & Hst & Hp').
    do 4 eexists. split; [reflexivity|]. split; [done|]. split; [|done].
    rewrite Ef. rewrite (sq_pending _ _ Hs3) in Hp'. rewrite (sq_picture _ _ Hs3) in Hpic.
    cbn in Hp', Hpic. rewrite Hp2, Hp1, <- newest_app in Hp'. split_and!; [done..|].
    by exists (set_converted c2 bgra), c3.
  - pose proof (flush_finish_whole e false c2 SentNothing Hw2) as Hfin.
    destruct (flush_finish e false c2 SentNothing) as [[ok' c'] out'].
    destruct Hfin as (-> & -> & Hw' & Hpic & Hst & Hp').
    do 4 eexists. split; [reflexivity|]. split; [done|]. split; [|done].
    rewrite Ef. rewrite Hp2, Hp1, <- newest_app in Hp'. by split_and!.
Qed.

(** The pacing of the output thread and of the flush agree: it flushes exactly
    when the flush takes a frame, so it neither spins nor oversleeps. *)
Lemma output_round_agrees now c : whole_frames c ->
  output_round true now c = OutputFlush <-> exists f c', flush_begin now c = (FlushFrame f, c').
Proof.
  intros (_ & Ho & Hn). unfold output_round, flush_begin. cbn [negb count_flush classic queue
    gfx_uses_progressive flow bitmap_last_send_started_at]. rewrite Ho, Hn, !orb_false_r, andb_false_r.
  cbn [negb orb andb]. set (interval := if gfx_uses_progressive c then _ else _).
  rewrite <- (negb_involutive (interval <=? _)), <- Z.ltb_antisym.
  destruct (pending_decoded (queue c)) as [f|];
    destruct (gfx_uses_progressive c && frame_flow_blocked (flow c)); cbn [andb orb negb];
    destruct (bitmap_last_send_started_at c =? 0); cbn [andb orb negb];
    try destruct (_ <? interval); cbn [negb]; split; try done.
  all: try (by do 2 eexists). all: by intros (g & c' & ?).
Qed.

End Pending.

(** ** A slice stays open until its frame is complete *)

Section Open.
Context (W H : Z).

Lemma classic_tile_open maxsize bgra a left top s :
  classic_frame_open (sl_state s) = true ->
  classic_frame_open (sl_state (classic_tile W H maxsize bgra a left top s).2) = true.
Proof.
  intros Ho. unfold classic_tile.
  repeat match goal with
  | |- context [if ?b then _ else _] => destruct b; cbn [fst snd sl_state]; try done
  end.
Qed.

Lemma classic_row_open maxsize bgra a fuel : forall n left top s e m s',
  classic_row fuel W H maxsize bgra a n left top s = Some (e, m, s') ->
  classic_frame_open (sl_state s) = true -> classic_frame_open (sl_state s') = true.
Proof.
  induction fuel as [|fuel IH]; intros n left top s e m s' E Ho; cbn [classic_row] in E; [done|].
  destruct (left <? W); [|by simplify_eq].
  pose proof (classic_tile_open maxsize bgra (a n) left top s Ho) as H1.
  destruct (classic_tile W H maxsize bgra (a n) left top s) as [[] s1]; cbn [snd] in H1;
    [by eapply IH|by simplify_eq..].
Qed.

Lemma classic_rows_open maxsize bgra a fuel : forall n top s e s',
  classic_rows fuel W H maxsize bgra a n top s = Some (e, s') ->
  classic_frame_open (sl_state s) = true -> classic_frame_open (sl_state s') = true.
Proof.
  induction fuel as [|fuel IH]; intros n top s e s' E Ho; cbn [classic_rows] in E; [done|].
  destruct (top <? H); [|by simplify_eq].
  destruct (classic_row _ _ _ _ _ _ _ _ _ _) as [[[e1 m] s1]|] eqn:Er; [|done].
  apply classic_row_open in Er; [|done]. destruct e1; [by eapply IH|by simplify_eq..].
Qed.

Lemma send_classic_open e bgra s r :
  send_classic_bitmap_frame e W H bgra s = Some r -> cr_ok r = false ->
  classic_frame_open s = true -> classic_frame_open (cr_state r) = true.
Proof.
  intros E Hr Ho. unfold send_classic_bitmap_frame in E.
  destruct (_ || _); [by simplify_eq|]. destruct (negb _); [by simplify_eq|].
  pose proof (ensure_previous_open (ce_alloc e) (expected_length W H) s) as Hens.
  set (s1 := ensure_previous _ _ s) in *.
  destruct (previous_bitmap s1); [|simplify_eq; cbn; congruence].
  destruct (negb _); [simplify_eq; cbn; congruence|].
  destruct (classic_rows _ _ _ _ _ _ _ _ _) as [[e1 sl]|] eqn:Er; [|done].
  apply classic_rows_open in Er; [|cbn; congruence].
  destruct e1; [destruct (_ && _); by simplify_eq..|by simplify_eq].
Qed.
End Open.

(** ** Runs *)

Section Runs.
Context {F : Type} (W H : Z) (HW : 0 < W <= 65472) (HH : 0 < H <= 65472).
Abbreviation client := (BitmapClient (F := F)).

Inductive bitmap_event := Decoded (f : F) | Flush (e : flush_env (F := F)).

(** The client, the newest frame that was decoded, and the last one that was given to
    the converter with the answer.  A client that is being stopped queues and sends
    nothing. *)
Abbreviation run_state := (client * option F * option (F * option bytes))%type.

Definition bitmap_step (st : run_state) (ev : bitmap_event) : option run_state :=
  let '(c, latest, rendered) := st in
  if client_stopping c then Some st
  else
    match ev with
    | Decoded f => Some (decode_all [f] c, Some f, rendered)
    | Flush e =>
        match client_flush_pending_bitmap e W H c with
        | Some (_, c', _, Some f) =>
            Some (c', newest latest (fl_before e ++ fl_after e), Some (f, fl_convert e f))
        | Some (_, c', _, None) => Some (c', latest, rendered)
        | None => None
        end
    end.

Fixpoint bitmap_run (evs : list bitmap_event) (st : run_state) : option run_state :=
  match evs with
  | [] => Some st
  | ev :: evs => match bitmap_step st ev with Some st => bitmap_run evs st | None => None end
  end.

(** Where the newest frame waits: behind the slice that is being sent, if one is open. *)
Definition slot (c : client) : option F :=
  if classic_frame_open (classic c) then pending_next_decoded (queue c) else pending_decoded (queue c).
Definition spare (c : client) : option F :=
  if classic_frame_open (classic c) then pending_decoded (queue c) else pending_next_decoded (queue c).

(** A client in its normal course: one frame waits at most, only a sliced frame can be
    open, and a sliced client that runs shows what it was sent. *)
Definition steady (c : client) : Prop :=
  spare c = None /\
  (whole_mode c = true -> classic_frame_open (classic c) = false) /\
  (whole_mode c = false -> client_stopping c = false ->
   exists scr, classic_inv W H scr (converter_frame c) (classic c)).

Definition kept (st : run_state) : Prop :=
  let '(c, latest, rendered) := st in
  steady c /\
  match slot c with Some f => latest = Some f | None => latest = fst <$> rendered end /\
  match rendered with Some (_, Some bgra) => converter_frame c = bgra | _ => True end.

(** No frame is decoded inside the flush. *)
Definition quiet (ev : bitmap_event) : Prop :=
  match ev with Decoded _ => True | Flush e => fl_before e = [] /\ fl_after e = [] end.

Lemma whole_steady c : whole_mode c = true -> steady c -> whole_frames c.
Proof. intros Hm (Hs & Ho & _). specialize (Ho Hm). unfold spare in Hs. by rewrite Ho in Hs. Qed.

Lemma steady_whole c : whole_frames c -> steady c /\ slot c = pending_decoded (queue c).
Proof. intros (Hm & Ho & Hn). unfold steady, spare, slot. rewrite Ho. split_and!; try done. congruence. Qed.

Lemma decoded_kept f c latest rendered :
  kept (c, latest, rendered) -> kept (decode_all [f] c, Some f, rendered).
Proof.
  intros ((Hs & Ho & Hc) & _ & Hr). unfold kept, steady, decode_all, slot, spare in *.
  cbn [fold_left classic set_queue queue converter_frame whole_mode client_stopping] in *.
  unfold on_decoded_frame. destruct (classic_frame_open (classic c)).
  - destruct (pending_next_decoded (queue c)); split_and!; done.
  - destruct (pending_decoded (queue c)); split_and!; done.
Qed.

Lemma whole_flush_kept e c latest rendered :
  whole_mode c = true -> kept (c, latest, rendered) -> client_stopping c = false ->
  exists st', bitmap_step (c, latest, rendered) (Flush e) = Some st' /\ kept st' /\
    whole_mode st'.1.1 = true.
Proof.
  intros Hm (Hst & Hl & Hr) Hns. pose proof (whole_steady c Hm Hst) as Hw.
  rewrite (proj2 (steady_whole c Hw)) in Hl. cbn [bitmap_step]. rewrite Hns.
  destruct (flush_spec W H e c Hw) as (ok & c' & out & taken & -> & Hw' & Hf & _).
  destruct (steady_whole c' Hw') as [Hst' Hslot]. destruct Hf as [_ Hf]. pose proof Hw' as (Hm' & _).
  destruct taken as [f|].
  - destruct Hf as (Hp & Hp' & Hpic). eexists. split; [done|]. split; [|done].
    split; [done|]. rewrite Hslot, Hp'. rewrite Hp in Hl. subst latest. split.
    + destruct (decide (fl_before e ++ fl_after e = [])) as [->|Hne]; [done|].
      destruct (exists_last Hne) as (pre & g & ->). by rewrite !newest_app.
    + destruct (fl_convert e f); [by destruct Hpic|done].
  - destruct Hf as (_ & _ & Hp & Hpic). eexists. split; [done|]. split; [|done].
    split; [done|]. rewrite Hslot, Hp. split; [done|].
    destruct rendered as [[g [b|]]|]; [congruence|done..].
Qed.

(** *** A sliced client *)

Lemma sliced_mode (c : client) : whole_mode c = false ->
  gfx_uses_progressive c = false /\ bitmap_uses_rfx c = false /\ has_nsc c = false.
Proof. unfold whole_mode. intros [[? ?]%orb_false_iff ?]%orb_false_iff. done. Qed.

(** The end of a flush inside which nothing was decoded. *)
Lemma flush_finish_sliced e ok (c : client) out latest (rendered : option (F * option bytes)) :
  whole_mode c = false -> fl_after e = [] ->
  pending_decoded (queue c) = None ->
  match pending_next_decoded (queue c) with Some f => latest = Some f | None => latest = fst <$> rendered end ->
  (ok = false -> classic_frame_open (classic c) = false -> pending_next_decoded (queue c) = None) ->
  (ok = true -> exists scr, classic_inv W H scr (converter_frame c) (classic c)) ->
  match rendered with Some (_, Some bgra) => converter_frame c = bgra | _ => True end ->
  let '(_, c', _) := flush_finish e ok c out in
  kept (c', latest, rendered) /\ whole_mode c' = false.
Proof.
  intros Hm Ha Hp Hl Hfail Hinv Hr. destruct (sliced_mode c Hm) as (Hg & Hx & Hn).
  unfold flush_finish. rewrite Ha. change (decode_all [] c) with c.
  assert (Hend : forall c1 : client, gfx_uses_progressive c1 = false -> bitmap_uses_rfx c1 = false ->
    has_nsc c1 = false -> converter_frame c1 = converter_frame c -> classic c1 = classic c ->
    spare c1 = None ->
    match slot c1 with Some f => latest = Some f | None => latest = fst <$> rendered end ->
    kept (if ok then c1 else stop_bitmap c1, latest, rendered) /\
    whole_mode (if ok then c1 else stop_bitmap c1) = false).
  { intros c1 G1 G2 G3 Ec Ecl Hs Hsl. split; [|by destruct ok; unfold whole_mode; cbn; rewrite G1, G2, G3].
    assert (Hw1 : whole_mode c1 = false) by (unfold whole_mode; by rewrite G1, G2, G3).
    destruct ok; (split; [split_and!|split]); try done.
    - congruence.
    - intros _ _. rewrite Ec, Ecl. by apply Hinv.
    - by destruct rendered as [[g [b|]]|]; rewrite ?Ec.
    - change (whole_mode c1 = true -> classic_frame_open (classic c1) = false). congruence.
    - by destruct rendered as [[g [b|]]|]; cbn; rewrite ?Ec. }
  destruct ok; cbn [andb].
  - destruct (classic_frame_open (classic c)) eqn:Eo; cbn [negb].
    + rewrite Hg. apply Hend; try done; unfold spare, slot; by rewrite Eo.
    + cbn [gfx_uses_progressive set_queue]. rewrite Hg. apply Hend; try done; unfold spare, slot;
        cbn [classic set_queue queue]; rewrite Eo; unfold promote_next;
        destruct (pending_next_decoded (queue c)) eqn:En; rewrite ?Hp; try done.
  - rewrite Hg. apply Hend; try done; unfold spare, slot;
      destruct (classic_frame_open (classic c)) eqn:Eo; try done; rewrite ?Hp; auto.
    by rewrite (Hfail eq_refl eq_refl) in Hl.
Qed.

(** The first section of a flush on a sliced client. *)
Lemma flush_begin_sliced now (c : client) : whole_mode c = false -> spare c = None ->
  let '(t, c1) := flush_begin now c in
  match t with
  | FlushNothing => pending_decoded (queue c1) = pending_decoded (queue c)
  | FlushResume => classic_frame_open (classic c) = true /\ pending_decoded (queue c1) = None
  | FlushFrame f => classic_frame_open (classic c) = false /\ pending_decoded (queue c) = Some f /\
      pending_decoded (queue c1) = None
  end /\
  pending_next_decoded (queue c1) = pending_next_decoded (queue c).
Proof.
  intros Hm Hs. destruct (sliced_mode c Hm) as (Hg & _). unfold flush_begin, spare in *.
  cbn [gfx_uses_progressive count_flush classic queue]. rewrite Hg. cbn [negb andb orb].
  destruct (classic_frame_open (classic c)) eqn:Eo; cbn [negb andb].
  - by rewrite Hs.
  - destruct (_ && _); [done|]. destruct (pending_decoded (queue c)) eqn:Ep; cbn; by split_and!.
Qed.

Lemma send_bitmap_sliced e bgra (c : client) scr :
  whole_mode c = false -> classic_frame_open (classic c) = false ->
  classic_inv W H scr bgra (classic c) ->
  exists ok c1 out, send_bitmap_frame e W H bgra c = Some (ok, c1, out) /\
    whole_mode c1 = false /\ queue c1 = queue c /\ converter_frame c1 = converter_frame c /\
    (ok = true -> exists scr', classic_inv W H scr' bgra (classic c1)).
Proof.
  intros Hm Ho Hi. destruct (sliced_mode c Hm) as (Hg & Hx & Hn). unfold send_bitmap_frame.
  destruct (_ || _); [do 3 eexists; by split_and!|]. rewrite Hg, Hx, Hn. cbn [negb andb].
  destruct (send_classic_spec W H HW HH scr bgra (classic c) (be_classic e) Hi) as (r & -> & Hr).
  do 3 eexists. split; [done|]. unfold whole_mode. destruct (cr_ok r); cbn; rewrite Hg, Hx, Hn; [|done].
  split_and!; [done..|]. intros _. destruct (Hr eq_refl) as [Hi' _]. by eexists.
Qed.

Lemma sliced_flush_kept e c latest rendered :
  whole_mode c = false -> fl_before e = [] -> fl_after e = [] ->
  kept (c, latest, rendered) -> client_stopping c = false ->
  exists st', bitmap_step (c, latest, rendered) (Flush e) = Some st' /\ kept st' /\
    whole_mode st'.1.1 = false.
Proof.
  intros Hm Hb Ha Hk Hns. pose proof Hk as ((Hs & Ho & Hc) & Hl & Hr).
  destruct (Hc Hm Hns) as [scr Hi]. cbn [bitmap_step]. rewrite Hns. unfold client_flush_pending_bitmap.
  destruct (client_output_write_ready _); cbn [negb]; [|by eexists].
  pose proof (flush_begin_sliced (fl_now e) c Hm Hs) as Hfb.
  destruct (flush_begin_picture (fl_now e) c) as (Hpic & Hmode & Hcl & Hst).
  destruct (flush_begin (fl_now e) c) as [t c1]. cbn [fst snd] in *. destruct Hfb as [Ht Hnx].
  rewrite Hb. change (decode_all [] c1) with c1. destruct t as [| |f].
  - eexists. split; [done|]. split; [|cbn; congruence]. unfold kept, steady, slot, spare in *.
    rewrite Hcl, Hnx, Ht, Hpic, Hmode, Hst. by split_and!.
  - destruct Ht as [Hopen Hp]. unfold slot in Hl. rewrite Hopen in Hl.
    rewrite Hpic, Hcl.
    destruct (send_classic_spec W H HW HH scr (converter_frame c) (classic c) (be_classic (fl_send e)) Hi)
      as (r & Hsend & Hok). rewrite Hsend.
    pose proof (flush_finish_sliced e (cr_ok r) (set_classic c1 (cr_state r)) (SentTiles (cr_written r))
                  latest rendered) as Hfin.
    destruct (flush_finish _ _ _ _) as [[ok c'] out]. eexists. split; [done|].
    apply Hfin; cbn [queue set_classic classic converter_frame]; try done.
    + change (whole_mode c1 = false). congruence.
    + by rewrite Hnx.
    + intros Hf Hcls. by rewrite (send_classic_open W H _ _ _ _ Hsend Hf Hopen) in Hcls.
    + intros Hok'. destruct (Hok Hok') as [Hi' _]. rewrite Hpic. by eexists.
    + by rewrite Hpic.
  - destruct Ht as (Hclosed & Hp & Hp1). unfold slot, spare in *. rewrite Hclosed in Hl, Hs.
    rewrite Hp in Hl. subst latest.
    destruct (fl_convert e f) as [bgra|] eqn:Ef.
    + destruct (send_bitmap_sliced (fl_send e) bgra (set_converted c1 bgra) scr) as
        (ok & c2 & out & -> & Hm2 & Hq2 & Hpic2 & Hi2).
      { change (whole_mode c1 = false). congruence. }
      { cbn. by rewrite Hcl. }
      { cbn. rewrite Hcl. by eapply classic_inv_start. }
      pose proof (flush_finish_sliced e ok c2 out (Some f) (Some (f, Some bgra))) as Hfin.
      destruct (flush_finish _ _ _ _) as [[ok' c'] out']. eexists. split; [done|].
      rewrite Ha, Ef. cbn [newest fold_left app fst]. rewrite Hpic2 in Hfin. cbn in Hq2. rewrite Hq2 in Hfin.
      apply Hfin; try done; cbn; rewrite ?Hnx, ?Hs; auto.
    + pose proof (flush_finish_sliced e false c1 SentNothing (Some f) (Some (f, None))) as Hfin.
      destruct (flush_finish _ _ _ _) as [[ok' c'] out']. eexists. split; [done|].
      rewrite Ha, Ef. cbn [newest fold_left app fst]. apply Hfin; try done; rewrite ?Hnx, ?Hs; try done; congruence.
Qed.

(** C34: the newest decoded frame of a bitmap client is never lost.  Through any
    sequence of decoded frames and flushes, for desktops of up to 65472 pixels a side,
    until the client is stopped: the flushes end; the frame that waits to be sent is the
    newest one decoded, behind an open slice as well; when none waits, the newest one is
    the one that was given to the converter last; and the picture being sent is what the
    converter made of that frame.  Frames may also be decoded inside the flushes of a
    client that gets whole frames (RemoteFX, NSCodec, Progressive); of a client that
    gets slices they are decoded between the flushes. *)
Theorem newest_frame_kept evs c latest rendered :
  kept (c, latest, rendered) -> whole_mode c = true \/ Forall quiet evs ->
  exists st', bitmap_run evs (c, latest, rendered) = Some st' /\ kept st'.
Proof.
  revert c latest rendered. induction evs as [|ev evs IH]; intros c latest rendered Hk Hq; [by eexists|].
  cbn [bitmap_run].
  assert (Hstep : exists st', bitmap_step (c, latest, rendered) ev = Some st' /\ kept st' /\
    whole_mode st'.1.1 = whole_mode c).
  { destruct (client_stopping c) eqn:Est; [eexists; cbn; by rewrite Est|]. destruct ev as [f|e].
    - eexists. cbn [bitmap_step]. rewrite Est. split; [done|]. split; [by eapply decoded_kept|done].
    - destruct (whole_mode c) eqn:Em; [by apply whole_flush_kept|].
      destruct Hq as [|Hq]; [done|]. pose proof (Forall_inv Hq) as [Hb Ha]. by apply sliced_flush_kept. }
  destruct Hstep as ([[c1 l1] r1] & -> & Hk1 & Hm1). cbn in Hm1. apply IH; [done|].
  destruct Hq as [Hq|Hq]; [left; congruence|right]. by apply (Forall_inv_tail Hq).
Qed.
End Runs.

(** ** Concrete runs *)

(** A connected peer that takes everything, and one whose output blocks. *)
Definition ready_peer : peer_probe := MkProbe true true false true false.
Definition blocked_peer : peer_probe := MkProbe true true true true true.

Definition nsc_client : BitmapClient (F := Z) :=
  MkBitmap (MkQueue None None 0 0 0 0) classic_init [] false false true flow_init 0 0 0 0 0 false 1.

Definition idle_classic : classic_env :=
  MkClassicEnv false ready_peer true 0 (fun _ => MkTile false true ready_peer true false) true.
Definition nsc_send (p : peer_probe) : send_env :=
  MkBitmapSend true (MkProgressiveEnv false true true 0 0 true) true p true idle_classic.
Definition nsc_flush (now : Z) (p : peer_probe) : flush_env (F := Z) :=
  MkFlushEnv ready_peer now [] (fun f => Some [f; f; f; f]) (nsc_send p) [] (now + 1).

(** A desktop two tiles wide; the output blocks behind the first tile. *)
Definition classic_test_env (blocks : bool) : classic_env :=
  MkClassicEnv true ready_peer true 65536 (fun _ => MkTile false true ready_peer true blocks) true.
Definition test_frame (v : Z) : bytes := replicate (Z.to_nat (65 * 1 * 4)) v.
Definition test_frames : list (bytes * list classic_env) :=
  [(test_frame 255, [classic_test_env true; classic_test_env true; classic_test_env false])].
Definition last_envs : list classic_env := [classic_test_env false; classic_test_env false].
Definition test_out : list BITMAP_DATA :=
  match send_frames 65 1 (test_frames ++ [(test_frame 8, last_envs)]) classic_init [] with
  | Ran _ out => out
  | _ => []
  end.

(** A frame of that desktop is decoded while the slice of another is open, and follows it. *)
Definition sliced_client : BitmapClient (F := Z) :=
  MkBitmap (MkQueue None None 0 0 0 0) classic_init [] false false false flow_init 0 0 0 0 0 false 1.
Definition sliced_flush (now : Z) (blocks : bool) (before after : list Z) : flush_env (F := Z) :=
  MkFlushEnv ready_peer now before (fun f => Some (test_frame f))
    (MkBitmapSend true (MkProgressiveEnv false true true 0 0 true) true ready_peer true
       (classic_test_env blocks)) after (now + 1).
Definition sliced_events : list (bitmap_event (F := Z)) :=
  [Decoded 7; Flush (sliced_flush 100 true [] []); Decoded 8; Decoded 9;
   Flush (sliced_flush 101 false [] []); Flush (sliced_flush 120 false [] [])].

Lemma newest_frame_kept_witness :
  (exists st', bitmap_run 65 1 sliced_events (sliced_client, None, None) = Some st' /\ kept 65 1 st') /\
  match bitmap_run 65 1 sliced_events (sliced_client, None, None) with
  | Some (c, Some 9, Some (9, Some _)) => slot c = None /\ client_stopping c = false
  | _ => False
  end.
Proof.
  split; [|by vm_compute].
  apply (newest_frame_kept 65 1 ltac:(lia) ltac:(lia)); [|right; by repeat constructor].
  split; [split_and!; [done..|]|done]. intros _ _. exists blank. apply classic_inv_init; lia.
Defined.

Lemma classic_frames_displayed_witness :
  all_shown 65 1 (test_frame 8) (draw_all blank test_out) /\ length test_out = 4%nat.
Proof.
  split; [|vm_compute; reflexivity].
  pose proof (classic_frames_displayed 65 1 ltac:(lia) ltac:(lia) test_frames (test_frame 8) last_envs) as H.
  unfold test_out. destruct (send_frames 65 1 (test_frames ++ [(test_frame 8, last_envs)]) classic_init [])
    as [s out| |] eqn:E; [exact H|vm_compute in E; discriminate E|contradiction H].
Defined.

Lemma changed_region_covers_witness :
  Exists (fun r => in_rect r 64 0) (changed_region 65 1 (Some (test_frame 8)) (test_frame 9)).
Proof.
  destruct (changed_region_covers 65 1 ltac:(lia) ltac:(lia) (Some (test_frame 8)) (test_frame 9)) as [_ H].
  destruct (H 64%nat 0%nat) as [Hr|(p & Hp & Hs)].
  - split; [vm_compute; lia|vm_compute; lia].
  - exact Hr.
  - injection Hp as <-. specialize (Hs 0%nat ltac:(lia)). vm_compute in Hs. discriminate Hs.
Defined.

(** *** Deviation *)

(** The output is probed again behind the encoder.  If it blocks by then, the
    frame that was taken is gone: nothing was sent, nothing is pending, and the
    flush counts as a success. *)
Example blocked_output_loses_frame :
  match client_flush_pending_bitmap (nsc_flush 100 blocked_peer) 1 1 (decode_all [8] nsc_client) with
  | Some (ok, c, out, taken) => taken = Some 8 /\ ok = true /\ out = SentNothing /\
                                pending_decoded (queue c) = None /\ bitmap_frames c = 0
  | None => False
  end.
Proof. vm_compute. split_and!; reflexivity. Qed.

(** A sliced frame is completed while frame 8 waits behind it, and frame 9 is decoded
    before the waiting frame is moved up: the older frame replaces the newer one. *)
Example older_frame_replaces_newer :
  match bitmap_run 65 1
          [Decoded 7; Flush (sliced_flush 100 true [] []); Decoded 8; Flush (sliced_flush 101 false [] [9])]
          (sliced_client, None, None) with
  | Some (c, _, _) => pending_decoded (queue c) = Some 8 /\ pending_next_decoded (queue c) = None
  | None => False
  end.
Proof. vm_compute. by split. Qed.

(** Frame 8 is decoded while frame 7 is converted, before the slice of frame 7 is open.
    Resuming the slice takes frame 8 off the queue and uses it for nothing. *)
Example resumed_slice_drops_frame :
  match bitmap_run 65 1
          [Decoded 7; Flush (sliced_flush 100 true [8] []); Flush (sliced_flush 101 false [] [])]
          (sliced_client, None, None) with
  | Some (c, _, rendered) => pending_decoded (queue c) = None /\ pending_next_decoded (queue c) = None /\
                             (fst <$> rendered) = Some 7 /\ classic_frame_open (classic c) = false
  | None => False
  end.
Proof. vm_compute. by split_and!. Qed.
