(* ===== verification/OutputThread.v ===== *)
(** * The output thread of the bitmap path ([src/src/rdp_bitmap.c], [output_thread])

    The thread flushes the newest decoded frame when the pacing allows it and waits
    otherwise, on the wakeup event (which resets itself) and on the shutdown event.
    Rounds of the loop are driven by what the other threads did before and behind their
    decision and by the answers of the peer and of the clock.  Both events exist while
    the thread runs ([client_context_new] fails without them). *)

From S2P Require Import Prelude FrameFlow RdpBitmap RdpBitmapSpec.

Section Output.
Context {F : Type} (W H : Z).

(** What a round finds: a stop by another thread, the shutdown event, whether the
    bitmap path is in use, frames decoded since the last round, a signal of the wakeup
    event for another reason (an acknowledgement, the activation), the clock, the
    flush's answers and whether the peer's output is blocked behind it; and what happens
    behind the decision until the end of the round's wait: frames, signals and the
    shutdown event. *)
Record output_env := MkOutput {
  o_stopped : bool;
  o_shutdown : bool;
  o_active : bool;
  o_decoded : list F;
  o_signalled : bool;
  o_now : Z;
  o_flush : flush_env (F := F);
  o_blocked : bool;
  o_late : list F;
  o_late_signal : bool;
  o_late_shutdown : bool }.

(** How a wait ended. *)
Inductive wait_result := Woken | ShutDown | TimedOut.

(** What a round did on a client: a flush with its result, the client behind it, what
    was sent and the frame it took; or a wait with its timeout and its end. *)
Inductive output_did :=
| DidFlush (e : output_env) (c : BitmapClient (F := F)) (ok : bool) (c' : BitmapClient (F := F))
    (out : bitmap_output) (taken : option F)
| DidWait (e : output_env) (c : BitmapClient (F := F)) (timeout : Z) (result : wait_result).

(** [SetEvent(client->output_wakeup)] of every decoded frame. *)
Definition signals (fs : list F) : bool := match fs with [] => false | _ => true end.

(** A wait of zero is none, unless the peer is blocked. *)
Definition round_timeout (timeout : Z) (c : BitmapClient (F := F)) (blocked : bool) : Z :=
  if (timeout =? 0) && negb (client_stopping c) && blocked then 20 else timeout.

(** The end of a round: what happened meanwhile, then the wait, if there is one.  Of
    the events that are set the wait takes the first; while the bitmap path is not in
    use it is a wait for the wakeup event alone. *)
Definition waits (e : output_env) (timeout : Z) (c : BitmapClient) (wakeup : bool)
    : list output_did * BitmapClient * bool :=
  let wakeup := wakeup || signals (o_late e) || o_late_signal e in
  let result := if wakeup then Woken
                else if o_active e && o_late_shutdown e then ShutDown else TimedOut in
  if timeout =? 0 then ([], decode_all (o_late e) c, wakeup)
  else ([DidWait e c timeout result], decode_all (o_late e) c, false).

(** Whether a flush gets behind its first section, where frames are decoded meanwhile. *)
Definition flush_works (e : flush_env (F := F)) (c : BitmapClient (F := F)) : bool :=
  client_output_write_ready (fl_ready e) &&
  match (flush_begin (fl_now e) c).1 with FlushNothing => false | _ => true end.

(** The loop, with the state of the wakeup event; [None] where a flush of a sliced
    frame runs out of fuel. *)
Fixpoint output_thread (es : list output_env) (c : BitmapClient) (wakeup : bool)
    : option (list output_did * BitmapClient) :=
  match es with
  | [] => Some ([], c)
  | e :: es =>
      let c := decode_all (o_decoded e) (if o_stopped e then stop_bitmap c else c) in
      let wakeup := wakeup || signals (o_decoded e) || o_signalled e in
      if client_stopping c || o_shutdown e then Some ([], c)
      else
        match output_round (o_active e) (o_now e) c with
        | OutputWait timeout =>
            let timeout := if o_active e then round_timeout timeout c (o_blocked e) else timeout in
            let '(did, c, wakeup) := waits e timeout c wakeup in
            match output_thread es c wakeup with
            | Some (later, c') => Some (did ++ later, c')
            | None => None
            end
        | OutputFlush =>
            match client_flush_pending_bitmap (o_flush e) W H c with
            | None => None
            | Some (false, c', out, taken) => Some ([DidFlush e c false c' out taken], c')
            | Some (true, c', out, taken) =>
                let wakeup := wakeup || flush_works (o_flush e) c &&
                                        signals (fl_before (o_flush e) ++ fl_after (o_flush e)) in
                let '(did, c'', wakeup) := waits e (round_timeout 0 c' (o_blocked e)) c' wakeup in
                match output_thread es c'' wakeup with
                | Some (later, c''') => Some (DidFlush e c true c' out taken :: did ++ later, c''')
                | None => None
                end
            end
        end
  end.

(** ** Promptness *)

Definition pace (c : BitmapClient (F := F)) : Z :=
  if gfx_uses_progressive c then frame_flow_interval (flow c) else BITMAP_FRAME_INTERVAL_MS.

(** When the pending frame may be sent. *)
Definition due (c : BitmapClient (F := F)) : Z :=
  if bitmap_last_send_started_at c =? 0 then 0 else bitmap_last_send_started_at c + pace c.

(** A frame that nothing but the pace holds back. *)
Definition held_back (c : BitmapClient (F := F)) : Prop :=
  pending_decoded (queue c) <> None /\ (gfx_uses_progressive c && frame_flow_blocked (flow c)) = false.

(** The clock of a decision is behind the last send, and the pace is one of
    [FrameFlow]'s. *)
Definition timely (now : Z) (c : BitmapClient (F := F)) : Prop :=
  0 <= bitmap_last_send_started_at c <= now /\ now < 2 ^ 64 /\ interval_ok (interval_ms (flow c)).

Lemma pace_range c : interval_ok (interval_ms (flow c)) -> 10 <= pace c <= 100.
Proof.
  intros Hi. unfold pace. destruct (frame_flow_interval_range (flow c) Hi) as [Hr _].
  unfold FRAME_FLOW_MIN_INTERVAL, FRAME_FLOW_MAX_INTERVAL, BITMAP_FRAME_INTERVAL_MS in *.
  destruct (gfx_uses_progressive c); lia.
Qed.

(** A frame that is only held back by the pace is flushed from its due time on, and
    waited for exactly until then. *)
Lemma output_round_due now c : whole_frames c -> held_back c -> timely now c ->
  output_round true now c = if due c <=? now then OutputFlush else OutputWait (due c - now).
Proof.
  intros (_ & Ho & Hn) [Hp Hb] (Hl & Hnow & Hi). pose proof (pace_range c Hi) as Hr.
  unfold output_round, due. cbn [negb]. rewrite Ho, Hb. fold (pace c).
  destruct (pending_decoded (queue c)); [|done]. cbn [orb andb negb].
  destruct (Z.eqb_spec (bitmap_last_send_started_at c) 0) as [E|E]; cbn [orb].
  - by rewrite (proj2 (Z.leb_le 0 now)) by lia.
  - unfold u64, u32. rewrite Z.mod_small by lia.
    destruct (Z.leb_spec (pace c) (now - bitmap_last_send_started_at c));
      destruct (Z.leb_spec (bitmap_last_send_started_at c + pace c) now); try lia; [done|].
    rewrite Z.mod_small by lia. f_equal. lia.
Qed.

(** What makes a round prompt.  A flush happens only when a frame is due; if the peer
    is ready it takes and converts that frame, and a client of RemoteFX or NSCodec whose
    output takes it is sent the whole picture; otherwise it leaves the frame.  A wait is
    that of a blocked peer, or nothing can be sent, or it is until the frame is due; and
    only a wait during which no frame was decoded, nothing was acknowledged and the
    client was not shut down lasts that long. *)
Definition prompt (did : output_did) : Prop :=
  match did with
  | DidFlush e c ok c' out taken =>
      held_back c /\ flushed W H (o_flush e) c ok c' out taken /\
      (timely (o_now e) c -> due c <= o_now e /\
       (o_now e <= fl_now (o_flush e) < 2 ^ 64 -> client_output_write_ready (fl_ready (o_flush e)) = true ->
        taken = pending_decoded (queue c) /\
        forall f bgra, taken = Some f -> fl_convert (o_flush e) f = Some bgra ->
          gfx_uses_progressive c = false -> takes_whole W H (fl_send (o_flush e)) bgra = true ->
          ok = true /\ out = SentWhole))
  | DidWait e c timeout result =>
      ((o_active e = false \/ ~ held_back c) /\ timeout = 50 \/
       o_blocked e = true /\ timeout = 20 \/
       (timely (o_now e) c -> timeout = due c - o_now e /\ 0 < timeout <= 100)) /\
      (result = TimedOut -> o_late e = [] /\ o_late_signal e = false /\
       (o_active e = true -> o_late_shutdown e = false))
  end.

(** Without a pending frame, or with one the client has to acknowledge others for, a
    round waits. *)
Lemma output_round_idle now c : whole_frames c ->
  held_back c \/ ~ held_back c /\ output_round true now c = OutputWait 50.
Proof.
  intros (_ & Ho & Hn). unfold held_back, output_round. cbn [negb]. rewrite Ho, Hn, !orb_false_r.
  destruct (pending_decoded (queue c)); [|right; split; [by intros []|done]].
  destruct (gfx_uses_progressive c && _); [right; split; [by intros []|done]|by left].
Qed.

Lemma flush_takes e now c : whole_frames c -> timely now c -> held_back c -> due c <= now ->
  now <= fl_now e < 2 ^ 64 -> client_output_write_ready (fl_ready e) = true ->
  flush_frame e c = pending_decoded (queue c).
Proof.
  intros Hw Ht Hh Hd Hnow Hr. unfold flush_frame. rewrite Hr.
  assert (Ht' : timely (fl_now e) c) by (unfold timely in *; intuition lia).
  pose proof (output_round_due (fl_now e) c Hw Hh Ht') as Hround.
  rewrite (proj2 (Z.leb_le _ _)) in Hround by lia.
  apply (output_round_agrees (fl_now e) c Hw) in Hround as (f & c' & E).
  pose proof (flush_begin_spec (fl_now e) c Hw) as Hs. rewrite E in *. cbn. by destruct Hs as [_ [-> _]].
Qed.

Lemma flush_prompt e c ok c' out taken : whole_frames c ->
  output_round true (o_now e) c = OutputFlush ->
  flushed W H (o_flush e) c ok c' out taken -> taken = flush_frame (o_flush e) c ->
  prompt (DidFlush e c ok c' out taken).
Proof.
  intros Hw E Hf Ht. destruct (output_round_idle (o_now e) c Hw) as [Hh|[_ Hi]]; [|congruence].
  split; [done|]. split; [done|]. intros Hti. rewrite (output_round_due _ _ Hw Hh Hti) in E.
  destruct (Z.leb_spec (due c) (o_now e)); [|done]. split; [done|]. intros Hnow Hr.
  rewrite Ht at 1. split; [by eapply flush_takes|]. intros f bgra Hf1 Hc Hg Hall. clear Ht.
  destruct Hf as [_ Hf]. rewrite Hf1, Hc in Hf.
  destruct Hf as (_ & _ & _ & c2 & c3 & (G1 & G2 & G3 & _) & Hs).
  destruct (send_whole W H (fl_send (o_flush e)) bgra c2) as [c4 Hs']; [|congruence|done|by simplify_eq].
  destruct Hw as [Hm _]. unfold whole_mode in *. congruence.
Qed.

Lemma waits_prompt e timeout c wakeup :
  (o_active e = false \/ ~ held_back c) /\ timeout = 50 \/ o_blocked e = true /\ timeout = 20 \/
  (timely (o_now e) c -> timeout = due c - o_now e /\ 0 < timeout <= 100) ->
  Forall prompt (waits e timeout c wakeup).1.1.
Proof.
  intros Hwait. unfold waits. destruct (_ =? 0); [done|]. constructor; [|done]. split; [done|].
  destruct wakeup; [done|]. destruct (o_late e); [|done]. destruct (o_late_signal e); [done|].
  by destruct (o_active e), (o_late_shutdown e).
Qed.

Lemma waits_whole e timeout c wakeup : whole_frames c -> whole_frames (waits e timeout c wakeup).1.2.
Proof.
  intros Hw. unfold waits. destruct (_ =? 0); by apply (decode_all_spec (o_late e) c).
Qed.

Lemma wait_prompt e c timeout wakeup :
  whole_frames c -> output_round (o_active e) (o_now e) c = OutputWait timeout ->
  Forall prompt
    (waits e (if o_active e then round_timeout timeout c (o_blocked e) else timeout) c wakeup).1.1.
Proof.
  intros Hw E. apply waits_prompt. destruct (o_active e) eqn:Ea.
  - unfold round_timeout. destruct (_ && _) eqn:Eb; [bool_hyps; auto|].
    destruct (output_round_idle (o_now e) c Hw) as [Hh|[Hh Hi]]; [|left; split; [auto|congruence]].
    right. right. intros Ht. rewrite (output_round_due _ _ Hw Hh Ht) in E.
    destruct (Z.leb_spec (due c) (o_now e)) as [|Hlt]; simplify_eq. split; [done|].
    destruct Ht as (Hl & _ & Hi). pose proof (pace_range c Hi). unfold due in *.
    destruct (bitmap_last_send_started_at c =? 0); lia.
  - left. split; [auto|]. cbn in E. congruence.
Qed.

Lemma blocked_prompt e c wakeup : Forall prompt (waits e (round_timeout 0 c (o_blocked e)) c wakeup).1.1.
Proof.
  unfold round_timeout. destruct (_ && _) eqn:E; [|done]. bool_hyps. apply waits_prompt. auto.
Qed.

(** C39: The output thread of a client that gets whole frames is prompt, whatever the
    other threads, the peer and the clock do between its rounds, inside its flushes and
    while it waits.  It flushes only when a frame is due.  Once the clock is there and
    the peer ready, the flush takes the newest frame, converts it and sends what
    [send_bitmap_frame] makes of it (for RemoteFX and NSCodec the whole picture, if the
    output takes it); it leaves the newest frame decoded meanwhile, and the frame it did
    not take.  The timeout of a wait is 20 ms for a blocked peer, 50 ms where nothing can
    be sent, and otherwise ends when the pending frame is due, which is at most 100 ms
    away; no wait lasts its timeout once a frame is decoded or acknowledged, or the
    client is shut down. *)
Theorem output_thread_prompt es c wakeup : whole_frames c ->
  exists did c', output_thread es c wakeup = Some (did, c') /\ Forall prompt did.
Proof.
  revert c wakeup. induction es as [|e es IH]; intros c wakeup Hw; cbn [output_thread]; [by eexists _, _|].
  set (c1 := if o_stopped e then stop_bitmap c else c).
  assert (Hw1 : whole_frames c1) by (unfold c1; by destruct (o_stopped e)).
  destruct (decode_all_spec (o_decoded e) c1 Hw1) as [Hw2 _]. set (c2 := decode_all (o_decoded e) c1) in *.
  set (w2 := wakeup || _ || _). destruct (client_stopping c2 || o_shutdown e); [by eexists _, _|].
  destruct (output_round (o_active e) (o_now e) c2) as [|timeout] eqn:Er.
  - assert (Ha : o_active e = true) by (by destruct (o_active e)). rewrite Ha in Er.
    destruct (flush_spec W H (o_flush e) c2 Hw2) as (ok & c3 & out & taken & -> & Hw3 & Hf & Ht).
    pose proof (flush_prompt e c2 ok c3 out taken Hw2 Er Hf Ht) as Hp.
    destruct ok; [|do 2 eexists; split; [done|by constructor]]. set (w3 := w2 || _).
    pose proof (blocked_prompt e c3 w3) as Hb. pose proof (waits_whole e (round_timeout 0 c3 (o_blocked e)) c3 w3 Hw3) as Hw4.
    destruct (waits _ _ c3 w3) as [[did c4] w4].
    destruct (IH c4 w4 Hw4) as (later & c' & -> & Hd). do 2 eexists. split; [done|].
    constructor; [done|]. by apply Forall_app.
  - pose proof (wait_prompt e c2 timeout w2 Hw2 Er) as Hb. set (timeout' := if o_active e then _ else _) in *.
    pose proof (waits_whole e timeout' c2 w2 Hw2) as Hw4. destruct (waits _ _ c2 w2) as [[did c4] w4].
    destruct (IH c4 w4 Hw4) as (later & c' & -> & Hd). do 2 eexists. split; [done|]. by apply Forall_app.
Qed.

End Output.

(** ** Witness *)

(** A frame decoded 4 ms behind a send waits for its turn: the event it set ends the
    first wait at once; it is taken and sent when it is due. *)
Definition demo_output (now : Z) (decoded : list Z) : output_env (F := Z) :=
  MkOutput false false true decoded false now (nsc_flush now ready_peer) false [] false false.
Definition demo_rounds : list (output_env (F := Z)) :=
  [demo_output 1000 [7]; demo_output 1004 [8]; demo_output 1004 []; demo_output 1010 []].

Lemma output_thread_prompt_witness :
  exists did c', output_thread 1 1 demo_rounds nsc_client false = Some (did, c') /\ Forall (prompt 1 1) did.
Proof. apply output_thread_prompt. by split_and!. Defined.

Example demo_output_thread :
  match output_thread 1 1 demo_rounds nsc_client false with
  | Some ([DidFlush _ _ true _ SentWhole (Some 7); DidWait _ _ 6 Woken; DidWait _ _ 6 TimedOut;
           DidFlush _ _ true _ SentWhole (Some 8)], c) => pending_decoded (queue c) = None
  | _ => False
  end.
Proof. reflexivity. Qed.
