(* ===== verification/CString.v ===== *)
(** * C strings

    A C string is the list of its bytes before the terminating zero; literals
    are written as Rocq strings. *)

From stdpp Require Import strings.
From Stdlib Require Import Ascii String.
From S2P Require Import Prelude.

(** The bytes of a string literal. *)
Definition c_string (s : string) : bytes :=
  map (fun a => Z.of_N (N_of_ascii a)) (list_ascii_of_string s).

(** [strcmp(a, b) == 0] *)
Definition c_eq (a b : bytes) : bool := bool_decide (a = b).

Lemma c_eq_true a b : c_eq a b = true <-> a = b.
Proof. apply bool_decide_eq_true. Qed.

(** ** Decimal numbers *)

Definition is_digit (c : Z) : Prop := 48 <= c <= 57.

(** The number a sequence of digits denotes, behind the digits of [acc]. *)
Definition decimal_value (acc : Z) (value : bytes) : Z :=
  fold_left (fun n c => n * 10 + (c - 48)) value acc.

Lemma decimal_value_ge value : forall acc,
  0 <= acc -> Forall is_digit value -> acc <= decimal_value acc value.
Proof.
  induction value as [|c value IH]; intros acc Hacc Hv; cbn; [lia|].
  apply Forall_cons_iff in Hv as [Hc Hv]. unfold is_digit in Hc.
  specialize (IH (acc * 10 + (c - 48)) ltac:(lia) Hv). unfold decimal_value in IH. lia.
Qed.

(** The digits of a number below [10 ^ fuel] ([%u] and its kin). *)
Fixpoint print_decimal (fuel : nat) (n : Z) : bytes :=
  match fuel with
  | O => []
  | S fuel => (if n <? 10 then [] else print_decimal fuel (n / 10)) ++ [48 + n mod 10]
  end.

Lemma decimal_value_app a b acc : decimal_value acc (a ++ b) = decimal_value (decimal_value acc a) b.
Proof. apply fold_left_app. Qed.

Lemma print_decimal_spec fuel : forall n,
  0 <= n < 10 ^ Z.of_nat fuel ->
  Forall is_digit (print_decimal fuel n) /\ decimal_value 0 (print_decimal fuel n) = n /\
  Forall (fun c => c <> 58) (print_decimal fuel n).
Proof.
  induction fuel as [|fuel IH]; intros n Hn; [cbn in *; split_and!; auto; lia|].
  cbn [print_decimal]. rewrite decimal_value_app, !Forall_app, !Forall_singleton.
  assert (Hd : 0 <= n mod 10 < 10) by (apply Z.mod_pos_bound; lia). unfold is_digit.
  destruct (Z.ltb_spec n 10).
  - unfold decimal_value; cbn. rewrite Z.mod_small by lia. split_and!; auto; lia.
  - replace (Z.of_nat (S fuel)) with (Z.of_nat fuel + 1) in Hn by lia.
    rewrite Z.pow_add_r in Hn by lia.
    destruct (IH (n / 10)) as (Hdig & Hval & Hcol); [mlia|].
    rewrite Hval. split_and!; auto; [lia|lia| |lia].
    cbn. pose proof (Z.div_mod n 10 ltac:(lia)). lia.
Qed.

(** ** The C library on strings

    A pointer into a string is the rest of the string from there. *)

(** The string a buffer holds: the bytes before the first zero. *)
Fixpoint c_str (l : bytes) : bytes :=
  match l with
  | [] => []
  | c :: l => if c =? 0 then [] else c :: c_str l
  end.

(** [strncmp(s, p, strlen(p)) == 0] *)
Fixpoint starts_with (p s : bytes) : bool :=
  match p, s with
  | [], _ => true
  | a :: p, b :: s => (a =? b) && starts_with p s
  | _ :: _, [] => false
  end.

Fixpoint strstr (s p : bytes) : option bytes :=
  if starts_with p s then Some s
  else match s with [] => None | _ :: s => strstr s p end.

Fixpoint strchr (s : bytes) (c : Z) : option bytes :=
  match s with
  | [] => None
  | x :: rest => if x =? c then Some s else strchr rest c
  end.

Definition tolower (c : Z) : Z := if (65 <=? c) && (c <=? 90) then c + 32 else c.

(** [strncasecmp(s, p, strlen(p)) == 0] *)
Definition starts_with_nocase (p s : bytes) : bool := starts_with (map tolower p) (map tolower s).

Definition isspace (c : Z) : bool := (c =? 32) || ((9 <=? c) && (c <=? 13)).

Fixpoint skip (f : Z -> bool) (s : bytes) : bytes :=
  match s with
  | [] => []
  | c :: rest => if f c then skip f rest else s
  end.

(** The longest prefix of digits, and the rest. *)
Fixpoint digits (s : bytes) : bytes * bytes :=
  match s with
  | [] => ([], [])
  | c :: rest =>
      if (48 <=? c) && (c <=? 57) then let '(d, r) := digits rest in (c :: d, r) else ([], s)
  end.

(** [strtol(s, &end, 10)] on a 64-bit long: [None] when there are no digits
    ([end == s]), else the value, saturated. *)
Definition strtol (s : bytes) : option Z :=
  let s := skip isspace s in
  let '(negative, s) := match s with
                        | c :: r => if c =? 45 then (true, r) else if c =? 43 then (false, r) else (false, s)
                        | [] => (false, s)
                        end in
  match digits s with
  | ([], _) => None
  | (d, _) =>
      let n := decimal_value 0 d in
      Some (if negative then Z.max (- n) (- 2 ^ 63) else Z.min n (2 ^ 63 - 1))
  end.

(** [strtoul(s, NULL, 10)] on a 64-bit unsigned long. *)
Definition strtoul (s : bytes) : Z :=
  let s := skip isspace s in
  let '(negative, s) := match s with
                        | c :: r => if c =? 45 then (true, r) else if c =? 43 then (false, r) else (false, s)
                        | [] => (false, s)
                        end in
  let n := decimal_value 0 (digits s).1 in
  if 2 ^ 64 - 1 <? n then 2 ^ 64 - 1 else if negative then u64 (- n) else n.

(** One [%<n>s] of [sscanf]: blanks, then at most [n] other bytes. *)
Fixpoint scan_word (n : nat) (s : bytes) : bytes * bytes :=
  match n, s with
  | S n, c :: rest => if isspace c then ([], s) else let '(w, r) := scan_word n rest in (c :: w, r)
  | _, _ => ([], s)
  end.

(** [sscanf(s, "%<n>s %<m>s", ...) == 2] *)
Definition scan_two (n m : nat) (s : bytes) : option (bytes * bytes) :=
  let '(a, r) := scan_word n (skip isspace s) in
  let '(b, _) := scan_word m (skip isspace r) in
  match a, b with _ :: _, _ :: _ => Some (a, b) | _, _ => None end.

(** ** Lemmas on strings *)

Lemma c_str_app l k : Forall (fun c => c <> 0) l -> c_str (l ++ k) = l ++ c_str k.
Proof.
  induction 1 as [|c l Hc _ IH]; [done|]. cbn. rewrite (proj2 (Z.eqb_neq c 0)) by done. by rewrite IH.
Qed.

Lemma c_str_id l : Forall (fun c => c <> 0) l -> c_str l = l.
Proof. intros H. rewrite <- (app_nil_r l) at 1. rewrite c_str_app by done. apply app_nil_r. Qed.

Lemma starts_with_app p l x :
  (length p <= length l)%nat -> starts_with p (l ++ x) = starts_with p l.
Proof.
  revert l. induction p as [|a p IH]; intros [|b l] H; cbn in *; try done; [lia|].
  by rewrite IH by lia.
Qed.

Lemma starts_with_split p s : starts_with p s = true -> exists r, s = p ++ r.
Proof.
  revert s. induction p as [|a p IH]; intros [|b s]; cbn; try done; [by eexists|by eexists|].
  intros [->%Z.eqb_eq (r & ->)%IH]%andb_true_iff. by eexists.
Qed.

Lemma starts_with_refl p x : starts_with p (p ++ x) = true.
Proof. induction p as [|a p IH]; cbn; [done|]. by rewrite Z.eqb_refl. Qed.

Lemma strstr_length l p r : strstr l p = Some r -> (length p <= length l)%nat.
Proof.
  induction l as [|b l IH]; cbn [strstr].
  - destruct p; [cbn; lia|done].
  - destruct (starts_with p (b :: l)) eqn:E.
    + intros _. apply starts_with_split in E as [t ->]. rewrite length_app. lia.
    + intros H%IH. cbn. lia.
Qed.

(** An occurrence stays the first one when the string grows. *)
Lemma strstr_extend l p r x : strstr l p = Some r -> strstr (l ++ x) p = Some (r ++ x).
Proof.
  induction l as [|b l IH]; cbn [strstr app].
  - destruct p; cbn; [|done]. intros [= <-]. by destruct x.
  - destruct (starts_with p (b :: l)) eqn:E.
    + intros [= <-]. change (b :: l ++ x) with ((b :: l) ++ x).
      rewrite starts_with_app, E; [done|].
      apply starts_with_split in E as [r E]. rewrite E, length_app. lia.
    + intros H. destruct (starts_with p (b :: l ++ x)) eqn:E2; [|by apply IH].
      change (b :: l ++ x) with ((b :: l) ++ x) in E2.
      destruct (decide (length p <= length (b :: l))%nat) as [Hl|Hl].
      * rewrite starts_with_app in E2 by done. congruence.
      * exfalso. apply strstr_length in H. cbn in Hl. lia.
Qed.

(** The first occurrence is not behind a known one. *)
Lemma strstr_before h p2 p : starts_with p p2 = true ->
  exists g, strstr (h ++ p2) p = Some (g ++ p2).
Proof.
  intros Hp. induction h as [|b h [g IH]]; cbn [app].
  - exists []. destruct p2; cbn [strstr] in *; by rewrite Hp.
  - cbn [strstr]. destruct (starts_with p (b :: h ++ p2)); [by exists (b :: h)|]. by exists g.
Qed.

Lemma skip_app f l x : Exists (fun c => f c = false) l -> skip f (l ++ x) = skip f l ++ x.
Proof.
  induction l as [|c l IH]; [intros H; inversion H|]. intros H. cbn.
  destruct (f c) eqn:E; [|done]. apply IH. apply Exists_cons in H as [H|H]; [congruence|done].
Qed.

Lemma digits_app d c x : Forall is_digit d -> ~ is_digit c -> digits (d ++ c :: x) = (d, c :: x).
Proof.
  unfold is_digit. induction 1 as [|e d He _ IH]; intros Hc; cbn.
  - destruct (Z.leb_spec 48 c), (Z.leb_spec c 57); cbn; (done || lia).
  - rewrite (proj2 (Z.leb_le 48 e)), (proj2 (Z.leb_le e 57)) by lia. cbn. by rewrite IH.
Qed.

Lemma strtoul_digits d c x :
  d <> [] -> Forall is_digit d -> ~ is_digit c -> decimal_value 0 d < 2 ^ 64 ->
  strtoul (d ++ c :: x) = decimal_value 0 d.
Proof.
  intros Hne Hd Hc Hv. destruct d as [|e d]; [done|]. unfold strtoul.
  pose proof (Forall_inv Hd) as He. unfold is_digit in He.
  assert (isspace e = false) as Hs.
  { unfold isspace. bool_cases; cbn; (done || lia). }
  cbn [app skip]. rewrite Hs, (proj2 (Z.eqb_neq e 45)), (proj2 (Z.eqb_neq e 43)) by lia.
  change (e :: d ++ c :: x) with ((e :: d) ++ c :: x). rewrite digits_app by done. cbn [fst].
  by rewrite (proj2 (Z.ltb_ge _ _)) by lia.
Qed.

Lemma strstr_suffix l p r : strstr l p = Some r -> exists g t, l = g ++ r /\ r = p ++ t.
Proof.
  induction l as [|b l IH]; cbn [strstr].
  - destruct p; cbn; [|done]. intros [= <-]. by exists [], [].
  - destruct (starts_with p (b :: l)) eqn:E.
    + intros [= <-]. apply starts_with_split in E as [t E]. by exists [], t.
    + intros (g & t & -> & Ht)%IH. by exists (b :: g), t.
Qed.
