(* ===== verification/FoldVnc.v ===== *)
(** * The FoldVNC client ([src/src/foldvnc_client.c])

    Messages are [magic (2), type, flags, length (4), payload...].  The sockets
    are those of [Protocol]; allocation is an oracle on the size, and buffers
    that are neither freed nor handed to the caller are counted. *)

From Stdlib Require Import String.
From S2P Require Import Prelude Protocol CString.

(** ** Constants and data *)

Definition FOLDVNC_MAGIC : Z := 0x464e.
Definition FOLDVNC_MAX_PAYLOAD : Z := 8 * 1024 * 1024.
Definition FOLDVNC_TYPE_HELLO : Z := 1.
Definition FOLDVNC_TYPE_HELLO_ACK : Z := 2.
Definition FOLDVNC_TYPE_CONFIG : Z := 3.
Definition FOLDVNC_TYPE_CONFIG_ACK : Z := 4.
Definition FOLDVNC_TYPE_VIDEO_FRAME : Z := 16.
Definition FOLDVNC_CODEC_H264 : Z := 1.

(** [fd = -1]: not connected. *)
Record FoldVncClient := MkClient { fd : Z; width : Z; height : Z }.

(** [payload = None] is a null pointer. *)
Record FoldVncMessage := MkMessage {
  type : Z;
  flags : Z;
  payload : option bytes;
  msg_len : Z }.

Definition no_message : FoldVncMessage := MkMessage 0 0 None 0.

(** Buffers a message holds. *)
Definition held (m : FoldVncMessage) : nat := match payload m with Some _ => 1%nat | None => 0%nat end.

(** ** Messages *)

(** [write_all] and [read_all] of this file are those of [protocol.c], on
    [write] and [read]. *)
Definition write_all (ws : write_script) (data : bytes) : option bool * bytes * write_script :=
  Protocol.write_all ws data.
Definition read_all (s : recv_script) (n : nat) : option (option bytes * recv_script) :=
  Protocol.read_all s n.

Definition message_header (type flags len : Z) : bytes :=
  write_u16 FOLDVNC_MAGIC ++ [type; flags] ++ write_u32 len.

(** [send_message]: the verdict, [None] while blocked, and the bytes sent. *)
Definition send_message (ws : write_script) (type flags : Z) (payload : bytes)
    : option bool * bytes * write_script :=
  match write_all ws (message_header type flags (Z.of_nat (length payload))) with
  | (Some true, wire, ws') =>
      if (length payload =? 0)%nat then (Some true, wire, ws')
      else let '(ok, wire', ws') := write_all ws' payload in (ok, wire ++ wire', ws')
  | other => other
  end.

(** How a call stands: still blocked in a read, or returned a value, with the socket,
    and the buffers lost on the way. *)
Inductive outcome (A : Type) :=
| Blocked
| Returned (a : A) (s : recv_script) (leaked : nat).
Arguments Blocked {A}.
Arguments Returned {A} _ _ _.

Section Alloc.
Context (can_alloc : nat -> bool).

(** [read_message]: [None] while blocked.  A buffer of a payload that was cut
    short stays in the message. *)
Definition read_message (s : recv_script) : option (bool * FoldVncMessage * recv_script) :=
  match read_all s 8 with
  | None => None
  | Some (None, s') => Some (false, no_message, s')
  | Some (Some header, s') =>
      if negb (read_u16 header =? FOLDVNC_MAGIC) then Some (false, no_message, s')
      else
        let t := byte_at header 2 in
        let f := byte_at header 3 in
        let len := read_u32 (drop 4 header) in
        if FOLDVNC_MAX_PAYLOAD <? len then Some (false, MkMessage t f None len, s')
        else if len =? 0 then Some (true, MkMessage t f None len, s')
        else if negb (can_alloc (Z.to_nat len)) then Some (false, MkMessage t f None len, s')
        else match read_all s' (Z.to_nat len) with
             | None => None
             | Some (None, s'') => Some (false, MkMessage t f (Some []) len, s'')
             | Some (Some data, s'') => Some (true, MkMessage t f (Some data) len, s'')
             end
  end.

(** [expect_message]; the outer [None] is running out of fuel. *)
Fixpoint expect_message (fuel : nat) (expected_type : Z) (s : recv_script)
    : option (outcome (option FoldVncMessage)) :=
  match fuel with
  | O => None
  | S fuel =>
      match read_message s with
      | None => Some Blocked
      | Some (false, m, s') => Some (Returned None s' (held m))
      | Some (true, m, s') =>
          if type m =? expected_type then Some (Returned (Some m) s' 0)
          else expect_message fuel expected_type s'
      end
  end.

(** ** Connecting *)

Definition client_name : bytes := c_string "NanoKVM-RDP/1.0"%string.
Definition hello : bytes := [1; 0; Z.of_nat (length client_name)] ++ client_name.
Definition config (width height fps : Z) : bytes :=
  write_u16 width ++ write_u16 height ++ [fps; FOLDVNC_CODEC_H264].

(** The kernel: the descriptor of [socket], whether the address parses and the
    connection is made, and what the socket then does. *)
Record net := MkNet {
  n_socket : Z;
  n_address : bool;
  n_connected : bool;
  n_writes : write_script;
  n_reads : recv_script }.

(** A connect that returned: whether it succeeded, the client, the bytes sent,
    and whether the descriptor is still open. *)
Record connected := MkConnected {
  c_ok : bool;
  c_client : FoldVncClient;
  c_sent : bytes;
  c_open : bool }.

Definition disconnected : FoldVncClient := MkClient (-1) 0 0.

(** The label [fail]. *)
Definition connect_fail (sent : bytes) (s : recv_script) (leaked : nat) : option (outcome connected) :=
  Some (Returned (MkConnected false disconnected sent false) s leaked).

(** The answer to the configuration is for the resolution that was asked for. *)
Definition config_accepted (m : FoldVncMessage) (width height : Z) : bool :=
  let data := default [] (payload m) in
  negb ((msg_len m <? 8) || negb (read_u16 data =? width) || negb (read_u16 (drop 2 data) =? height) ||
        negb (byte_at data 5 =? FOLDVNC_CODEC_H264)).

(** [foldvnc_client_connect] with a client and a host. *)
Definition foldvnc_client_connect (fuel : nat) (n : net) (width height fps : Z) (client : FoldVncClient)
    : option (outcome connected) :=
  let s := n_reads n in
  if (width =? 0) || (height =? 0) || (fps =? 0) then
    Some (Returned (MkConnected false client [] false) s 0)
  else if n_socket n <? 0 then Some (Returned (MkConnected false disconnected [] false) s 0)
  else if negb (n_address n) || negb (n_connected n) then connect_fail [] s 0
  else
    match send_message (n_writes n) FOLDVNC_TYPE_HELLO 0 hello with
    | (None, _, _) => Some Blocked
    | (Some false, sent, _) => connect_fail sent s 0
    | (Some true, sent, ws) =>
        match expect_message fuel FOLDVNC_TYPE_HELLO_ACK s with
        | None => None
        | Some Blocked => Some Blocked
        | Some (Returned None s leaked) => connect_fail sent s leaked
        | Some (Returned (Some _) s _) =>
            match send_message ws FOLDVNC_TYPE_CONFIG 0 (config width height fps) with
            | (None, _, _) => Some Blocked
            | (Some false, sent', _) => connect_fail (sent ++ sent') s 0
            | (Some true, sent', _) =>
                match expect_message fuel FOLDVNC_TYPE_CONFIG_ACK s with
                | None => None
                | Some Blocked => Some Blocked
                | Some (Returned None s leaked) => connect_fail (sent ++ sent') s leaked
                | Some (Returned (Some m) s _) =>
                    if config_accepted m width height then
                      Some (Returned (MkConnected true (MkClient (n_socket n) width height)
                                       (sent ++ sent') true) s 0)
                    else connect_fail (sent ++ sent') s 0
                end
            end
        end
    end.

(** ** Reading video *)

(** The access unit and whether it is a key frame. *)
Definition video_frame : Type := bytes * bool.

(** The loop of [foldvnc_client_read_video]. *)
Fixpoint read_video_loop (fuel : nat) (s : recv_script) : option (outcome (option video_frame)) :=
  match fuel with
  | O => None
  | S fuel =>
      match read_message s with
      | None => Some Blocked
      | Some (false, m, s') => Some (Returned None s' (held m))
      | Some (true, m, s') =>
          if negb (type m =? FOLDVNC_TYPE_VIDEO_FRAME) then read_video_loop fuel s'
          else if msg_len m <=? 12 then Some (Returned None s' 0)
          else
            let video_length := Z.to_nat (msg_len m - 12) in
            if negb (can_alloc video_length) then Some (Returned None s' 0)
            else Some (Returned (Some (take video_length (drop 12 (default [] (payload m))),
                                       negb (Z.land (flags m) 1 =? 0))) s' 0)
      end
  end.

Definition foldvnc_client_read_video (fuel : nat) (client : FoldVncClient) (s : recv_script)
    : option (outcome (option video_frame)) :=
  if fd client <? 0 then Some (Returned None s 0) else read_video_loop fuel s.

(** [foldvnc_client_close]: the client, and the descriptor that is shut down and
    closed, if any. *)
Definition foldvnc_client_close (client : FoldVncClient) : FoldVncClient * option Z :=
  (disconnected, if 0 <=? fd client then Some (fd client) else None).

End Alloc.

(** ** Lemmas *)

(** A message as its sender means it. *)
Record wire := MkWire { w_type : Z; w_flags : Z; w_data : bytes }.

Definition wire_bytes (m : wire) : bytes :=
  message_header (w_type m) (w_flags m) (Z.of_nat (length (w_data m))) ++ w_data m.
Definition wire_stream (ms : list wire) : bytes := concat (map wire_bytes ms).

(** Messages the client takes: the length within its limit, and memory for it. *)
Definition wire_ok (can_alloc : nat -> bool) (m : wire) : Prop :=
  is_u8 (w_type m) /\ is_u8 (w_flags m) /\ Z.of_nat (length (w_data m)) <= FOLDVNC_MAX_PAYLOAD /\
  can_alloc (length (w_data m)) = true.

Definition received (m : wire) : FoldVncMessage :=
  MkMessage (w_type m) (w_flags m) (match w_data m with [] => None | d => Some d end)
    (Z.of_nat (length (w_data m))).

Section Proofs.
Context (can_alloc : nat -> bool).

Lemma read_message_wire m s rest :
  wire_ok can_alloc m -> Forall event_blocking s -> script_bytes s = wire_bytes m ++ rest ->
  exists s', read_message can_alloc s = Some (true, received m, s') /\
    script_bytes s' = rest /\ Forall event_blocking s'.
Proof.
  intros (Ht & Hf & Hl & Ha) Hs E. unfold read_message, read_all.
  destruct (read_all_spec s 8 Hs) as (s1 & -> & E1 & Hs1).
  { rewrite E. unfold wire_bytes. rewrite !length_app. cbn. lia. }
  assert (Eh : take 8 (script_bytes s) = message_header (w_type m) (w_flags m) (Z.of_nat (length (w_data m)))).
  { by rewrite E. }
  assert (Ed : script_bytes s1 = w_data m ++ rest) by (by rewrite E1, E).
  rewrite Eh.
  assert (Hmagic : read_u16 (message_header (w_type m) (w_flags m) (Z.of_nat (length (w_data m)))) =
    FOLDVNC_MAGIC) by (apply read_write_u16; unfold is_u16, FOLDVNC_MAGIC; lia).
  assert (Hlen : read_u32 (drop 4 (message_header (w_type m) (w_flags m) (Z.of_nat (length (w_data m))))) =
    Z.of_nat (length (w_data m))).
  { change (drop 4 _) with (write_u32 (Z.of_nat (length (w_data m))) ++ []).
    apply read_write_u32. unfold is_u32. unfold FOLDVNC_MAX_PAYLOAD in Hl. lia. }
  rewrite Hmagic, Z.eqb_refl, Hlen, (proj2 (Z.ltb_ge _ _)) by lia. cbn [negb].
  destruct (w_data m) as [|x d] eqn:Ew.
  { exists s1. unfold received. rewrite Ew. by split. }
  rewrite (proj2 (Z.eqb_neq _ 0)) by (cbn; lia). rewrite Nat2Z.id, Ha. cbn [negb].
  destruct (read_all_spec s1 (length (x :: d)) Hs1) as (s2 & -> & E2 & Hs2).
  { rewrite Ed, length_app. lia. }
  exists s2. rewrite E2, Ed, take_app_length, drop_app_length. unfold received. by rewrite Ew.
Qed.

(** Messages of other types are skipped. *)
Lemma expect_message_wire fuel expected ms m s rest :
  (length ms < fuel)%nat -> Forall (wire_ok can_alloc) ms -> wire_ok can_alloc m ->
  Forall (fun m => w_type m <> expected) ms -> w_type m = expected ->
  Forall event_blocking s -> script_bytes s = wire_stream ms ++ wire_bytes m ++ rest ->
  exists s', expect_message can_alloc fuel expected s = Some (Returned (Some (received m)) s' 0) /\
    script_bytes s' = rest /\ Forall event_blocking s'.
Proof.
  intros Hf Hms Hm Hne Ht. revert fuel s Hf. induction ms as [|x ms IH]; intros fuel s Hf Hs E.
  all: destruct fuel as [|fuel]; [cbn in Hf; lia|]; cbn [expect_message].
  - destruct (read_message_wire m s rest Hm Hs E) as (s' & -> & Hs'). exists s'.
    cbn [type received]. by rewrite (proj2 (Z.eqb_eq _ _) Ht).
  - apply Forall_cons_iff in Hms as [Hx Hms], Hne as [Hnx Hne].
    cbn in E. change (concat (map wire_bytes ms)) with (wire_stream ms) in E. rewrite <- app_assoc in E.
    destruct (read_message_wire x s _ Hx Hs E) as (s1 & -> & E1 & Hs1).
    cbn [type received]. rewrite (proj2 (Z.eqb_neq _ _) Hnx).
    apply (IH Hms Hne fuel s1); [cbn in Hf; lia|done..].
Qed.

Lemma read_video_wire fuel ms m s rest :
  (length ms < fuel)%nat -> Forall (wire_ok can_alloc) ms -> wire_ok can_alloc m ->
  Forall (fun m => w_type m <> FOLDVNC_TYPE_VIDEO_FRAME) ms -> w_type m = FOLDVNC_TYPE_VIDEO_FRAME ->
  (12 < length (w_data m))%nat -> can_alloc (length (w_data m) - 12)%nat = true ->
  Forall event_blocking s -> script_bytes s = wire_stream ms ++ wire_bytes m ++ rest ->
  exists s', read_video_loop can_alloc fuel s =
      Some (Returned (Some (drop 12 (w_data m), Z.odd (w_flags m))) s' 0) /\
    script_bytes s' = rest /\ Forall event_blocking s'.
Proof.
  intros Hf Hms Hm Hne Ht Hl Ha. revert fuel s Hf. induction ms as [|x ms IH]; intros fuel s Hf Hs E.
  all: destruct fuel as [|fuel]; [cbn in Hf; lia|]; cbn [read_video_loop].
  - destruct (read_message_wire m s rest Hm Hs E) as (s' & -> & Hs'). exists s'. split; [|done].
    unfold received. cbn [type flags payload msg_len]. rewrite (proj2 (Z.eqb_eq _ _) Ht).
    rewrite (proj2 (Z.leb_gt _ _)) by lia.
    replace (Z.to_nat (Z.of_nat (length (w_data m)) - 12)) with (length (w_data m) - 12)%nat by lia.
    cbn [negb]. rewrite Ha. cbn [negb]. destruct (w_data m) as [|y d]; [cbn in Hl; lia|].
    change (default [] (Some (y :: d))) with (y :: d). rewrite take_ge by (rewrite length_drop; lia).
    change 1 with (Z.ones 1). rewrite Z.land_ones by lia. rewrite <- Z.bit0_odd.
    change (2 ^ 1) with 2. rewrite <- Z.bit0_mod. by destruct (Z.testbit (w_flags m) 0).
  - apply Forall_cons_iff in Hms as [Hx Hms], Hne as [Hnx Hne].
    cbn in E. change (concat (map wire_bytes ms)) with (wire_stream ms) in E. rewrite <- app_assoc in E.
    destruct (read_message_wire x s _ Hx Hs E) as (s1 & -> & E1 & Hs1).
    cbn [type received]. rewrite (proj2 (Z.eqb_neq _ _) Hnx). cbn [negb].
    apply (IH Hms Hne fuel s1); [cbn in Hf; lia|done..].
Qed.

(** *** Sending *)

(** A socket that takes at least [n] more bytes. *)
Definition write_ready (e : write_event) : Prop :=
  match e with Wrote n => (0 < n)%nat | WriteIntr => True | WriteFail => False end.
Definition takes (ws : write_script) : nat :=
  sum_list_with (fun e => match e with Wrote _ => 1%nat | _ => 0%nat end) ws.

Lemma write_all_ready ws data :
  Forall write_ready ws -> (length data <= takes ws)%nat ->
  exists ws', write_all ws data = (Some true, data, ws') /\ Forall write_ready ws' /\
    (takes ws <= takes ws' + length data)%nat.
Proof.
  unfold write_all. intros Hws. revert data. induction Hws as [|e ws He Hws IH]; intros [|x data] Hl.
  - exists []. by split.
  - cbn in Hl. lia.
  - exists (e :: ws). split_and!; [done|by constructor|cbn; lia].
  - destruct e as [n| |]; [|by apply IH|done].
    cbn [Protocol.write_all]. set (k := Nat.min n (length (x :: data))).
    assert (0 < k <= length (x :: data))%nat by (subst k; cbn in *; lia).
    rewrite (proj2 (Nat.ltb_lt 0 k)) by lia.
    change (takes (Wrote n :: ws)) with (S (takes ws)) in *.
    destruct (IH (drop k (x :: data))) as (ws' & -> & Hws' & Ht); [rewrite length_drop; cbn in *; lia|].
    exists ws'. rewrite take_drop. rewrite length_drop in Ht. split_and!; [done..|cbn in *; lia].
Qed.

Lemma send_message_ready ws t f data :
  Forall write_ready ws -> (8 + length data <= takes ws)%nat ->
  exists ws', send_message ws t f data = (Some true, wire_bytes (MkWire t f data), ws') /\
    Forall write_ready ws' /\ (takes ws <= takes ws' + (8 + length data))%nat.
Proof.
  intros Hws Hl. unfold send_message.
  destruct (write_all_ready ws (message_header t f (Z.of_nat (length data))) Hws) as (ws1 & -> & H1 & T1);
    [cbn; lia|].
  change (length (message_header t f (Z.of_nat (length data)))) with 8%nat in T1.
  unfold wire_bytes. cbn [w_type w_flags w_data]. destruct data as [|x d].
  - exists ws1. rewrite app_nil_r. split_and!; [done..|cbn in *; lia].
  - destruct (write_all_ready ws1 (x :: d) H1) as (ws2 & -> & H2 & T2); [lia|].
    exists ws2. split_and!; [done..|lia].
Qed.

(** *** Termination *)

Lemma read_all_shrinks s n out s' :
  Protocol.read_all s n = Some (out, s') -> (n = 0 /\ s' = s)%nat \/ (script_size s' < script_size s)%nat.
Proof.
  revert n out s'. induction s as [|e s IH]; intros n out s' H; cbn [Protocol.read_all] in H.
  all: destruct (Nat.eqb_spec n 0) as [->|Hn]; [injection H as <- <-; by left|].
  { done. }
  right. change (script_size (e :: s)) with (event_size e + script_size s)%nat.
  destruct e as [d| | | |]; cbn [event_size].
  2: apply IH in H as [[? ->]|]; lia.
  2-4: injection H as <- <-; lia.
  destruct (Nat.ltb_spec n (length d)) as [Hlt|Hge].
  { injection H as <- <-. change (script_size (_ :: s)) with (S (length (drop n d)) + script_size s)%nat.
    rewrite length_drop. lia. }
  destruct (length d =? 0)%nat; [injection H as <- <-; lia|].
  destruct (Protocol.read_all s (n - length d)) as [[o s1]|] eqn:E; [|done].
  apply IH in E as [[_ ->]|]; destruct o; injection H as <- <-; lia.
Qed.

Lemma read_message_shrinks s ok m s' :
  read_message can_alloc s = Some (ok, m, s') -> (script_size s' < script_size s)%nat.
Proof.
  unfold read_message, read_all. intros H.
  destruct (Protocol.read_all s 8) as [[[header|] s1]|] eqn:E1; [| |done].
  all: apply read_all_shrinks in E1 as [[? _]|E1]; [done|].
  2: by simplify_eq.
  repeat case_match; simplify_eq; try done.
  all: match goal with H : Protocol.read_all _ _ = _ |- _ => apply read_all_shrinks in H as [[_ ->]|]; lia end.
Qed.

Lemma expect_message_total fuel expected s :
  (script_size s < fuel)%nat -> is_Some (expect_message can_alloc fuel expected s).
Proof.
  revert s. induction fuel as [|fuel IH]; intros s Hf; [lia|]. cbn [expect_message].
  destruct (read_message can_alloc s) as [[[[] m] s']|] eqn:E; [|done..].
  apply read_message_shrinks in E. case_match; [done|apply IH; lia].
Qed.

Lemma expect_message_returns fuel expected s o s' leaked :
  expect_message can_alloc fuel expected s = Some (Returned o s' leaked) ->
  (script_size s' < script_size s)%nat /\ (leaked <= 1)%nat /\ (is_Some o -> leaked = 0%nat).
Proof.
  revert s. induction fuel as [|fuel IH]; intros s H; [done|]. cbn [expect_message] in H.
  destruct (read_message can_alloc s) as [[[[] m] s1]|] eqn:E; simplify_eq; apply read_message_shrinks in E.
  - destruct (type m =? expected); [by simplify_eq; auto with lia|].
    apply IH in H as (Hs & Hl). split; [lia|done].
  - split_and!; [done|unfold held; case_match; lia|by intros [? ?]].
Qed.

Lemma read_video_total fuel s :
  (script_size s < fuel)%nat -> is_Some (read_video_loop can_alloc fuel s).
Proof.
  revert s. induction fuel as [|fuel IH]; intros s Hf; [lia|]. cbn [read_video_loop].
  destruct (read_message can_alloc s) as [[[[] m] s']|] eqn:E; [|done..].
  apply read_message_shrinks in E. case_match; [apply IH; lia|by repeat case_match].
Qed.

(** *** Sessions *)

(** The configuration a server confirms: width, height, frame rate, codec and
    two further bytes or more. *)
Definition config_ack (width height : Z) (m : wire) : Prop :=
  (8 <= length (w_data m))%nat /\ read_u16 (w_data m) = width /\
  read_u16 (drop 2 (w_data m)) = height /\ byte_at (w_data m) 5 = FOLDVNC_CODEC_H264.

Lemma config_ack_accepted width height m :
  config_ack width height m -> config_accepted (received m) width height = true.
Proof.
  intros (Hl & Hw & Hh & Hc). unfold config_accepted, received. cbn [payload msg_len].
  assert (Hd : default [] (match w_data m with [] => None | d => Some d end) = w_data m)
    by (by destruct (w_data m)).
  rewrite Hd, Hw, Hh, Hc, !Z.eqb_refl, (proj2 (Z.ltb_ge _ _)) by lia. done.
Qed.

End Proofs.

(** A server that speaks the protocol: anything before each awaited answer. *)
Record dialogue (can_alloc : nat -> bool) (width height : Z) := MkDialogue {
  d_before_hello : list wire;
  d_hello : wire;
  d_before_config : list wire;
  d_config : wire;
  d_before_video : list wire;
  d_video : wire;
  d_ok : Forall (wire_ok can_alloc)
           (d_before_hello ++ d_hello :: d_before_config ++ d_config :: d_before_video ++ [d_video]);
  d_hello_type : w_type d_hello = FOLDVNC_TYPE_HELLO_ACK;
  d_hello_first : Forall (fun m => w_type m <> FOLDVNC_TYPE_HELLO_ACK) d_before_hello;
  d_config_type : w_type d_config = FOLDVNC_TYPE_CONFIG_ACK;
  d_config_first : Forall (fun m => w_type m <> FOLDVNC_TYPE_CONFIG_ACK) d_before_config;
  d_config_ack : config_ack width height d_config;
  d_video_type : w_type d_video = FOLDVNC_TYPE_VIDEO_FRAME;
  d_video_first : Forall (fun m => w_type m <> FOLDVNC_TYPE_VIDEO_FRAME) d_before_video;
  d_video_length : (12 < length (w_data d_video))%nat;
  d_video_alloc : can_alloc (length (w_data d_video) - 12)%nat = true }.

Definition dialogue_bytes {can_alloc width height} (d : dialogue can_alloc width height) : bytes :=
  wire_stream (d_before_hello _ _ _ d) ++ wire_bytes (d_hello _ _ _ d) ++
  wire_stream (d_before_config _ _ _ d) ++ wire_bytes (d_config _ _ _ d) ++
  wire_stream (d_before_video _ _ _ d) ++ wire_bytes (d_video _ _ _ d).

Definition dialogue_length {can_alloc width height} (d : dialogue can_alloc width height) : nat :=
  length (d_before_hello _ _ _ d) + length (d_before_config _ _ _ d) + length (d_before_video _ _ _ d).

Ltac returns := eexists; split; [done|]; cbn; split_and?; (done || lia).

(** Whatever the socket does, a connect ends or is blocked in the kernel; one that
    fails has closed its descriptor and lost at most the buffer of a payload that
    was cut short. *)
Lemma foldvnc_connect_ends can_alloc n width height fps client :
  exists o, foldvnc_client_connect can_alloc (S (script_size (n_reads n))) n width height fps client = Some o /\
    match o with
    | Blocked => True
    | Returned c _ leaked => c_open c = c_ok c /\ (leaked <= 1)%nat /\ (c_ok c = true -> leaked = 0%nat)
    end.
Proof.
  set (fuel := S _). assert (Hs : (script_size (n_reads n) < fuel)%nat) by lia. clearbody fuel.
  unfold foldvnc_client_connect, connect_fail.
  destruct (_ || _); [returns|]. destruct (n_socket n <? 0); [returns|]. destruct (_ || _); [returns|].
  destruct (send_message (n_writes n) _ _ _) as [[[[]|] sent] ws]; [|returns..].
  destruct (expect_message_total can_alloc fuel FOLDVNC_TYPE_HELLO_ACK (n_reads n) Hs) as [o1 E1].
  rewrite E1. destruct o1 as [|m1 s1 l1]; [returns|].
  apply expect_message_returns in E1 as (Hs1 & Hl1 & _). destruct m1 as [m1|]; [|returns].
  destruct (send_message ws _ _ _) as [[[[]|] sent'] ws']; [|returns..].
  destruct (expect_message_total can_alloc fuel FOLDVNC_TYPE_CONFIG_ACK s1 ltac:(lia)) as [o2 E2].
  rewrite E2. destruct o2 as [|m2 s2 l2]; [returns|].
  apply expect_message_returns in E2 as (Hs2 & Hl2 & _). destruct m2 as [m2|]; [|returns].
  destruct (config_accepted m2 width height); returns.
Qed.

(** C35: A client that speaks to a server gets through: in whatever pieces the
    bytes arrive and whatever other messages come in between, it announces itself,
    asks for the resolution, is connected with it, and the next video frame is the
    server's access unit with its key-frame flag; no byte behind it is read and no
    buffer lost. *)
Theorem foldvnc_session can_alloc width height fps (d : dialogue can_alloc width height) n fuel client rest :
  width <> 0 -> height <> 0 -> fps <> 0 ->
  0 <= n_socket n -> n_address n = true -> n_connected n = true ->
  Forall write_ready (n_writes n) -> (40 <= takes (n_writes n))%nat ->
  Forall event_blocking (n_reads n) -> script_bytes (n_reads n) = dialogue_bytes d ++ rest ->
  (dialogue_length d < fuel)%nat ->
  exists s s',
    foldvnc_client_connect can_alloc fuel n width height fps client =
      Some (Returned (MkConnected true (MkClient (n_socket n) width height)
        (wire_bytes (MkWire FOLDVNC_TYPE_HELLO 0 hello) ++
         wire_bytes (MkWire FOLDVNC_TYPE_CONFIG 0 (config width height fps))) true) s 0) /\
    foldvnc_client_read_video can_alloc fuel (MkClient (n_socket n) width height) s =
      Some (Returned (Some (drop 12 (w_data (d_video _ _ _ d)), Z.odd (w_flags (d_video _ _ _ d)))) s' 0) /\
    script_bytes s' = rest.
Proof.
  intros Hw Hh Hp Hsock Haddr Hconn Hws Htake Hs E Hfuel.
  destruct d as [ms1 m1 ms2 m2 ms3 m3 Hok Ht1 Hf1 Ht2 Hf2 Hack Ht3 Hf3 Hl3 Ha3].
  unfold dialogue_bytes, dialogue_length in *. cbn [d_before_hello d_hello d_before_config d_config
    d_before_video d_video] in *.
  repeat rewrite ?Forall_app, ?Forall_cons_iff in Hok.
  destruct Hok as (Hms1 & Hm1 & Hms2 & Hm2 & Hms3 & Hm3 & _).
  rewrite <- !app_assoc in E.
  unfold foldvnc_client_connect.
  rewrite (proj2 (Z.eqb_neq _ _) Hw), (proj2 (Z.eqb_neq _ _) Hh), (proj2 (Z.eqb_neq _ _) Hp).
  rewrite (proj2 (Z.ltb_ge _ _) Hsock), Haddr, Hconn. cbn [orb negb].
  destruct (send_message_ready (n_writes n) FOLDVNC_TYPE_HELLO 0 hello Hws) as (ws1 & -> & Hws1 & T1);
    [cbn; lia|].
  destruct (expect_message_wire can_alloc fuel FOLDVNC_TYPE_HELLO_ACK ms1 m1 (n_reads n) _
    ltac:(lia) Hms1 Hm1 Hf1 Ht1 Hs E) as (s1 & -> & E1 & Hs1).
  destruct (send_message_ready ws1 FOLDVNC_TYPE_CONFIG 0 (config width height fps) Hws1) as (ws2 & -> & _);
    [change (length hello) with 18%nat in T1; change (length (config width height fps)) with 6%nat; lia|].
  destruct (expect_message_wire can_alloc fuel FOLDVNC_TYPE_CONFIG_ACK ms2 m2 s1 _
    ltac:(lia) Hms2 Hm2 Hf2 Ht2 Hs1 E1) as (s2 & -> & E2 & Hs2).
  rewrite (config_ack_accepted _ _ _ Hack).
  destruct (read_video_wire can_alloc fuel ms3 m3 s2 rest ltac:(lia) Hms3 Hm3 Hf3 Ht3 Hl3 Ha3 Hs2 E2)
    as (s3 & Hr & E3 & _).
  exists s2, s3. unfold foldvnc_client_read_video. cbn [fd].
  by rewrite (proj2 (Z.ltb_ge _ _) Hsock).
Qed.

Definition demo_dialogue : dialogue (fun _ => true) 1920 1080.
Proof.
  refine (MkDialogue _ _ _ [MkWire 9 0 [1; 2]] (MkWire 2 0 []) [] (MkWire 4 0 [7; 128; 4; 56; 30; 1; 0; 0])
    [MkWire 32 0 []] (MkWire 16 1 (replicate 12 0 ++ [0; 0; 0; 1; 101])) _ eq_refl _ eq_refl _ _ eq_refl _ _ eq_refl).
  all: try (repeat constructor; done || (unfold is_u8, FOLDVNC_MAX_PAYLOAD; cbn; lia)).
Defined.

Lemma foldvnc_session_witness :
  let n := MkNet 5 true true (replicate 40 (Wrote 1))
    [RecvData (take 3 (dialogue_bytes demo_dialogue)); RecvIntr;
     RecvData (drop 3 (dialogue_bytes demo_dialogue) ++ [9])] in
  exists s s',
    foldvnc_client_connect (fun _ => true) 3 n 1920 1080 30 disconnected =
      Some (Returned (MkConnected true (MkClient 5 1920 1080)
        (wire_bytes (MkWire FOLDVNC_TYPE_HELLO 0 hello) ++
         wire_bytes (MkWire FOLDVNC_TYPE_CONFIG 0 (config 1920 1080 30))) true) s 0) /\
    foldvnc_client_read_video (fun _ => true) 3 (MkClient 5 1920 1080) s =
      Some (Returned (Some ([0; 0; 0; 1; 101], true)) s' 0) /\
    script_bytes s' = [9].
Proof.
  apply (foldvnc_session (fun _ => true) 1920 1080 30 demo_dialogue
    (MkNet 5 true true (replicate 40 (Wrote 1)) _) 3 disconnected [9]); try done.
  - apply Forall_replicate. cbn. lia.
  - repeat constructor; done.
  - apply Nat.ltb_lt. reflexivity.
Defined.

(** A payload that is cut short: the connection fails and its buffer is lost. *)
Example truncated_payload_leaks :
  expect_message (fun _ => true) 1 FOLDVNC_TYPE_HELLO_ACK
    [RecvData (message_header FOLDVNC_TYPE_HELLO_ACK 0 5 ++ [1; 2]); RecvEof] =
  Some (Returned None [] 1).
Proof. reflexivity. Qed.
