(* ===== verification/HidMap.v ===== *)
(** * Input mappings of the HID layer (the pure functions of [src/src/hid.c])

    Scancodes, ASCII, Hangul and UTF-8 to USB usages; pointer buttons, absolute
    positions and wheel rotation. *)

From stdpp Require Import strings.
From Stdlib Require Import Ascii String.
From S2P Require Import Prelude CString.

Definition PTR_FLAGS_WHEEL : Z := 0x0200.
Definition PTR_FLAGS_WHEEL_NEGATIVE : Z := 0x0100.
Definition PTR_FLAGS_HWHEEL : Z := 0x0400.
Definition PTR_FLAGS_DOWN : Z := 0x8000.
Definition PTR_FLAGS_BUTTON1 : Z := 0x1000.
Definition PTR_FLAGS_BUTTON2 : Z := 0x2000.
Definition PTR_FLAGS_BUTTON3 : Z := 0x4000.
Definition PTR_XFLAGS_BUTTON1 : Z := 0x0001.
Definition PTR_XFLAGS_BUTTON2 : Z := 0x0002.
Definition WHEEL_ROTATION_MASK : Z := 0x01FF.
Definition HID_MOUSE_BUTTONS_MASK : Z := 0x07.
Definition HID_TOUCH_BUTTONS_MASK : Z := 0x1f.
Definition HID_MODIFIER_RIGHT_ALT : Z := 0x40.

(** [flags & bit] as a condition. *)
Definition flag (flags bit : Z) : bool := negb (Z.land flags bit =? 0).

(** ** Pointer *)

Definition hid_scale_absolute (value dimension : Z) : Z :=
  if dimension <=? 1 then 0x3fff
  else
    let scaled := u32 (value * 0x7fff) / (dimension - 1) in
    let scaled := if scaled <? 1 then 1 else scaled in
    let scaled := if 0x7fff <? scaled then 0x7fff else scaled in
    u16 scaled.

Definition hid_clamp_absolute (value dimension : Z) : Z :=
  if dimension =? 0 then 0 else if value <? dimension then value else u16 (dimension - 1).

Definition hid_pointer_flags_from_extended (flags : Z) : Z :=
  Z.land flags (Z.lor (Z.lor PTR_FLAGS_DOWN PTR_XFLAGS_BUTTON1) PTR_XFLAGS_BUTTON2).

Definition pointer_bits : list Z :=
  [PTR_FLAGS_BUTTON1; PTR_FLAGS_BUTTON2; PTR_FLAGS_BUTTON3; PTR_XFLAGS_BUTTON1; PTR_XFLAGS_BUTTON2].

(** One iteration for bit [i]; [0xff ^ x] is [(uint8_t)~x]. *)
Definition pointer_button (flags : Z) (buttons : Z) (i : nat) : Z :=
  if flag flags (nth i pointer_bits 0) then
    if flag flags PTR_FLAGS_DOWN
    then Z.lor buttons (u8 (Z.shiftl 1 (Z.of_nat i)))
    else Z.land buttons (Z.lxor 0xff (u8 (Z.shiftl 1 (Z.of_nat i))))
  else buttons.

Definition hid_pointer_buttons (buttons flags : Z) : Z :=
  fold_left (pointer_button flags) (seq 0 5) buttons.

Definition wheel_detents (flags : Z) : Z :=
  let delta := Z.land flags WHEEL_ROTATION_MASK in
  let delta := if flag delta PTR_FLAGS_WHEEL_NEGATIVE then delta - 0x200 else delta in
  let detents := Z.quot delta 120 in
  if (detents =? 0) && negb (delta =? 0) then if 0 <? delta then 1 else -1 else detents.

Definition touch_buttons (buttons : Z) : Z := u8 (Z.land buttons 0x18).

(** Bytes 1 to 4 of a touch report. *)
Definition write_touch_position (x y : Z) : bytes :=
  [u8 (Z.land x 0xff); u8 (Z.shiftr x 8); u8 (Z.land y 0xff); u8 (Z.shiftr y 8)].

(** ** Scancodes *)

(** The first entry of a table with the key. *)
Fixpoint table {A} (key : Z) (l : list (Z * A)) : option A :=
  match l with
  | [] => None
  | (k, v) :: l => if key =? k then Some v else table key l
  end.

Definition hid_map_scancode (code : Z) (extended swap_alt_command : bool) : Z * bool :=
  if negb swap_alt_command then (code, extended)
  else if code =? 0x38 then (if extended then 0x5c else 0x5b, true)
  else if extended && (code =? 0x5b) then (0x38, false)
  else if extended && (code =? 0x5c) then (0x38, true)
  else (code, extended).

(** The array [normal]; every other entry is zero. *)
Definition normal : list (Z * Z) :=
  [(0x01, 0x29); (0x02, 0x1e); (0x03, 0x1f); (0x04, 0x20); (0x05, 0x21); (0x06, 0x22);
   (0x07, 0x23); (0x08, 0x24); (0x09, 0x25); (0x0a, 0x26); (0x0b, 0x27); (0x0c, 0x2d);
   (0x0d, 0x2e); (0x0e, 0x2a); (0x0f, 0x2b); (0x10, 0x14); (0x11, 0x1a); (0x12, 0x08);
   (0x13, 0x15); (0x14, 0x17); (0x15, 0x1c); (0x16, 0x18); (0x17, 0x0c); (0x18, 0x12);
   (0x19, 0x13); (0x1a, 0x2f); (0x1b, 0x30); (0x1c, 0x28); (0x1e, 0x04); (0x1f, 0x16);
   (0x20, 0x07); (0x21, 0x09); (0x22, 0x0a); (0x23, 0x0b); (0x24, 0x0d); (0x25, 0x0e);
   (0x26, 0x0f); (0x27, 0x33); (0x28, 0x34); (0x29, 0x35); (0x2b, 0x31); (0x2c, 0x1d);
   (0x2d, 0x1b); (0x2e, 0x06); (0x2f, 0x19); (0x30, 0x05); (0x31, 0x11); (0x32, 0x10);
   (0x33, 0x36); (0x34, 0x37); (0x35, 0x38); (0x37, 0x55); (0x39, 0x2c); (0x3a, 0x39);
   (0x3b, 0x3a); (0x3c, 0x3b); (0x3d, 0x3c); (0x3e, 0x3d); (0x3f, 0x3e); (0x40, 0x3f);
   (0x41, 0x40); (0x42, 0x41); (0x43, 0x42); (0x44, 0x43); (0x45, 0x53); (0x46, 0x47);
   (0x47, 0x5f); (0x48, 0x60); (0x49, 0x61); (0x4a, 0x56); (0x4b, 0x5c); (0x4c, 0x5d);
   (0x4d, 0x5e); (0x4e, 0x57); (0x4f, 0x59); (0x50, 0x5a); (0x51, 0x5b); (0x52, 0x62);
   (0x53, 0x63); (0x56, 0x64); (0x54, 0x67); (0x59, 0x4c); (0x5c, 0x49); (0x5d, 0x4d);
   (0x5e, 0x4b); (0x5f, 0x4e); (0x60, 0x4a); (0x61, 0x4f); (0x62, 0x50); (0x63, 0x51);
   (0x64, 0x52); (0x65, 0x4c); (0x66, 0x65); (0x57, 0x44); (0x58, 0x45)].

(** The cases of the extended switch: usage and modifier. *)
Definition extended_keys : list (Z * (Z * Z)) :=
  [(0x1c, (0x58, 0)); (0x1d, (0, 0x10)); (0x35, (0x54, 0)); (0x37, (0x46, 0));
   (0x38, (0, HID_MODIFIER_RIGHT_ALT)); (0x47, (0x4a, 0)); (0x48, (0x52, 0)); (0x49, (0x4b, 0));
   (0x4b, (0x50, 0)); (0x4d, (0x4f, 0)); (0x4f, (0x4d, 0)); (0x50, (0x51, 0));
   (0x51, (0x4e, 0)); (0x52, (0x49, 0)); (0x53, (0x4c, 0)); (0x5b, (0, 0x08));
   (0x5c, (0, 0x80)); (0x5d, (0x65, 0)); (0x5e, (0x66, 0)); (0x5f, (0x82, 0));
   (0x63, (0x81, 0))].

Definition normal_modifiers : list (Z * Z) := [(0x1d, 0x01); (0x2a, 0x02); (0x36, 0x20); (0x38, 0x04)].

(** Usage and modifier, or [None] for [false]. *)
Definition hid_translate_scancode (code : Z) (extended : bool) : option (Z * Z) :=
  if extended then table code extended_keys
  else match table code normal_modifiers with
       | Some modifier => Some (0, modifier)
       | None =>
           if (128 <=? code) || (default 0 (table code normal) =? 0) then None
           else Some (default 0 (table code normal), 0)
       end.

(** ** Text *)

Record HidTextKey := MkKey { modifier : Z; usage : Z }.

(** The cases of the switch: character, modifier, usage. *)
Definition ascii_switch : list (Z * (Z * Z)) :=
  [(0x8, (0, 0x2a)); (0x9, (0, 0x2b)); (0xa, (0, 0x28)); (0xd, (0, 0x28));
   (0x1b, (0, 0x29)); (0x20, (0, 0x2c)); (0x2d, (0, 0x2d)); (0x5f, (0x02, 0x2d));
   (0x3d, (0, 0x2e)); (0x2b, (0x02, 0x2e)); (0x5b, (0, 0x2f)); (0x7b, (0x02, 0x2f));
   (0x5d, (0, 0x30)); (0x7d, (0x02, 0x30)); (0x5c, (0, 0x31)); (0x7c, (0x02, 0x31));
   (0x3b, (0, 0x33)); (0x3a, (0x02, 0x33)); (0x27, (0, 0x34)); (0x22, (0x02, 0x34));
   (0x60, (0, 0x35)); (0x7e, (0x02, 0x35)); (0x2c, (0, 0x36)); (0x3c, (0x02, 0x36));
   (0x2e, (0, 0x37)); (0x3e, (0x02, 0x37)); (0x2f, (0, 0x38)); (0x3f, (0x02, 0x38));
   (0x21, (0x02, 0x1e)); (0x40, (0x02, 0x1f)); (0x23, (0x02, 0x20)); (0x24, (0x02, 0x21));
   (0x25, (0x02, 0x22)); (0x5e, (0x02, 0x23)); (0x26, (0x02, 0x24)); (0x2a, (0x02, 0x25));
   (0x28, (0x02, 0x26)); (0x29, (0x02, 0x27))].

Definition ascii_to_hid (c : Z) : option HidTextKey :=
  if (0x61 <=? c) && (c <=? 0x7a) then Some (MkKey 0 (u8 (0x04 + c - 0x61)))
  else if (0x41 <=? c) && (c <=? 0x5a) then Some (MkKey 0x02 (u8 (0x04 + c - 0x41)))
  else if (0x31 <=? c) && (c <=? 0x39) then Some (MkKey 0 (u8 (0x1e + c - 0x31)))
  else if c =? 0x30 then Some (MkKey 0 0x27)
  else match table c ascii_switch with
       | Some (m, u) => Some (MkKey m u)
       | None => None
       end.

Section Hangul.
Local Open Scope string_scope.

Definition jamo_table : list (Z * string) :=
  [(0x3131, "r"); (0x3132, "R"); (0x3133, "rt"); (0x3134, "s"); (0x3135, "sw");
   (0x3136, "sg"); (0x3137, "e"); (0x3138, "E"); (0x3139, "f"); (0x313a, "fr");
   (0x313b, "fa"); (0x313c, "fq"); (0x313d, "ft"); (0x313e, "fx"); (0x313f, "fv");
   (0x3140, "fg"); (0x3141, "a"); (0x3142, "q"); (0x3143, "Q"); (0x3144, "qt");
   (0x3145, "t"); (0x3146, "T"); (0x3147, "d"); (0x3148, "w"); (0x3149, "W");
   (0x314a, "c"); (0x314b, "z"); (0x314c, "x"); (0x314d, "v"); (0x314e, "g");
   (0x314f, "k"); (0x3150, "o"); (0x3151, "i"); (0x3152, "O"); (0x3153, "j");
   (0x3154, "p"); (0x3155, "u"); (0x3156, "P"); (0x3157, "h"); (0x3158, "hk");
   (0x3159, "ho"); (0x315a, "hl"); (0x315b, "y"); (0x315c, "n"); (0x315d, "nj");
   (0x315e, "np"); (0x315f, "nl"); (0x3160, "b"); (0x3161, "m"); (0x3162, "ml");
   (0x3163, "l")].

Definition lead_keys : list string :=
  ["r"; "R"; "s"; "e"; "E"; "f"; "a"; "q"; "Q"; "t"; "T"; "d"; "w"; "W";
   "c"; "z"; "x"; "v"; "g"].

Definition vowel_keys : list string :=
  ["k"; "o"; "i"; "O"; "j"; "p"; "u"; "P"; "h"; "hk"; "ho"; "hl"; "y"; "n";
   "nj"; "np"; "nl"; "b"; "m"; "ml"; "l"].

Definition trail_keys : list string :=
  [""; "r"; "R"; "rt"; "s"; "sw"; "sg"; "e"; "f"; "fr"; "fa"; "fq"; "ft"; "fx";
   "fv"; "fg"; "a"; "q"; "qt"; "t"; "T"; "d"; "w"; "c"; "z"; "x"; "v"; "g"].
End Hangul.

Definition hangul_jamo_sequence (codepoint : Z) : option string := table codepoint jamo_table.

(** An index outside a table would be undefined behaviour in C; it is [None]
    in the components. *)
Definition codepoint_to_hangul_sequences (codepoint : Z)
    : option (option string * option string * option string) :=
  if (codepoint <? 0xac00) || (0xd7a3 <? codepoint) then None
  else
    let offset := codepoint - 0xac00 in
    let lead_index := offset / (21 * 28) in
    let vowel_index := (offset mod (21 * 28)) / 28 in
    let trail_index := offset mod 28 in
    Some (lead_keys !! Z.to_nat lead_index, vowel_keys !! Z.to_nat vowel_index,
          trail_keys !! Z.to_nat trail_index).

(** ** UTF-8 *)

Definition is_utf8_continuation (byte : Z) : bool := Z.land byte 0xc0 =? 0x80.

(** The code point and the offset behind it, or [None] for [false]. *)
Definition utf8_decode (text : bytes) (offset : nat) : option (Z * nat) :=
  if (length text <=? offset)%nat then None
  else
    let first := byte_at text offset in
    let o := (offset + 1)%nat in
    if first <? 0x80 then Some (first, o)
    else if (0xc2 <=? first) && (first <=? 0xdf) then
      if (length text <=? o)%nat || negb (is_utf8_continuation (byte_at text o)) then None
      else Some (Z.lor (Z.shiftl (Z.land first 0x1f) 6) (Z.land (byte_at text o) 0x3f), (o + 1)%nat)
    else if (0xe0 <=? first) && (first <=? 0xef) then
      if (length text <=? o + 1)%nat || negb (is_utf8_continuation (byte_at text o)) ||
         negb (is_utf8_continuation (byte_at text (o + 1))) ||
         ((first =? 0xe0) && (byte_at text o <? 0xa0)) ||
         ((first =? 0xed) && (0x9f <? byte_at text o)) then None
      else
        Some (Z.lor (Z.lor (Z.shiftl (Z.land first 0x0f) 12)
                (Z.shiftl (Z.land (byte_at text o) 0x3f) 6))
                (Z.land (byte_at text (o + 1)) 0x3f), (o + 2)%nat)
    else if (0xf0 <=? first) && (first <=? 0xf4) then
      if (length text <=? o + 2)%nat || negb (is_utf8_continuation (byte_at text o)) ||
         negb (is_utf8_continuation (byte_at text (o + 1))) ||
         negb (is_utf8_continuation (byte_at text (o + 2))) ||
         ((first =? 0xf0) && (byte_at text o <? 0x90)) ||
         ((first =? 0xf4) && (0x8f <? byte_at text o)) then None
      else
        Some (Z.lor (Z.lor (Z.lor (Z.shiftl (Z.land first 0x07) 18)
                (Z.shiftl (Z.land (byte_at text o) 0x3f) 12))
                (Z.shiftl (Z.land (byte_at text (o + 1)) 0x3f) 6))
                (Z.land (byte_at text (o + 2)) 0x3f), (o + 3)%nat)
    else None.

Definition utf8_encode (codepoint : Z) : option bytes :=
  if (0x10ffff <? codepoint) || ((0xd800 <=? codepoint) && (codepoint <=? 0xdfff)) then None
  else if codepoint <=? 0x7f then Some [u8 codepoint]
  else if codepoint <=? 0x7ff then
    Some [u8 (Z.lor 0xc0 (Z.shiftr codepoint 6)); u8 (Z.lor 0x80 (Z.land codepoint 0x3f))]
  else if codepoint <=? 0xffff then
    Some [u8 (Z.lor 0xe0 (Z.shiftr codepoint 12));
          u8 (Z.lor 0x80 (Z.land (Z.shiftr codepoint 6) 0x3f));
          u8 (Z.lor 0x80 (Z.land codepoint 0x3f))]
  else
    Some [u8 (Z.lor 0xf0 (Z.shiftr codepoint 18));
          u8 (Z.lor 0x80 (Z.land (Z.shiftr codepoint 12) 0x3f));
          u8 (Z.lor 0x80 (Z.land (Z.shiftr codepoint 6) 0x3f));
          u8 (Z.lor 0x80 (Z.land codepoint 0x3f))].

(** ** Lemmas: bytes of UTF-8 *)

Lemma land_mod a n : 0 <= n -> Z.land a (2 ^ n - 1) = a mod 2 ^ n.
Proof. intros Hn. rewrite <- Z.land_ones by done. by rewrite Z.ones_equiv, Z.sub_1_r. Qed.

Lemma land_3f a : Z.land a 0x3f = a mod 64.
Proof. apply (land_mod a 6). lia. Qed.
Lemma land_1f a : Z.land a 0x1f = a mod 32.
Proof. apply (land_mod a 5). lia. Qed.
Lemma land_0f a : Z.land a 0x0f = a mod 16.
Proof. apply (land_mod a 4). lia. Qed.
Lemma land_07 a : Z.land a 0x07 = a mod 8.
Proof. apply (land_mod a 3). lia. Qed.

Lemma lead_c0 x : 0 <= x < 64 -> u8 (Z.lor 0xc0 x) = 0xc0 + x.
Proof. intros H. replace (Z.lor 0xc0 x) with (0xc0 + x); [mlia|].
  symmetry. apply (lor_shiftl_add 3 x 6); lia.
Qed.
Lemma lead_e0 x : 0 <= x < 32 -> u8 (Z.lor 0xe0 x) = 0xe0 + x.
Proof. intros H. replace (Z.lor 0xe0 x) with (0xe0 + x); [mlia|].
  symmetry. apply (lor_shiftl_add 7 x 5); lia.
Qed.
Lemma lead_f0 x : 0 <= x < 16 -> u8 (Z.lor 0xf0 x) = 0xf0 + x.
Proof. intros H. replace (Z.lor 0xf0 x) with (0xf0 + x); [mlia|].
  symmetry. apply (lor_shiftl_add 15 x 4); lia.
Qed.
Lemma lead_80 x : u8 (Z.lor 0x80 (x mod 64)) = 0x80 + x mod 64.
Proof.
  pose proof (Z.mod_pos_bound x 64 ltac:(lia)).
  replace (Z.lor 0x80 (x mod 64)) with (0x80 + x mod 64); [mlia|].
  symmetry. apply (lor_shiftl_add 2 (x mod 64) 6); lia.
Qed.

Lemma continuation_range b : is_u8 b -> is_utf8_continuation b = (0x80 <=? b) && (b <? 0xc0).
Proof.
  intros Hb. apply eqb_true_iff. revert b Hb.
  apply (byte_forallb (fun b => eqb (is_utf8_continuation b) ((0x80 <=? b) && (b <? 0xc0)))).
  vm_compute. reflexivity.
Qed.

Lemma pack2 a b : Z.lor (Z.shiftl a 6) (b mod 64) = a * 64 + b mod 64.
Proof. apply (lor_shiftl_add a _ 6); [lia|]. apply Z.mod_pos_bound. lia. Qed.

Lemma pack3 a b c :
  Z.lor (Z.lor (Z.shiftl a 12) (Z.shiftl (b mod 64) 6)) (c mod 64) =
  a * 4096 + b mod 64 * 64 + c mod 64.
Proof.
  rewrite <- Z.lor_assoc, pack2. rewrite (lor_shiftl_add a _ 12); [lia|lia|].
  change (2 ^ 12) with 4096.
  pose proof (Z.mod_pos_bound b 64). pose proof (Z.mod_pos_bound c 64). lia.
Qed.

Lemma pack4 a b c d :
  Z.lor (Z.lor (Z.lor (Z.shiftl a 18) (Z.shiftl (b mod 64) 12)) (Z.shiftl (c mod 64) 6)) (d mod 64) =
  a * 262144 + b mod 64 * 4096 + c mod 64 * 64 + d mod 64.
Proof.
  rewrite <- !Z.lor_assoc, (Z.lor_assoc (Z.shiftl (b mod 64) 12)), pack3.
  rewrite (lor_shiftl_add a _ 18); [lia|lia|].
  change (2 ^ 18) with 262144. pose proof (Z.mod_pos_bound b 64).
  pose proof (Z.mod_pos_bound c 64). pose proof (Z.mod_pos_bound d 64). lia.
Qed.

(** The encoding in arithmetic form. *)
Lemma utf8_encode_arith cp : 0 <= cp ->
  utf8_encode cp =
  if (0x10ffff <? cp) || ((0xd800 <=? cp) && (cp <=? 0xdfff)) then None
  else if cp <=? 0x7f then Some [cp]
  else if cp <=? 0x7ff then Some [0xc0 + cp / 64; 0x80 + cp mod 64]
  else if cp <=? 0xffff then
    Some [0xe0 + cp / 4096; 0x80 + (cp / 64) mod 64; 0x80 + cp mod 64]
  else Some [0xf0 + cp / 262144; 0x80 + (cp / 4096) mod 64; 0x80 + (cp / 64) mod 64; 0x80 + cp mod 64].
Proof.
  intros H0. unfold utf8_encode. destruct (_ || _) eqn:Ev; [done|]. bool_hyps.
  rewrite !land_3f, !lead_80, !Z.shiftr_div_pow2 by lia.
  change (2 ^ 6) with 64. change (2 ^ 12) with 4096. change (2 ^ 18) with 262144.
  destruct (Z.leb_spec cp 0x7f); [f_equal; f_equal; mlia|].
  destruct (Z.leb_spec cp 0x7ff); [rewrite lead_c0 by mlia; done|].
  destruct (Z.leb_spec cp 0xffff); [rewrite lead_e0 by mlia; done|].
  rewrite lead_f0 by mlia. done.
Qed.

(** The decoder's view of the bytes at an offset. *)
Definition sequence_at (text : bytes) (offset : nat) (enc : bytes) : Prop :=
  take (length enc) (drop offset text) = enc.

Lemma sequence_at_length text offset enc :
  enc <> [] -> sequence_at text offset enc -> (offset + length enc <= length text)%nat.
Proof.
  intros Hne H. apply (f_equal length) in H. rewrite length_take, length_drop in H.
  assert (length enc <> 0%nat) by (by destruct enc). lia.
Qed.

Lemma sequence_at_byte text offset enc k :
  sequence_at text offset enc -> (k < length enc)%nat ->
  byte_at text (offset + k) = byte_at enc k.
Proof.
  intros H Hk. rewrite <- H. unfold byte_at.
  rewrite lookup_take_lt by done. by rewrite lookup_drop.
Qed.

Lemma sequence_at_embed pre enc post : sequence_at (pre ++ enc ++ post) (length pre) enc.
Proof. unfold sequence_at. by rewrite drop_app_length, take_app_length. Qed.

(** The decoder in arithmetic form, on the [n] bytes available: the code point
    and the length of its encoding. *)
Definition cont (b : Z) : bool := (0x80 <=? b) && (b <? 0xc0).

Definition decode_arith (n : nat) (b0 b1 b2 b3 : Z) : option (Z * nat) :=
  if (n <=? 0)%nat then None
  else if b0 <? 0x80 then Some (b0, 1%nat)
  else if (0xc2 <=? b0) && (b0 <=? 0xdf) then
    if (n <=? 1)%nat || negb (cont b1) then None
    else Some ((b0 - 0xc0) * 64 + (b1 - 0x80), 2%nat)
  else if (0xe0 <=? b0) && (b0 <=? 0xef) then
    if (n <=? 2)%nat || negb (cont b1) || negb (cont b2) || ((b0 =? 0xe0) && (b1 <? 0xa0)) ||
       ((b0 =? 0xed) && (0x9f <? b1)) then None
    else Some ((b0 - 0xe0) * 4096 + (b1 - 0x80) * 64 + (b2 - 0x80), 3%nat)
  else if (0xf0 <=? b0) && (b0 <=? 0xf4) then
    if (n <=? 3)%nat || negb (cont b1) || negb (cont b2) || negb (cont b3) ||
       ((b0 =? 0xf0) && (b1 <? 0x90)) || ((b0 =? 0xf4) && (0x8f <? b1)) then None
    else Some ((b0 - 0xf0) * 262144 + (b1 - 0x80) * 4096 + (b2 - 0x80) * 64 + (b3 - 0x80), 4%nat)
  else None.

Lemma leb_shift n offset k : (n <=? offset + k)%nat = (n - offset <=? k)%nat.
Proof. destruct (Nat.leb_spec n (offset + k)), (Nat.leb_spec (n - offset) k); lia. Qed.

Lemma utf8_decode_eq text offset :
  bytes_ok text ->
  utf8_decode text offset =
  (fun '(cp, k) => (cp, (offset + k)%nat)) <$>
  decode_arith (length text - offset) (byte_at text offset) (byte_at text (offset + 1))
    (byte_at text (offset + 2)) (byte_at text (offset + 3)).
Proof.
  intros Hok. unfold utf8_decode, decode_arith, cont.
  rewrite <- !(Nat.add_assoc offset). simpl (1 + _)%nat.
  rewrite !leb_shift, !continuation_range by (by apply byte_at_ok).
  rewrite <- (Nat.add_0_r offset) at 1. rewrite leb_shift.
  rewrite ?land_3f, ?land_1f, ?land_0f, ?land_07, ?pack2, ?pack3, ?pack4.
  pose proof (byte_at_ok text offset Hok) as H0. revert H0.
  generalize (byte_at text offset) (byte_at text (offset + 1)) (byte_at text (offset + 2))
    (byte_at text (offset + 3)). intros b0 b1 b2 b3 H0.
  repeat match goal with |- context [if ?b then _ else _] => destruct b eqn:? end;
    try done; simpl; do 2 f_equal; bool_hyps; mlia.
Qed.

(** Decide every test that linear arithmetic settles. *)
Ltac decide_tests :=
  repeat first
    [ match goal with |- context [Z.ltb ?a ?b] =>
        first [rewrite (proj2 (Z.ltb_lt a b)) by lia | rewrite (proj2 (Z.ltb_ge a b)) by lia] end
    | match goal with |- context [Z.leb ?a ?b] =>
        first [rewrite (proj2 (Z.leb_le a b)) by lia | rewrite (proj2 (Z.leb_gt a b)) by lia] end
    | match goal with |- context [Z.eqb ?a ?b] =>
        first [rewrite (proj2 (Z.eqb_eq a b)) by lia | rewrite (proj2 (Z.eqb_neq a b)) by lia] end
    | match goal with |- context [Nat.leb ?a ?b] =>
        first [rewrite (proj2 (Nat.leb_le a b)) by lia | rewrite (proj2 (Nat.leb_gt a b)) by lia] end ];
  cbn [andb orb negb].

Section DecodeForms.
Variables (n : nat) (b0 b1 b2 b3 : Z).

Lemma decode_arith_1 : (0 < n)%nat -> b0 < 0x80 -> decode_arith n b0 b1 b2 b3 = Some (b0, 1%nat).
Proof. intros Hn H. unfold decode_arith. by decide_tests. Qed.

Lemma decode_arith_2 : (1 < n)%nat -> 0xc2 <= b0 <= 0xdf -> 0x80 <= b1 < 0xc0 ->
  decode_arith n b0 b1 b2 b3 = Some ((b0 - 0xc0) * 64 + (b1 - 0x80), 2%nat).
Proof. intros Hn H H1. unfold decode_arith, cont. by decide_tests. Qed.

Lemma decode_arith_3 : (2 < n)%nat -> 0xe0 <= b0 <= 0xef -> 0x80 <= b1 < 0xc0 -> 0x80 <= b2 < 0xc0 ->
  (b0 = 0xe0 -> 0xa0 <= b1) -> (b0 = 0xed -> b1 <= 0x9f) ->
  decode_arith n b0 b1 b2 b3 = Some ((b0 - 0xe0) * 4096 + (b1 - 0x80) * 64 + (b2 - 0x80), 3%nat).
Proof.
  intros Hn H H1 H2 Ha Hb. unfold decode_arith, cont.
  destruct (Z.eqb_spec b0 0xe0), (Z.eqb_spec b0 0xed); try (exfalso; lia); by decide_tests.
Qed.

Lemma decode_arith_4 : (3 < n)%nat -> 0xf0 <= b0 <= 0xf4 -> 0x80 <= b1 < 0xc0 -> 0x80 <= b2 < 0xc0 ->
  0x80 <= b3 < 0xc0 -> (b0 = 0xf0 -> 0x90 <= b1) -> (b0 = 0xf4 -> b1 <= 0x8f) ->
  decode_arith n b0 b1 b2 b3 =
  Some ((b0 - 0xf0) * 262144 + (b1 - 0x80) * 4096 + (b2 - 0x80) * 64 + (b3 - 0x80), 4%nat).
Proof.
  intros Hn H H1 H2 H3 Ha Hb. unfold decode_arith, cont.
  destruct (Z.eqb_spec b0 0xf0), (Z.eqb_spec b0 0xf4); try (exfalso; lia); by decide_tests.
Qed.
End DecodeForms.

Lemma decode_arith_encode cp enc n b0 b1 b2 b3 :
  0 <= cp -> utf8_encode cp = Some enc -> (length enc <= n)%nat ->
  take (length enc) [b0; b1; b2; b3] = enc ->
  decode_arith n b0 b1 b2 b3 = Some (cp, length enc).
Proof.
  intros H0 He Hl Ht. rewrite utf8_encode_arith in He by done.
  destruct (_ || _) eqn:Ev; [done|]. apply orb_false_iff in Ev as [Ev1%Z.ltb_ge Ev2].
  apply andb_false_iff in Ev2. rewrite Z.leb_gt, Z.leb_gt in Ev2.
  destruct (Z.leb_spec cp 0x7f); [|destruct (Z.leb_spec cp 0x7ff); [|destruct (Z.leb_spec cp 0xffff)]];
    injection He as <-; simpl in Ht, Hl; simplify_eq; simpl length.
  - rewrite decode_arith_1 by lia. done.
  - rewrite decode_arith_2 by mlia. do 2 f_equal. mlia.
  - rewrite decode_arith_3 by mlia. do 2 f_equal. mlia.
  - rewrite decode_arith_4 by mlia. do 2 f_equal. mlia.
Qed.

(** What decodes is an encoding: no overlong form, no surrogate, nothing beyond
    U+10FFFF. *)
Lemma decode_arith_canonical n b0 b1 b2 b3 cp k :
  is_u8 b0 -> decode_arith n b0 b1 b2 b3 = Some (cp, k) ->
  (k <= n)%nat /\ 0 <= cp /\ utf8_encode cp = Some (take k [b0; b1; b2; b3]).
Proof.
  intros Hb. unfold decode_arith, cont.
  destruct (Nat.leb_spec n 0); [done|].
  destruct (Z.ltb_spec b0 0x80).
  { intros [= <- <-]. assert (0 <= b0) by apply Hb. split_and!; [lia|done|].
    rewrite utf8_encode_arith by done. by decide_tests. }
  destruct (Z.leb_spec 0xc2 b0), (Z.leb_spec b0 0xdf), (Z.leb_spec 0xe0 b0); simpl; try lia; try done.
  { destruct (_ || _) eqn:E; [done|]. intros [= <- <-]. bool_hyps.
    split_and!; [lia|lia|]. rewrite utf8_encode_arith by lia. decide_tests.
    simpl. do 2 f_equal; [mlia|f_equal; mlia]. }
  2: { destruct (Z.leb_spec 0xf0 b0); [lia|done]. }
  destruct (Z.leb_spec b0 0xef); simpl.
  { destruct (_ || _) eqn:E; [done|]. intros [= <- <-].
    apply orb_false_iff in E as [E Hed]. apply orb_false_iff in E as [E He0]. bool_hyps.
    assert (b0 = 0xe0 -> 0xa0 <= b1) by (intros; destruct He0; bool_hyps; lia).
    assert (b0 = 0xed -> b1 <= 0x9f) by (intros; destruct Hed; bool_hyps; lia).
    split_and!; [lia|lia|]. rewrite utf8_encode_arith by lia.
    destruct (Z.leb_spec 0xd800 ((b0 - 0xe0) * 4096 + (b1 - 0x80) * 64 + (b2 - 0x80)));
      decide_tests; simpl; do 2 f_equal; try mlia; (f_equal; [mlia|]; f_equal; mlia). }
  destruct (Z.leb_spec 0xf0 b0); [|done]. destruct (Z.leb_spec b0 0xf4); [|done]. simpl.
  destruct (_ || _) eqn:E; [done|]. intros [= <- <-].
  apply orb_false_iff in E as [E Hf4]. apply orb_false_iff in E as [E Hf0]. bool_hyps.
  assert (b0 = 0xf0 -> 0x90 <= b1) by (intros; destruct Hf0; bool_hyps; lia).
  assert (b0 = 0xf4 -> b1 <= 0x8f) by (intros; destruct Hf4; bool_hyps; lia).
  split_and!; [lia|lia|]. rewrite utf8_encode_arith by lia.
  decide_tests. simpl. do 2 f_equal; [mlia|]. f_equal; [mlia|]. f_equal; [mlia|]. f_equal. mlia.
Qed.

(** The bytes the decoder looks at. *)
Lemma window text offset k :
  (k <= 4)%nat -> (offset + k <= length text)%nat ->
  take k (drop offset text) =
  take k [byte_at text offset; byte_at text (offset + 1); byte_at text (offset + 2);
          byte_at text (offset + 3)].
Proof.
  intros Hk Hl. apply list_eq. intros i. destruct (decide (i < k)%nat) as [Hi|Hi].
  - rewrite !lookup_take_lt by lia. rewrite lookup_drop.
    assert (Hb : text !! (offset + i)%nat = Some (byte_at text (offset + i))).
    { unfold byte_at. destruct (lookup_lt_is_Some_2 text (offset + i)%nat) as [x ->]; [lia|done]. }
    rewrite Hb. destruct i as [|[|[|[|i]]]]; try done; [by rewrite Nat.add_0_r|lia].
  - rewrite !lookup_take_ge by lia. done.
Qed.

Lemma utf8_encode_size cp enc : utf8_encode cp = Some enc -> (0 < length enc <= 4)%nat.
Proof.
  unfold utf8_encode. destruct (_ || _); [done|].
  repeat destruct (_ <=? _); intros [= <-]; simpl; lia.
Qed.

(** C26: the UTF-8 decoder is exactly the inverse of the encoder.  At any
    position of any text, [utf8_decode] accepts a code point and its length if
    and only if the bytes there are what [utf8_encode] gives for that code
    point; truncated, overlong, surrogate and out-of-range sequences are
    refused. *)
Theorem utf8_codec text offset cp k :
  bytes_ok text -> (offset <= length text)%nat -> 0 <= cp ->
  utf8_decode text offset = Some (cp, (offset + k)%nat) <->
  (offset + k <= length text)%nat /\ utf8_encode cp = Some (take k (drop offset text)).
Proof.
  intros Hok Ho H0. rewrite utf8_decode_eq by done. split.
  - intros H. apply fmap_Some in H as ([cp' k'] & Hd & E). injection E as <- Ek.
    assert (k' = k) as -> by lia. pose proof (byte_at_ok text offset Hok) as Hb.
    destruct (decode_arith_canonical _ _ _ _ _ _ _ Hb Hd) as (Hk & _ & He).
    pose proof (utf8_encode_size _ _ He) as Hs. rewrite length_take in Hs. simpl length in Hs.
    assert (k <= 4)%nat.
    { unfold decode_arith in Hd. repeat (destruct (_ : bool) in Hd); simplify_eq; lia. }
    split; [lia|]. by rewrite window by lia.
  - intros [Hl He]. pose proof (utf8_encode_size _ _ He) as Hs.
    rewrite length_take, length_drop in Hs. assert (Hk : (k <= 4)%nat) by lia.
    rewrite window in He by done.
    rewrite (decode_arith_encode cp _ (length text - offset) _ _ _ _ H0 He).
    + simpl. rewrite length_take. simpl length. do 2 f_equal. lia.
    + rewrite length_take. simpl length. lia.
    + rewrite length_take. simpl length. by replace (k `min` 4)%nat with k by lia.
Qed.

(** ** Properties of the mappings *)

(** Left/right Alt (0x04, 0x40) against left/right Command (0x08, 0x80). *)
Definition swap_modifier (m : Z) : Z :=
  if m =? 0x04 then 0x08 else if m =? 0x08 then 0x04
  else if m =? 0x40 then 0x80 else if m =? 0x80 then 0x40 else m.

Definition scancode_check (extended : bool) (code : Z) : bool :=
  let '(c, e) := hid_map_scancode code extended true in
  bool_decide (hid_map_scancode c e true = (code, extended)) &&
  bool_decide (hid_translate_scancode c e =
    (fun '(u, m) => (u, swap_modifier m)) <$> hid_translate_scancode code extended) &&
  match hid_translate_scancode code extended with
  | None => true
  | Some (u, m) => (0 <=? u) && (u <? 256) &&
      (((m =? 0) && negb (u =? 0)) ||
       ((u =? 0) && existsb (fun i => m =? Z.shiftl 1 (Z.of_nat i)) (seq 0 8)))
  end.

Lemma scancode_check_ok code extended : is_u8 code -> scancode_check extended code = true.
Proof. destruct extended; revert code; apply byte_forallb; vm_compute; reflexivity. Qed.

(** A scancode that translates gives a usage or one modifier bit. *)
Lemma translate_shape code extended u m :
  is_u8 code -> hid_translate_scancode code extended = Some (u, m) ->
  is_u8 u /\
  ((m = 0 /\ u <> 0) \/ (u = 0 /\ exists i, (i < 8)%nat /\ m = Z.shiftl 1 (Z.of_nat i))).
Proof.
  intros Hc%(scancode_check_ok _ extended) E. unfold scancode_check in Hc.
  destruct (hid_map_scancode code extended true) as [c e]. rewrite E in Hc.
  apply andb_true_iff in Hc as [_ H3].
  apply andb_true_iff in H3 as [H3 H4]. bool_hyps. split; [mlia|].
  destruct H4 as [H4|H4]; apply andb_true_iff in H4 as [H4 H5]; bool_hyps; [by left|right].
  split; [done|]. apply existsb_exists in H5 as (i & Hi & Ei). apply in_seq in Hi.
  exists i. bool_hyps. split; [lia|done].
Qed.

(** For every scancode byte, swapping Alt and Command is an involution that
    changes nothing but the modifier the key translates to, exchanging left Alt
    with left Command and right Alt with right Command; and a scancode that
    translates gives either a non-zero usage or exactly one modifier bit. *)
Theorem scancode_swap code extended :
  is_u8 code ->
  let '(c, e) := hid_map_scancode code extended true in
  hid_map_scancode c e true = (code, extended) /\
  hid_translate_scancode c e =
    (fun '(u, m) => (u, swap_modifier m)) <$> hid_translate_scancode code extended /\
  match hid_translate_scancode code extended with
  | None => True
  | Some (u, m) => is_u8 u /\
      ((m = 0 /\ u <> 0) \/ (u = 0 /\ exists i, (i < 8)%nat /\ m = Z.shiftl 1 (Z.of_nat i)))
  end.
Proof.
  intros Hc. pose proof (scancode_check_ok _ extended Hc) as H.
  unfold scancode_check in H. destruct (hid_map_scancode code extended true) as [c e].
  apply andb_true_iff in H as [H _]. apply andb_true_iff in H as [H1 H2].
  apply bool_decide_eq_true in H1, H2. split_and!; [done..|].
  destruct (hid_translate_scancode code extended) as [[u m]|] eqn:E; [|done].
  by apply translate_shape in E.
Qed.

(** A key sequence the keyboard can type. *)
Definition typable (s : string) : bool :=
  forallb (fun c => match ascii_to_hid c with Some _ => true | None => false end) (c_string s).

Lemma typable_lookup keys k s : forallb typable keys = true -> keys !! k = Some s -> typable s = true.
Proof.
  intros Hall Hk. rewrite forallb_forall in Hall. apply Hall.
  apply list_elem_of_In. by eapply list_elem_of_lookup_2.
Qed.

Lemma hangul_indices x : 0xac00 <= x <= 0xd7a3 ->
  0 <= (x - 0xac00) / (21 * 28) < 19 /\ 0 <= ((x - 0xac00) mod (21 * 28)) / 28 < 21 /\
  0 <= (x - 0xac00) mod 28 < 28.
Proof. intros; mlia. Qed.

Lemma hangul_keys_nodup : NoDup lead_keys /\ NoDup vowel_keys /\ NoDup trail_keys.
Proof. split_and!; refine (bool_decide_eq_true_1 _ _); vm_compute; reflexivity. Qed.

(** Every Hangul syllable decomposes without reading outside the jamo
    tables into a lead, a vowel and a trail sequence of keys the keyboard can
    type, and no two syllables share their sequences. *)
Theorem hangul_sequences cp :
  0xac00 <= cp <= 0xd7a3 ->
  exists l v t,
    codepoint_to_hangul_sequences cp = Some (Some l, Some v, Some t) /\
    typable l = true /\ typable v = true /\ typable t = true /\
    forall cp', codepoint_to_hangul_sequences cp' = Some (Some l, Some v, Some t) -> cp' = cp.
Proof.
  intros Hcp. destruct (hangul_indices cp Hcp) as (Hl & Hv & Ht).
  assert (Hcs : codepoint_to_hangul_sequences cp =
    Some (lead_keys !! Z.to_nat ((cp - 0xac00) / (21 * 28)),
          vowel_keys !! Z.to_nat (((cp - 0xac00) mod (21 * 28)) / 28),
          trail_keys !! Z.to_nat ((cp - 0xac00) mod 28))).
  { unfold codepoint_to_hangul_sequences. by decide_tests. }
  destruct (lookup_lt_is_Some_2 lead_keys (Z.to_nat ((cp - 0xac00) / (21 * 28)))) as [l El];
    [simpl; lia|].
  destruct (lookup_lt_is_Some_2 vowel_keys (Z.to_nat (((cp - 0xac00) mod (21 * 28)) / 28))) as [v Ev];
    [simpl; lia|].
  destruct (lookup_lt_is_Some_2 trail_keys (Z.to_nat ((cp - 0xac00) mod 28))) as [t Et];
    [simpl; lia|].
  exists l, v, t. rewrite Hcs, El, Ev, Et. split; [done|].
  split_and!; [by eapply (typable_lookup lead_keys)|by eapply (typable_lookup vowel_keys)|
    by eapply (typable_lookup trail_keys)|].
  intros cp' H. unfold codepoint_to_hangul_sequences in H.
  destruct (_ || _) eqn:E; [done|]. bool_hyps. injection H as El' Ev' Et'.
  destruct (hangul_indices cp' ltac:(lia)) as (Hl' & Hv' & Ht').
  destruct hangul_keys_nodup as (N1 & N2 & N3).
  pose proof (NoDup_lookup _ _ _ _ N1 El El'). pose proof (NoDup_lookup _ _ _ _ N2 Ev Ev').
  pose proof (NoDup_lookup _ _ _ _ N3 Et Et'). mlia.
Qed.

(** An absolute position of the client always lands in the range of the USB
    report: between 1 and 0x7fff, in the order of the client's positions, with
    the last pixel of the screen at the far end of the range. *)
Theorem scale_absolute_range value value' dimension :
  is_u16 value -> is_u16 value' -> 2 <= dimension < 2 ^ 32 -> value <= value' ->
  1 <= hid_scale_absolute value dimension <= 0x7fff /\
  hid_scale_absolute value dimension <= hid_scale_absolute value' dimension /\
  (value' = dimension - 1 -> hid_scale_absolute value' dimension = 0x7fff).
Proof.
  unfold is_u16. intros Hv Hv' Hd Hle. unfold hid_scale_absolute.
  destruct (Z.leb_spec dimension 1); [lia|].
  unfold u32, u16. rewrite !(Z.mod_small (_ * _)) by lia.
  pose proof (Z.div_le_mono (value * 0x7fff) (value' * 0x7fff) (dimension - 1) ltac:(lia) ltac:(lia)).
  pose proof (Z.div_pos (value * 0x7fff) (dimension - 1) ltac:(lia) ltac:(lia)).
  assert (value' = dimension - 1 -> value' * 0x7fff / (dimension - 1) = 0x7fff).
  { intros ->. rewrite Z.mul_comm. apply Z.div_mul. lia. }
  generalize dependent (value * 0x7fff / (dimension - 1)). intros a.
  generalize dependent (value' * 0x7fff / (dimension - 1)). intros b. intros.
  destruct (Z.ltb_spec a 1), (Z.ltb_spec b 1); bool_cases; rewrite ?Z.mod_small by lia; lia.
Qed.

Lemma pointer_button_bit flags b j i :
  (j < 5)%nat -> (i < 8)%nat ->
  Z.testbit (pointer_button flags b j) (Z.of_nat i) =
  if bool_decide (i = j) && flag flags (nth j pointer_bits 0)
  then flag flags PTR_FLAGS_DOWN else Z.testbit b (Z.of_nat i).
Proof.
  intros Hj Hi. unfold pointer_button.
  destruct (flag flags (nth j pointer_bits 0)); [|by rewrite andb_false_r]. rewrite andb_true_r.
  destruct (flag flags PTR_FLAGS_DOWN).
  - rewrite Z.lor_spec.
    destruct j as [|[|[|[|[|j]]]]]; [..|lia];
      destruct i as [|[|[|[|[|[|[|[|i]]]]]]]]; try lia;
      simpl; rewrite ?orb_true_r, ?orb_false_r; reflexivity.
  - rewrite Z.land_spec, Z.lxor_spec.
    destruct j as [|[|[|[|[|j]]]]]; [..|lia];
      destruct i as [|[|[|[|[|[|[|[|i]]]]]]]]; try lia;
      simpl; rewrite ?andb_true_r, ?andb_false_r; reflexivity.
Qed.

(** [hid_pointer_buttons] sets exactly the buttons a pointer event names to
    the event's down state: bit [i] of the five becomes the DOWN flag when the
    event carries the [i]th button flag and keeps its value otherwise, and no
    other bit changes. *)
Theorem pointer_buttons_spec buttons flags i :
  (i < 8)%nat ->
  Z.testbit (hid_pointer_buttons buttons flags) (Z.of_nat i) =
  if (i <? 5)%nat && flag flags (nth i pointer_bits 0)
  then flag flags PTR_FLAGS_DOWN else Z.testbit buttons (Z.of_nat i).
Proof.
  intros Hi. unfold hid_pointer_buttons. simpl fold_left.
  rewrite !pointer_button_bit by lia.
  destruct i as [|[|[|[|[|i]]]]]; [reflexivity..|].
  by repeat rewrite bool_decide_eq_false_2 by lia.
Qed.

(** ** Witnesses *)

Lemma utf8_codec_witness :
  utf8_decode [65; 0xed; 0x95; 0x9c; 66] 1 = Some (0xd55c, (1 + 3)%nat) <->
  (1 + 3 <= length [65; 0xed; 0x95; 0x9c; 66])%nat /\
  utf8_encode 0xd55c = Some (take 3 (drop 1 [65; 0xed; 0x95; 0x9c; 66])).
Proof.
  apply (utf8_codec [65; 0xed; 0x95; 0x9c; 66] 1 0xd55c 3).
  - repeat constructor; mlia.
  - simpl. lia.
  - lia.
Defined.

Lemma scancode_swap_witness :
  let '(c, e) := hid_map_scancode 0x38 false true in
  hid_map_scancode c e true = (0x38, false) /\
  hid_translate_scancode c e =
    (fun '(u, m) => (u, swap_modifier m)) <$> hid_translate_scancode 0x38 false /\
  match hid_translate_scancode 0x38 false with
  | None => True
  | Some (u, m) => is_u8 u /\
      ((m = 0 /\ u <> 0) \/ (u = 0 /\ exists i, (i < 8)%nat /\ m = Z.shiftl 1 (Z.of_nat i)))
  end.
Proof. apply (scancode_swap 0x38 false). mlia. Defined.

Lemma hangul_sequences_witness :
  exists l v t,
    codepoint_to_hangul_sequences 0xd55c = Some (Some l, Some v, Some t) /\
    typable l = true /\ typable v = true /\ typable t = true /\
    forall cp', codepoint_to_hangul_sequences cp' = Some (Some l, Some v, Some t) -> cp' = 0xd55c.
Proof. apply (hangul_sequences 0xd55c). lia. Defined.

Lemma scale_absolute_range_witness :
  1 <= hid_scale_absolute 100 1920 <= 0x7fff /\
  hid_scale_absolute 100 1920 <= hid_scale_absolute 1919 1920 /\
  (1919 = 1920 - 1 -> hid_scale_absolute 1919 1920 = 0x7fff).
Proof. apply (scale_absolute_range 100 1919 1920); unfold is_u16; lia. Defined.

Lemma pointer_buttons_spec_witness :
  Z.testbit (hid_pointer_buttons 0 0x9000) (Z.of_nat 0) =
  if (0 <? 5)%nat && flag 0x9000 (nth 0 pointer_bits 0)
  then flag 0x9000 PTR_FLAGS_DOWN else Z.testbit 0 (Z.of_nat 0).
Proof. apply (pointer_buttons_spec 0 0x9000 0). lia. Defined.
