(* ===== verification/Hid.v ===== *)
(** * HID output ([src/src/hid.h], [src/src/hid.c])

    The keyboard, mouse and touch state of the agent and the two queues of USB
    reports it feeds.  The kernel (clock, files, [poll], [errno]) is the class
    [HidOS]; every function is a program of the state monad over the HID state
    and the kernel. *)

From stdpp Require Import strings.
From S2P Require Import Prelude CString HidMap.

Definition HID_REPORT_QUEUE_CAPACITY : nat := 256.
Definition HID_REPORT_STALL_TIMEOUT_MS : Z := 1000.
Definition HID_KEEPALIVE_INTERVAL_MS : Z := 300000.

(** [data] is the eight-byte array, of which the first [report_length] bytes are
    the report. *)
Record HidReport := MkReport {
  report_data : bytes;
  endpoint : Z;
  report_length : nat;
  delay_ms : Z;
  motion : bool;
  paste_codepoint : Z;
  queued_at : Z }.

Definition zero_report : HidReport := MkReport (replicate 8 0) 0 0 0 false 0 0.

(** A ring of [HID_REPORT_QUEUE_CAPACITY] reports. *)
Record HidReportQueue := MkQueue {
  reports : list HidReport;
  head : nat;
  count : nat;
  ready_at : Z;
  blocked_at : Z;
  inflight_endpoint : Z }.

Definition empty_queue : HidReportQueue :=
  MkQueue (replicate HID_REPORT_QUEUE_CAPACITY zero_report) 0 0 0 0 0.

Definition queue_index (q : HidReportQueue) (i : nat) : nat :=
  ((head q + i) mod HID_REPORT_QUEUE_CAPACITY)%nat.

Definition queue_report_at (q : HidReportQueue) (i : nat) : HidReport :=
  default zero_report (reports q !! queue_index q i).

Definition set_queue_report (q : HidReportQueue) (i : nat) (r : HidReport) : HidReportQueue :=
  MkQueue (<[queue_index q i := r]> (reports q)) (head q) (count q) (ready_at q) (blocked_at q)
    (inflight_endpoint q).

Definition set_ready_at (q : HidReportQueue) (t : Z) : HidReportQueue :=
  MkQueue (reports q) (head q) (count q) t (blocked_at q) (inflight_endpoint q).

Definition set_blocked_at (q : HidReportQueue) (t : Z) : HidReportQueue :=
  MkQueue (reports q) (head q) (count q) (ready_at q) t (inflight_endpoint q).

Definition set_inflight (q : HidReportQueue) (e : Z) : HidReportQueue :=
  MkQueue (reports q) (head q) (count q) (ready_at q) (blocked_at q) e.

(** [head = (head + 1) % CAPACITY; count--] *)
Definition queue_pop (q : HidReportQueue) : HidReportQueue :=
  MkQueue (reports q) ((head q + 1) mod HID_REPORT_QUEUE_CAPACITY) (count q - 1) (ready_at q)
    (blocked_at q) (inflight_endpoint q).

(** [reports[(head + count) % CAPACITY] = r; count++] *)
Definition queue_push (q : HidReportQueue) (r : HidReport) : HidReportQueue :=
  let q' := set_queue_report q (count q) r in
  MkQueue (reports q') (head q') (count q' + 1) (ready_at q') (blocked_at q')
    (inflight_endpoint q').

Record HidState := MkHid {
  modifiers : Z;
  usages : Z -> bool;
  keyboard_queue : HidReportQueue;
  pointer_queue : HidReportQueue;
  keyboard_delay_ms : Z;
  keyboard_paste_codepoint : Z;
  reports_sent : Z;
  write_retries : Z;
  write_errors : Z;
  queue_overflows : Z;
  max_queue_age_ms : Z;
  feedback_reports : Z;
  feedback_errors : Z;
  feedback_retry_at : Z;
  keyboard_leds : Z;
  submitted_state : list Z;
  last_x : Z;
  last_y : Z;
  keepalive_at : Z;
  keepalive_dx : Z;
  buttons : Z;
  mouse_buttons : Z;
  keyboard_desynced : bool;
  wheel : Z;
  pan : Z;
  absolute_report_length : nat;
  keyboard_fd : Z;
  keyboard_feedback_fd : Z;
  mouse_fd : Z;
  touch_fd : Z;
  paste_fd : Z;
  keyboard_path : string;
  mouse_path : string;
  touch_path : string;
  paste_path : string }.

(** Assignments to one field. *)
Definition set_modifiers (h : HidState) (v : Z) : HidState :=
  MkHid v (usages h) (keyboard_queue h) (pointer_queue h) (keyboard_delay_ms h)
    (keyboard_paste_codepoint h) (reports_sent h) (write_retries h) (write_errors h)
    (queue_overflows h) (max_queue_age_ms h) (feedback_reports h) (feedback_errors h)
    (feedback_retry_at h) (keyboard_leds h) (submitted_state h) (last_x h) (last_y h)
    (keepalive_at h) (keepalive_dx h) (buttons h) (mouse_buttons h) (keyboard_desynced h) (wheel
    h) (pan h) (absolute_report_length h) (keyboard_fd h) (keyboard_feedback_fd h) (mouse_fd h)
    (touch_fd h) (paste_fd h) (keyboard_path h) (mouse_path h) (touch_path h) (paste_path h).
Definition set_usages (h : HidState) (v : Z -> bool) : HidState :=
  MkHid (modifiers h) v (keyboard_queue h) (pointer_queue h) (keyboard_delay_ms h)
    (keyboard_paste_codepoint h) (reports_sent h) (write_retries h) (write_errors h)
    (queue_overflows h) (max_queue_age_ms h) (feedback_reports h) (feedback_errors h)
    (feedback_retry_at h) (keyboard_leds h) (submitted_state h) (last_x h) (last_y h)
    (keepalive_at h) (keepalive_dx h) (buttons h) (mouse_buttons h) (keyboard_desynced h) (wheel
    h) (pan h) (absolute_report_length h) (keyboard_fd h) (keyboard_feedback_fd h) (mouse_fd h)
    (touch_fd h) (paste_fd h) (keyboard_path h) (mouse_path h) (touch_path h) (paste_path h).
Definition set_keyboard_queue (h : HidState) (v : HidReportQueue) : HidState :=
  MkHid (modifiers h) (usages h) v (pointer_queue h) (keyboard_delay_ms h)
    (keyboard_paste_codepoint h) (reports_sent h) (write_retries h) (write_errors h)
    (queue_overflows h) (max_queue_age_ms h) (feedback_reports h) (feedback_errors h)
    (feedback_retry_at h) (keyboard_leds h) (submitted_state h) (last_x h) (last_y h)
    (keepalive_at h) (keepalive_dx h) (buttons h) (mouse_buttons h) (keyboard_desynced h) (wheel
    h) (pan h) (absolute_report_length h) (keyboard_fd h) (keyboard_feedback_fd h) (mouse_fd h)
    (touch_fd h) (paste_fd h) (keyboard_path h) (mouse_path h) (touch_path h) (paste_path h).
Definition set_pointer_queue (h : HidState) (v : HidReportQueue) : HidState :=
  MkHid (modifiers h) (usages h) (keyboard_queue h) v (keyboard_delay_ms h)
    (keyboard_paste_codepoint h) (reports_sent h) (write_retries h) (write_errors h)
    (queue_overflows h) (max_queue_age_ms h) (feedback_reports h) (feedback_errors h)
    (feedback_retry_at h) (keyboard_leds h) (submitted_state h) (last_x h) (last_y h)
    (keepalive_at h) (keepalive_dx h) (buttons h) (mouse_buttons h) (keyboard_desynced h) (wheel
    h) (pan h) (absolute_report_length h) (keyboard_fd h) (keyboard_feedback_fd h) (mouse_fd h)
    (touch_fd h) (paste_fd h) (keyboard_path h) (mouse_path h) (touch_path h) (paste_path h).
Definition set_keyboard_delay_ms (h : HidState) (v : Z) : HidState :=
  MkHid (modifiers h) (usages h) (keyboard_queue h) (pointer_queue h) v
    (keyboard_paste_codepoint h) (reports_sent h) (write_retries h) (write_errors h)
    (queue_overflows h) (max_queue_age_ms h) (feedback_reports h) (feedback_errors h)
    (feedback_retry_at h) (keyboard_leds h) (submitted_state h) (last_x h) (last_y h)
    (keepalive_at h) (keepalive_dx h) (buttons h) (mouse_buttons h) (keyboard_desynced h) (wheel
    h) (pan h) (absolute_report_length h) (keyboard_fd h) (keyboard_feedback_fd h) (mouse_fd h)
    (touch_fd h) (paste_fd h) (keyboard_path h) (mouse_path h) (touch_path h) (paste_path h).
Definition set_keyboard_paste_codepoint (h : HidState) (v : Z) : HidState :=
  MkHid (modifiers h) (usages h) (keyboard_queue h) (pointer_queue h) (keyboard_delay_ms h) v
    (reports_sent h) (write_retries h) (write_errors h) (queue_overflows h) (max_queue_age_ms h)
    (feedback_reports h) (feedback_errors h) (feedback_retry_at h) (keyboard_leds h)
    (submitted_state h) (last_x h) (last_y h) (keepalive_at h) (keepalive_dx h) (buttons h)
    (mouse_buttons h) (keyboard_desynced h) (wheel h) (pan h) (absolute_report_length h)
    (keyboard_fd h) (keyboard_feedback_fd h) (mouse_fd h) (touch_fd h) (paste_fd h)
    (keyboard_path h) (mouse_path h) (touch_path h) (paste_path h).
Definition set_reports_sent (h : HidState) (v : Z) : HidState :=
  MkHid (modifiers h) (usages h) (keyboard_queue h) (pointer_queue h) (keyboard_delay_ms h)
    (keyboard_paste_codepoint h) v (write_retries h) (write_errors h) (queue_overflows h)
    (max_queue_age_ms h) (feedback_reports h) (feedback_errors h) (feedback_retry_at h)
    (keyboard_leds h) (submitted_state h) (last_x h) (last_y h) (keepalive_at h) (keepalive_dx
    h) (buttons h) (mouse_buttons h) (keyboard_desynced h) (wheel h) (pan h)
    (absolute_report_length h) (keyboard_fd h) (keyboard_feedback_fd h) (mouse_fd h) (touch_fd
    h) (paste_fd h) (keyboard_path h) (mouse_path h) (touch_path h) (paste_path h).
Definition set_write_retries (h : HidState) (v : Z) : HidState :=
  MkHid (modifiers h) (usages h) (keyboard_queue h) (pointer_queue h) (keyboard_delay_ms h)
    (keyboard_paste_codepoint h) (reports_sent h) v (write_errors h) (queue_overflows h)
    (max_queue_age_ms h) (feedback_reports h) (feedback_errors h) (feedback_retry_at h)
    (keyboard_leds h) (submitted_state h) (last_x h) (last_y h) (keepalive_at h) (keepalive_dx
    h) (buttons h) (mouse_buttons h) (keyboard_desynced h) (wheel h) (pan h)
    (absolute_report_length h) (keyboard_fd h) (keyboard_feedback_fd h) (mouse_fd h) (touch_fd
    h) (paste_fd h) (keyboard_path h) (mouse_path h) (touch_path h) (paste_path h).
Definition set_write_errors (h : HidState) (v : Z) : HidState :=
  MkHid (modifiers h) (usages h) (keyboard_queue h) (pointer_queue h) (keyboard_delay_ms h)
    (keyboard_paste_codepoint h) (reports_sent h) (write_retries h) v (queue_overflows h)
    (max_queue_age_ms h) (feedback_reports h) (feedback_errors h) (feedback_retry_at h)
    (keyboard_leds h) (submitted_state h) (last_x h) (last_y h) (keepalive_at h) (keepalive_dx
    h) (buttons h) (mouse_buttons h) (keyboard_desynced h) (wheel h) (pan h)
    (absolute_report_length h) (keyboard_fd h) (keyboard_feedback_fd h) (mouse_fd h) (touch_fd
    h) (paste_fd h) (keyboard_path h) (mouse_path h) (touch_path h) (paste_path h).
Definition set_queue_overflows (h : HidState) (v : Z) : HidState :=
  MkHid (modifiers h) (usages h) (keyboard_queue h) (pointer_queue h) (keyboard_delay_ms h)
    (keyboard_paste_codepoint h) (reports_sent h) (write_retries h) (write_errors h) v
    (max_queue_age_ms h) (feedback_reports h) (feedback_errors h) (feedback_retry_at h)
    (keyboard_leds h) (submitted_state h) (last_x h) (last_y h) (keepalive_at h) (keepalive_dx
    h) (buttons h) (mouse_buttons h) (keyboard_desynced h) (wheel h) (pan h)
    (absolute_report_length h) (keyboard_fd h) (keyboard_feedback_fd h) (mouse_fd h) (touch_fd
    h) (paste_fd h) (keyboard_path h) (mouse_path h) (touch_path h) (paste_path h).
Definition set_max_queue_age_ms (h : HidState) (v : Z) : HidState :=
  MkHid (modifiers h) (usages h) (keyboard_queue h) (pointer_queue h) (keyboard_delay_ms h)
    (keyboard_paste_codepoint h) (reports_sent h) (write_retries h) (write_errors h)
    (queue_overflows h) v (feedback_reports h) (feedback_errors h) (feedback_retry_at h)
    (keyboard_leds h) (submitted_state h) (last_x h) (last_y h) (keepalive_at h) (keepalive_dx
    h) (buttons h) (mouse_buttons h) (keyboard_desynced h) (wheel h) (pan h)
    (absolute_report_length h) (keyboard_fd h) (keyboard_feedback_fd h) (mouse_fd h) (touch_fd
    h) (paste_fd h) (keyboard_path h) (mouse_path h) (touch_path h) (paste_path h).
Definition set_feedback_reports (h : HidState) (v : Z) : HidState :=
  MkHid (modifiers h) (usages h) (keyboard_queue h) (pointer_queue h) (keyboard_delay_ms h)
    (keyboard_paste_codepoint h) (reports_sent h) (write_retries h) (write_errors h)
    (queue_overflows h) (max_queue_age_ms h) v (feedback_errors h) (feedback_retry_at h)
    (keyboard_leds h) (submitted_state h) (last_x h) (last_y h) (keepalive_at h) (keepalive_dx
    h) (buttons h) (mouse_buttons h) (keyboard_desynced h) (wheel h) (pan h)
    (absolute_report_length h) (keyboard_fd h) (keyboard_feedback_fd h) (mouse_fd h) (touch_fd
    h) (paste_fd h) (keyboard_path h) (mouse_path h) (touch_path h) (paste_path h).
Definition set_feedback_errors (h : HidState) (v : Z) : HidState :=
  MkHid (modifiers h) (usages h) (keyboard_queue h) (pointer_queue h) (keyboard_delay_ms h)
    (keyboard_paste_codepoint h) (reports_sent h) (write_retries h) (write_errors h)
    (queue_overflows h) (max_queue_age_ms h) (feedback_reports h) v (feedback_retry_at h)
    (keyboard_leds h) (submitted_state h) (last_x h) (last_y h) (keepalive_at h) (keepalive_dx
    h) (buttons h) (mouse_buttons h) (keyboard_desynced h) (wheel h) (pan h)
    (absolute_report_length h) (keyboard_fd h) (keyboard_feedback_fd h) (mouse_fd h) (touch_fd
    h) (paste_fd h) (keyboard_path h) (mouse_path h) (touch_path h) (paste_path h).
Definition set_feedback_retry_at (h : HidState) (v : Z) : HidState :=
  MkHid (modifiers h) (usages h) (keyboard_queue h) (pointer_queue h) (keyboard_delay_ms h)
    (keyboard_paste_codepoint h) (reports_sent h) (write_retries h) (write_errors h)
    (queue_overflows h) (max_queue_age_ms h) (feedback_reports h) (feedback_errors h) v
    (keyboard_leds h) (submitted_state h) (last_x h) (last_y h) (keepalive_at h) (keepalive_dx
    h) (buttons h) (mouse_buttons h) (keyboard_desynced h) (wheel h) (pan h)
    (absolute_report_length h) (keyboard_fd h) (keyboard_feedback_fd h) (mouse_fd h) (touch_fd
    h) (paste_fd h) (keyboard_path h) (mouse_path h) (touch_path h) (paste_path h).
Definition set_keyboard_leds (h : HidState) (v : Z) : HidState :=
  MkHid (modifiers h) (usages h) (keyboard_queue h) (pointer_queue h) (keyboard_delay_ms h)
    (keyboard_paste_codepoint h) (reports_sent h) (write_retries h) (write_errors h)
    (queue_overflows h) (max_queue_age_ms h) (feedback_reports h) (feedback_errors h)
    (feedback_retry_at h) v (submitted_state h) (last_x h) (last_y h) (keepalive_at h)
    (keepalive_dx h) (buttons h) (mouse_buttons h) (keyboard_desynced h) (wheel h) (pan h)
    (absolute_report_length h) (keyboard_fd h) (keyboard_feedback_fd h) (mouse_fd h) (touch_fd
    h) (paste_fd h) (keyboard_path h) (mouse_path h) (touch_path h) (paste_path h).
Definition set_submitted_state (h : HidState) (v : list Z) : HidState :=
  MkHid (modifiers h) (usages h) (keyboard_queue h) (pointer_queue h) (keyboard_delay_ms h)
    (keyboard_paste_codepoint h) (reports_sent h) (write_retries h) (write_errors h)
    (queue_overflows h) (max_queue_age_ms h) (feedback_reports h) (feedback_errors h)
    (feedback_retry_at h) (keyboard_leds h) v (last_x h) (last_y h) (keepalive_at h)
    (keepalive_dx h) (buttons h) (mouse_buttons h) (keyboard_desynced h) (wheel h) (pan h)
    (absolute_report_length h) (keyboard_fd h) (keyboard_feedback_fd h) (mouse_fd h) (touch_fd
    h) (paste_fd h) (keyboard_path h) (mouse_path h) (touch_path h) (paste_path h).
Definition set_last_x (h : HidState) (v : Z) : HidState :=
  MkHid (modifiers h) (usages h) (keyboard_queue h) (pointer_queue h) (keyboard_delay_ms h)
    (keyboard_paste_codepoint h) (reports_sent h) (write_retries h) (write_errors h)
    (queue_overflows h) (max_queue_age_ms h) (feedback_reports h) (feedback_errors h)
    (feedback_retry_at h) (keyboard_leds h) (submitted_state h) v (last_y h) (keepalive_at h)
    (keepalive_dx h) (buttons h) (mouse_buttons h) (keyboard_desynced h) (wheel h) (pan h)
    (absolute_report_length h) (keyboard_fd h) (keyboard_feedback_fd h) (mouse_fd h) (touch_fd
    h) (paste_fd h) (keyboard_path h) (mouse_path h) (touch_path h) (paste_path h).
Definition set_last_y (h : HidState) (v : Z) : HidState :=
  MkHid (modifiers h) (usages h) (keyboard_queue h) (pointer_queue h) (keyboard_delay_ms h)
    (keyboard_paste_codepoint h) (reports_sent h) (write_retries h) (write_errors h)
    (queue_overflows h) (max_queue_age_ms h) (feedback_reports h) (feedback_errors h)
    (feedback_retry_at h) (keyboard_leds h) (submitted_state h) (last_x h) v (keepalive_at h)
    (keepalive_dx h) (buttons h) (mouse_buttons h) (keyboard_desynced h) (wheel h) (pan h)
    (absolute_report_length h) (keyboard_fd h) (keyboard_feedback_fd h) (mouse_fd h) (touch_fd
    h) (paste_fd h) (keyboard_path h) (mouse_path h) (touch_path h) (paste_path h).
Definition set_keepalive_at (h : HidState) (v : Z) : HidState :=
  MkHid (modifiers h) (usages h) (keyboard_queue h) (pointer_queue h) (keyboard_delay_ms h)
    (keyboard_paste_codepoint h) (reports_sent h) (write_retries h) (write_errors h)
    (queue_overflows h) (max_queue_age_ms h) (feedback_reports h) (feedback_errors h)
    (feedback_retry_at h) (keyboard_leds h) (submitted_state h) (last_x h) (last_y h) v
    (keepalive_dx h) (buttons h) (mouse_buttons h) (keyboard_desynced h) (wheel h) (pan h)
    (absolute_report_length h) (keyboard_fd h) (keyboard_feedback_fd h) (mouse_fd h) (touch_fd
    h) (paste_fd h) (keyboard_path h) (mouse_path h) (touch_path h) (paste_path h).
Definition set_keepalive_dx (h : HidState) (v : Z) : HidState :=
  MkHid (modifiers h) (usages h) (keyboard_queue h) (pointer_queue h) (keyboard_delay_ms h)
    (keyboard_paste_codepoint h) (reports_sent h) (write_retries h) (write_errors h)
    (queue_overflows h) (max_queue_age_ms h) (feedback_reports h) (feedback_errors h)
    (feedback_retry_at h) (keyboard_leds h) (submitted_state h) (last_x h) (last_y h)
    (keepalive_at h) v (buttons h) (mouse_buttons h) (keyboard_desynced h) (wheel h) (pan h)
    (absolute_report_length h) (keyboard_fd h) (keyboard_feedback_fd h) (mouse_fd h) (touch_fd
    h) (paste_fd h) (keyboard_path h) (mouse_path h) (touch_path h) (paste_path h).
Definition set_buttons (h : HidState) (v : Z) : HidState :=
  MkHid (modifiers h) (usages h) (keyboard_queue h) (pointer_queue h) (keyboard_delay_ms h)
    (keyboard_paste_codepoint h) (reports_sent h) (write_retries h) (write_errors h)
    (queue_overflows h) (max_queue_age_ms h) (feedback_reports h) (feedback_errors h)
    (feedback_retry_at h) (keyboard_leds h) (submitted_state h) (last_x h) (last_y h)
    (keepalive_at h) (keepalive_dx h) v (mouse_buttons h) (keyboard_desynced h) (wheel h) (pan
    h) (absolute_report_length h) (keyboard_fd h) (keyboard_feedback_fd h) (mouse_fd h)
    (touch_fd h) (paste_fd h) (keyboard_path h) (mouse_path h) (touch_path h) (paste_path h).
Definition set_mouse_buttons (h : HidState) (v : Z) : HidState :=
  MkHid (modifiers h) (usages h) (keyboard_queue h) (pointer_queue h) (keyboard_delay_ms h)
    (keyboard_paste_codepoint h) (reports_sent h) (write_retries h) (write_errors h)
    (queue_overflows h) (max_queue_age_ms h) (feedback_reports h) (feedback_errors h)
    (feedback_retry_at h) (keyboard_leds h) (submitted_state h) (last_x h) (last_y h)
    (keepalive_at h) (keepalive_dx h) (buttons h) v (keyboard_desynced h) (wheel h) (pan h)
    (absolute_report_length h) (keyboard_fd h) (keyboard_feedback_fd h) (mouse_fd h) (touch_fd
    h) (paste_fd h) (keyboard_path h) (mouse_path h) (touch_path h) (paste_path h).
Definition set_keyboard_desynced (h : HidState) (v : bool) : HidState :=
  MkHid (modifiers h) (usages h) (keyboard_queue h) (pointer_queue h) (keyboard_delay_ms h)
    (keyboard_paste_codepoint h) (reports_sent h) (write_retries h) (write_errors h)
    (queue_overflows h) (max_queue_age_ms h) (feedback_reports h) (feedback_errors h)
    (feedback_retry_at h) (keyboard_leds h) (submitted_state h) (last_x h) (last_y h)
    (keepalive_at h) (keepalive_dx h) (buttons h) (mouse_buttons h) v (wheel h) (pan h)
    (absolute_report_length h) (keyboard_fd h) (keyboard_feedback_fd h) (mouse_fd h) (touch_fd
    h) (paste_fd h) (keyboard_path h) (mouse_path h) (touch_path h) (paste_path h).
Definition set_wheel (h : HidState) (v : Z) : HidState :=
  MkHid (modifiers h) (usages h) (keyboard_queue h) (pointer_queue h) (keyboard_delay_ms h)
    (keyboard_paste_codepoint h) (reports_sent h) (write_retries h) (write_errors h)
    (queue_overflows h) (max_queue_age_ms h) (feedback_reports h) (feedback_errors h)
    (feedback_retry_at h) (keyboard_leds h) (submitted_state h) (last_x h) (last_y h)
    (keepalive_at h) (keepalive_dx h) (buttons h) (mouse_buttons h) (keyboard_desynced h) v (pan
    h) (absolute_report_length h) (keyboard_fd h) (keyboard_feedback_fd h) (mouse_fd h)
    (touch_fd h) (paste_fd h) (keyboard_path h) (mouse_path h) (touch_path h) (paste_path h).
Definition set_pan (h : HidState) (v : Z) : HidState :=
  MkHid (modifiers h) (usages h) (keyboard_queue h) (pointer_queue h) (keyboard_delay_ms h)
    (keyboard_paste_codepoint h) (reports_sent h) (write_retries h) (write_errors h)
    (queue_overflows h) (max_queue_age_ms h) (feedback_reports h) (feedback_errors h)
    (feedback_retry_at h) (keyboard_leds h) (submitted_state h) (last_x h) (last_y h)
    (keepalive_at h) (keepalive_dx h) (buttons h) (mouse_buttons h) (keyboard_desynced h) (wheel
    h) v (absolute_report_length h) (keyboard_fd h) (keyboard_feedback_fd h) (mouse_fd h)
    (touch_fd h) (paste_fd h) (keyboard_path h) (mouse_path h) (touch_path h) (paste_path h).
Definition set_keyboard_fd (h : HidState) (v : Z) : HidState :=
  MkHid (modifiers h) (usages h) (keyboard_queue h) (pointer_queue h) (keyboard_delay_ms h)
    (keyboard_paste_codepoint h) (reports_sent h) (write_retries h) (write_errors h)
    (queue_overflows h) (max_queue_age_ms h) (feedback_reports h) (feedback_errors h)
    (feedback_retry_at h) (keyboard_leds h) (submitted_state h) (last_x h) (last_y h)
    (keepalive_at h) (keepalive_dx h) (buttons h) (mouse_buttons h) (keyboard_desynced h) (wheel
    h) (pan h) (absolute_report_length h) v (keyboard_feedback_fd h) (mouse_fd h) (touch_fd h)
    (paste_fd h) (keyboard_path h) (mouse_path h) (touch_path h) (paste_path h).
Definition set_keyboard_feedback_fd (h : HidState) (v : Z) : HidState :=
  MkHid (modifiers h) (usages h) (keyboard_queue h) (pointer_queue h) (keyboard_delay_ms h)
    (keyboard_paste_codepoint h) (reports_sent h) (write_retries h) (write_errors h)
    (queue_overflows h) (max_queue_age_ms h) (feedback_reports h) (feedback_errors h)
    (feedback_retry_at h) (keyboard_leds h) (submitted_state h) (last_x h) (last_y h)
    (keepalive_at h) (keepalive_dx h) (buttons h) (mouse_buttons h) (keyboard_desynced h) (wheel
    h) (pan h) (absolute_report_length h) (keyboard_fd h) v (mouse_fd h) (touch_fd h) (paste_fd
    h) (keyboard_path h) (mouse_path h) (touch_path h) (paste_path h).
Definition set_mouse_fd (h : HidState) (v : Z) : HidState :=
  MkHid (modifiers h) (usages h) (keyboard_queue h) (pointer_queue h) (keyboard_delay_ms h)
    (keyboard_paste_codepoint h) (reports_sent h) (write_retries h) (write_errors h)
    (queue_overflows h) (max_queue_age_ms h) (feedback_reports h) (feedback_errors h)
    (feedback_retry_at h) (keyboard_leds h) (submitted_state h) (last_x h) (last_y h)
    (keepalive_at h) (keepalive_dx h) (buttons h) (mouse_buttons h) (keyboard_desynced h) (wheel
    h) (pan h) (absolute_report_length h) (keyboard_fd h) (keyboard_feedback_fd h) v (touch_fd
    h) (paste_fd h) (keyboard_path h) (mouse_path h) (touch_path h) (paste_path h).
Definition set_touch_fd (h : HidState) (v : Z) : HidState :=
  MkHid (modifiers h) (usages h) (keyboard_queue h) (pointer_queue h) (keyboard_delay_ms h)
    (keyboard_paste_codepoint h) (reports_sent h) (write_retries h) (write_errors h)
    (queue_overflows h) (max_queue_age_ms h) (feedback_reports h) (feedback_errors h)
    (feedback_retry_at h) (keyboard_leds h) (submitted_state h) (last_x h) (last_y h)
    (keepalive_at h) (keepalive_dx h) (buttons h) (mouse_buttons h) (keyboard_desynced h) (wheel
    h) (pan h) (absolute_report_length h) (keyboard_fd h) (keyboard_feedback_fd h) (mouse_fd h)
    v (paste_fd h) (keyboard_path h) (mouse_path h) (touch_path h) (paste_path h).
Definition set_paste_fd (h : HidState) (v : Z) : HidState :=
  MkHid (modifiers h) (usages h) (keyboard_queue h) (pointer_queue h) (keyboard_delay_ms h)
    (keyboard_paste_codepoint h) (reports_sent h) (write_retries h) (write_errors h)
    (queue_overflows h) (max_queue_age_ms h) (feedback_reports h) (feedback_errors h)
    (feedback_retry_at h) (keyboard_leds h) (submitted_state h) (last_x h) (last_y h)
    (keepalive_at h) (keepalive_dx h) (buttons h) (mouse_buttons h) (keyboard_desynced h) (wheel
    h) (pan h) (absolute_report_length h) (keyboard_fd h) (keyboard_feedback_fd h) (mouse_fd h)
    (touch_fd h) v (keyboard_path h) (mouse_path h) (touch_path h) (paste_path h).

(** Which queue, and which file descriptor field, a pointer of the C code
    points to. *)
Inductive queue_id := KeyboardQueue | PointerQueue.
Inductive fd_slot := KeyboardFd | MouseFd | TouchFd | PasteFd.

Definition get_queue (id : queue_id) (h : HidState) : HidReportQueue :=
  match id with KeyboardQueue => keyboard_queue h | PointerQueue => pointer_queue h end.

Definition set_queue (id : queue_id) (h : HidState) (q : HidReportQueue) : HidState :=
  match id with KeyboardQueue => set_keyboard_queue h q | PointerQueue => set_pointer_queue h q end.

Definition get_fd (s : fd_slot) (h : HidState) : Z :=
  match s with
  | KeyboardFd => keyboard_fd h | MouseFd => mouse_fd h
  | TouchFd => touch_fd h | PasteFd => paste_fd h
  end.

Definition set_fd (s : fd_slot) (h : HidState) (fd : Z) : HidState :=
  match s with
  | KeyboardFd => set_keyboard_fd h fd | MouseFd => set_mouse_fd h fd
  | TouchFd => set_touch_fd h fd | PasteFd => set_paste_fd h fd
  end.

(** ** The kernel *)

Definition EINTR : Z := 4.
Definition EIO : Z := 5.
Definition EAGAIN : Z := 11.
Definition ENODEV : Z := 19.

(** What the code calls of the kernel: every call may change the kernel's state,
    [errno] included. *)
Class HidOS (W : Type) := {
  os_now : W -> Z * W;
  os_open : W -> string -> Z * W;
  os_open_read : W -> string -> Z * W;
  (** [fstat]: [None] on failure, else whether a character device. *)
  os_fstat : W -> Z -> option bool * W;
  (** [poll] of one descriptor without waiting: its result and whether
      [revents] has POLLERR, POLLHUP or POLLNVAL. *)
  os_poll : W -> Z -> (Z * bool) * W;
  os_write : W -> Z -> bytes -> Z * W;
  (** [read]: the length and the first byte. *)
  os_read : W -> Z -> (Z * Z) * W;
  os_close : W -> Z -> W;
  os_errno : W -> Z;
  os_set_errno : W -> Z -> W }.

Section Programs.
Context {W : Type} {os : HidOS W}.

(** *** The state monad *)

Definition M (A : Type) : Type := HidState * W -> A * (HidState * W).

Definition ret {A} (a : A) : M A := fun s => (a, s).
Definition bind {A B} (m : M A) (k : A -> M B) : M B := fun s => let '(a, s') := m s in k a s'.
Definition get {A} (f : HidState -> A) : M A := fun s => (f s.1, s).
Definition modify (f : HidState -> HidState) : M unit := fun s => (tt, (f s.1, s.2)).
Definition sys {A} (f : W -> A * W) : M A := fun s => let '(a, w) := f s.2 in (a, (s.1, w)).
Definition sys_ (f : W -> W) : M unit := fun s => (tt, (s.1, f s.2)).
Definition errno : M Z := fun s => (os_errno s.2, s).

Local Notation "'let*' x ':=' m 'in' k" := (bind m (fun x => k))
  (at level 100, x name, m at level 100, k at level 200, right associativity).
Local Notation "m ;; k" := (bind m (fun _ => k))
  (at level 100, k at level 200, right associativity).

(** *** Files *)

Definition is_hid_gadget (path : string) : bool := String.prefix "/dev/hidg" path.

Definition hid_fd_slot (h : HidState) (path : string) : option fd_slot :=
  if String.eqb path (keyboard_path h) then Some KeyboardFd
  else if String.eqb path (mouse_path h) then Some MouseFd
  else if String.eqb path (touch_path h) then Some TouchFd
  else if negb (String.eqb (paste_path h) "") && String.eqb path (paste_path h) then Some PasteFd
  else None.

Definition open_hid_fd (path : string) : M Z :=
  let* fd := sys (fun w => os_open w path) in
  if fd <? 0 then ret (-1)
  else
    let* status := sys (fun w => os_fstat w fd) in
    if match status with None => true | Some chr => is_hid_gadget path && negb chr end
    then sys_ (fun w => os_close w fd) ;; sys_ (fun w => os_set_errno w ENODEV) ;; ret (-1)
    else ret fd.

Definition open_keyboard_feedback (path : string) : M Z :=
  if negb (is_hid_gadget path) then ret (-1)
  else
    let* fd := sys (fun w => os_open_read w path) in
    if fd <? 0 then ret (-1)
    else
      let* status := sys (fun w => os_fstat w fd) in
      if match status with None => true | Some chr => negb chr end
      then sys_ (fun w => os_close w fd) ;; ret (-1)
      else ret fd.

(** Open the device and remember the descriptor in its slot. *)
Definition reopen (slot : option fd_slot) (path : string) : M Z :=
  let* fd := open_hid_fd path in
  match slot with
  | Some s => if 0 <=? fd then modify (fun h => set_fd s h fd) ;; ret fd else ret fd
  | None => ret fd
  end.

Definition hid_fd (path : string) : M Z :=
  let* slot := get (fun h => hid_fd_slot h path) in
  match slot with
  | Some s =>
      let* fd := get (get_fd s) in
      if 0 <=? fd then
        let* ready := sys (fun w => os_poll w fd) in
        if (0 <=? ready.1) && negb ready.2 then ret fd
        else sys_ (fun w => os_close w fd) ;; modify (fun h => set_fd s h (-1)) ;;
             reopen slot path
      else reopen slot path
  | None => reopen slot path
  end.

(** [do write while EINTR]; [interrupts] bounds the signals that can interrupt
    one write. *)
Variable interrupts : nat.

Fixpoint write_retry (fuel : nat) (fd : Z) (report : bytes) : M Z :=
  let* written := sys (fun w => os_write w fd report) in
  let* e := errno in
  match fuel with
  | O => ret written
  | S fuel => if (written <? 0) && (e =? EINTR) then write_retry fuel fd report else ret written
  end.

(** The result and [*retryable]. *)
Definition write_open_report (fd : Z) (report : bytes) : M (bool * bool) :=
  if fd <? 0 then ret (false, false)
  else
    let* written := write_retry interrupts fd report in
    let* saved_errno := errno in
    if written =? Z.of_nat (length report) then ret (true, false)
    else ret (false, saved_errno =? EAGAIN).

Definition write_hid_report (path : string) (report : bytes) : M bool :=
  let* slot := get (fun h => hid_fd_slot h path) in
  let* fd := match slot with Some _ => hid_fd path | None => open_hid_fd path end in
  let* result := write_open_report fd report in
  (match slot with
   | Some s =>
       if negb result.1 && (0 <=? fd) && negb result.2
       then sys_ (fun w => os_close w fd) ;; modify (fun h => set_fd s h (-1)) ;;
            sys_ (fun w => os_set_errno w EIO)
       else ret tt
   | None => if 0 <=? fd then sys_ (fun w => os_close w fd) else ret tt
   end) ;;
  ret result.1.

Definition hid_now : M Z := sys os_now.

(** *** Report queues *)

(** [counter++] on a 64-bit counter. *)
Definition bump_errors : M unit := modify (fun h => set_write_errors h (u64 (write_errors h + 1))).
Definition modify_queue (id : queue_id) (f : HidReportQueue -> HidReportQueue) : M unit :=
  modify (fun h => set_queue id h (f (get_queue id h))).

Definition endpoint_fd (h : HidState) (e : Z) : Z :=
  if e =? 1 then keyboard_fd h else if e =? 2 then mouse_fd h else touch_fd h.

Definition endpoint_path (h : HidState) (e : Z) : string :=
  if e =? 1 then keyboard_path h else if e =? 2 then mouse_path h else touch_path h.

(** The quoted form of the encoding, with the bounds of the 32-byte buffer:
    a backslash before a quote or a backslash. *)
Fixpoint quote_bytes (encoded payload : bytes) : option bytes :=
  match encoded with
  | [] => if (32 <? length payload + 2)%nat then None else Some (payload ++ [39; 10])
  | b :: encoded =>
      if (b =? 39) || (b =? 92) then
        if (32 <=? length payload + 2)%nat then None
        else quote_bytes encoded (payload ++ [92; b])
      else if (32 <=? length payload + 1)%nat then None
      else quote_bytes encoded (payload ++ [b])
  end.

Definition write_paste_codepoint (codepoint : Z) : M bool :=
  let* fd := get paste_fd in
  if fd <? 0 then ret false
  else match utf8_encode codepoint with
       | None => ret false
       | Some encoded =>
           match quote_bytes encoded [39] with
           | None => ret false
           | Some payload => let* path := get paste_path in write_hid_report path payload
           end
       end.

(** What a loop iteration of [flush_reports] decides. *)
Inductive flow := Return (ok : bool) | Continue.

(** Across endpoints: wait until the previous endpoint has completed. *)
Definition await_endpoint (id : queue_id) (e : Z) (now : Z) : M flow :=
  let* q := get (get_queue id) in
  if negb (inflight_endpoint q =? 0) && negb (inflight_endpoint q =? e) then
    let* fd := get (fun h => endpoint_fd h (inflight_endpoint q)) in
    let* ready := if fd <? 0 then ret (-1, false) else sys (fun w => os_poll w fd) in
    let* err := errno in
    if (ready.1 =? 0) || ((ready.1 <? 0) && (err =? EINTR)) then
      (if blocked_at q =? 0 then modify_queue id (fun q => set_blocked_at q now) else ret tt) ;;
      ret (Return true)
    else if (ready.1 <? 0) || ready.2 then bump_errors ;; ret (Return false)
    else modify_queue id (fun q => set_inflight q 0) ;; ret Continue
  else ret Continue.

(** Bookkeeping behind a successful write of the head report. *)
Definition submitted (id : queue_id) (r : HidReport) (now : Z) : M unit :=
  modify_queue id (fun q => set_inflight (set_blocked_at q 0) (endpoint r)) ;;
  let age := u64 (now - queued_at r) in
  modify (fun h => set_submitted_state h
    (<[Z.to_nat (endpoint r - 1) := byte_at (report_data r) 0]> (submitted_state h))) ;;
  modify (fun h => if max_queue_age_ms h <? age then set_max_queue_age_ms h age else h) ;;
  modify (fun h => set_reports_sent h (u64 (reports_sent h + 1))) ;;
  modify_queue id (fun q => queue_pop (set_ready_at q (u64 (now + delay_ms r)))).

Definition flush_head (id : queue_id) (r : HidReport) (now : Z) : M flow :=
  if negb (paste_codepoint r =? 0) then
    let* ok := write_paste_codepoint (paste_codepoint r) in
    if negb ok then bump_errors ;; ret (Return false)
    else
      modify_queue id (fun q => set_ready_at
        (set_queue_report q 0 (MkReport (report_data r) (endpoint r) (report_length r) (delay_ms r)
           (motion r) 0 (queued_at r))) (u64 (now + 30))) ;;
      ret (Return true)
  else
    let* path := get (fun h => endpoint_path h (endpoint r)) in
    let* ok := write_hid_report path (take (report_length r) (report_data r)) in
    if negb ok then
      modify_queue id (fun q => if blocked_at q =? 0 then set_blocked_at q now else q) ;;
      let* e := errno in
      if e =? EAGAIN
      then modify (fun h => set_write_retries h (u64 (write_retries h + 1))) ;; ret (Return true)
      else bump_errors ;; modify_queue id (fun q => set_ready_at q (u64 (now + 100))) ;;
           ret (Return false)
    else submitted id r now ;; ret Continue.

(** The body of the loop of [flush_reports]. *)
Definition flush_one (id : queue_id) : M flow :=
  let* now := hid_now in
  let* q := get (get_queue id) in
  if now <? ready_at q then ret (Return true)
  else if negb (blocked_at q =? 0) && (HID_REPORT_STALL_TIMEOUT_MS <=? u64 (now - blocked_at q))
  then bump_errors ;; ret (Return false)
  else
    let r := queue_report_at q 0 in
    let* go := await_endpoint id (endpoint r) now in
    match go with
    | Return ok => ret (Return ok)
    | Continue => flush_head id r now
    end.

(** Every iteration that does not return takes one report off the queue. *)
Fixpoint flush_loop (fuel : nat) (id : queue_id) : M bool :=
  let* q := get (get_queue id) in
  if (0 <? count q)%nat then
    match fuel with
    | O => ret false
    | S fuel =>
        let* go := flush_one id in
        match go with
        | Return ok => ret ok
        | Continue => flush_loop fuel id
        end
    end
  else ret true.

Definition flush_reports (id : queue_id) : M bool :=
  let* q := get (get_queue id) in flush_loop (count q) id.

(** [memcpy(previous->data, data, length)] *)
Definition overwrite (old data : bytes) : bytes := data ++ drop (length data) old.

Definition path_endpoint (h : HidState) (path : string) : Z :=
  if String.eqb path (keyboard_path h) then 1
  else if String.eqb path (mouse_path h) then 2 else 3.

(** The last report can take the new motion. *)
Definition coalesces (q : HidReportQueue) (e : Z) (data : bytes) (motion' : bool) : bool :=
  motion' && (0 <? count q)%nat &&
  (let previous := queue_report_at q (count q - 1) in
   motion previous && (endpoint previous =? e) && (byte_at (report_data previous) 0 =? byte_at data 0)).

Definition append_report (id : queue_id) (e : Z) (data : bytes) (motion' : bool) (delay : Z)
    : M bool :=
  let* now := hid_now in
  let* paste := get keyboard_paste_codepoint in
  modify_queue id (fun q => queue_push q
    (MkReport (overwrite (replicate 8 0) data) e (length data) delay motion'
       (match id with KeyboardQueue => paste | PointerQueue => 0 end) now)) ;;
  flush_reports id.

Definition queue_report (id : queue_id) (path : string) (data : bytes) (motion' : bool) (delay : Z)
    : M bool :=
  let* e := get (fun h => path_endpoint h path) in
  let* q := get (get_queue id) in
  if coalesces q e data motion' then
    modify_queue id (fun q =>
      let previous := queue_report_at q (count q - 1) in
      set_queue_report q (count q - 1)
        (MkReport (overwrite (report_data previous) data) (endpoint previous)
           (report_length previous) (delay_ms previous) (motion previous)
           (paste_codepoint previous) (queued_at previous))) ;;
    flush_reports id
  else if (count q =? HID_REPORT_QUEUE_CAPACITY)%nat then
    let* _ := flush_reports id in
    let* q := get (get_queue id) in
    if (count q =? HID_REPORT_QUEUE_CAPACITY)%nat then
      modify (fun h => set_queue_overflows h (u64 (queue_overflows h + 1))) ;; ret false
    else append_report id e data motion' delay
  else append_report id e data motion' delay.

(** *** Keyboard *)

Definition reset_keyboard_state (desynced : bool) : M unit :=
  modify (fun h => set_keyboard_desynced (set_modifiers (set_usages h (fun _ => false)) 0) desynced).

(** The pressed usages in ascending order. *)
Definition pressed (u : Z -> bool) : bytes :=
  filter (fun x => Is_true (u x)) (map Z.of_nat (seq 0 256)).

Definition keyboard_report (h : HidState) : bytes :=
  let keys := take 6 (pressed (usages h)) in
  modifiers h :: 0 :: keys ++ replicate (6 - length keys) 0.

Definition send_keyboard : M bool :=
  let* report := get keyboard_report in
  let* path := get keyboard_path in
  let* delay := get keyboard_delay_ms in
  let* ok := queue_report KeyboardQueue path report false delay in
  modify (fun h => set_keyboard_desynced h (0 <? count (keyboard_queue h))%nat) ;;
  ret ok.

Definition hid_keyboard_pending (h : HidState) : bool := (0 <? count (keyboard_queue h))%nat.

Definition hid_keyboard_flush : M unit :=
  let* _ := flush_reports KeyboardQueue in
  modify (fun h => set_keyboard_desynced h (0 <? count (keyboard_queue h))%nat).

Definition hid_pending (h : HidState) : bool :=
  negb (count (keyboard_queue h) =? 0)%nat || negb (count (pointer_queue h) =? 0)%nat.

(** Up to [batch] reads of LED reports. *)
Fixpoint feedback_loop (batch : nat) (now : Z) : M unit :=
  match batch with
  | O => ret tt
  | S batch =>
      let* fd := get keyboard_feedback_fd in
      let* result := sys (fun w => os_read w fd) in
      let* e := errno in
      if 0 <? result.1 then
        modify (fun h => set_feedback_reports h (u64 (feedback_reports h + 1))) ;;
        modify (fun h => set_keyboard_leds h (Z.land result.2 0x1f)) ;;
        feedback_loop batch now
      else if (result.1 <? 0) && (e =? EINTR) then feedback_loop batch now
      else if (result.1 <? 0) && (e =? EAGAIN) then ret tt
      else
        modify (fun h => set_feedback_errors h (u64 (feedback_errors h + 1))) ;;
        sys_ (fun w => os_close w fd) ;;
        modify (fun h => set_feedback_retry_at (set_keyboard_feedback_fd h (-1)) (u64 (now + 1000)))
  end.

Definition drain_keyboard_feedback : M unit :=
  let* now := hid_now in
  let* fd := get keyboard_feedback_fd in
  let* retry_at := get feedback_retry_at in
  (if (fd <? 0) && (retry_at <=? now) then
     let* path := get keyboard_path in
     let* fd := open_keyboard_feedback path in
     modify (fun h => set_feedback_retry_at (set_keyboard_feedback_fd h fd) (u64 (now + 1000)))
   else ret tt) ;;
  let* fd := get keyboard_feedback_fd in
  if fd <? 0 then ret tt else feedback_loop 32 now.

Definition hid_flush : M bool :=
  drain_keyboard_feedback ;;
  let* keyboard := flush_reports KeyboardQueue in
  let* pointer := flush_reports PointerQueue in
  modify (fun h => set_keyboard_desynced h (0 <? count (keyboard_queue h))%nat) ;;
  ret (keyboard && pointer).

(** The descriptors to poll: [(fd, true)] for POLLOUT, [(fd, false)] for POLLIN. *)
Definition queue_pollfd (h : HidState) (now : Z) (id : queue_id) : list (Z * bool) :=
  let q := get_queue id h in
  if (count q =? 0)%nat || (now <? ready_at q) then []
  else
    let e := endpoint (queue_report_at q 0) in
    let e := if negb (inflight_endpoint q =? 0) && negb (inflight_endpoint q =? e)
             then inflight_endpoint q else e in
    let fd := endpoint_fd h e in
    if 0 <=? fd then [(fd, true)] else [].

Definition hid_pollfds : M (list (Z * bool)) :=
  let* now := hid_now in
  get (fun h =>
    queue_pollfd h now KeyboardQueue ++ queue_pollfd h now PointerQueue ++
    (if 0 <=? keyboard_feedback_fd h then [(keyboard_feedback_fd h, false)] else [])).

(** One queue's contribution; [u64 idle] is the cast of the comparison. *)
Definition queue_timeout (h : HidState) (now : Z) (idle_ms : Z) (id : queue_id) : Z :=
  let q := get_queue id h in
  if (count q =? 0)%nat then idle_ms
  else
    let delay := if now <? ready_at q then u64 (ready_at q - now) else 5 in
    if delay <? u64 idle_ms then delay else idle_ms.

Definition hid_poll_timeout (idle_ms : Z) : M Z :=
  let* now := hid_now in
  get (fun h => queue_timeout h now (queue_timeout h now idle_ms KeyboardQueue) PointerQueue).

Definition set_usage (h : HidState) (u : Z) (v : bool) : HidState :=
  set_usages h (fun x => if x =? u then v else usages h x).

Definition hid_scancode (code : Z) (extended release : bool) : M bool :=
  match hid_translate_scancode code extended with
  | None => ret true
  | Some (u, m) =>
      let* down := get (fun h => if negb (m =? 0) then negb (Z.land (modifiers h) m =? 0)
                                 else usages h u) in
      if Bool.eqb down (negb release) then ret true
      else
        modify (fun h =>
          if negb (m =? 0) then
            if release then set_modifiers h (Z.land (modifiers h) (Z.lxor 0xff m))
            else set_modifiers h (Z.lor (modifiers h) m)
          else set_usage h u (negb release)) ;;
        send_keyboard
  end.

(** *** Text *)

Definition tap_text_key (key : HidTextKey) : M bool :=
  let* saved_modifiers := get modifiers in
  let* saved_usage := get (fun h => usages h (usage key)) in
  modify (fun h => set_usage (set_modifiers h (Z.lor saved_modifiers (modifier key))) (usage key) true) ;;
  let* ok := send_keyboard in
  if negb ok then ret false
  else
    modify (fun h => set_usage (set_modifiers h saved_modifiers) (usage key) saved_usage) ;;
    let* ok := send_keyboard in
    if negb ok then ret false else ret true.

Fixpoint type_ascii_sequence (sequence : bytes) : M bool :=
  match sequence with
  | [] => ret true
  | c :: sequence =>
      match ascii_to_hid c with
      | None => ret false
      | Some key =>
          let* ok := tap_text_key key in
          if negb ok then ret false else type_ascii_sequence sequence
      end
  end.

(** [a && b] of two programs. *)
Definition and_then (a b : M bool) : M bool :=
  let* ok := a in if ok then b else ret false.

(** A missing table entry would be an out-of-range read; see
    [hangul_sequences]. *)
Definition type_entry (s : option string) : M bool :=
  match s with Some s => type_ascii_sequence (c_string s) | None => ret false end.

Definition type_codepoint (codepoint : Z) : M bool :=
  match (if codepoint <=? 0x7f then ascii_to_hid (u8 codepoint) else None) with
  | Some key => tap_text_key key
  | None =>
      match codepoint_to_hangul_sequences codepoint with
      | Some (lead, vowel, trail) =>
          and_then (type_entry lead) (and_then (type_entry vowel) (type_entry trail))
      | None =>
          match hangul_jamo_sequence codepoint with
          | Some sequence => type_ascii_sequence (c_string sequence)
          | None => ret false
          end
      end
  end.

Definition type_paste_codepoint (codepoint : Z) : M bool :=
  let* fd := get paste_fd in
  if fd <? 0 then ret false
  else
    let* saved := get modifiers in
    modify (fun h => set_keyboard_paste_codepoint
      (set_usage (set_modifiers (set_usages h (fun _ => false)) 0x08) 0x19 true) codepoint) ;;
    let* queued := send_keyboard in
    modify (fun h => set_keyboard_paste_codepoint h 0) ;;
    if negb queued then ret false
    else
      modify (fun h => set_modifiers (set_usage h 0x19 false) saved) ;;
      send_keyboard.

(** *** Pointer *)

Definition pointer_queue_busy (h : HidState) : bool := negb (count (pointer_queue h) =? 0)%nat.

Definition write_absolute_now (report : bytes) : M bool :=
  let* busy := get (fun h => pointer_queue_busy h ||
                             negb (inflight_endpoint (pointer_queue h) =? 0) || (touch_fd h <? 0)) in
  if busy then ret false
  else
    let* fd := get touch_fd in
    let* written := sys (fun w => os_write w fd report) in
    if negb (written =? Z.of_nat (length report)) then ret false
    else
      modify (fun h => set_reports_sent
        (set_submitted_state h (<[2%nat := byte_at report 0]> (submitted_state h)))
        (u64 (reports_sent h + 1))) ;;
      ret true.

(** The first [absolute_report_length] bytes of the seven. *)
Definition absolute_report (h : HidState) : bytes :=
  take (absolute_report_length h)
    ([touch_buttons (buttons h)] ++ write_touch_position (last_x h) (last_y h) ++
     [u8 (wheel h); if (absolute_report_length h =? 7)%nat then u8 (pan h) else 0]).

Definition send_absolute (motion' : bool) : M bool :=
  let* report := get absolute_report in
  let* pure_motion := get (fun h => motion' && (wheel h =? 0) && (pan h =? 0)) in
  let* written := if pure_motion then write_absolute_now report else ret false in
  if written then ret true
  else
    let* path := get touch_path in
    let* ok := queue_report PointerQueue path report pure_motion 0 in
    modify (fun h => set_pan (set_wheel h 0) 0) ;;
    ret ok.

Definition send_relative (dx dy wheel' : Z) : M bool :=
  let* report := get (fun h => [Z.land (buttons h) HID_MOUSE_BUTTONS_MASK; u8 dx; u8 dy; u8 wheel']) in
  let* path := get mouse_path in
  queue_report PointerQueue path report false 0.

Definition hid_keepalive (now_ms : Z) : M bool :=
  let* idle := get (fun h => (now_ms <? keepalive_at h) || hid_pending h ||
                             negb (buttons h =? 0) || negb (modifiers h =? 0)) in
  if idle then ret true
  else
    let* held := get (fun h => existsb (usages h) (map Z.of_nat (seq 0 256))) in
    if held then ret true
    else
      modify (fun h => set_keepalive_at h (u64 (now_ms + HID_KEEPALIVE_INTERVAL_MS))) ;;
      let* dx := get keepalive_dx in
      let* ok := send_relative dx 0 0 in
      (if ok then modify (fun h => set_keepalive_dx h (i8 (- keepalive_dx h))) else ret tt) ;;
      ret ok.

Definition POINTER_BUTTON_FLAGS : Z :=
  Z.lor (Z.lor (Z.lor (Z.lor PTR_FLAGS_BUTTON1 PTR_FLAGS_BUTTON2) PTR_FLAGS_BUTTON3)
    PTR_XFLAGS_BUTTON1) PTR_XFLAGS_BUTTON2.

Definition hid_absolute (x y width height flags : Z) : M bool :=
  let* previous := get buttons in
  modify (fun h =>
    let b := hid_pointer_buttons (buttons h) flags in
    set_last_y (set_last_x (set_mouse_buttons (set_buttons h b) b) (hid_scale_absolute x width))
      (hid_scale_absolute y height)) ;;
  let motion' := Z.land flags POINTER_BUTTON_FLAGS =? 0 in
  let* ok := send_absolute motion' in
  if negb ok then ret false
  else
    let* same := get (fun h => Z.land (Z.lxor previous (buttons h)) HID_MOUSE_BUTTONS_MASK =? 0) in
    if same then ret true else send_relative 0 0 0.

(** One axis of one report. *)
Definition axis_step (x : Z) : Z := if 127 <? x then 127 else if x <? -127 then -127 else x.

(** [while (x != 0 || y != 0)]; 259 reports of 127 units cover the 16-bit range. *)
Fixpoint relative_loop (fuel : nat) (x y : Z) : M bool :=
  if negb (x =? 0) || negb (y =? 0) then
    match fuel with
    | O => ret false
    | S fuel =>
        let dx := axis_step x in
        let dy := axis_step y in
        let* ok := send_relative dx dy 0 in
        if negb ok then ret false else relative_loop fuel (i16 (x - dx)) (i16 (y - dy))
    end
  else ret true.

Definition hid_relative (x y buttons' : Z) : M bool :=
  let next := Z.land buttons' HID_TOUCH_BUTTONS_MASK in
  let* changed := get (fun h => Z.lxor (buttons h) next) in
  modify (fun h => set_mouse_buttons (set_buttons h next) next) ;;
  let* ok := if negb (Z.land changed 0x18 =? 0) then send_absolute false else ret true in
  if negb ok then ret false
  else if (x =? 0) && (y =? 0) then
    if Z.land changed HID_MOUSE_BUTTONS_MASK =? 0 then ret true else send_relative 0 0 0
  else relative_loop 259 x y.

Definition hid_wheel (flags : Z) : M bool :=
  let vertical := flag flags PTR_FLAGS_WHEEL in
  let horizontal := flag flags PTR_FLAGS_HWHEEL in
  if negb vertical && negb horizontal then ret true
  else
    let detents := wheel_detents flags in
    if horizontal && negb vertical then
      let* seven := get (fun h => (absolute_report_length h =? 7)%nat) in
      if negb seven then ret true
      else modify (fun h => set_pan h (i8 detents)) ;; send_absolute false
    else send_relative 0 0 (i8 detents).

(** *** Resynchronization *)

Definition hid_synchronize : M bool :=
  modify (fun h => set_keyboard_paste_codepoint (set_keyboard_delay_ms h 0) 0) ;;
  reset_keyboard_state false ;;
  modify (fun h => set_pan (set_wheel (set_mouse_buttons (set_buttons h 0) 0) 0) 0) ;;
  let* keyboard_ok := send_keyboard in
  let* path := get mouse_path in
  let* mouse_ok := queue_report PointerQueue path [0; 0; 0; 0] false 0 in
  let* absolute_ok := send_absolute false in
  ret (keyboard_ok && mouse_ok && absolute_ok).

Definition hid_release_all : M unit :=
  modify (fun h => set_pointer_queue (set_keyboard_queue h empty_queue) empty_queue) ;;
  let* _ := hid_synchronize in ret tt.

Definition types_directly (codepoint : Z) : bool :=
  (codepoint <=? 0x7f) || ((0xac00 <=? codepoint) && (codepoint <=? 0xd7a3)) ||
  match hangul_jamo_sequence codepoint with Some _ => true | None => false end.

(** [for (offset = 0; ok && offset < length;)]; every code point takes at least
    one byte. *)
Fixpoint type_loop (fuel : nat) (text : bytes) (offset : nat) : M bool :=
  if (offset <? length text)%nat then
    match fuel with
    | O => ret false
    | S fuel =>
        match utf8_decode text offset with
        | None => ret false
        | Some (codepoint, offset') =>
            let* ok := if types_directly codepoint then type_codepoint codepoint
                       else type_paste_codepoint codepoint in
            if ok then type_loop fuel text offset' else ret false
        end
    end
  else ret true.

(** The single shortcut key of [hid_type_utf8], if the call is one. *)
Definition shortcut_key (h : HidState) (text : bytes) : option HidTextKey :=
  if (length text =? 1)%nat && negb (modifiers h =? 0) then ascii_to_hid (byte_at text 0) else None.

Definition hid_type_utf8 (text : bytes) : M bool :=
  if (length text =? 0)%nat then ret false
  else
    modify (fun h => set_keyboard_delay_ms h 20) ;;
    let* shortcut := get (fun h => shortcut_key h text) in
    let* ok :=
      match shortcut with
      | Some key => tap_text_key key
      | None =>
          reset_keyboard_state false ;;
          let* ok := send_keyboard in
          if ok then type_loop (length text) text 0 else ret false
      end in
    modify (fun h => set_keyboard_delay_ms h 0) ;;
    (if ok then ret tt else hid_release_all) ;;
    ret ok.

(** *** Initialization *)

(** The environment variable as [strtol] reads it, and the descriptor file's
    first 96 bytes ([None]: cannot be opened or read). *)
Definition absolute_report_length_of (path : string) (configured : option Z)
    (descriptor : option bytes) : nat :=
  match configured with
  | Some 6 => 6%nat
  | Some 7 => 7%nat
  | _ =>
      if negb (String.eqb path "/dev/hidg2") then 6%nat
      else match descriptor with
           | None => 6%nat
           | Some d =>
               if (length d <? 8)%nat then 6%nat
               else if existsb (fun i => (byte_at d i =? 0x0a) && (byte_at d (i + 1) =? 0x38) &&
                                         (byte_at d (i + 2) =? 0x02)) (seq 0 (length d - 2))
               then 7%nat else 6%nat
           end
  end.

(** [snprintf] into a buffer of 128 bytes. *)
Definition path_of (given : option string) (fallback : string) : string :=
  String.substring 0 127 (default fallback given).

Definition hid_blank (keyboard mouse touch : option string) (configured : option Z)
    (descriptor : option bytes) (now : Z) : HidState :=
  let kp := path_of keyboard "/dev/hidg0" in
  let mp := path_of mouse "/dev/hidg1" in
  let tp := path_of touch "/dev/hidg2" in
  MkHid 0 (fun _ => false) empty_queue empty_queue 0 0 0 0 0 0 0 0 0 0 0 [0; 0; 0] 0x3fff 0x3fff
    (u64 (now + HID_KEEPALIVE_INTERVAL_MS)) 1 0 0 false 0 0
    (absolute_report_length_of tp configured descriptor) (-1) (-1) (-1) (-1) (-1)
    kp mp tp (kp +:+ ".paste").

Definition open_slot (s : fd_slot) (path : HidState -> string) : M unit :=
  let* p := get path in
  let* fd := open_hid_fd p in
  modify (fun h => set_fd s h fd).

Definition hid_init (keyboard mouse touch : option string) (configured : option Z)
    (descriptor : option bytes) : M unit :=
  let* now := hid_now in
  modify (fun _ => hid_blank keyboard mouse touch configured descriptor now) ;;
  open_slot KeyboardFd keyboard_path ;;
  (let* p := get keyboard_path in
   let* fd := open_keyboard_feedback p in
   modify (fun h => set_keyboard_feedback_fd h fd)) ;;
  open_slot MouseFd mouse_path ;;
  open_slot TouchFd touch_path ;;
  open_slot PasteFd paste_path.
End Programs.
