(* ===== verification/HidSpec.v ===== *)
(** * What the HID layer promises

    The ring buffers refine FIFO lists; every report that is queued reaches the
    kernel once, in order, or is still pending; text input and resynchronization
    leave no key or button held. *)

From stdpp Require Import strings.
From S2P Require Import Prelude CString HidMap Hid.

(** ** The ring is a FIFO *)

Definition contents (q : HidReportQueue) : list HidReport :=
  map (queue_report_at q) (seq 0 (count q)).

Definition queue_ok (q : HidReportQueue) : Prop :=
  length (reports q) = HID_REPORT_QUEUE_CAPACITY /\ (head q < HID_REPORT_QUEUE_CAPACITY)%nat /\
  (count q <= HID_REPORT_QUEUE_CAPACITY)%nat.

(** Same ring, other bookkeeping. *)
Definition same_ring (q q' : HidReportQueue) : Prop :=
  reports q' = reports q /\ head q' = head q /\ count q' = count q.

Lemma same_ring_contents q q' : same_ring q q' -> contents q' = contents q.
Proof.
  intros (Er & Eh & Ec). unfold contents, queue_report_at, queue_index. by rewrite Er, Eh, Ec.
Qed.

Lemma same_ring_ok q q' : same_ring q q' -> queue_ok q -> queue_ok q'.
Proof. intros (Er & Eh & Ec). unfold queue_ok. by rewrite Er, Eh, Ec. Qed.

Lemma empty_queue_ok : queue_ok empty_queue.
Proof.
  unfold queue_ok, empty_queue. cbn [reports head count].
  rewrite length_replicate. unfold HID_REPORT_QUEUE_CAPACITY. lia.
Qed.

(** Distinct positions of the ring have distinct indices. *)
Lemma queue_index_inj q i j :
  queue_ok q -> (i < HID_REPORT_QUEUE_CAPACITY)%nat -> (j < HID_REPORT_QUEUE_CAPACITY)%nat ->
  queue_index q i = queue_index q j -> i = j.
Proof.
  intros (_ & Hh & _) Hi Hj E. unfold queue_index, HID_REPORT_QUEUE_CAPACITY in *.
  pose proof (Nat.div_mod_eq (head q + i) 256). pose proof (Nat.div_mod_eq (head q + j) 256).
  assert ((head q + i) / 256 < 2)%nat by (apply Nat.Div0.div_lt_upper_bound; lia).
  assert ((head q + j) / 256 < 2)%nat by (apply Nat.Div0.div_lt_upper_bound; lia).
  lia.
Qed.

Lemma queue_index_lt q i : (queue_index q i < HID_REPORT_QUEUE_CAPACITY)%nat.
Proof. apply Nat.mod_upper_bound. done. Qed.

Lemma report_at_set q i j r :
  queue_ok q -> (i < HID_REPORT_QUEUE_CAPACITY)%nat -> (j < HID_REPORT_QUEUE_CAPACITY)%nat ->
  queue_report_at (set_queue_report q i r) j = if decide (i = j) then r else queue_report_at q j.
Proof.
  intros Hq Hi Hj. unfold queue_report_at, set_queue_report. cbn [reports].
  change (queue_index (MkQueue _ (head q) _ _ _ _) j) with (queue_index q j).
  case_decide as E.
  - subst. rewrite list_lookup_insert_eq; [done|]. destruct Hq as (-> & _). apply queue_index_lt.
  - rewrite list_lookup_insert_ne; [done|]. intros H. by apply E, (queue_index_inj q).
Qed.

Lemma contents_push q r :
  queue_ok q -> (count q < HID_REPORT_QUEUE_CAPACITY)%nat ->
  contents (queue_push q r) = contents q ++ [r] /\ queue_ok (queue_push q r).
Proof.
  intros Hq Hc. split.
  - unfold contents. cbn [queue_push count set_queue_report].
    rewrite seq_app, map_app. f_equal.
    + apply map_ext_in. intros i Hi%in_seq.
      change (queue_report_at (queue_push q r) i) with
        (queue_report_at (set_queue_report q (count q) r) i).
      rewrite report_at_set by (done || lia). case_decide; [lia|done].
    + simpl. change (queue_report_at (queue_push q r) (count q)) with
        (queue_report_at (set_queue_report q (count q) r) (count q)).
      rewrite report_at_set by done. by rewrite decide_True.
  - destruct Hq as (Hl & Hh & _). unfold queue_ok. cbn [queue_push set_queue_report reports head count].
    rewrite length_insert. split_and!; [done..|]. lia.
Qed.

Lemma contents_pop q :
  queue_ok q -> (0 < count q)%nat ->
  contents q = queue_report_at q 0 :: contents (queue_pop q) /\ queue_ok (queue_pop q).
Proof.
  intros Hq Hc. pose proof Hq as (Hl & Hh & Hcap). split.
  - unfold contents. cbn [queue_pop count]. destruct (count q) as [|n] eqn:E; [lia|].
    replace (S n - 1)%nat with n by lia. simpl. f_equal.
    rewrite <- seq_shift, map_map. apply map_ext. intros i.
    unfold queue_report_at. cbn [queue_pop reports]. f_equal. f_equal.
    unfold queue_index. cbn [queue_pop head].
    rewrite Nat.Div0.add_mod_idemp_l. f_equal. lia.
  - unfold queue_ok. cbn [queue_pop reports head count].
    split_and!; [done|apply Nat.mod_upper_bound; done|lia].
Qed.

(** Replacing the newest report. *)
Lemma contents_set_last q r :
  queue_ok q -> (0 < count q)%nat ->
  exists rest, contents q = rest ++ [queue_report_at q (count q - 1)] /\
    contents (set_queue_report q (count q - 1) r) = rest ++ [r] /\
    queue_ok (set_queue_report q (count q - 1) r).
Proof.
  intros Hq Hc. pose proof Hq as (Hl & Hh & Hcap).
  exists (map (queue_report_at q) (seq 0 (count q - 1))).
  unfold contents. cbn [set_queue_report count].
  assert (Es : seq 0 (count q) = seq 0 (count q - 1) ++ [(count q - 1)%nat]).
  { replace (count q) with (count q - 1 + 1)%nat at 1 by lia. by rewrite seq_app. }
  rewrite Es, !map_app. split_and!; [done| |unfold queue_ok; simpl; by rewrite length_insert|done..].
  f_equal.
  - apply map_ext_in. intros i Hi%in_seq. rewrite report_at_set by (done || lia).
    case_decide; [lia|done].
  - simpl. rewrite report_at_set by (done || lia). by rewrite decide_True.
Qed.

(** Replacing the oldest report by one that looks the same on the wire. *)
Definition wire (r : HidReport) : Z * bytes := (endpoint r, take (report_length r) (report_data r)).

(** ** What a program leaves alone *)

Section Frames.
Context {W : Type} {os : HidOS W}.

(** [m] does not change what [f] sees of the state. *)
Definition keeps {A B} (f : HidState * W -> B) (m : M (W := W) A) : Prop :=
  forall s, f (m s).2 = f s.

Lemma keeps_ret {A B} (f : HidState * W -> B) (a : A) : keeps f (ret a).
Proof. done. Qed.
Lemma keeps_bind {A C B} (f : HidState * W -> B) (m : M A) (k : A -> M C) :
  keeps f m -> (forall a, keeps f (k a)) -> keeps f (bind m k).
Proof.
  intros Hm Hk s. unfold bind. specialize (Hm s). destruct (m s) as [a s']. by rewrite (Hk a s').
Qed.
Lemma keeps_get {A B} (f : HidState * W -> B) (g : HidState -> A) : keeps f (get g).
Proof. done. Qed.
Lemma keeps_errno {B} (f : HidState * W -> B) : keeps f errno.
Proof. done. Qed.
Lemma keeps_modify {B} (f : HidState * W -> B) g :
  (forall h w, f (g h, w) = f (h, w)) -> keeps f (modify g).
Proof. intros H [h w]. apply H. Qed.
Lemma keeps_sys {A B} (f : HidState * W -> B) (g : W -> A * W) :
  (forall h w, f (h, (g w).2) = f (h, w)) -> keeps f (sys g).
Proof. intros H [h w]. unfold sys. simpl. specialize (H h w). by destruct (g w). Qed.
Lemma keeps_sys_ {B} (f : HidState * W -> B) (g : W -> W) :
  (forall h w, f (h, g w) = f (h, w)) -> keeps f (sys_ g).
Proof. intros H [h w]. apply H. Qed.

(** *** Weakest preconditions *)

Definition wp {A} (m : M (W := W) A) (Q : A -> HidState * W -> Prop) (s : HidState * W) : Prop :=
  Q (m s).1 (m s).2.

Lemma wp_bind {A B} (m : M A) (k : A -> M B) Q s :
  wp m (fun a => wp (k a) Q) s -> wp (bind m k) Q s.
Proof. unfold wp, bind. by destruct (m s). Qed.

Lemma wp_ret {A} (a : A) (Q : A -> HidState * W -> Prop) s : Q a s -> wp (ret a) Q s.
Proof. done. Qed.
Lemma wp_get {A} (g : HidState -> A) (Q : A -> HidState * W -> Prop) s :
  Q (g s.1) s -> wp (get g) Q s.
Proof. done. Qed.
Lemma wp_modify g (Q : unit -> HidState * W -> Prop) s : Q tt (g s.1, s.2) -> wp (modify g) Q s.
Proof. done. Qed.

Lemma wp_mono {A} (m : M A) (Q Q' : A -> HidState * W -> Prop) s :
  wp m Q s -> (forall a s', Q a s' -> Q' a s') -> wp m Q' s.
Proof. intros H HQ. by apply HQ. Qed.

Lemma wp_keeps {A B} (f : HidState * W -> B) (m : M A) (Q : A -> HidState * W -> Prop) s :
  keeps f m -> (forall a s', f s' = f s -> Q a s') -> wp m Q s.
Proof. intros Hm HQ. apply HQ, Hm. Qed.

Lemma wp_and {A} (m : M A) (Q Q' : A -> HidState * W -> Prop) s :
  wp m Q s -> wp m Q' s -> wp m (fun a s' => Q a s' /\ Q' a s') s.
Proof. by split. Qed.
End Frames.

(** Follow the structure of a program down to its assignments and calls. *)
Ltac keeps_step :=
  match goal with
  | |- keeps _ (bind _ _) => apply keeps_bind; [|intros ?]
  | |- keeps _ (ret _) => apply keeps_ret
  | |- keeps _ (get _) => apply keeps_get
  | |- keeps _ errno => apply keeps_errno
  | |- keeps _ hid_now => unfold hid_now
  | |- keeps _ bump_errors => unfold bump_errors
  | |- keeps _ (modify_queue ?id _) => unfold modify_queue; try (is_var id; destruct id)
  | |- keeps _ (match ?x with _ => _ end) => destruct x
  | |- keeps _ (modify _) => apply keeps_modify; intros ? ?; try reflexivity
  | |- keeps _ (sys _) => apply keeps_sys; intros ? ?; try reflexivity
  | |- keeps _ (sys_ _) => apply keeps_sys_; intros ? ?; try reflexivity
  end.
Ltac keeps_tac := repeat keeps_step.

(** Everything but the file descriptors. *)
Definition besides_fds (h : HidState) : HidState :=
  set_paste_fd (set_touch_fd (set_mouse_fd (set_keyboard_fd h 0) 0) 0) 0.

Section FdFrames.
Context {W : Type} {os : HidOS W}.
Variable interrupts : nat.

Definition core (s : HidState * W) : HidState := besides_fds s.1.

Lemma set_fd_core s h fd (w : W) : core (set_fd s h fd, w) = core (h, w).
Proof. by destruct s. Qed.

Lemma open_hid_fd_core path : keeps core (open_hid_fd (os := os) path).
Proof. unfold open_hid_fd. keeps_tac. Qed.

Lemma reopen_core slot path : keeps core (reopen (os := os) slot path).
Proof.
  unfold reopen. apply keeps_bind; [apply open_hid_fd_core|intros fd].
  keeps_tac. apply set_fd_core.
Qed.

Lemma hid_fd_core path : keeps core (hid_fd (os := os) path).
Proof.
  unfold hid_fd. keeps_step; [keeps_step|].
  repeat first [apply reopen_core | keeps_step]. apply set_fd_core.
Qed.

Lemma write_retry_core fuel fd report : keeps core (write_retry (os := os) fuel fd report).
Proof.
  induction fuel as [|fuel IH]; cbn [write_retry]; repeat first [apply IH | keeps_step].
Qed.

Lemma write_hid_report_core path report :
  keeps core (write_hid_report (os := os) interrupts path report).
Proof.
  unfold write_hid_report, write_open_report.
  repeat first [apply hid_fd_core | apply open_hid_fd_core | apply write_retry_core | keeps_step].
  all: apply set_fd_core.
Qed.

Lemma write_paste_core codepoint : keeps core (write_paste_codepoint (os := os) interrupts codepoint).
Proof.
  unfold write_paste_codepoint. repeat first [apply write_hid_report_core | keeps_step].
Qed.
End FdFrames.

(** The input state: what a flush never changes. *)
Record InputState := MkInputs {
  i_modifiers : Z; i_usages : Z -> bool; i_delay : Z; i_paste : Z; i_x : Z; i_y : Z;
  i_buttons : Z; i_wheel : Z; i_pan : Z; i_length : nat;
  i_keyboard : string; i_mouse : string; i_touch : string }.

Definition inputs (h : HidState) : InputState :=
  MkInputs (modifiers h) (usages h) (keyboard_delay_ms h) (keyboard_paste_codepoint h) (last_x h)
    (last_y h) (buttons h) (wheel h) (pan h) (absolute_report_length h)
    (keyboard_path h) (mouse_path h) (touch_path h).

Section InputFrames.
Context {W : Type} {os : HidOS W}.
Variable interrupts : nat.

Definition other (id : queue_id) : queue_id :=
  match id with KeyboardQueue => PointerQueue | PointerQueue => KeyboardQueue end.

(** The inputs and the other queue. *)
Definition apart (id : queue_id) (s : HidState * W) : InputState * HidReportQueue :=
  (inputs s.1, get_queue (other id) s.1).

Lemma keeps_weaken {A B C} (f : HidState * W -> B) (g : HidState * W -> C) (m : M A) :
  (forall s s', f s' = f s -> g s' = g s) -> keeps f m -> keeps g m.
Proof. intros H Hm s. by apply H, Hm. Qed.

Lemma core_apart id (s s' : HidState * W) : core s' = core s -> apart id s' = apart id s.
Proof.
  unfold core, apart. intros H. f_equal.
  - change (inputs s'.1) with (inputs (besides_fds s'.1)). by rewrite H.
  - replace (get_queue (other id) s'.1) with (get_queue (other id) (besides_fds s'.1))
      by (by destruct id).
    rewrite H. by destruct id.
Qed.

Lemma write_hid_report_apart id path report :
  keeps (apart id) (write_hid_report (os := os) interrupts path report).
Proof. eapply keeps_weaken; [apply core_apart|apply write_hid_report_core]. Qed.

Lemma write_paste_apart id cp : keeps (apart id) (write_paste_codepoint (os := os) interrupts cp).
Proof. eapply keeps_weaken; [apply core_apart|apply write_paste_core]. Qed.

Lemma await_endpoint_apart id e now : keeps (apart id) (await_endpoint (os := os) id e now).
Proof. unfold await_endpoint. destruct id; keeps_tac. Qed.

Lemma submitted_apart id r now : keeps (apart id) (submitted (W := W) id r now).
Proof.
  intros [h w]. unfold submitted, modify_queue, bind, modify. cbn [fst snd].
  destruct id; cbn [get_queue set_queue]; unfold apart; cbn [fst snd other get_queue];
    destruct (_ <? _); reflexivity.
Qed.

Lemma flush_head_apart id r now : keeps (apart id) (flush_head (os := os) interrupts id r now).
Proof.
  unfold flush_head.
  repeat first [apply write_hid_report_apart | apply write_paste_apart | apply submitted_apart
               | keeps_step].
  all: unfold apart; simpl; by destruct (_ =? 0).
Qed.

Lemma flush_one_apart id : keeps (apart id) (flush_one (os := os) interrupts id).
Proof.
  unfold flush_one. repeat first [apply await_endpoint_apart | apply flush_head_apart | keeps_step].
Qed.

Lemma flush_loop_apart fuel id : keeps (apart id) (flush_loop (os := os) interrupts fuel id).
Proof.
  induction fuel as [|fuel IH]; cbn [flush_loop];
    repeat first [apply IH | apply flush_one_apart | keeps_step].
Qed.

Lemma flush_reports_apart id : keeps (apart id) (flush_reports (os := os) interrupts id).
Proof. unfold flush_reports. keeps_step; [keeps_step|apply flush_loop_apart]. Qed.

Lemma queue_report_apart id path data m delay :
  keeps (apart id) (queue_report (os := os) interrupts id path data m delay).
Proof.
  unfold queue_report, append_report.
  destruct id; repeat first [apply flush_reports_apart | keeps_step].
Qed.
End InputFrames.

(** ** The newest report

    Writing a report frees its slot but does not clear it, so the slot before the
    end of the ring holds the report queued last, pending or written. *)

Definition newest (q : HidReportQueue) : HidReport :=
  queue_report_at q (count q + (HID_REPORT_QUEUE_CAPACITY - 1)).

(** While reports are pending it is the last of them. *)
Lemma newest_pending q :
  queue_ok q -> (0 < count q)%nat -> exists rest, contents q = rest ++ [newest q].
Proof.
  intros Hq Hc. destruct (contents_set_last q zero_report Hq Hc) as (rest & E & _). exists rest.
  rewrite E. unfold newest, queue_report_at, queue_index.
  replace (head q + (count q + (HID_REPORT_QUEUE_CAPACITY - 1)))%nat
    with (head q + (count q - 1) + 1 * HID_REPORT_QUEUE_CAPACITY)%nat
    by (unfold HID_REPORT_QUEUE_CAPACITY; lia).
  by rewrite Nat.Div0.mod_add.
Qed.

Section Newest.
Context {W : Type} {os : HidOS W}.
Variable interrupts : nat.

Local Abbreviation st := (HidState * W)%type.

(** What the slots carry and where the ring ends. *)
Definition ring (id : queue_id) (s : st) : list (Z * bytes) * nat :=
  let q := get_queue id s.1 in
  (map wire (reports q), ((head q + count q) mod HID_REPORT_QUEUE_CAPACITY)%nat).

Lemma ring_newest id (s s' : st) :
  ring id s' = ring id s -> wire (newest (get_queue id s'.1)) = wire (newest (get_queue id s.1)).
Proof.
  intros H. pose proof (f_equal fst H) as Er. pose proof (f_equal snd H) as Ei. clear H.
  unfold ring in Er, Ei. cbn [fst snd] in Er, Ei. unfold newest, queue_report_at, queue_index.
  assert (E : forall (l : list HidReport) i,
            wire (default zero_report (l !! i)) = default (wire zero_report) (map wire l !! i)).
  { intros l i. rewrite list_lookup_fmap. by destruct (l !! i). }
  rewrite !E, Er, !Nat.add_assoc. do 2 f_equal. rewrite <- Nat.Div0.add_mod_idemp_l, Ei.
  by rewrite Nat.Div0.add_mod_idemp_l.
Qed.

Lemma core_queue (s s' : st) id : core s' = core s -> get_queue id s'.1 = get_queue id s.1.
Proof.
  intros H. unfold core in H.
  replace (get_queue id s'.1) with (get_queue id (besides_fds s'.1)) by (by destruct id).
  rewrite H. by destruct id.
Qed.

Lemma queue_ring (s s' : st) id :
  same_ring (get_queue id s.1) (get_queue id s'.1) -> ring id s' = ring id s.
Proof. intros (E1 & E2 & E3). unfold ring. by rewrite E1, E2, E3. Qed.

(** The ring of a queue itself. *)
Definition slots (id : queue_id) (s : st) : list HidReport * nat * nat :=
  let q := get_queue id s.1 in (reports q, head q, count q).

Lemma slots_same id (s s' : st) :
  slots id s' = slots id s -> same_ring (get_queue id s.1) (get_queue id s'.1).
Proof. by intros [= ? ? ?]. Qed.

Lemma await_endpoint_slots id e now : keeps (slots id) (await_endpoint (os := os) id e now).
Proof. unfold await_endpoint. destruct id; keeps_tac. Qed.

(** Taking the oldest report off leaves the end where it is. *)
Lemma pop_end q : (0 < count q)%nat ->
  ((head (queue_pop q) + count (queue_pop q)) mod HID_REPORT_QUEUE_CAPACITY =
   (head q + count q) mod HID_REPORT_QUEUE_CAPACITY)%nat.
Proof. intros Hc. cbn [queue_pop head count]. rewrite Nat.Div0.add_mod_idemp_l. f_equal. lia. Qed.

Lemma submitted_keeps_ring id r now s :
  (0 < count (get_queue id s.1))%nat -> wp (submitted (W := W) id r now) (fun _ s' => ring id s' = ring id s) s.
Proof.
  intros Hc. destruct s as [h w]. unfold wp, submitted, modify_queue, bind, modify, ring in *.
  destruct id; cbn in *; destruct (_ <? _); cbn; (f_equal; exact (pop_end _ Hc)).
Qed.

(** Rewriting the oldest slot with what it carries. *)
Lemma rewrite_head_ring q r :
  wire r = wire (queue_report_at q 0) ->
  map wire (reports (set_queue_report q 0 r)) = map wire (reports q).
Proof.
  intros E. cbn [set_queue_report reports]. unfold queue_report_at in E.
  destruct (reports q !! queue_index q 0) as [r0|] eqn:E0.
  - rewrite list_fmap_insert. apply list_insert_id. rewrite list_lookup_fmap, E0. cbn in *. by rewrite E.
  - rewrite list_insert_ge; [done|]. by apply lookup_ge_None.
Qed.

Lemma flush_head_ring id now s :
  (0 < count (get_queue id s.1))%nat ->
  wp (flush_head (os := os) interrupts id (queue_report_at (get_queue id s.1) 0) now)
    (fun _ s' => ring id s' = ring id s) s.
Proof.
  intros Hc. unfold flush_head. destruct (negb _); apply wp_bind.
  - eapply wp_keeps; [apply write_paste_core|]. intros ok s1 E1%(core_queue _ _ id).
    destruct (negb ok).
    + apply queue_ring. destruct s1, id; cbn in *; by rewrite E1.
    + apply wp_bind, wp_modify, wp_ret. unfold ring. rewrite <- E1. destruct s1 as [h1 w1].
      destruct id; cbn [fst snd get_queue set_queue]; apply pair_equal_spec; (split; [|done]);
        refine (rewrite_head_ring _ _ _); reflexivity.
  - apply wp_get, wp_bind. eapply wp_keeps; [apply write_hid_report_core|].
    intros ok s1 E1%(core_queue _ _ id). destruct (negb ok); apply wp_bind.
    + destruct s1 as [h1 w1]. unfold wp, bind, errno, modify_queue, bump_errors, modify, ret, ring.
      rewrite <- E1. destruct id; cbn; destruct (_ =? EAGAIN); cbn; by destruct (_ =? 0).
    + eapply wp_mono; [apply submitted_keeps_ring; by rewrite E1|]. intros u s2 E2. apply wp_ret.
      rewrite E2. apply queue_ring. by rewrite E1.
Qed.

Lemma hid_now_slots id : keeps (slots id) (hid_now (os := os)).
Proof. keeps_tac. Qed.

Lemma flush_one_ring id s :
  (0 < count (get_queue id s.1))%nat ->
  wp (flush_one (os := os) interrupts id) (fun _ s' => ring id s' = ring id s) s.
Proof.
  intros Hc. unfold flush_one. apply wp_bind, (wp_keeps (slots id)); [apply hid_now_slots|].
  intros now s1 E1%slots_same. apply wp_bind, wp_get. pose proof (queue_ring _ _ _ E1) as R1.
  destruct (_ <? _); [by apply wp_ret|]. destruct (_ && _).
  { rewrite <- R1. apply wp_bind, wp_modify, wp_ret, queue_ring. by destruct id. }
  apply wp_bind, (wp_keeps (slots id)); [apply await_endpoint_slots|].
  intros go s2 E2%slots_same. pose proof (queue_ring _ _ _ E2) as R2. rewrite <- R1, <- R2.
  destruct go; [by apply wp_ret|].
  replace (queue_report_at (get_queue id s1.1) 0) with (queue_report_at (get_queue id s2.1) 0).
  - apply flush_head_ring. destruct E1 as (_ & _ & E1), E2 as (_ & _ & E2). congruence.
  - destruct E2 as (E2 & E3 & _). unfold queue_report_at, queue_index. by rewrite E2, E3.
Qed.

Lemma flush_loop_ring fuel id : keeps (ring id) (flush_loop (os := os) interrupts fuel id).
Proof.
  induction fuel as [|fuel IH]; intros s; cbn [flush_loop].
  - unfold bind, get, ret. by destruct (_ <? _)%nat.
  - apply (wp_bind (get (get_queue id)) _ (fun _ s' => ring id s' = ring id s)), wp_get.
    destruct (Nat.ltb_spec 0 (count (get_queue id s.1))); [|done].
    apply wp_bind. eapply wp_mono; [by apply flush_one_ring|]. intros go s1 <-.
    destruct go; [done|apply IH].
Qed.

Lemma flush_reports_ring id : keeps (ring id) (flush_reports (os := os) interrupts id).
Proof. unfold flush_reports. keeps_step; [keeps_step|apply flush_loop_ring]. Qed.

Definition ring_sized (id : queue_id) (s : st) : Prop :=
  length (reports (get_queue id s.1)) = HID_REPORT_QUEUE_CAPACITY.

Lemma ring_sized_eq id (s s' : st) : ring id s' = ring id s -> ring_sized id s -> ring_sized id s'.
Proof.
  intros E%(f_equal fst) H. unfold ring in E. cbn [fst] in E.
  apply (f_equal length) in E. rewrite !length_map in E. unfold ring_sized. congruence.
Qed.

Lemma push_newest q r :
  length (reports q) = HID_REPORT_QUEUE_CAPACITY -> newest (queue_push q r) = r.
Proof.
  intros Hl. unfold newest, queue_report_at, queue_index. cbn [queue_push set_queue_report reports head count].
  replace (head q + (count q + 1 + (HID_REPORT_QUEUE_CAPACITY - 1)))%nat
    with (head q + count q + 1 * HID_REPORT_QUEUE_CAPACITY)%nat
    by (unfold HID_REPORT_QUEUE_CAPACITY; lia).
  rewrite Nat.Div0.mod_add. unfold queue_index. rewrite list_lookup_insert_eq; [done|].
  rewrite Hl. apply Nat.mod_upper_bound. done.
Qed.

(** A report that is not motion becomes the newest one, unless the call failed
    with the queue full. *)
Definition newest_is (id : queue_id) (path : string) (data : bytes) (s s' : st) : Prop :=
  wire (newest (get_queue id s'.1)) = (path_endpoint s.1 path, data).

Lemma append_report_newest id e data delay s :
  ring_sized id s -> (length data <= 8)%nat ->
  wp (append_report (os := os) interrupts id e data false delay)
    (fun _ s' => wire (newest (get_queue id s'.1)) = (e, data) /\ ring_sized id s') s.
Proof.
  intros Hf Hd. unfold append_report. apply wp_bind, (wp_keeps (slots id)); [apply hid_now_slots|].
  intros now s1 E1%slots_same. apply wp_bind, wp_get, wp_bind, wp_modify.
  set (r := MkReport _ _ _ _ _ _ _). set (s2 := (_, _) : st).
  assert (Hf1 : ring_sized id s1) by (destruct E1 as (E1 & _); unfold ring_sized; congruence).
  assert (Eq : get_queue id s2.1 = queue_push (get_queue id s1.1) r) by (by destruct id).
  eapply wp_keeps; [apply flush_reports_ring|]. intros ok s3 E3. split.
  - rewrite (ring_newest _ _ _ E3), Eq, push_newest by done.
    unfold r, wire, overwrite. cbn [endpoint report_length report_data]. by rewrite take_app_length.
  - eapply ring_sized_eq; [exact E3|]. unfold ring_sized. rewrite Eq. cbn. by rewrite length_insert.
Qed.

Lemma queue_report_newest id path data delay s :
  ring_sized id s -> (length data <= 8)%nat ->
  wp (queue_report (os := os) interrupts id path data false delay)
    (fun ok s' => ring_sized id s' /\
       (ok = true \/ (count (get_queue id s.1) < HID_REPORT_QUEUE_CAPACITY)%nat ->
        newest_is id path data s s')) s.
Proof.
  intros Hf Hd. unfold queue_report. apply wp_bind, wp_get, wp_bind, wp_get. cbn [coalesces andb].
  assert (Happ : forall s1, ring_sized id s1 ->
    wp (append_report (os := os) interrupts id (path_endpoint s.1 path) data false delay)
      (fun ok s' => ring_sized id s' /\
         (ok = true \/ (count (get_queue id s.1) < HID_REPORT_QUEUE_CAPACITY)%nat ->
          newest_is id path data s s')) s1).
  { intros s1 Hf1. eapply wp_mono; [by apply append_report_newest|]. intros ok s2 [H1 H2]. done. }
  destruct (Nat.eqb_spec (count (get_queue id s.1)) HID_REPORT_QUEUE_CAPACITY); [|by apply Happ].
  apply wp_bind. eapply wp_keeps; [apply flush_reports_ring|]. intros ok s1 E1.
  pose proof (ring_sized_eq _ _ _ E1 Hf) as Hf1. apply wp_bind, wp_get.
  destruct (_ =? _)%nat; [|by apply Happ].
  apply wp_bind, wp_modify, wp_ret. split; [by destruct id|]. intros [?|?]; [done|lia].
Qed.
End Newest.

(** ** A kernel that remembers every report it accepted *)

Section Logged.
Context {W : Type} {os : HidOS W}.

#[global] Instance logged_os : HidOS (W * list bytes) := {
  os_now s := let '(r, w) := os_now s.1 in (r, (w, s.2));
  os_open s p := let '(r, w) := os_open s.1 p in (r, (w, s.2));
  os_open_read s p := let '(r, w) := os_open_read s.1 p in (r, (w, s.2));
  os_fstat s fd := let '(r, w) := os_fstat s.1 fd in (r, (w, s.2));
  os_poll s fd := let '(r, w) := os_poll s.1 fd in (r, (w, s.2));
  os_write s fd b :=
    let '(n, w) := os_write s.1 fd b in
    (n, (w, if n =? Z.of_nat (length b) then s.2 ++ [b] else s.2));
  os_read s fd := let '(r, w) := os_read s.1 fd in (r, (w, s.2));
  os_close s fd := (os_close s.1 fd, s.2);
  os_errno s := os_errno s.1;
  os_set_errno s e := (os_set_errno s.1 e, s.2) }.

Definition log (s : HidState * (W * list bytes)) : list bytes := s.2.2.

Variable interrupts : nat.

Local Ltac log_call :=
  match goal with |- log _ = log _ =>
    unfold log; simpl;
    match goal with |- context [match ?x with pair _ _ => _ end] => destruct x end; reflexivity
  end.
Local Ltac keeps_log := repeat first [log_call | keeps_step].

Lemma open_hid_fd_log path : keeps log (open_hid_fd path).
Proof. unfold open_hid_fd. keeps_log. Qed.

Lemma hid_fd_log path : keeps log (hid_fd path).
Proof.
  unfold hid_fd, reopen. repeat first [apply open_hid_fd_log | log_call | keeps_step].
Qed.

(** What [write_retry] logs: the report if the last attempt took all of it. *)
Lemma write_retry_log fuel fd report s :
  let '(n, s') := write_retry fuel fd report s in
  log s' = log s ++ (if n =? Z.of_nat (length report) then [report] else []).
Proof.
  revert s. induction fuel as [|fuel IH]; intros [h [w l]]; cbn [write_retry];
    unfold bind, sys, errno, ret; simpl; destruct (os_write w fd report) as [n w'] eqn:E; simpl.
  - unfold log. simpl. destruct (_ =? _); [done|by rewrite app_nil_r].
  - destruct ((n <? 0) && _) eqn:En; simpl.
    + specialize (IH (h, (w', if n =? Z.of_nat (length report) then l ++ [report] else l))).
      apply andb_true_iff in En as [En%Z.ltb_lt _].
      destruct (Z.eqb_spec n (Z.of_nat (length report))); [lia|]. exact IH.
    + unfold log. simpl. destruct (n =? Z.of_nat (length report)); [done|by rewrite app_nil_r].
Qed.

Lemma write_hid_report_log path report s :
  let '(ok, s') := write_hid_report interrupts path report s in
  log s' = log s ++ (if ok then [report] else []).
Proof.
  unfold write_hid_report, bind at 1, get. cbn [fst snd].
  set (slot := hid_fd_slot s.1 path).
  set (opening := match slot with Some _ => hid_fd path | None => open_hid_fd path end).
  assert (Hfd : keeps log opening)
    by (unfold opening; destruct slot; [apply hid_fd_log|apply open_hid_fd_log]).
  unfold bind at 1. specialize (Hfd s). destruct (opening s) as [fd s1].
  simpl in Hfd. unfold bind at 1.
  assert (Hw : let '(r, s2) := write_open_report interrupts fd report s1 in
    log s2 = log s1 ++ (if r.1 then [report] else [])).
  { unfold write_open_report. destruct (fd <? 0); [simpl; by rewrite app_nil_r|].
    unfold bind at 1. pose proof (write_retry_log interrupts fd report s1) as H.
    destruct (write_retry interrupts fd report s1) as [n s2]. unfold bind, errno, ret.
    by destruct (n =? _). }
  destruct (write_open_report interrupts fd report s1) as [[wrote retryable] s2].
  cbn [fst snd] in *.
  match goal with |- context [bind ?m (fun _ => ret wrote)] => set (closing := m) end.
  assert (Hm : keeps log closing) by (unfold closing; destruct slot; keeps_log).
  unfold bind at 1, ret. specialize (Hm s2). destruct (closing s2) as [u s3].
  simpl in Hm. by rewrite Hm, Hw, Hfd.
Qed.

Local Abbreviation st := (HidState * (W * list bytes))%type.

(** *** Flushing *)

(** The ring of a queue and the log. *)
Definition view (id : queue_id) (s : st) : list HidReport * nat * nat * list bytes :=
  let q := get_queue id s.1 in (reports q, head q, count q, log s).

Lemma view_ring id s s' : view id s' = view id s ->
  same_ring (get_queue id s.1) (get_queue id s'.1) /\ log s' = log s.
Proof. intros [= ? ? ? ?]. done. Qed.

Lemma await_endpoint_view id e now : keeps (view id) (await_endpoint id e now).
Proof.
  unfold await_endpoint. destruct id; repeat first
    [ match goal with |- view _ _ = view _ _ =>
        unfold view, log; simpl; destruct (os_poll _ _); reflexivity end
    | keeps_step ].
Qed.

Lemma hid_now_view id : keeps (view id) hid_now.
Proof.
  unfold hid_now. keeps_step. unfold view, log. simpl. by destruct (os_now _).
Qed.

Lemma write_hid_report_view id path report s :
  wp (write_hid_report interrupts path report)
    (fun ok s' => get_queue id s'.1 = get_queue id s.1 /\
                  log s' = log s ++ (if ok then [report] else [])) s.
Proof.
  unfold wp. pose proof (write_hid_report_log path report s) as Hl.
  pose proof (write_hid_report_core interrupts path report s) as Hc.
  destruct (write_hid_report interrupts path report s) as [ok s']. split; [|done].
  by apply core_queue.
Qed.

(** [s'] is [s] with the reports [sent] taken off the queue and written. *)
Definition report_bytes (r : HidReport) : bytes := take (report_length r) (report_data r).

Definition advanced (id : queue_id) (s s' : st) (sent : list HidReport) : Prop :=
  contents (get_queue id s.1) = sent ++ contents (get_queue id s'.1) /\
  log s' = log s ++ map report_bytes sent /\ queue_ok (get_queue id s'.1).

Lemma advanced_view id s s' :
  queue_ok (get_queue id s.1) -> view id s' = view id s -> advanced id s s' [].
Proof.
  intros Hq Hv. apply view_ring in Hv as [Hr Hl]. split_and!.
  - symmetry. by apply same_ring_contents.
  - by rewrite Hl, app_nil_r.
  - by eapply same_ring_ok.
Qed.

Lemma advanced_trans id s1 s2 s3 l l' :
  advanced id s1 s2 l -> advanced id s2 s3 l' -> advanced id s1 s3 (l ++ l').
Proof.
  intros (E1 & L1 & _) (E2 & L2 & Q2). split_and!; [|..|done].
  - by rewrite E1, E2, app_assoc.
  - by rewrite L2, L1, map_app, app_assoc.
Qed.

Lemma submitted_ring id r now s :
  wp (submitted id r now) (fun _ s' =>
    same_ring (queue_pop (get_queue id s.1)) (get_queue id s'.1) /\ log s' = log s) s.
Proof.
  destruct s as [h w]. unfold wp, submitted, modify_queue, bind, modify. simpl.
  destruct id; simpl; destruct (_ <? _); done.
Qed.

Definition no_paste (q : HidReportQueue) : Prop :=
  Forall (fun r => paste_codepoint r = 0) (contents q).

(** A loop iteration that ends the flush changes only counters and times. *)
Definition quiet_return (id : queue_id) (s : st) (go : flow) (s' : st) : Prop :=
  (exists ok, go = Return ok) /\ view id s' = view id s.

Lemma failed_write_quiet id now s :
  wp (bind (modify_queue id (fun q => if blocked_at q =? 0 then set_blocked_at q now else q)) (fun _ =>
      bind errno (fun e =>
        if e =? EAGAIN
        then bind (modify (fun h => set_write_retries h (u64 (write_retries h + 1))))
               (fun _ => ret (Return true))
        else bind bump_errors (fun _ =>
               bind (modify_queue id (fun q => set_ready_at q (u64 (now + 100))))
                 (fun _ => ret (Return false)))))) (quiet_return id s) s.
Proof.
  destruct s as [h w]. unfold wp, quiet_return, bind, errno, modify_queue, bump_errors, modify, ret, view, log.
  destruct id; simpl; destruct (_ =? EAGAIN); simpl; (split; [eauto|]); by destruct (_ =? 0).
Qed.

Lemma await_endpoint_spec id e now s :
  wp (await_endpoint id e now) (fun go s' => view id s' = view id s) s.
Proof. apply (wp_keeps (view id)); [apply await_endpoint_view|done]. Qed.

Definition outcome (go : flow) (r : HidReport) : list HidReport :=
  match go with Continue => [r] | Return _ => [] end.

Lemma flush_head_spec id r now s :
  queue_ok (get_queue id s.1) -> (0 < count (get_queue id s.1))%nat ->
  r = queue_report_at (get_queue id s.1) 0 -> paste_codepoint r = 0 ->
  wp (flush_head interrupts id r now) (fun go s' => advanced id s s' (outcome go r)) s.
Proof.
  intros Hq Hc Hr Hp. unfold flush_head. rewrite Hp. simpl negb. cbv iota.
  apply wp_bind, wp_get.
  apply wp_bind. eapply wp_mono; [apply (write_hid_report_view id)|].
  intros ok s1 [Eq El]. destruct ok; cbn [negb].
  - apply wp_bind. eapply wp_mono; [apply submitted_ring|]. intros _ s2 [Hring Hlog].
    change (advanced id s s2 [r]). rewrite Eq in Hring.
    destruct (contents_pop (get_queue id s.1) Hq Hc) as [Hcont Hok]. split_and!.
    + rewrite (same_ring_contents _ _ Hring), Hcont, <- Hr. done.
    + by rewrite Hlog, El.
    + by eapply same_ring_ok.
  - eapply wp_mono; [apply failed_write_quiet|]. intros go s2 [[b ->] Hv].
    apply advanced_view; [done|]. rewrite Hv. unfold view. rewrite Eq, El, app_nil_r. done.
Qed.

Lemma flush_one_spec id s :
  queue_ok (get_queue id s.1) -> (0 < count (get_queue id s.1))%nat -> no_paste (get_queue id s.1) ->
  wp (flush_one interrupts id)
    (fun go s' => advanced id s s' (outcome go (queue_report_at (get_queue id s.1) 0))) s.
Proof.
  intros Hq Hc Hp. unfold flush_one. apply wp_bind.
  apply (wp_keeps (view id)); [apply hid_now_view|]. intros now s1 Hv.
  pose proof (view_ring _ _ _ Hv) as [Hring Hlog].
  apply wp_bind, wp_get.
  set (q := get_queue id s1.1). set (r := queue_report_at q 0).
  assert (Hq1 : queue_ok q) by (by eapply same_ring_ok).
  assert (Hr : r = queue_report_at (get_queue id s.1) 0).
  { destruct Hring as (E1 & E2 & E3). unfold r, q, queue_report_at, queue_index. by rewrite E1, E2. }
  destruct (now <? ready_at q); [by apply advanced_view|].
  destruct (_ && _).
  { apply advanced_view; [done|]. rewrite <- Hv. unfold view, log. by destruct id. }
  apply wp_bind. eapply wp_mono; [apply (await_endpoint_spec id)|]. intros go s2 Hv2.
  destruct go as [b|]; [apply advanced_view; [done|]; etrans; [exact Hv2|exact Hv]|].
  pose proof (view_ring _ _ _ Hv2) as [Hring2 Hlog2].
  destruct Hring as (E1 & E2 & E3), Hring2 as (F1 & F2 & F3).
  assert (Hr2 : r = queue_report_at (get_queue id s2.1) 0).
  { unfold r, q, queue_report_at, queue_index. by rewrite F1, F2. }
  eapply wp_mono; [apply (flush_head_spec id r now s2)|].
  - eapply same_ring_ok; [|exact Hq1]. done.
  - congruence.
  - done.
  - rewrite Hr. destruct (contents_pop _ Hq Hc) as [E _]. unfold no_paste in Hp. rewrite E in Hp.
    by apply Forall_cons_iff in Hp as [Hp _].
  - intros go s3 Ha. rewrite <- Hr. destruct Ha as (A1 & A2 & A3). split_and!; [|..|done].
    + rewrite <- A1. symmetry. apply same_ring_contents. split_and!; congruence.
    + rewrite A2, Hlog2, Hlog. done.
Qed.

Lemma flush_loop_spec fuel id s :
  queue_ok (get_queue id s.1) -> no_paste (get_queue id s.1) ->
  (count (get_queue id s.1) <= fuel)%nat ->
  wp (flush_loop interrupts fuel id) (fun _ s' => exists sent, advanced id s s' sent) s.
Proof.
  revert s. induction fuel as [|fuel IH]; intros s Hq Hp Hf; cbn [flush_loop]; apply wp_bind;
    change (wp (get ?g) ?Q s) with (Q (g s.1) s); cbv beta;
    destruct (Nat.ltb_spec 0 (count (get_queue id s.1))); try lia;
    try (exists []; by apply advanced_view).
  apply wp_bind. eapply wp_mono; [by apply flush_one_spec|]. intros go s1 Ha.
  destruct go as [b|]; [by eexists|].
  pose proof Ha as (A1 & A2 & A3).
  assert (Hlen : forall q, length (contents q) = count q)
    by (intros q; unfold contents; by rewrite length_map, length_seq).
  eapply wp_mono; [apply IH|]; [done| | |].
  - unfold no_paste in *. rewrite A1 in Hp. by apply Forall_app in Hp as [_ Hp].
  - apply (f_equal length) in A1. rewrite length_app, !Hlen in A1. simpl in A1. lia.
  - intros b s2 [sent Hs]. eexists. by eapply advanced_trans.
Qed.

Lemma flush_reports_spec id s :
  queue_ok (get_queue id s.1) -> no_paste (get_queue id s.1) ->
  wp (flush_reports interrupts id) (fun _ s' => exists sent, advanced id s s' sent) s.
Proof. intros Hq Hp. apply (flush_loop_spec (count (get_queue id s.1))); auto. Qed.

(** *** Queuing *)

(** How [queue_report] extends the pending reports: the newest motion is
    replaced, or the report is appended, or the queue is full and stays. *)
Definition extended (q : HidReportQueue) (e : Z) (data : bytes) (motion' : bool) (delay : Z)
    (ok : bool) (before : list HidReport) : Prop :=
  (exists rest last, motion' = true /\ contents q = rest ++ [last] /\ motion last = true /\
     endpoint last = e /\ byte_at (report_data last) 0 = byte_at data 0 /\
     before = rest ++ [MkReport (overwrite (report_data last) data) e (report_length last)
                (delay_ms last) true (paste_codepoint last) (queued_at last)]) \/
  (exists now, before = contents q ++
     [MkReport (overwrite (replicate 8 0) data) e (length data) delay motion' 0 now]) \/
  (ok = false /\ count q = HID_REPORT_QUEUE_CAPACITY /\ before = contents q).

Definition queued (id : queue_id) (path : string) (data : bytes) (motion' : bool) (delay : Z)
    (s : st) (ok : bool) (s' : st) : Prop :=
  exists before sent,
    extended (get_queue id s.1) (path_endpoint s.1 path) data motion' delay ok before /\
    before = sent ++ contents (get_queue id s'.1) /\
    log s' = log s ++ map report_bytes sent /\
    queue_ok (get_queue id s'.1) /\ no_paste (get_queue id s'.1).

(** A queue whose reports, and the next one, carry no paste request. *)
Definition ready (id : queue_id) (s : st) : Prop :=
  queue_ok (get_queue id s.1) /\ no_paste (get_queue id s.1) /\
  (id = KeyboardQueue -> keyboard_paste_codepoint s.1 = 0).

Lemma advanced_no_paste id s s' sent :
  no_paste (get_queue id s.1) -> advanced id s s' sent -> no_paste (get_queue id s'.1).
Proof.
  intros Hp (E & _). unfold no_paste in *. rewrite E in Hp. by apply Forall_app in Hp as [_ ?].
Qed.

(** Change the queue, then flush it. *)
Lemma change_then_flush id f s c :
  contents (f (get_queue id s.1)) = c -> queue_ok (f (get_queue id s.1)) ->
  Forall (fun r => paste_codepoint r = 0) c ->
  wp (bind (modify_queue id f) (fun _ => flush_reports interrupts id))
    (fun _ s' => exists sent, c = sent ++ contents (get_queue id s'.1) /\
       log s' = log s ++ map report_bytes sent /\ queue_ok (get_queue id s'.1) /\
       no_paste (get_queue id s'.1)) s.
Proof.
  intros Hc Hq Hp. apply wp_bind.
  set (s1 := (set_queue id s.1 (f (get_queue id s.1)), s.2)).
  change (wp (flush_reports interrupts id) (fun _ s' => exists sent,
    c = sent ++ contents (get_queue id s'.1) /\ log s' = log s ++ map report_bytes sent /\
    queue_ok (get_queue id s'.1) /\ no_paste (get_queue id s'.1)) s1).
  assert (Eq : get_queue id s1.1 = f (get_queue id s.1)) by (by destruct id).
  eapply wp_mono; [apply flush_reports_spec; rewrite Eq; [done|]|].
  { unfold no_paste. by rewrite Hc. }
  intros _ s' [sent Ha]. exists sent. pose proof Ha as (A1 & A2 & A3).
  rewrite Eq, Hc in A1. split_and!; [done..|]. eapply advanced_no_paste; [|done].
  unfold no_paste. by rewrite Eq, Hc.
Qed.

Lemma append_report_spec id e data motion' delay s :
  ready id s -> (count (get_queue id s.1) < HID_REPORT_QUEUE_CAPACITY)%nat ->
  wp (append_report interrupts id e data motion' delay) (fun _ s' =>
    exists now sent, contents (get_queue id s.1) ++
        [MkReport (overwrite (replicate 8 0) data) e (length data) delay motion' 0 now] =
        sent ++ contents (get_queue id s'.1) /\
      log s' = log s ++ map report_bytes sent /\ queue_ok (get_queue id s'.1) /\
      no_paste (get_queue id s'.1)) s.
Proof.
  intros (Hq & Hp & Hk) Hc. unfold append_report. apply wp_bind.
  assert (Hn : keeps (fun s => (s.1, log s)) hid_now).
  { unfold hid_now. keeps_step. unfold log. simpl. by destruct (os_now _). }
  eapply (wp_keeps _ _ _ s Hn). intros now s1 [= E1 E2].
  apply wp_bind, wp_get.
  set (r := MkReport _ _ _ _ _ _ _).
  assert (Hr : r = MkReport (overwrite (replicate 8 0) data) e (length data) delay motion' 0 now).
  { unfold r. rewrite E1. destruct id; [by rewrite Hk|done]. }
  destruct (contents_push (get_queue id s1.1) r) as [Hcp Hqp]; [by rewrite E1..|].
  eapply wp_mono; [apply (change_then_flush id (fun q => queue_push q r) s1 _ Hcp Hqp)|].
  - rewrite E1. apply Forall_app. split; [done|]. constructor; [by rewrite Hr|done].
  - intros _ s2 (sent & C1 & C2 & C3 & C4). exists now, sent.
    rewrite <- Hr. rewrite E1 in C1. rewrite E2 in C2. done.
Qed.

Lemma queue_report_spec id path data motion' delay s :
  ready id s ->
  wp (queue_report interrupts id path data motion' delay) (queued id path data motion' delay s) s.
Proof.
  intros Hready. pose proof Hready as (Hq & Hp & Hk). unfold queue_report.
  apply wp_bind, wp_get.
  apply wp_bind, wp_get.
  set (e := path_endpoint s.1 path). set (q := get_queue id s.1).
  destruct (coalesces q e data motion') eqn:Ec.
  { unfold coalesces in Ec. bool_hyps.
    destruct (contents_set_last q (let previous := queue_report_at q (count q - 1) in
      MkReport (overwrite (report_data previous) data) (endpoint previous) (report_length previous)
        (delay_ms previous) (motion previous) (paste_codepoint previous) (queued_at previous)) Hq)
      as (rest & Hrest & Hset & Hqs); [lia|]. cbv zeta in Hset, Hqs.
    assert (Hpl : Forall (fun r => paste_codepoint r = 0) (rest ++ [queue_report_at q (count q - 1)]))
      by (by rewrite <- Hrest).
    eapply wp_mono; [eapply (change_then_flush id _ s _ Hset Hqs)|].
    - apply Forall_app in Hpl as [Hp1 Hp2]. apply Forall_app. split; [done|].
      apply Forall_cons_iff in Hp2 as [Hp2 _]. by constructor.
    - intros ok s1 (sent & C1 & C2 & C3 & C4). eexists _, sent. split_and!; [|exact C1|done..].
      left. exists rest, (queue_report_at q (count q - 1)). split_and!; [done..|].
      fold q e. f_equal. f_equal. f_equal; congruence. }
  destruct (Nat.eqb_spec (count q) HID_REPORT_QUEUE_CAPACITY) as [Hfull|Hroom].
  - apply wp_bind. eapply wp_mono.
    { refine (wp_and _ _ (fun _ s' => apart id s' = apart id s) s (flush_reports_spec id s Hq Hp) _).
      apply (flush_reports_apart interrupts id s). }
    intros ok s1 [[sent Ha] Hap]. pose proof Ha as (A1 & A2 & A3).
    apply wp_bind, wp_get.
    destruct (Nat.eqb_spec (count (get_queue id s1.1)) HID_REPORT_QUEUE_CAPACITY) as [Hf1|Hr1].
    + exists (contents q), sent. split; [by right; right|].
      assert (Eq : get_queue id (set_queue_overflows s1.1 (u64 (queue_overflows s1.1 + 1))) =
        get_queue id s1.1) by (by destruct id).
      cbn. rewrite Eq. split_and!; [done..|]. by eapply advanced_no_paste.
    + eapply wp_mono; [apply append_report_spec|].
      * split_and!; [done|by eapply advanced_no_paste|].
        intros Hid. apply (f_equal (fun x => i_paste x.1)) in Hap. simpl in Hap. rewrite Hap. auto.
      * destruct A3 as (_ & _ & Hcap). unfold HID_REPORT_QUEUE_CAPACITY in *. lia.
      * intros ok2 s2 (now & sent2 & C1 & C2 & C3 & C4).
        eexists _, (sent ++ sent2). split_and!; [right; left; by exists now|..|done|done].
        -- rewrite A1, <- !app_assoc. fold e. by rewrite C1.
        -- by rewrite C2, A2, map_app, app_assoc.
  - eapply wp_mono; [apply append_report_spec; [done|]|].
    + destruct Hq as (_ & _ & Hcap). unfold q in Hroom. lia.
    + intros ok s1 (now & sent & C1 & C2 & C3 & C4). eexists _, sent.
      split_and!; [right; left; by exists now|done..].
Qed.

(** C5: [queue_report] never loses, reorders or repeats a report.  The pending
    reports with the new one appended (or, for motion behind motion with the
    same buttons on the same endpoint, merged into the newest) are exactly the
    reports written to the kernel during the call, in order and each once,
    followed by those still pending; only a full queue refuses the report, and
    then nothing else changes. *)
Theorem queue_report_fifo id path data motion' delay s :
  ready id s ->
  let '(ok, s') := queue_report interrupts id path data motion' delay s in
  queued id path data motion' delay s ok s'.
Proof.
  intros Hr. pose proof (queue_report_spec id path data motion' delay s Hr) as H. unfold wp in H.
  by destruct (queue_report interrupts id path data motion' delay s).
Qed.
End Logged.

(** ** Text input leaves nothing held *)

Section Text.
Context {W : Type} {os : HidOS W}.
Variable interrupts : nat.

Local Abbreviation st := (HidState * W)%type.

(** No key is down in the agent's view of the keyboard. *)
Definition released (s : st) : Prop := modifiers s.1 = 0 /\ forall u, usages s.1 u = false.

Definition same_keys (s s' : st) : Prop :=
  modifiers s'.1 = modifiers s.1 /\ (forall u, usages s'.1 u = usages s.1 u) /\
  keyboard_delay_ms s'.1 = keyboard_delay_ms s.1.

Lemma same_keys_released s s' : same_keys s s' -> released s -> released s'.
Proof. intros (Em & Eu & _) [Hm Hu]. split; [congruence|]. intros u. by rewrite Eu. Qed.

Lemma same_keys_trans s1 s2 s3 : same_keys s1 s2 -> same_keys s2 s3 -> same_keys s1 s3.
Proof.
  intros (? & H & ?) (? & H' & ?). split_and!; [congruence| |congruence].
  intros u. by rewrite H', H.
Qed.

Lemma send_keyboard_inputs : keeps (fun s : st => inputs s.1) (send_keyboard (os := os) interrupts).
Proof.
  unfold send_keyboard. repeat first [keeps_step |
    eapply (keeps_weaken (apart KeyboardQueue)); [|apply queue_report_apart]].
  intros s s' E. exact (f_equal fst E).
Qed.

Lemma inputs_same_keys (s s' : st) : inputs s'.1 = inputs s.1 -> same_keys s s'.
Proof. intros [= Em Eu Ed _ _ _ _ _ _ _ _ _ _]. split_and!; [done|by rewrite Eu|done]. Qed.

(** The newest keyboard report is the one of the current keys. *)
Definition reported (s : st) : Prop :=
  wire (newest (keyboard_queue s.1)) = (1, keyboard_report s.1).

Definition settled (s : st) : Prop := ring_sized KeyboardQueue s /\ reported s.

Lemma keyboard_report_length (h : HidState) : length (keyboard_report h) = 8%nat.
Proof.
  unfold keyboard_report. cbn [length]. rewrite length_app, length_replicate, length_take. lia.
Qed.

(** Only which keys are down matters to the report. *)
Lemma keyboard_report_ext (h h' : HidState) :
  modifiers h' = modifiers h -> (forall u, usages h' u = usages h u) ->
  keyboard_report h' = keyboard_report h.
Proof.
  intros Em Eu. unfold keyboard_report, pressed. rewrite Em.
  rewrite (list_filter_iff (fun x => Is_true (usages h' x)) (fun x => Is_true (usages h x)));
    [done|]. intros x. by rewrite Eu.
Qed.

Lemma keyboard_endpoint (h : HidState) : path_endpoint h (keyboard_path h) = 1.
Proof. unfold path_endpoint. by rewrite String.eqb_refl. Qed.

Lemma wp_send_keyboard_keys (Q : bool -> st -> Prop) s :
  (forall ok s', same_keys s s' -> Q ok s') -> wp (send_keyboard interrupts) Q s.
Proof.
  intros H. eapply wp_keeps; [apply send_keyboard_inputs|]. intros ok s' E.
  by apply H, inputs_same_keys.
Qed.

Lemma wp_send_keyboard (Q : bool -> st -> Prop) s :
  (forall ok s', same_keys s s' ->
     (ring_sized KeyboardQueue s -> ring_sized KeyboardQueue s' /\
        (ok = true \/ (count (keyboard_queue s.1) < HID_REPORT_QUEUE_CAPACITY)%nat -> reported s')) ->
     Q ok s') ->
  wp (send_keyboard interrupts) Q s.
Proof.
  intros H. eapply wp_mono.
  { refine (wp_and _ _ (fun ok s' => ring_sized KeyboardQueue s -> ring_sized KeyboardQueue s' /\
      (ok = true \/ (count (keyboard_queue s.1) < HID_REPORT_QUEUE_CAPACITY)%nat ->
       wire (newest (keyboard_queue s'.1)) = (1, keyboard_report s.1))) s
      (send_keyboard_inputs s : wp _ (fun _ s' => inputs s'.1 = inputs s.1) s) _).
    intros Hf. change (wp (send_keyboard (os := os) interrupts) (fun ok s' =>
      ring_sized KeyboardQueue s' /\
      (ok = true \/ (count (keyboard_queue s.1) < HID_REPORT_QUEUE_CAPACITY)%nat ->
       wire (newest (keyboard_queue s'.1)) = (1, keyboard_report s.1))) s).
    unfold send_keyboard. apply wp_bind, wp_get, wp_bind, wp_get, wp_bind, wp_get, wp_bind.
    eapply wp_mono; [apply queue_report_newest; [done|by rewrite keyboard_report_length]|].
    intros ok s1 [H1 H2]. apply wp_bind, wp_modify, wp_ret. split; [done|].
    intros Hok. rewrite <- (keyboard_endpoint s.1). by apply H2. }
  intros ok s' [E Hn]. apply inputs_same_keys in E. apply H; [done|].
  intros Hf. destruct (Hn Hf) as [Hf' Hr]. split; [done|].
  intros Hok. unfold reported. rewrite (Hr Hok). destruct E as (Em & Eu & _).
  by rewrite (keyboard_report_ext s.1 s'.1).
Qed.

Lemma tap_text_key_keys key s :
  wp (tap_text_key interrupts key) (fun ok s' => ok = true ->
    same_keys s s' /\ (ring_sized KeyboardQueue s -> settled s')) s.
Proof.
  unfold tap_text_key. apply wp_bind, wp_get, wp_bind, wp_get, wp_bind, wp_modify.
  apply wp_bind, wp_send_keyboard. intros ok s2 H2 Hf2. destruct ok; [|done]. cbn [negb].
  apply wp_bind, wp_modify, wp_bind, wp_send_keyboard.
  intros ok s3 H3 Hf3. destruct ok; [|done]. intros _. split.
  - eapply same_keys_trans; [|exact H3]. destruct H2 as (Em & Eu & Ed).
    split_and!; simpl in *; [done| |done]. intros u. rewrite Eu.
    destruct (Z.eqb_spec u (usage key)) as [->|]; done.
  - intros Hf. destruct (Hf2 Hf) as [Hs2 _]. destruct (Hf3 Hs2) as [Hs3 Hr]. split; auto.
Qed.

(** A program that, when it succeeds, leaves the keys as they were and reported. *)
Definition types (m : M (W := W) bool) : Prop :=
  forall s, wp m (fun ok s' => ok = true -> same_keys s s' /\ (settled s -> settled s')) s.

Lemma types_then (m : M bool) (k : bool -> M bool) :
  types m -> types (k true) -> k false = ret false -> types (bind m k).
Proof.
  intros Hm Hk Hf s. apply wp_bind. eapply wp_mono; [by apply Hm|]. intros ok s1 H1.
  destruct ok; [|by rewrite Hf]. destruct (H1 eq_refl) as [K1 S1].
  eapply wp_mono; [by apply Hk|]. intros ok s2 H2 Hok. destruct (H2 Hok) as [K2 S2].
  split; [by eapply same_keys_trans|auto].
Qed.

Lemma types_tap key : types (tap_text_key interrupts key).
Proof.
  intros s. eapply wp_mono; [apply tap_text_key_keys|]. intros ok s' H Hok.
  destruct (H Hok) as [? Hs]. split; [done|]. intros [? _]. auto.
Qed.

Lemma types_true : types (ret true).
Proof. intros s. by apply wp_ret. Qed.

Lemma types_false : types (ret false).
Proof. intros s. by apply wp_ret. Qed.

Lemma types_sequence l : types (type_ascii_sequence interrupts l).
Proof.
  induction l as [|c l IH]; cbn [type_ascii_sequence]; [apply types_true|].
  destruct (ascii_to_hid c) as [key|]; [|apply types_false].
  by apply types_then; [apply types_tap|apply IH|].
Qed.

Lemma types_entry e : types (type_entry interrupts e).
Proof. destruct e; [apply types_sequence|apply types_false]. Qed.

Lemma types_codepoint cp : types (type_codepoint interrupts cp).
Proof.
  unfold type_codepoint. destruct (if cp <=? 127 then _ else _) as [key|]; [apply types_tap|].
  destruct (codepoint_to_hangul_sequences cp) as [[[l v] t]|].
  - apply types_then; [apply types_entry| |done].
    apply types_then; [apply types_entry|apply types_entry|done].
  - destruct (hangul_jamo_sequence cp); [apply types_sequence|apply types_false].
Qed.

(** A paste clears the keys first: it keeps a released keyboard released. *)
Lemma paste_released cp s :
  released s ->
  wp (type_paste_codepoint interrupts cp)
    (fun ok s' => ok = true -> released s' /\ (settled s -> settled s')) s.
Proof.
  intros [Hm Hu]. unfold type_paste_codepoint. apply wp_bind, wp_get.
  destruct (_ <? 0); [done|]. apply wp_bind, wp_get, wp_bind, wp_modify, wp_bind, wp_send_keyboard.
  intros ok s1 (Em & Eu & _) Hf1. apply wp_bind, wp_modify. destruct ok; [|done]. cbn [negb].
  apply wp_bind, wp_modify, wp_send_keyboard.
  intros ok s2 (Em2 & Eu2 & _) Hf2 Hok. simpl in *. split.
  - split; [by rewrite Em2|]. intros u. rewrite Eu2, Eu. by destruct (u =? 25).
  - intros [Hf _]. destruct (Hf1 Hf) as [Hs1 _]. destruct (Hf2 Hs1) as [Hs2 Hr]. split; auto.
Qed.

Lemma type_loop_released fuel text offset s :
  released s ->
  wp (type_loop interrupts fuel text offset)
    (fun ok s' => ok = true -> released s' /\ (settled s -> settled s')) s.
Proof.
  revert offset s. induction fuel as [|fuel IH]; intros offset s Hs; cbn [type_loop];
    destruct (_ <? _)%nat; try (by apply wp_ret).
  destruct (utf8_decode text offset) as [[cp o']|]; [|by apply wp_ret].
  apply wp_bind.
  eapply (wp_mono _ (fun ok s' => ok = true -> released s' /\ (settled s -> settled s'))).
  - destruct (types_directly cp); [|by apply paste_released].
    eapply wp_mono; [apply types_codepoint|]. intros ok s1 H Hok. destruct (H Hok).
    split; [|done]. by eapply same_keys_released.
  - intros ok s1 H. destruct ok; [|done]. destruct (H eq_refl) as [? H1].
    eapply wp_mono; [by apply IH|]. intros ok s2 H2 Hok. destruct (H2 Hok) as [? H3]. auto.
Qed.

Lemma wp_queue_report id path data m d (Q : bool -> st -> Prop) s :
  (forall ok s', inputs s'.1 = inputs s.1 -> Q ok s') -> wp (queue_report interrupts id path data m d) Q s.
Proof.
  intros H. eapply wp_keeps; [apply queue_report_apart|]. intros ok s' E.
  apply H. exact (f_equal fst E).
Qed.

Lemma send_absolute_keys m s :
  wp (send_absolute interrupts m) (fun _ s' => same_keys s s') s.
Proof.
  unfold send_absolute. apply wp_bind, wp_get, wp_bind, wp_get, wp_bind.
  eapply (wp_mono _ (fun _ s' => same_keys s s')).
  - destruct (_ && _); [|done]. unfold write_absolute_now. apply wp_bind, wp_get.
    destruct (_ || _); [done|]. apply wp_bind, wp_get, wp_bind.
    apply (wp_keeps (fun s : st => s.1)).
    { keeps_step. }
    intros n s1 E. destruct (negb _); [by apply wp_ret; unfold same_keys; rewrite E|].
    apply wp_bind, wp_modify, wp_ret. unfold same_keys. simpl. by rewrite E.
  - intros written s1 H1. destruct written; [done|]. apply wp_bind, wp_get, wp_bind, wp_queue_report.
    intros ok s2 E. apply wp_bind, wp_modify, wp_ret.
    eapply same_keys_trans; [exact H1|]. apply inputs_same_keys in E. done.
Qed.

Lemma synchronize_released s :
  wp (hid_synchronize interrupts) (fun _ s' => released s' /\ keyboard_delay_ms s'.1 = 0) s.
Proof.
  unfold hid_synchronize, reset_keyboard_state.
  apply wp_bind, wp_modify, wp_bind, wp_modify, wp_bind, wp_modify, wp_bind, wp_send_keyboard_keys.
  intros ok s1 H1. apply wp_bind, wp_get, wp_bind, wp_queue_report. intros ok2 s2 H2%inputs_same_keys.
  apply wp_bind. eapply wp_mono; [apply send_absolute_keys|]. intros ok3 s3 H3. apply wp_ret.
  pose proof (same_keys_trans _ _ _ (same_keys_trans _ _ _ H1 H2) H3) as H. split.
  - by eapply same_keys_released; [exact H|].
  - by destruct H as (_ & _ & ->).
Qed.

Lemma release_all_released s :
  wp (hid_release_all interrupts) (fun _ s' => released s' /\ keyboard_delay_ms s'.1 = 0) s.
Proof.
  unfold hid_release_all. apply wp_bind, wp_modify, wp_bind.
  eapply wp_mono; [apply synchronize_released|]. intros ok s1 H1. by apply wp_ret.
Qed.

(** What the pointer's programs leave alone. *)
Definition keyboard_side (s : st) : InputState * HidReportQueue :=
  (let i := inputs s.1 in
   MkInputs (i_modifiers i) (i_usages i) (i_delay i) (i_paste i) 0 0 0 0 0 0 "" "" "",
   keyboard_queue s.1).

Lemma pointer_queue_side path data m d :
  keeps keyboard_side (queue_report (os := os) interrupts PointerQueue path data m d).
Proof.
  eapply (keeps_weaken (apart PointerQueue)); [|apply queue_report_apart].
  intros s s' E. unfold keyboard_side. rewrite (f_equal fst E : inputs s'.1 = inputs s.1).
  by rewrite (f_equal snd E : keyboard_queue s'.1 = keyboard_queue s.1).
Qed.

Lemma send_absolute_side m : keeps keyboard_side (send_absolute (os := os) interrupts m).
Proof.
  unfold send_absolute, write_absolute_now.
  repeat first [apply pointer_queue_side | keeps_step].
Qed.

Lemma keyboard_side_settled (s s' : st) : keyboard_side s' = keyboard_side s -> settled s -> settled s'.
Proof.
  intros E [Hf Hr]. unfold settled, ring_sized, reported in *. injection E as Em Eu _ _ Eq.
  cbn [get_queue] in *. rewrite Eq, (keyboard_report_ext s.1 s'.1); [done|done|]. by rewrite Eu.
Qed.

(** Behind a release the newest keyboard report is the released one, however the
    kernel answered. *)
Lemma release_all_settled s : wp (hid_release_all interrupts) (fun _ s' => settled s') s.
Proof.
  unfold hid_release_all, hid_synchronize, reset_keyboard_state.
  apply wp_bind, wp_modify, wp_bind, wp_bind, wp_modify, wp_bind, wp_modify, wp_bind, wp_modify.
  apply wp_bind, wp_send_keyboard. intros ok s1 _ Hf. destruct (Hf eq_refl) as [Hf1 Hr].
  assert (H1 : settled s1).
  { split; [done|]. apply Hr. right. cbn. unfold HID_REPORT_QUEUE_CAPACITY. lia. }
  apply wp_bind, wp_get, wp_bind, (wp_keeps keyboard_side); [apply pointer_queue_side|].
  intros ok2 s2 H2. apply wp_bind, (wp_keeps keyboard_side); [apply send_absolute_side|].
  intros ok3 s3 H3. apply wp_ret, wp_ret. eapply keyboard_side_settled; [|exact H1]. congruence.
Qed.

(** How typing ends. *)
Definition typing_end (text : bytes) (s : st) (ok : bool) (s' : st) : Prop :=
  keyboard_delay_ms s'.1 = 0 /\ (ring_sized KeyboardQueue s -> reported s') /\
  match shortcut_key s.1 text with
  | Some _ =>
      if ok then modifiers s'.1 = modifiers s.1 /\ forall u, usages s'.1 u = usages s.1 u
      else released s'
  | None => released s'
  end.

Lemma type_utf8_end text s :
  text <> [] -> wp (hid_type_utf8 interrupts text) (typing_end text s) s.
Proof.
  intros Hne. unfold hid_type_utf8. destruct (Nat.eqb_spec (length text) 0); [by destruct text|].
  apply wp_bind, wp_modify, wp_bind, wp_get. simpl fst.
  change (shortcut_key (set_keyboard_delay_ms s.1 20) text) with (shortcut_key s.1 text).
  set (s1 := (set_keyboard_delay_ms s.1 20, s.2)).
  assert (Hrel : forall s2, wp (hid_release_all interrupts)
    (fun _ s3 => keyboard_delay_ms s3.1 = 0 /\ reported s3 /\ released s3) s2).
  { intros s2. eapply wp_mono; [apply wp_and; [apply release_all_released|apply release_all_settled]|].
    by intros _ s3 [[? ?] [_ ?]]. }
  apply wp_bind. unfold typing_end. destruct (shortcut_key s.1 text) as [key|].
  - eapply wp_mono; [apply tap_text_key_keys|]. intros ok s2 H2. apply wp_bind, wp_modify, wp_bind.
    destruct ok.
    + apply wp_ret, wp_ret. destruct (H2 eq_refl) as [(Em & Eu & _) Hr].
      split_and!; [done| |done..]. intros Hf. by destruct (Hr Hf).
    + eapply wp_mono; [apply Hrel|]. intros u s3 (? & ? & ?). by apply wp_ret.
  - apply wp_bind, wp_modify, wp_bind, wp_send_keyboard. intros ok s2 H2 Hf2.
    eapply (wp_mono _ (fun ok s' => ok = true ->
      released s' /\ (ring_sized KeyboardQueue s -> settled s'))).
    + destruct ok; [|done]. eapply wp_mono.
      { apply type_loop_released. by eapply same_keys_released; [exact H2|]. }
      intros ok s3 H3 Hok. destruct (H3 Hok) as [? Hs]. split; [done|]. intros Hf. apply Hs.
      destruct (Hf2 Hf) as [? Hr]. split; auto.
    + intros ok3 s3 H3. apply wp_bind, wp_modify, wp_bind. destruct ok3.
      * apply wp_ret, wp_ret. destruct (H3 eq_refl) as [? Hs]. split_and!; [done| |done..].
        intros Hf. by destruct (Hs Hf).
      * eapply wp_mono; [apply Hrel|]. intros u s4 (? & ? & ?). by apply wp_ret.
Qed.
End Text.

(** ** Pointer reports and resynchronization *)

Section Pointer.
Context {W : Type} {os : HidOS W}.
Variable interrupts : nat.

Local Abbreviation st := (HidState * (W * list bytes))%type.

(** [reports] were queued behind the pending ones; [sent] were written. *)
Definition appended (id : queue_id) (s s' : st) (reports : list (Z * bytes)) : Prop :=
  exists sent, map wire (contents (get_queue id s.1)) ++ reports =
      map wire (sent ++ contents (get_queue id s'.1)) /\
    log s' = log s ++ map report_bytes sent /\
    queue_ok (get_queue id s'.1) /\ no_paste (get_queue id s'.1).

Lemma appended_trans id s1 s2 s3 l l' :
  appended id s1 s2 l -> appended id s2 s3 l' -> appended id s1 s3 (l ++ l').
Proof.
  intros (sent & E & L & _) (sent' & E' & L' & Q). exists (sent ++ sent'). split_and!; [|..|apply Q|apply Q].
  - rewrite app_assoc, E, map_app, <- app_assoc, E', !map_app. by rewrite <- app_assoc.
  - by rewrite L', L, map_app, app_assoc.
Qed.

Lemma wire_new data e delay m now :
  (length data <= 8)%nat ->
  wire (MkReport (overwrite (replicate 8 0) data) e (length data) delay m 0 now) = (e, data).
Proof. intros H. unfold wire, overwrite. simpl. by rewrite take_app_length. Qed.

(** A report that is not motion: queued, unless the queue is full. *)
Lemma wp_queue_plain id path data delay s (Q : bool -> st -> Prop) :
  ready id s -> (length data <= 8)%nat ->
  (forall ok s', apart id s' = apart id s ->
     ok = true -> appended id s s' [(path_endpoint s.1 path, data)] -> Q true s') ->
  (forall s', apart id s' = apart id s -> Q false s') ->
  wp (queue_report interrupts id path data false delay) Q s.
Proof.
  intros Hr Hd HQ HF. eapply wp_mono.
  { refine (wp_and _ _ (fun _ s' => apart id s' = apart id s) s
      (queue_report_spec interrupts id path data false delay s Hr) _).
    apply (queue_report_apart interrupts id path data false delay s). }
  intros ok s' [(before & sent & He & Eb & El & Hq & Hp) Hap]. destruct ok; [|by apply HF].
  apply (HQ true); [done..|]. exists sent. split_and!; [|done..].
  destruct He as [(? & ? & ? & _)|[(now & ->)|(? & _)]]; [done| |done].
  rewrite <- Eb, map_app. f_equal. cbn [map]. by rewrite wire_new.
Qed.

(** With room in the queue it is queued even when the flush fails. *)
Lemma wp_queue_room id path data delay s (Q : bool -> st -> Prop) :
  ready id s -> (length data <= 8)%nat ->
  (count (get_queue id s.1) < HID_REPORT_QUEUE_CAPACITY)%nat ->
  (forall ok s', apart id s' = apart id s ->
     appended id s s' [(path_endpoint s.1 path, data)] -> Q ok s') ->
  wp (queue_report interrupts id path data false delay) Q s.
Proof.
  intros Hr Hd Hc HQ. eapply wp_mono.
  { refine (wp_and _ _ (fun _ s' => apart id s' = apart id s) s
      (queue_report_spec interrupts id path data false delay s Hr) _).
    apply (queue_report_apart interrupts id path data false delay s). }
  intros ok s' [(before & sent & He & Eb & El & Hq & Hp) Hap].
  apply HQ; [done|]. exists sent. split_and!; [|done..].
  destruct He as [(? & ? & ? & _)|[(now & ->)|(_ & ? & _)]]; [done| |lia].
  rewrite <- Eb, map_app. f_equal. cbn [map]. by rewrite wire_new.
Qed.

(** *** Relative motion *)

Definition relative_report (b : Z) (d : Z * Z) : bytes :=
  [Z.land b HID_MOUSE_BUTTONS_MASK; u8 d.1; u8 d.2; u8 0].

Definition in_axis (d : Z * Z) : Prop := -127 <= d.1 <= 127 /\ -127 <= d.2 <= 127.

Definition total (ds : list (Z * Z)) : Z * Z := (foldr (fun d a => d.1 + a) 0 ds, foldr (fun d a => d.2 + a) 0 ds).

Lemma axis_step_range x : -32768 <= x <= 32767 ->
  -127 <= axis_step x <= 127 /\ i16 (x - axis_step x) = x - axis_step x /\
  (x = 0 -> axis_step x = 0) /\ Z.abs (x - axis_step x) <= Z.max 0 (Z.abs x - 127).
Proof.
  intros Hx. unfold axis_step, i16. destruct (Z.ltb_spec 127 x), (Z.ltb_spec x (-127));
    split_and!; try lia; Z.to_euclidean_division_equations; lia.
Qed.

Lemma relative_loop_exact fuel x y s :
  ready PointerQueue s -> -32768 <= x <= 32767 -> -32768 <= y <= 32767 ->
  Z.abs x <= 127 * Z.of_nat fuel -> Z.abs y <= 127 * Z.of_nat fuel ->
  wp (relative_loop interrupts fuel x y) (fun ok s' => ok = true ->
    exists ds, total ds = (x, y) /\ Forall in_axis ds /\
      appended PointerQueue s s'
        (map (fun d => (path_endpoint s.1 (mouse_path s.1), relative_report (buttons s.1) d)) ds)) s.
Proof.
  revert x y s. induction fuel as [|fuel IH]; intros x y s Hr Hx Hy Hfx Hfy; cbn [relative_loop].
  - assert (x = 0) as -> by lia. assert (y = 0) as -> by lia. apply wp_ret. intros _. exists [].
    split_and!; [done..|]. exists []. destruct Hr as (? & ? & _). simpl. by rewrite !app_nil_r.
  - destruct (negb (x =? 0) || negb (y =? 0)) eqn:E.
    2: { bool_hyps. subst. apply wp_ret. intros _. exists [].
         split_and!; [done..|]. exists []. destruct Hr as (? & ? & _). simpl. by rewrite !app_nil_r. }
    destruct (axis_step_range x Hx) as (Rx & Ex & Zx & Ax).
    destruct (axis_step_range y Hy) as (Ry & Ey & Zy & Ay).
    apply wp_bind. unfold send_relative. apply wp_bind, wp_get, wp_bind, wp_get.
    apply wp_queue_plain; [done|simpl; lia|..].
    + intros ok s1 Hap _ Happ. cbn [negb]. rewrite Ex, Ey.
      assert (Hr1 : ready PointerQueue s1) by (destruct Happ as (? & _ & _ & ? & ?); done).
      eapply wp_mono; [apply IH; [done|lia..]|]. intros ok2 s2 H Hok.
      destruct (H Hok) as (ds & Hsum & Hin & Happ2). exists ((axis_step x, axis_step y) :: ds).
      apply (f_equal fst) in Hap. injection Hap as _ _ _ _ _ _ Eb _ _ _ Ek Em _.
      split_and!.
      * unfold total in *. injection Hsum as H1 H2. simpl. f_equal; lia.
      * constructor; [done|done].
      * cbn [map]. eapply (appended_trans _ _ s1 _ [_]); [exact Happ|].
        unfold path_endpoint in *. by rewrite Eb, Ek, Em in Happ2.
    + intros s1 _. by apply wp_ret.
Qed.

(** A relative motion is never clipped: when [hid_relative] succeeds (and
    the extra buttons of the touch endpoint do not change), the reports it
    queues behind the pending ones each carry the new buttons and at most 127
    units per axis, and their deltas add up to exactly the requested motion,
    over the whole 16-bit range. *)
Theorem relative_motion_exact x y b s :
  ready PointerQueue s -> -32768 <= x <= 32767 -> -32768 <= y <= 32767 -> (x, y) <> (0, 0) ->
  let next := Z.land b HID_TOUCH_BUTTONS_MASK in
  Z.land (Z.lxor (buttons s.1) next) 0x18 = 0 ->
  let '(ok, s') := hid_relative interrupts x y b s in
  ok = true ->
  exists ds, total ds = (x, y) /\ Forall in_axis ds /\
    appended PointerQueue s s'
      (map (fun d => (path_endpoint s.1 (mouse_path s.1), relative_report next d)) ds).
Proof.
  intros Hr Hx Hy Hxy next Hch.
  set (s1 := (set_mouse_buttons (set_buttons s.1 next) next, s.2) : st).
  assert (H : wp (hid_relative interrupts x y b) (fun ok s' => ok = true ->
    exists ds, total ds = (x, y) /\ Forall in_axis ds /\
      appended PointerQueue s1 s'
        (map (fun d => (path_endpoint s1.1 (mouse_path s1.1), relative_report next d)) ds)) s).
  { unfold hid_relative. apply wp_bind, wp_get, wp_bind, wp_modify, wp_bind. fold next. fold s1.
    rewrite Hch. simpl (negb _). cbv iota. apply wp_ret. cbn [negb].
    destruct ((x =? 0) && (y =? 0)) eqn:E; [bool_hyps; by subst|].
    apply (relative_loop_exact 259 x y s1); [exact Hr|lia..]. }
  unfold wp in H. by destruct (hid_relative interrupts x y b s).
Qed.

(** *** Release *)

Lemma contents_empty : contents empty_queue = [].
Proof. done. Qed.

(** Nothing but zeros: no usage, no modifier. *)
Lemma keyboard_report_released (h : HidState) :
  modifiers h = 0 -> (forall u, usages h u = false) -> keyboard_report h = replicate 8 0.
Proof.
  intros Hm Hu. unfold keyboard_report, pressed. rewrite Hm.
  assert (E : forall l : list Z, filter (fun x => Is_true (usages h x)) l = []).
  { intros l. induction l as [|x l IH]; [done|]. rewrite filter_cons. rewrite decide_False; [done|].
    intros Hx. by rewrite Hu in Hx. }
  by rewrite E.
Qed.

(** The three reports of a release, in the order they are written or wait. *)
Definition release_wire (h : HidState) : list (Z * bytes) * list (Z * bytes) :=
  ([(path_endpoint h (keyboard_path h), replicate 8 0)],
   [(path_endpoint h (mouse_path h), [0; 0; 0; 0]);
    (path_endpoint h (touch_path h),
     take (absolute_report_length h)
       ([0] ++ write_touch_position (last_x h) (last_y h) ++ [0; 0]))]).

Lemma ready_empty id (s : st) :
  get_queue id s.1 = empty_queue -> (id = KeyboardQueue -> keyboard_paste_codepoint s.1 = 0) ->
  ready id s.
Proof.
  intros E Hk. unfold ready, no_paste. rewrite E, contents_empty.
  split; [apply empty_queue_ok|]. by split; [constructor|].
Qed.

Lemma contents_room id (s s' : st) (l : list (Z * bytes)) :
  contents (get_queue id s.1) = [] -> appended id s s' l -> (length l < HID_REPORT_QUEUE_CAPACITY)%nat ->
  (count (get_queue id s'.1) < HID_REPORT_QUEUE_CAPACITY)%nat.
Proof.
  intros E (sent & Ew & _) Hl. rewrite E in Ew. apply (f_equal length) in Ew. simpl in Ew.
  rewrite length_map, length_app in Ew.
  assert (length (contents (get_queue id s'.1)) = count (get_queue id s'.1))
    by (unfold contents; by rewrite length_map, length_seq). lia.
Qed.

(** The keyboard's part: from an empty queue and released keys. *)
Lemma wp_release_keyboard (s : st) (Q : bool -> st -> Prop) :
  keyboard_queue s.1 = empty_queue -> keyboard_paste_codepoint s.1 = 0 -> released s ->
  (forall ok s', appended KeyboardQueue s s' (release_wire s.1).1 ->
     inputs s'.1 = inputs s.1 -> pointer_queue s'.1 = pointer_queue s.1 -> Q ok s') ->
  wp (send_keyboard interrupts) Q s.
Proof.
  intros Hq Hp [Hm Hu] HQ. unfold send_keyboard.
  apply wp_bind, wp_get, wp_bind, wp_get, wp_bind, wp_get, wp_bind.
  rewrite keyboard_report_released by done.
  apply wp_queue_room; [by apply ready_empty|simpl; lia| |].
  { simpl. rewrite Hq. simpl. unfold HID_REPORT_QUEUE_CAPACITY. lia. }
  intros ok s' Hap Happ. apply wp_bind, wp_modify, wp_ret. apply HQ.
  - exact Happ.
  - exact (f_equal fst Hap).
  - exact (f_equal snd Hap).
Qed.

(** The pointer's part: a mouse report of zeros, then a touch report. *)
Lemma wp_release_pointer (g : bool -> bool -> bool) (s : st) (Q : bool -> st -> Prop) :
  pointer_queue s.1 = empty_queue -> buttons s.1 = 0 -> wheel s.1 = 0 -> pan s.1 = 0 ->
  (absolute_report_length s.1 <= 8)%nat ->
  (forall ok s', appended PointerQueue s s' (release_wire s.1).2 -> keyboard_queue s'.1 = keyboard_queue s.1 ->
     modifiers s'.1 = modifiers s.1 -> usages s'.1 = usages s.1 -> buttons s'.1 = buttons s.1 -> Q ok s') ->
  wp (bind (get mouse_path) (fun path =>
      bind (queue_report interrupts PointerQueue path [0; 0; 0; 0] false 0) (fun m =>
      bind (send_absolute interrupts false) (fun a => ret (g m a))))) Q s.
Proof.
  intros Hq Hb Hw Hp Hl HQ. apply wp_bind, wp_get, wp_bind.
  apply wp_queue_room; [by apply ready_empty|simpl; lia| |].
  { simpl. rewrite Hq. simpl. unfold HID_REPORT_QUEUE_CAPACITY. lia. }
  intros ok1 s1 Hap1 Happ1. apply wp_bind. unfold send_absolute.
  apply wp_bind, wp_get, wp_bind, wp_get. cbn [andb]. apply wp_bind, wp_ret, wp_bind, wp_get, wp_bind.
  pose proof (f_equal fst Hap1) as Hin. pose proof (f_equal snd Hap1) as Hk1. simpl in Hk1.
  injection Hin as Em Eu _ _ Ex Ey Eb Ew Ep Elen Ek Emo Et.
  assert (Erep : absolute_report s1.1 = take (absolute_report_length s.1)
    ([0] ++ write_touch_position (last_x s.1) (last_y s.1) ++ [0; 0])).
  { unfold absolute_report. rewrite Elen, Eb, Hb, Ex, Ey, Ew, Ep, Hw, Hp.
    by destruct (_ =? 7)%nat. }
  rewrite Erep.
  apply wp_queue_room.
  - destruct Happ1 as (? & _ & _ & ? & ?). split_and!; done.
  - rewrite length_take. lia.
  - eapply (contents_room PointerQueue s s1); [simpl; by rewrite Hq|exact Happ1|].
    simpl. unfold HID_REPORT_QUEUE_CAPACITY. lia.
  - intros ok2 s2 Hap2 Happ2. pose proof (f_equal fst Hap2) as Hin2.
    pose proof (f_equal snd Hap2) as Hk2. simpl in Hk2.
    injection Hin2 as Em2 Eu2 _ _ _ _ Eb2 _ _ _ _ _ _.
    apply wp_bind, wp_modify, wp_ret, wp_ret. apply HQ; simpl; [|congruence..].
    pose proof (appended_trans _ _ _ _ _ _ Happ1 Happ2) as Happ.
    unfold path_endpoint in *. rewrite Ek, Emo, Et in Happ. exact Happ.
Qed.

(** [hid_release_all] drops whatever was pending and replaces it by the
    all-released reports alone: a keyboard report of zeros, a mouse report of
    zeros and a touch report at the last position with no button and no
    wheel.  However the kernel answers, those three, and nothing else, are
    what was written during the call or is still pending, and the agent's own
    state holds no key and no button. *)
Theorem release_all_exact s :
  (absolute_report_length s.1 <= 8)%nat ->
  let '(_, s') := hid_release_all interrupts s in
  exists sent_k sent_p,
    map wire (sent_k ++ contents (keyboard_queue s'.1)) = (release_wire s.1).1 /\
    map wire (sent_p ++ contents (pointer_queue s'.1)) = (release_wire s.1).2 /\
    log s' = log s ++ map report_bytes (sent_k ++ sent_p) /\
    modifiers s'.1 = 0 /\ (forall u, usages s'.1 u = false) /\ buttons s'.1 = 0 /\
    (forall id, queue_ok (get_queue id s'.1) /\ no_paste (get_queue id s'.1)).
Proof.
  intros Hlen.
  assert (H : wp (hid_release_all interrupts) (fun _ s' => exists sent_k sent_p,
    map wire (sent_k ++ contents (keyboard_queue s'.1)) = (release_wire s.1).1 /\
    map wire (sent_p ++ contents (pointer_queue s'.1)) = (release_wire s.1).2 /\
    log s' = log s ++ map report_bytes (sent_k ++ sent_p) /\
    modifiers s'.1 = 0 /\ (forall u, usages s'.1 u = false) /\ buttons s'.1 = 0 /\
    (forall id, queue_ok (get_queue id s'.1) /\ no_paste (get_queue id s'.1))) s).
  { unfold hid_release_all, hid_synchronize, reset_keyboard_state.
    apply wp_bind, wp_modify, wp_bind, wp_bind, wp_modify, wp_bind, wp_modify, wp_bind, wp_modify.
    match goal with |- wp _ _ (?h, _) => remember h as h1 eqn:Eh end.
    assert (F : keyboard_queue h1 = empty_queue /\ pointer_queue h1 = empty_queue /\
      keyboard_paste_codepoint h1 = 0 /\ modifiers h1 = 0 /\ (forall u, usages h1 u = false) /\
      buttons h1 = 0 /\ wheel h1 = 0 /\ pan h1 = 0 /\
      absolute_report_length h1 = absolute_report_length s.1 /\ release_wire h1 = release_wire s.1)
      by (rewrite Eh; split_and!; reflexivity).
    clear Eh. destruct F as (F1 & F2 & F3 & F4 & F5 & F6 & F7 & F8 & F9 & F10).
    cbn [snd] in *. apply wp_bind.
    apply wp_release_keyboard; [done..|]. intros ok1 s2 (k & K1 & K2 & K3 & K4) Hin Hpq.
    cbn [fst] in *. injection Hin as Em Eu _ _ Ex Ey Eb Ew Ep Elen Ek Emo Et.
    apply (wp_release_pointer (fun m a => ok1 && m && a)); [congruence..|rewrite Elen, F9; exact Hlen|].
    intros ok2 s3 (p & P1 & P2 & P3 & P4) Hk3 Em3 Eu3 Eb3. apply wp_ret. exists k, p.
    cbn [get_queue fst] in K1, P1. rewrite F1 in K1. rewrite Hpq, F2 in P1. rewrite contents_empty in K1, P1.
    assert (Er : release_wire s2.1 = release_wire h1).
    { unfold release_wire, path_endpoint. by rewrite Ek, Emo, Et, Elen, Ex, Ey. }
    rewrite Er in P1. rewrite <- F10. split_and!.
    - rewrite Hk3, <- K1. done.
    - rewrite <- P1. done.
    - rewrite P2, K2, map_app, <- app_assoc. done.
    - congruence.
    - intros u. rewrite Eu3, Eu. apply F5.
    - congruence.
    - intros []; cbn [get_queue]; [rewrite Hk3|]; done. }
  unfold wp in H. by destruct (hid_release_all interrupts s).
Qed.
End Pointer.

(** ** Typed text, report by report *)

(** The keys a text stands for; [None] where a character has none and is pasted. *)
Definition sequence_keys (s : option string) : option (list HidTextKey) :=
  match s with Some s => mapM ascii_to_hid (c_string s) | None => None end.

Definition codepoint_keys (codepoint : Z) : option (list HidTextKey) :=
  match (if codepoint <=? 0x7f then ascii_to_hid (u8 codepoint) else None) with
  | Some key => Some [key]
  | None =>
      match codepoint_to_hangul_sequences codepoint with
      | Some (lead, vowel, trail) =>
          match sequence_keys lead, sequence_keys vowel, sequence_keys trail with
          | Some l, Some v, Some t => Some (l ++ v ++ t)
          | _, _, _ => None
          end
      | None => sequence_keys (hangul_jamo_sequence codepoint)
      end
  end.

Fixpoint text_keys (fuel : nat) (text : bytes) (offset : nat) : option (list HidTextKey) :=
  if (offset <? length text)%nat then
    match fuel with
    | O => None
    | S fuel =>
        match utf8_decode text offset with
        | Some (codepoint, offset') =>
            if types_directly codepoint then
              match codepoint_keys codepoint, text_keys fuel text offset' with
              | Some l, Some l' => Some (l ++ l')
              | _, _ => None
              end
            else None
        | None => None
        end
    end
  else Some [].

(** Every key goes down, with its modifier, and up again. *)
Definition press (h : HidState) (key : HidTextKey) : HidState :=
  set_usage (set_modifiers h (Z.lor (modifiers h) (modifier key))) (usage key) true.

Definition tap_reports (h : HidState) (keys : list HidTextKey) : list (Z * bytes) :=
  flat_map (fun key => [(1, keyboard_report (press h key)); (1, keyboard_report h)]) keys.

Definition released_keys (h : HidState) : HidState := set_modifiers (set_usages h (fun _ => false)) 0.

(** A shortcut is tapped on the held keys; a text is typed on a released keyboard. *)
Definition typed_reports (h : HidState) (text : bytes) : option (list (Z * bytes)) :=
  match shortcut_key h text with
  | Some key => Some (tap_reports h [key])
  | None =>
      match text_keys (length text) text 0 with
      | Some keys => Some ((1, replicate 8 0) :: tap_reports (released_keys h) keys)
      | None => None
      end
  end.

Section Typed.
Context {W : Type} {os : HidOS W}.
Variable interrupts : nat.

Local Abbreviation st := (HidState * (W * list bytes))%type.

Lemma tap_reports_ext (h h' : HidState) keys :
  modifiers h' = modifiers h -> (forall u, usages h' u = usages h u) ->
  tap_reports h' keys = tap_reports h keys.
Proof.
  intros Em Eu. unfold tap_reports. apply flat_map_ext. intros key.
  rewrite (keyboard_report_ext h h') by done. rewrite (keyboard_report_ext (press h key) (press h' key)); [done| |].
  - cbn. by rewrite Em.
  - intros u. cbn. by rewrite Eu.
Qed.

Lemma tap_reports_app h l l' : tap_reports h (l ++ l') = tap_reports h l ++ tap_reports h l'.
Proof. apply flat_map_app. Qed.

(** A successful send queues the report of the current keys. *)
Lemma wp_send_typed (s : st) (Q : bool -> st -> Prop) :
  ready KeyboardQueue s ->
  (forall s', same_keys s s' -> ready KeyboardQueue s' ->
     appended KeyboardQueue s s' [(1, keyboard_report s.1)] -> Q true s') ->
  (forall s', Q false s') ->
  wp (send_keyboard interrupts) Q s.
Proof.
  intros Hr HQ HF. unfold send_keyboard.
  apply wp_bind, wp_get, wp_bind, wp_get, wp_bind, wp_get, wp_bind.
  apply wp_queue_plain; [done|by rewrite keyboard_report_length|..].
  - intros ok s1 Hap _ Happ. apply wp_bind, wp_modify, wp_ret. rewrite keyboard_endpoint in Happ.
    pose proof (f_equal fst Hap : inputs s1.1 = inputs s.1) as Ei. apply HQ.
    + by apply inputs_same_keys.
    + destruct Happ as (? & _ & _ & Hq & Hp). split_and!; [done..|]. intros _.
      destruct Hr as (_ & _ & Hk). cbn. rewrite <- (Hk eq_refl).
      exact (f_equal i_paste Ei).
    + exact Happ.
  - intros s1 _. apply wp_bind, wp_modify, wp_ret. apply HF.
Qed.

(** A program that taps exactly [keys] when it succeeds. *)
Definition taps (keys : list HidTextKey) (m : M (W := W * list bytes) bool) : Prop :=
  forall s, ready KeyboardQueue s -> wp m (fun ok s' => ok = true ->
    same_keys s s' /\ ready KeyboardQueue s' /\ appended KeyboardQueue s s' (tap_reports s.1 keys)) s.

Lemma appended_nil (s : st) : ready KeyboardQueue s -> appended KeyboardQueue s s [].
Proof. intros (Hq & Hp & _). exists []. by rewrite !app_nil_r. Qed.

Lemma taps_nil : taps [] (ret true).
Proof. intros s Hs. apply wp_ret. intros _. split_and!; [done..|]. by apply appended_nil. Qed.

Lemma taps_then l l' (m : M bool) (k : bool -> M bool) :
  taps l m -> taps l' (k true) -> k false = ret false -> taps (l ++ l') (bind m k).
Proof.
  intros Hm Hk Hf s Hs. apply wp_bind. eapply wp_mono; [by apply Hm|]. intros ok s1 H1.
  destruct ok; [|by rewrite Hf]. destruct (H1 eq_refl) as (K1 & R1 & A1).
  eapply wp_mono; [by apply Hk|]. intros ok s2 H2 Hok. destruct (H2 Hok) as (K2 & R2 & A2).
  split_and!; [by eapply same_keys_trans|done|]. rewrite tap_reports_app.
  eapply appended_trans; [exact A1|]. destruct K1 as (Em & Eu & _).
  by rewrite (tap_reports_ext s.1 s1.1) in A2.
Qed.

Lemma taps_key key : taps [key] (tap_text_key interrupts key).
Proof.
  intros s Hs. unfold tap_text_key. apply wp_bind, wp_get, wp_bind, wp_get, wp_bind, wp_modify.
  fold (press s.1 key). apply wp_bind, wp_send_typed; [exact Hs| |done].
  intros s1 K1 R1 A1. cbn [negb]. apply wp_bind, wp_modify.
  set (h2 := set_usage _ _ _). apply wp_bind, wp_send_typed; [exact R1| |done].
  intros s2 K2 R2 A2. cbn [negb]. apply wp_ret. intros _.
  assert (K : same_keys s (h2, s1.2)).
  { destruct K1 as (Em & Eu & Ed). split_and!; cbn in *; [done| |done]. intros u. rewrite Eu.
    destruct (Z.eqb_spec u (usage key)) as [->|]; done. }
  split_and!; [by eapply same_keys_trans|done|].
  pose proof (appended_trans _ _ _ _ _ _ A1 A2) as A. cbn [fst app] in A.
  destruct K as (Em & Eu & _). by rewrite (keyboard_report_ext s.1 h2) in A.
Qed.

Lemma taps_sequence l keys : mapM ascii_to_hid l = Some keys -> taps keys (type_ascii_sequence interrupts l).
Proof.
  revert keys. induction l as [|c l IH]; intros keys E; cbn [type_ascii_sequence].
  - injection E as <-. apply taps_nil.
  - cbn in E. destruct (ascii_to_hid c) as [key|]; [|done]. cbn in E.
    destruct (mapM ascii_to_hid l) as [rest|]; [|done]. injection E as <-.
    apply (taps_then [key] rest); [apply taps_key|by apply IH|done].
Qed.

Lemma taps_entry e keys : sequence_keys e = Some keys -> taps keys (type_entry interrupts e).
Proof. destruct e; [apply taps_sequence|done]. Qed.

Lemma taps_codepoint cp keys : codepoint_keys cp = Some keys -> taps keys (type_codepoint interrupts cp).
Proof.
  unfold codepoint_keys, type_codepoint. destruct (if cp <=? 127 then _ else _) as [key|].
  { intros [= <-]. apply taps_key. }
  destruct (codepoint_to_hangul_sequences cp) as [[[l v] t]|].
  - destruct (sequence_keys l) eqn:El; [|done]. destruct (sequence_keys v) eqn:Ev; [|done].
    destruct (sequence_keys t) eqn:Et; [|done]. intros [= <-].
    apply taps_then; [by apply taps_entry| |done]. by apply taps_then; [apply taps_entry..|].
  - destruct (hangul_jamo_sequence cp); [apply taps_sequence|done].
Qed.

Lemma taps_loop fuel text : forall offset keys,
  text_keys fuel text offset = Some keys -> taps keys (type_loop interrupts fuel text offset).
Proof.
  induction fuel as [|fuel IH]; intros offset keys; cbn [text_keys type_loop];
    destruct (_ <? _)%nat; try done; try (intros [= <-]; apply taps_nil).
  destruct (utf8_decode text offset) as [[cp o']|]; [|done].
  destruct (types_directly cp); [|done].
  destruct (codepoint_keys cp) as [l|] eqn:El; [|done].
  destruct (text_keys fuel text o') as [l'|] eqn:El'; [|done]. intros [= <-].
  apply (taps_then l l'); [by apply taps_codepoint|by apply IH|done].
Qed.

Lemma type_utf8_typed text s reports :
  ready KeyboardQueue s -> typed_reports s.1 text = Some reports ->
  wp (hid_type_utf8 interrupts text)
    (fun ok s' => ok = true -> appended KeyboardQueue s s' reports) s.
Proof.
  intros Hr Ht. unfold hid_type_utf8. destruct (_ =? _)%nat; [done|].
  apply wp_bind, wp_modify, wp_bind, wp_get. simpl fst.
  change (shortcut_key (set_keyboard_delay_ms s.1 20) text) with (shortcut_key s.1 text).
  set (s1 := (set_keyboard_delay_ms s.1 20, s.2)). apply wp_bind.
  eapply (wp_mono _ (fun ok s' => ok = true -> appended KeyboardQueue s s' reports)).
  - unfold typed_reports in Ht. destruct (shortcut_key s.1 text) as [key|].
    + injection Ht as <-. eapply wp_mono; [apply (taps_key key s1 Hr)|]. intros ok s2 H Hok.
      by destruct (H Hok) as (_ & _ & A).
    + destruct (text_keys (length text) text 0) as [keys|] eqn:Ek; [|done]. injection Ht as <-.
      apply wp_bind, wp_modify. set (s2 := (_, _) : st).
      assert (E0 : keyboard_report s2.1 = replicate 8 0) by (by apply keyboard_report_released).
      apply wp_bind, wp_send_typed; [exact Hr| |done]. intros s3 K3 R3 A3. rewrite E0 in A3.
      eapply wp_mono; [by apply (taps_loop _ _ _ _ Ek)|]. intros ok s4 H Hok.
      destruct (H Hok) as (_ & _ & A4). destruct K3 as (Em & Eu & _).
      rewrite (tap_reports_ext (released_keys s.1) s3.1) in A4 by done.
      exact (appended_trans _ _ _ _ _ _ A3 A4).
  - intros ok s2 H. apply wp_bind, wp_modify, wp_bind. destruct ok.
    + apply wp_ret, wp_ret. exact H.
    + eapply wp_mono; [apply (release_all_settled interrupts)|]. intros u s3 _. by apply wp_ret.
Qed.

(** C20: [hid_type_utf8] never leaves a typed key down on the host, whatever the
    text and however the kernel fails.  Behind the call the newest keyboard
    report, pending or written, is the report of the keys the agent holds; behind
    plain text and behind every failure those are none, so that report is all
    zeros; a single shortcut key that succeeds leaves the held modifiers and keys
    exactly as they were; and the typing delay is off again.  When text that has
    keys of its own (ASCII and Hangul) is typed with success, the reports queued
    behind the pending ones are exactly: everything up, then per key one report
    with the key down and one with it up again. *)
Theorem type_utf8_releases text (s : st) :
  text <> [] -> ready KeyboardQueue s ->
  let '(ok, s') := hid_type_utf8 interrupts text s in
  keyboard_delay_ms s'.1 = 0 /\
  wire (newest (keyboard_queue s'.1)) = (1, keyboard_report s'.1) /\
  match shortcut_key s.1 text with
  | Some _ =>
      if ok then modifiers s'.1 = modifiers s.1 /\ forall u, usages s'.1 u = usages s.1 u
      else released s' /\ keyboard_report s'.1 = replicate 8 0
  | None => released s' /\ keyboard_report s'.1 = replicate 8 0
  end /\
  (ok = true -> forall reports, typed_reports s.1 text = Some reports ->
   appended KeyboardQueue s s' reports).
Proof.
  intros Hne Hr. pose proof Hr as ((Hf & _) & _).
  pose proof (type_utf8_end interrupts text s Hne) as H. unfold wp, typing_end, reported in H.
  assert (Ht : forall reports, typed_reports s.1 text = Some reports ->
    wp (hid_type_utf8 interrupts text)
      (fun ok s' => ok = true -> appended KeyboardQueue s s' reports) s)
    by (intros; by apply type_utf8_typed).
  unfold wp in Ht. destruct (hid_type_utf8 interrupts text s) as [ok s']. cbn [fst snd] in *.
  assert (Hz : released s' -> released s' /\ keyboard_report s'.1 = replicate 8 0).
  { intros [Hm Hu]. split; [done|]. by apply keyboard_report_released. }
  destruct H as (Hd & Hn & Hk). split_and!; [done|by apply Hn| |by auto].
  destruct (shortcut_key s.1 text); [|by apply Hz]. destruct ok; [done|by apply Hz].
Qed.
End Typed.

(** ** Witnesses *)

(** A kernel whose devices always accept; its state is the clock. *)
#[local] Instance steady_os : HidOS Z := {
  os_now w := (w, w); os_open w _ := (5, w); os_open_read w _ := (6, w);
  os_fstat w _ := (Some true, w); os_poll w _ := ((1, false), w);
  os_write w _ b := (Z.of_nat (length b), w); os_read w _ := ((-1, 0), w);
  os_close w _ := w; os_errno w := 11; os_set_errno w _ := w }.

Definition blank_state : HidState * (Z * list bytes) :=
  (hid_blank None None None None None 0, (1000, [])).

Lemma blank_ready id : ready id blank_state.
Proof. by apply ready_empty; destruct id. Qed.

Lemma queue_report_fifo_witness :
  let '(ok, s') :=
    queue_report (os := logged_os) 3 PointerQueue "/dev/hidg1" [1; 2; 3; 0] false 0 blank_state in
  queued PointerQueue "/dev/hidg1" [1; 2; 3; 0] false 0 blank_state ok s'.
Proof.
  apply (queue_report_fifo 3 PointerQueue "/dev/hidg1" [1; 2; 3; 0] false 0 blank_state).
  apply blank_ready.
Defined.

(** An h and one Hangul syllable: the release, then four keys down and up. *)
Lemma type_utf8_releases_witness :
  let '(ok, s') := hid_type_utf8 (os := logged_os) 3 [0x68; 0xed; 0x95; 0x9c] blank_state in
  ok = true /\ wire (newest (keyboard_queue s'.1)) = (1, replicate 8 0) /\
  exists reports, typed_reports blank_state.1 [0x68; 0xed; 0x95; 0x9c] = Some reports /\
    length reports = 9%nat /\ appended KeyboardQueue blank_state s' reports.
Proof.
  assert (Hne : [0x68; 0xed; 0x95; 0x9c] <> []) by done.
  pose proof (type_utf8_releases 3 _ blank_state Hne (blank_ready KeyboardQueue)) as H.
  assert (Hok : (hid_type_utf8 (os := logged_os) 3 [0x68; 0xed; 0x95; 0x9c] blank_state).1 = true)
    by (vm_compute; reflexivity).
  destruct (hid_type_utf8 3 [0x68; 0xed; 0x95; 0x9c] blank_state) as [ok s'].
  destruct H as (_ & Hn & Hk & Ht). cbn [fst] in Hok. subst ok.
  destruct Hk as [_ Hz]. split; [done|]. split; [by rewrite Hn, Hz|].
  eexists. split; [vm_compute; reflexivity|]. split; [reflexivity|].
  by apply Ht; [|vm_compute; reflexivity].
Defined.

Lemma relative_motion_exact_witness :
  let '(ok, s') := hid_relative (os := logged_os) 3 300 (-5) 1 blank_state in
  ok = true ->
  exists ds, total ds = (300, -5) /\ Forall in_axis ds /\
    appended PointerQueue blank_state s'
      (map (fun d => (path_endpoint blank_state.1 (mouse_path blank_state.1),
                      relative_report (Z.land 1 HID_TOUCH_BUTTONS_MASK) d)) ds).
Proof.
  pose proof (relative_motion_exact 3 300 (-5) 1 blank_state (blank_ready PointerQueue)
    ltac:(lia) ltac:(lia) ltac:(done)) as H.
  cbv zeta in H. exact (H eq_refl).
Defined.

Lemma release_all_exact_witness :
  let '(_, s') := hid_release_all (os := logged_os) 3 blank_state in
  exists sent_k sent_p,
    map wire (sent_k ++ contents (keyboard_queue s'.1)) = (release_wire blank_state.1).1 /\
    map wire (sent_p ++ contents (pointer_queue s'.1)) = (release_wire blank_state.1).2 /\
    log s' = log blank_state ++ map report_bytes (sent_k ++ sent_p) /\
    modifiers s'.1 = 0 /\ (forall u, usages s'.1 u = false) /\ buttons s'.1 = 0 /\
    (forall id, queue_ok (get_queue id s'.1) /\ no_paste (get_queue id s'.1)).
Proof.
  assert (Hl : (absolute_report_length blank_state.1 <= 8)%nat) by (vm_compute; lia).
  pose proof (release_all_exact 3 blank_state Hl) as H. exact H.
Defined.

(** On that kernel the relative motion of the witness does succeed, in three
    reports. *)
Example relative_motion_run :
  let '(ok, s') := hid_relative (os := logged_os) 3 300 (-5) 1 blank_state in
  (ok, log s') = (true, [[1; 127; 251; 0]; [1; 127; 0; 0]; [1; 46; 0; 0]]).
Proof. vm_compute. reflexivity. Qed.
