(* ===== verification/InputRouter.v ===== *)
(** * Routing of input events ([src/src/input_router.h], [src/src/input_router.c])

    Turns decoded RDP or HTTP input events into control messages, and keeps the
    modifiers and buttons it has announced. *)

From S2P Require Import Prelude Protocol HidMap.

(** The message buffer: the payload is the twelve-byte array. *)
Record InputRouterMessage := MkInputMessage {
  im_type : Z;
  im_payload : bytes;
  im_length : nat }.

Record InputRouter := MkRouter {
  r_width : Z;
  r_height : Z;
  r_swap_alt_command : bool;
  r_pointer_buttons : Z;
  r_keyboard_modifiers : Z;
  r_control_space_down : bool }.

Definition clear_message : InputRouterMessage := MkInputMessage 0 (replicate 12 0) 0.

(** A message whose payload starts with [data], over the cleared buffer. *)
Definition fill_message (t : NanokvmControlType) (data : bytes) (len : nat) : InputRouterMessage :=
  MkInputMessage (control_code t) (data ++ drop (length data) (im_payload clear_message)) len.

Definition input_router_init (width height : Z) (swap_alt_command : bool) : InputRouter :=
  MkRouter width height swap_alt_command 0 0 false.

Definition set_router_keys (r : InputRouter) (m : Z) (space : bool) : InputRouter :=
  MkRouter (r_width r) (r_height r) (r_swap_alt_command r) (r_pointer_buttons r) m space.
Definition set_router_buttons (r : InputRouter) (b : Z) : InputRouter :=
  MkRouter (r_width r) (r_height r) (r_swap_alt_command r) b (r_keyboard_modifiers r)
    (r_control_space_down r).

Definition bool_byte (b : bool) : Z := if b then 1 else 0.

Definition input_router_keyboard (r : InputRouter) (code : Z) (extended release : bool)
    : InputRouter * InputRouterMessage :=
  let '(mapped_code, mapped_extended) := hid_map_scancode code extended (r_swap_alt_command r) in
  let modifier := match hid_translate_scancode mapped_code mapped_extended with
                  | Some (_, m) => m
                  | None => 0
                  end in
  let modifiers := if release then Z.land (r_keyboard_modifiers r) (Z.lxor 0xff modifier)
                   else Z.lor (r_keyboard_modifiers r) modifier in
  let space :=
    if (code =? 0x39) && negb extended &&
       (negb (Z.land modifiers 0x11 =? 0) || r_control_space_down r)
    then negb release else r_control_space_down r in
  (set_router_keys r modifiers space,
   fill_message CONTROL_KEY [mapped_code; bool_byte mapped_extended; bool_byte release]
     NANOKVM_KEY_PAYLOAD_SIZE).

(** [None] where the function returns [false]. *)
Definition input_router_unicode (code : Z) (release : bool) : option InputRouterMessage :=
  if release then Some clear_message
  else if (code =? 0) || ((0xd800 <=? code) && (code <=? 0xdfff)) then None
  else if code <=? 0x7f then Some (fill_message CONTROL_TEXT_UTF8 [u8 code] 1)
  else if code <=? 0x7ff then
    Some (fill_message CONTROL_TEXT_UTF8
            [u8 (Z.lor 0xc0 (Z.shiftr code 6)); u8 (Z.lor 0x80 (Z.land code 0x3f))] 2)
  else
    Some (fill_message CONTROL_TEXT_UTF8
            [u8 (Z.lor 0xe0 (Z.shiftr code 12));
             u8 (Z.lor 0x80 (Z.land (Z.shiftr code 6) 0x3f));
             u8 (Z.lor 0x80 (Z.land code 0x3f))] 3).

Definition input_router_synchronize (r : InputRouter) : InputRouter * InputRouterMessage :=
  (set_router_buttons (set_router_keys r 0 false) 0, fill_message CONTROL_SYNCHRONIZE [] 0).

Definition input_router_release_all (r : InputRouter) : InputRouter * InputRouterMessage :=
  (set_router_buttons (set_router_keys r 0 false) 0, fill_message CONTROL_RELEASE_ALL [] 0).

Definition input_router_absolute_pointer (r : InputRouter) (x y flags : Z) (wheel : bool)
    : InputRouter * InputRouterMessage :=
  if wheel then (r, fill_message CONTROL_WHEEL (protocol_write_u16 flags) 2)
  else
    (set_router_buttons r (hid_pointer_buttons (r_pointer_buttons r) flags),
     fill_message CONTROL_POINTER_ABS
       (protocol_write_u16 (hid_clamp_absolute x (r_width r)) ++
        protocol_write_u16 (hid_clamp_absolute y (r_height r)) ++
        protocol_write_u16 (r_width r) ++ protocol_write_u16 (r_height r) ++
        protocol_write_u16 flags) 12).

Definition input_router_relative_pointer (r : InputRouter) (x_delta y_delta flags : Z)
    (wheel : bool) : InputRouter * InputRouterMessage :=
  if wheel then (r, fill_message CONTROL_WHEEL (protocol_write_u16 flags) 2)
  else
    let r' := set_router_buttons r (hid_pointer_buttons (r_pointer_buttons r) flags) in
    (r', fill_message CONTROL_POINTER_REL
           (protocol_write_u16 (u16 x_delta) ++ protocol_write_u16 (u16 y_delta) ++
            [r_pointer_buttons r']) 5).

(** What a router message puts on the wire: [protocol_send(type, payload, length)]. *)
Definition router_wire (m : InputRouterMessage) : NanokvmControlMessage :=
  Message (im_type m) (take (im_length m) (im_payload m)).

(** The router's encoder is the agent's. *)
Lemma unicode_message code m :
  is_u16 code -> input_router_unicode code false = Some m ->
  exists enc, utf8_encode code = Some enc /\ enc <> [] /\
    router_wire m = Message (control_code CONTROL_TEXT_UTF8) enc.
Proof.
  intros Hc. unfold input_router_unicode, utf8_encode.
  destruct ((code =? 0) || ((0xd800 <=? code) && (code <=? 0xdfff))) eqn:E; [done|].
  apply orb_false_iff in E as [_ E]. rewrite E, orb_false_r.
  rewrite (proj2 (Z.ltb_ge 0x10ffff code)) by (unfold is_u16 in Hc; lia).
  destruct (code <=? 0x7f); [intros [= <-]; by eexists|].
  destruct (code <=? 0x7ff); [intros [= <-]; by eexists|].
  rewrite (proj2 (Z.leb_le code 0xffff)) by (unfold is_u16 in Hc; lia).
  intros [= <-]. by eexists.
Qed.

(** Every code unit but zero and the surrogates is routed. *)
Lemma unicode_routed code :
  is_u16 code -> code <> 0 -> ~ 0xd800 <= code <= 0xdfff ->
  is_Some (input_router_unicode code false).
Proof.
  intros Hc H0 Hs. unfold input_router_unicode.
  rewrite (proj2 (Z.eqb_neq code 0)) by done.
  destruct (Z.leb_spec 0xd800 code), (Z.leb_spec code 0xdfff); cbn [orb andb]; try lia.
  all: repeat case_match; eauto.
Qed.
