(* ===== verification/HttpApi.v ===== *)
(** * The HTTP interface ([src/src/http_api.h], [src/src/http_api.c])

    Snapshots of the screen and input over HTTP.  The encoder, the clones of
    frames and the control connection are parameters; allocation and encoder
    failures are answers of the environment.  A response is the record it is
    printed from, and its bytes. *)

From stdpp Require Import strings.
From S2P Require Import Prelude Protocol CString HidMap InputRouter.

Definition HTTP_API_MAX_HEADER : Z := 8192.
Definition HTTP_API_MAX_BODY : Z := 65536.
Definition HTTP_API_MAX_JPEG : Z := 8 * 1024 * 1024.

(** Comparison of a length with a limit of the source. *)
Definition len (l : bytes) : Z := Z.of_nat (length l).

(** A literal in which a backquote stands for the double quote. *)
Definition quoted (s : string) : bytes := map (fun c => if c =? 96 then 34 else c) (c_string s).

Definition CRLF : bytes := [13; 10].
Definition CRLF2 : bytes := [13; 10; 13; 10].

(** ** Responses *)

Record response := MkResponse {
  status : Z;
  reason : bytes;
  content_type : bytes;
  body : bytes;
  extra : bytes }.

(** [%u], [%ld], [%zu] *)
Definition print_number (n : Z) : bytes :=
  if n <? 0 then 45 :: print_decimal 20 (- n) else print_decimal 20 n.

Definition response_header (r : response) : bytes :=
  c_string "HTTP/1.1 " ++ print_number (status r) ++ [32] ++ reason r ++ CRLF ++
  c_string "Content-Type: " ++ content_type r ++ CRLF ++
  c_string "Content-Length: " ++ print_number (Z.of_nat (length (body r))) ++ CRLF ++
  c_string "Cache-Control: no-store" ++ CRLF ++
  c_string "Access-Control-Allow-Origin: *" ++ CRLF ++
  c_string "Access-Control-Allow-Methods: GET, POST, OPTIONS" ++ CRLF ++
  c_string "Access-Control-Allow-Headers: Content-Type" ++ CRLF ++
  extra r ++ c_string "Connection: close" ++ CRLF2.

(** [send_all] is [write_all] of [protocol.c], on [send]. *)
Definition send_all (ws : write_script) (d : bytes) : option bool * bytes * write_script := write_all ws d.

(** [send_response]: the verdict, [None] while blocked, and the bytes that went out. *)
Definition send_response (ws : write_script) (r : response) : option bool * bytes * write_script :=
  if (768 <=? length (response_header r))%nat then (Some false, [], ws)
  else
    match send_all ws (response_header r) with
    | (Some true, wire, ws) =>
        if (length (body r) =? 0)%nat then (Some true, wire, ws)
        else let '(ok, wire', ws) := send_all ws (body r) in (ok, wire ++ wire', ws)
    | other => other
    end.

Definition send_text (status : Z) (type body : bytes) : response :=
  MkResponse status (c_string (if status =? 200 then "OK" else "Error")) type body [].

Definition application_json : bytes := c_string "application/json".

Definition send_ok (ok : bool) : response :=
  if ok then send_text 200 application_json (quoted "{`ok`:true}")
  else send_text 503 application_json (quoted "{`ok`:false}").

Definition send_error (status : Z) (error : string) : response :=
  send_text status application_json
    (quoted "{`ok`:false,`error`:`" ++ c_string error ++ quoted "`}").

(** ** Requests *)

(** The rest of the line behind [name:], and what follows it. *)
Fixpoint header_lines (fuel : nat) (line name : bytes) : option bytes :=
  match fuel with
  | O => None
  | S fuel =>
      match line with
      | [] => None
      | _ =>
          match strstr line CRLF with
          | None => None
          | Some end_ =>
              let length_ := (length line - length end_)%nat in
              if (length_ =? 0)%nat then None
              else if (length name + 1 <? length_)%nat && starts_with_nocase name line &&
                      (byte_at line (length name) =? 58)
              then Some (skip (fun c => (c =? 32) || (c =? 9)) (drop (length name + 1) line))
              else header_lines fuel (drop 2 end_) name
          end
      end
  end.

Definition header_value (request : bytes) (name : string) : option bytes :=
  header_lines (length request) request (c_string name).

Definition skip_blanks (s : bytes) : bytes := skip (fun c => (c =? 32) || (c =? 9)) s.

(** The value behind a key, quoted either way; the single-quoted key is looked
    for first. *)
Definition json_field (json : bytes) (key : string) : option bytes :=
  let k := c_string key in
  let found := match strstr json (39 :: k ++ [39]) with
               | Some f => Some f
               | None => strstr json (34 :: k ++ [34])
               end in
  match found with
  | None => None
  | Some f =>
      match strchr (drop (length k + 2) f) 58 with
      | None => None
      | Some (_ :: rest) => Some (skip_blanks rest)
      | Some [] => None
      end
  end.

Definition json_bool (json : bytes) (key : string) (fallback : bool) : bool :=
  match json_field json key with
  | None => fallback
  | Some v =>
      if starts_with (c_string "true") v then true
      else if starts_with (c_string "false") v then false else fallback
  end.

(** The number, if [present]. *)
Definition json_long (json : bytes) (key : string) : option Z :=
  match json_field json key with None => None | Some v => strtol v end.

(** The loop of [decode_json_string] behind the opening quote. *)
Fixpoint decode_loop (quote : Z) (s : bytes) (used out_size : nat) : option bytes :=
  match s with
  | [] => None
  | c :: s =>
      if c =? quote then Some []
      else if c =? 92 then
        match s with
        | [] => None
        | e :: s =>
            if e =? 117 then None
            else
              let value := if e =? 110 then 10 else if e =? 116 then 9 else e in
              if (out_size <=? used + 1)%nat then None
              else cons value <$> decode_loop quote s (used + 1) out_size
        end
      else if (out_size <=? used + 1)%nat then None
      else cons c <$> decode_loop quote s (used + 1) out_size
  end.

Definition decode_json_string (json : bytes) (key : string) (out_size : nat) : option bytes :=
  match json_field json key with
  | Some (q :: rest) => if (q =? 34) || (q =? 39) then decode_loop q rest 0 out_size else None
  | _ => None
  end.

(** ** State and handlers *)

Section Api.
(** Frames of the decoder and their JPEG packets ([None] where a stage of libav
    fails), the callbacks of the configuration, and the text of the viewer. *)
Context {F Ctx : Type} (frame_size : F -> Z * Z) (av_encode : F -> option bytes)
  (send_control : Ctx -> NanokvmControlMessage -> bool * Ctx) (set_stream : Ctx -> bool -> Ctx)
  (VIEWER_PAGE : bytes).

Record HttpApi := MkApi {
  config_width : Z;
  config_height : Z;
  input_busy : bool;
  started : bool;
  frame : option F;
  jpeg : option bytes;          (** the cached encoding, if any and not empty *)
  frame_id : Z;
  jpeg_frame_id : Z;
  frame_width : Z;
  frame_height : Z;
  router : InputRouter }.

Definition set_router (a : HttpApi) (r : InputRouter) : HttpApi :=
  MkApi (config_width a) (config_height a) (input_busy a) (started a) (frame a) (jpeg a) (frame_id a)
    (jpeg_frame_id a) (frame_width a) (frame_height a) r.
Definition set_busy (a : HttpApi) (b : bool) : HttpApi :=
  MkApi (config_width a) (config_height a) b (started a) (frame a) (jpeg a) (frame_id a)
    (jpeg_frame_id a) (frame_width a) (frame_height a) (router a).
Definition set_started (a : HttpApi) (b : bool) : HttpApi :=
  MkApi (config_width a) (config_height a) (input_busy a) b (frame a) (jpeg a) (frame_id a)
    (jpeg_frame_id a) (frame_width a) (frame_height a) (router a).
Definition set_jpeg (a : HttpApi) (j : bytes) (id : Z) : HttpApi :=
  MkApi (config_width a) (config_height a) (input_busy a) (started a) (frame a) (Some j) (frame_id a)
    id (frame_width a) (frame_height a) (router a).

(** [http_api_create], for a valid configuration. *)
Definition http_api_create (width height : Z) (swap_alt_command : bool) : option HttpApi :=
  if (width =? 0) || (height =? 0) then None
  else Some (MkApi width height false false None None 0 0 0 0
               (input_router_init width height swap_alt_command)).

Definition http_api_publish_frame (a : HttpApi) (f : F) : bool * HttpApi :=
  let '(w, h) := frame_size f in
  if (w <=? 0) || (h <=? 0) then (false, a)
  else (true, MkApi (config_width a) (config_height a) (input_busy a) (started a) (Some f) (jpeg a)
                (u32 (frame_id a + 1)) (jpeg_frame_id a) (u16 w) (u16 h) (router a)).

Definition http_api_input_idle (a : HttpApi) : bool := negb (input_busy a).

Definition http_api_set_desktop (a : HttpApi) (width height : Z) : HttpApi :=
  if (width =? 0) || (height =? 0) then a
  else MkApi width height (input_busy a) (started a) (frame a) (jpeg a) (frame_id a) (jpeg_frame_id a)
         (frame_width a) (frame_height a)
         (MkRouter width height (r_swap_alt_command (router a)) (r_pointer_buttons (router a))
            (r_keyboard_modifiers (router a)) (r_control_space_down (router a))).

Definition note_input_busy (a : HttpApi) : HttpApi :=
  set_busy a (negb (r_pointer_buttons (router a) =? 0) ||
              negb (r_keyboard_modifiers (router a) =? 0) || r_control_space_down (router a)).

Definition send_router_message (c : Ctx) (m : InputRouterMessage) : bool * Ctx :=
  if im_type m =? 0 then (true, c) else send_control c (router_wire m).

Definition result : Type := response * (HttpApi * Ctx).

Definition handle_key (a : HttpApi) (c : Ctx) (json : bytes) : result :=
  match json_long json "code" with
  | Some code =>
      if (code <? 0) || (255 <? code) then (send_error 400 "code", (a, c))
      else
        let extended := json_bool json "extended" false in
        let release := json_bool json "release" false || json_bool json "up" false in
        let '(r, m) := input_router_keyboard (router a) (u8 code) extended release in
        let '(ok, c) := send_router_message c m in
        (send_ok ok, (note_input_busy (set_router a r), c))
  | None => (send_error 400 "code", (a, c))
  end.

(** The codepoint at the front of the text and the bytes it takes; [None] for
    bytes that are not the UTF-8 of a BMP character's shape. *)
Definition text_codepoint (s : bytes) : option (Z * nat) :=
  let b i := byte_at s i in
  if b 0%nat <? 0x80 then Some (b 0%nat, 1%nat)
  else if (Z.land (b 0%nat) 0xe0 =? 0xc0) && (1 <? length s)%nat then
    Some (Z.lor (Z.shiftl (Z.land (b 0%nat) 0x1f) 6) (Z.land (b 1%nat) 0x3f), 2%nat)
  else if (Z.land (b 0%nat) 0xf0 =? 0xe0) && (2 <? length s)%nat then
    Some (Z.lor (Z.lor (Z.shiftl (Z.land (b 0%nat) 0x0f) 12) (Z.shiftl (Z.land (b 1%nat) 0x3f) 6))
            (Z.land (b 2%nat) 0x3f), 3%nat)
  else None.

(** The loop of [handle_text] over the rest of the text; every round takes at
    least one byte. *)
Fixpoint text_loop (fuel : nat) (s : bytes) (ok : bool) (c : Ctx) : response * Ctx :=
  match fuel with
  | O => (send_ok ok, c)
  | S fuel =>
      if (length s =? 0)%nat || negb ok then (send_ok ok, c)
      else
        match text_codepoint s with
        | None => (send_error 400 "utf-8", c)
        | Some (cp, consumed) =>
            if (cp =? 0) || (0xffff <? cp) then (send_error 400 "bmp-only", c)
            else
              match input_router_unicode (u16 cp) false with
              | None => text_loop fuel (drop consumed s) false c
              | Some m =>
                  let '(ok, c) := send_router_message c m in
                  text_loop fuel (drop consumed s) ok c
              end
        end
  end.

Definition handle_text (a : HttpApi) (c : Ctx) (json : bytes) : result :=
  match decode_json_string json "text" 1024 with
  | None => (send_error 400 "text", (a, c))
  | Some text => let '(r, c) := text_loop (S (length text)) text true c in (r, (a, c))
  end.

(** One axis of [map_pointer]. *)
Definition map_axis (frame_dim desktop_dim x : Z) : Z :=
  let source := if frame_dim =? 0 then desktop_dim else frame_dim in
  let x := if x <? 0 then 0 else x in
  let x := if (1 <? source) && (source <=? x) then source - 1 else x in
  if (source <=? 1) || (desktop_dim <=? 1) then 0
  else u16 (x * (desktop_dim - 1) / (source - 1)).

Definition mouse_flags (buttons : option Z) (down : bool) : Z :=
  match buttons with
  | None => 0
  | Some b =>
      let flags := Z.lor (Z.lor (if Z.testbit b 0 then 0x1000 else 0)
                                (if Z.testbit b 1 then 0x2000 else 0))
                         (if Z.testbit b 2 then 0x4000 else 0) in
      if down && negb (flags =? 0) then Z.lor flags 0x8000 else flags
  end.

Definition json_truth (b : bool) : bytes := c_string (if b then "true" else "false").

Definition handle_mouse (a : HttpApi) (c : Ctx) (json : bytes) : result :=
  match json_long json "x", json_long json "y" with
  | Some x, Some y =>
      if (x <? 0) || (y <? 0) || (65535 <? x) || (65535 <? y) then (send_error 400 "x,y", (a, c))
      else
        let flags := mouse_flags (json_long json "buttons") (json_bool json "down" true) in
        let mapped_x := map_axis (frame_width a) (r_width (router a)) x in
        let mapped_y := map_axis (frame_height a) (r_height (router a)) y in
        let '(r, m) := input_router_absolute_pointer (router a) mapped_x mapped_y flags false in
        let '(sent, c) := send_router_message c m in
        (send_text (if sent then 200 else 503) application_json
           (quoted "{`ok`:" ++ json_truth sent ++ quoted ",`x`:" ++ print_number mapped_x ++
            quoted ",`y`:" ++ print_number mapped_y ++ quoted ",`source_x`:" ++ print_number x ++
            quoted ",`source_y`:" ++ print_number y ++ quoted ",`width`:" ++
            print_number (r_width (router a)) ++ quoted ",`height`:" ++
            print_number (r_height (router a)) ++ quoted "}"),
         (note_input_busy (set_router a r), c))
  | _, _ => (send_error 400 "x,y", (a, c))
  end.

Definition wheel_flags (dx dy : Z) : Z :=
  let raw := if negb (dy =? 0) then dy else dx in
  let steps := if 120 <? raw then 120 else if raw <? -120 then -120 else raw in
  let magnitude := if steps <? 0 then - steps else steps in
  let flags := Z.lor (if negb (dy =? 0) then 0x0200 else 0x0400) (Z.land magnitude 0x1ff) in
  if steps <? 0 then Z.lor flags 0x0100 else flags.

Definition handle_wheel (a : HttpApi) (c : Ctx) (json : bytes) : result :=
  let dy := default 0 (json_long json "dy") in
  let dx := default 0 (json_long json "dx") in
  if (dy =? 0) && (dx =? 0) then (send_error 400 "dx,dy", (a, c))
  else
    let '(r, m) := input_router_absolute_pointer (router a) 0 0 (wheel_flags dx dy) true in
    let '(ok, c) := send_router_message c m in
    (send_ok ok, (set_router a r, c)).

Definition handle_release (a : HttpApi) (c : Ctx) : result :=
  let '(r, m) := input_router_release_all (router a) in
  let '(ok, c) := send_router_message c m in
  (send_ok ok, (note_input_busy (set_router a r), c)).

(** *** Snapshots

    [get_snapshot] holds the lock twice; between the two sections it encodes a
    clone, and other threads run. *)

(** What the encoder makes of a frame, as a function of the frame.  The encoder, the
    picture and the scaler that the source keeps between calls are the state of
    [HttpEncode.encode_frame], which shows that they always fit the frame. *)
Definition encode_frame (f : F) : option bytes :=
  match av_encode f with
  | None => None
  | Some packet =>
      if (length packet =? 0)%nat || (HTTP_API_MAX_JPEG <? len packet) then None else Some packet
  end.

Inductive snapshot_begun :=
| NoFrame
| Cached (id : Z) (jpeg : option bytes)   (** [None]: the copy was not allocated *)
| ToEncode (id : Z) (clone : option F).   (** [None]: the clone was not allocated *)

(** The first section; [allocated] is the answer of [malloc] or [av_frame_clone]. *)
Definition get_snapshot_begin (a : HttpApi) (allocated : bool) : snapshot_begun :=
  match frame a with
  | None => NoFrame
  | Some f =>
      let id := frame_id a in
      match jpeg a with
      | Some j =>
          if jpeg_frame_id a =? id then Cached id (if allocated then Some j else None)
          else ToEncode id (if allocated then Some f else None)
      | None => ToEncode id (if allocated then Some f else None)
      end
  end.

(** The second section. *)
Definition get_snapshot_commit (a : HttpApi) (id : Z) (encoded : bytes) (allocated : bool)
    : option bytes * HttpApi :=
  (if allocated then Some encoded else None, set_jpeg a encoded id).

(** Calls of other threads. *)
Inductive outside := PublishFrame (f : F) | SetDesktop (width height : Z).

Definition run_outside (a : HttpApi) (o : outside) : HttpApi :=
  match o with
  | PublishFrame f => (http_api_publish_frame a f).2
  | SetDesktop w h => http_api_set_desktop a w h
  end.
Definition run_outsides (a : HttpApi) (os : list outside) : HttpApi := fold_left run_outside os a.

(** What the environment does during a request. *)
Record answers := MkAnswers {
  alloc_body : bool;
  alloc_first : bool;
  alloc_second : bool;
  during : list outside }.

Definition get_snapshot (a : HttpApi) (e : answers) : option (bytes * Z) * HttpApi :=
  match get_snapshot_begin a (alloc_first e) with
  | NoFrame => (None, a)
  | Cached id j => ((fun j => (j, id)) <$> j, a)
  | ToEncode id None => (None, a)
  | ToEncode id (Some clone) =>
      let a := run_outsides a (during e) in
      match encode_frame clone with
      | None => (None, a)
      | Some encoded =>
          let '(j, a) := get_snapshot_commit a id encoded (alloc_second e) in
          ((fun j => (j, id)) <$> j, a)
      end
  end.

Definition handle_snapshot (a : HttpApi) (e : answers) : response * HttpApi :=
  let '(snapshot, a) := get_snapshot a e in
  (match snapshot with
   | None => send_error 503 "no-frame"
   | Some (j, id) =>
       MkResponse 200 (c_string "OK") (c_string "image/jpeg") j
         (c_string "X-Frame-Id: " ++ print_number id ++ CRLF)
   end, a).

Definition handle_status (a : HttpApi) : response :=
  let width := if frame_width a =? 0 then config_width a else frame_width a in
  let height := if frame_height a =? 0 then config_height a else frame_height a in
  send_text 200 application_json
    (quoted "{`ok`:true,`frame_id`:" ++ print_number (frame_id a) ++
     quoted ",`width`:" ++ print_number width ++ quoted ",`height`:" ++ print_number height ++
     quoted ",`has_frame`:" ++ json_truth (match frame a with Some _ => true | None => false end) ++
     quoted ",`desktop_width`:" ++ print_number (config_width a) ++
     quoted ",`desktop_height`:" ++ print_number (config_height a) ++ quoted "}").

(** *** Requests *)

(** The path before a query. *)
Fixpoint strip_query (path : bytes) : bytes :=
  match path with
  | [] => []
  | c :: path => if c =? 63 then [] else c :: strip_query path
  end.

Definition is_str (s : bytes) (lit : string) : bool := c_eq s (c_string lit).

Definition handle_request (a : HttpApi) (c : Ctx) (e : answers) (request body : bytes) : result :=
  match scan_two 7 255 request with
  | None => (send_error 400 "request", (a, c))
  | Some (method, path) =>
      let path := strip_query path in
      if is_str method "OPTIONS" then
        (MkResponse 204 (c_string "No Content") (c_string "text/plain") [] [], (a, c))
      else if is_str method "GET" && (is_str path "/" || is_str path "/index.html") then
        (MkResponse 200 (c_string "OK") (c_string "text/html; charset=utf-8") VIEWER_PAGE [], (a, c))
      else if is_str method "GET" && is_str path "/snapshot.jpg" then
        let '(r, a) := handle_snapshot a e in (r, (a, c))
      else if is_str method "GET" && is_str path "/api/status" then (handle_status a, (a, c))
      else if negb (is_str method "POST") then (send_error 404 "not-found", (a, c))
      else if is_str path "/api/key" then handle_key a c body
      else if is_str path "/api/text" then handle_text a c body
      else if is_str path "/api/mouse" then handle_mouse a c body
      else if is_str path "/api/wheel" then handle_wheel a c body
      else if is_str path "/api/release" then handle_release a c
      else (send_error 404 "not-found", (a, c))
  end.

(** The first loop of [serve_client]: the buffer when it ends, [None] where the
    function returns.  A receive that times out answers [Eagain]. *)
Fixpoint read_head (fuel : nat) (request : bytes) (s : recv_script) : option (bytes * recv_script) :=
  match fuel with
  | O => None
  | S fuel =>
      if HTTP_API_MAX_HEADER <=? len request then Some (request, s)
      else
        match recv (Z.to_nat (HTTP_API_MAX_HEADER - len request)) s with
        | (Eintr, s) => read_head fuel request s
        | (Eagain, _) | (Efail, _) | (Got [], _) => None
        | (Got d, s) =>
            let request := request ++ d in
            match strstr (c_str request) CRLF2 with
            | Some _ => Some (request, s)
            | None => read_head fuel request s
            end
        end
  end.

(** The second loop: the rest of a body of [n] bytes. *)
Fixpoint read_body (fuel n : nat) (filled : bytes) (s : recv_script) : option bytes :=
  match fuel with
  | O => None
  | S fuel =>
      if (n <=? length filled)%nat then Some filled
      else
        match recv (n - length filled) s with
        | (Eintr, s) => read_body fuel n filled s
        | (Eagain, _) | (Efail, _) | (Got [], _) => None
        | (Got d, s) => read_body fuel n (filled ++ d) s
        end
  end.

(** The response, if any, and the new state.  Every round of the loops takes an
    event or a byte off the script. *)
Definition serve_client (a : HttpApi) (c : Ctx) (e : answers) (s : recv_script)
    : option response * (HttpApi * Ctx) :=
  match read_head (S (script_size s)) [] s with
  | None => (None, (a, c))
  | Some (buffer, s) =>
      let request := c_str buffer in
      match strstr request CRLF2 with
      | None => (None, (a, c))
      | Some header_end =>
          let content_length := match header_value request "Content-Length" with
                                | Some v => strtoul v
                                | None => 0
                                end in
          let head := take (length request - length header_end) request in
          let inline_body := drop (length head + 4) buffer in
          if HTTP_API_MAX_BODY <? content_length then (Some (send_error 413 "body"), (a, c))
          else if negb (alloc_body e) then (None, (a, c))
          else
            let n := Z.to_nat content_length in
            match read_body (S (script_size s)) n (take n inline_body) s with
            | None => (None, (a, c))
            | Some body =>
                let '(r, st) := handle_request a c e head (c_str body) in (Some r, st)
            end
      end
  end.

(** *** The thread *)

Inductive accepted := Client (s : recv_script) (e : answers) | AcceptRetry | AcceptFailed.

(** [http_thread] over the results of [accept], with the responses.  A stop
    makes [accept] fail. *)
Fixpoint http_thread (a : HttpApi) (c : Ctx) (l : list accepted)
    : list (option response) * (HttpApi * Ctx) :=
  match l with
  | [] => ([], (a, c))
  | Client s e :: l =>
      let '(r, (a, c)) := serve_client a c e s in
      let '(rs, st) := http_thread a c l in (r :: rs, st)
  | AcceptRetry :: l => http_thread a c l
  | AcceptFailed :: _ => ([], (a, c))
  end.

(** [http_api_start]; [opened] tells whether the socket and the thread were
    set up. *)
Definition http_api_start (a : HttpApi) (c : Ctx) (opened : bool) : bool * (HttpApi * Ctx) :=
  if started a || negb opened then (false, (a, c))
  else (true, (set_started a true, set_stream c true)).

(** [http_api_stop], where the thread is joined before the release. *)
Definition http_api_stop (a : HttpApi) (c : Ctx) : HttpApi * Ctx :=
  if negb (started a) then (a, c)
  else
    let '(r, m) := input_router_release_all (router a) in
    (set_router (set_started a false) r, (send_router_message c m).2).

End Api.
