(* ===== verification/HttpSpec.v ===== *)
(** * Correctness of the HTTP interface

    Framing of requests whatever the chunks they arrive in, text input from the
    request to the control messages, pointer mapping, and snapshots under
    concurrent publication. *)

From stdpp Require Import strings.
From S2P Require Import Prelude Protocol CString HidMap InputRouter HttpApi.

(** ** Responses *)

(** What goes out is the beginning of the response, and all of it exactly when the
    call succeeds. *)
Lemma send_response_prefix ws r ok wire rest :
  (length (response_header r) < 768)%nat -> send_response ws r = (ok, wire, rest) ->
  exists unsent, response_header r ++ body r = wire ++ unsent /\ (ok = Some true <-> unsent = []).
Proof.
  intros Hh. unfold send_response. rewrite (proj2 (Nat.leb_gt _ _)) by lia. unfold send_all.
  destruct (write_all ws (response_header r)) as [[ok1 wire1] ws1] eqn:E1.
  destruct (write_all_spec _ _ _ _ _ E1) as (u1 & -> & Hu1).
  destruct ok1 as [[]|].
  - rewrite (proj1 Hu1 eq_refl), app_nil_r. destruct (body r) as [|x b]; cbn [length Nat.eqb].
    + intros [= <- <- <-]. by exists [].
    + destruct (write_all ws1 (x :: b)) as [[ok2 wire2] ws2] eqn:E2. intros [= <- <- <-].
      destruct (write_all_spec _ _ _ _ _ E2) as (u2 & -> & Hu2). exists u2. by rewrite app_assoc.
  - intros [= <- <- <-]. exists (u1 ++ body r). rewrite app_assoc. split; [done|].
    split; [done|]. intros [-> _]%app_eq_nil. by apply Hu1.
  - intros [= <- <- <-]. exists (u1 ++ body r). rewrite app_assoc. split; [done|].
    split; [done|]. intros [-> _]%app_eq_nil. by apply Hu1.
Qed.

(** ** Framing *)

(** The request line and headers up to their blank line. *)
Record well_formed_head (head : bytes) : Prop := {
  head_text : Forall (fun c => c <> 0) head;
  head_ends : strstr (head ++ CRLF2) CRLF2 = Some CRLF2;
  head_fits : len head + 4 <= HTTP_API_MAX_HEADER }.

(** The body length a head announces: none, or a plain decimal number. *)
Definition declares (head : bytes) (n : Z) : Prop :=
  match header_value (head ++ CRLF2) "Content-Length" with
  | None => n = 0
  | Some v => exists d more, v = d ++ CRLF ++ more /\ d <> [] /\ Forall is_digit d /\
                decimal_value 0 d = n
  end.

Lemma head_strstr head y : well_formed_head head ->
  strstr (head ++ CRLF2 ++ y) CRLF2 = Some (CRLF2 ++ y).
Proof. intros H. rewrite app_assoc. apply strstr_extend, head_ends, H. Qed.

Lemma nonzero_forallb l : forallb (fun c => negb (c =? 0)) l = true -> Forall (fun c => c <> 0) l.
Proof. rewrite forallb_forall, Forall_forall. intros H x Hx%H. by bool_hyps. Qed.

Lemma text_CRLF2 : Forall (fun c => c <> 0) CRLF2.
Proof. repeat constructor; lia. Qed.

Lemma c_str_head head y : well_formed_head head ->
  c_str (head ++ CRLF2 ++ y) = head ++ CRLF2 ++ c_str y.
Proof.
  intros H. rewrite c_str_app by apply H. by rewrite c_str_app by apply text_CRLF2.
Qed.

(** A buffer shorter than the head has no blank line yet. *)
Lemma partial_head head buf rest tail :
  well_formed_head head -> buf ++ rest = head ++ CRLF2 ++ tail ->
  (length buf < length head + 4)%nat -> strstr (c_str buf) CRLF2 = None.
Proof.
  intros Hh He Hl.
  assert (buf = take (length buf) (head ++ CRLF2)) as Hb.
  { apply (f_equal (take (length buf))) in He. rewrite take_app_length in He.
    rewrite app_assoc, take_app_le in He by (rewrite length_app; cbn; lia). done. }
  assert (Forall (fun c => c <> 0) buf) as Hz.
  { rewrite Hb. apply Forall_take, Forall_app. split; [apply Hh|apply text_CRLF2]. }
  rewrite c_str_id by done. destruct (strstr buf CRLF2) as [r|] eqn:E; [|done]. exfalso.
  pose proof (strstr_extend _ _ _ rest E) as E2. rewrite He, head_strstr in E2 by done.
  injection E2 as E2. apply (f_equal length) in He, E2. revert He E2.
  rewrite !length_app. cbn. apply strstr_suffix in E. destruct E as (g & t & -> & ->).
  rewrite !length_app in *. cbn in *. lia.
Qed.

Lemma recv_blocking n s r s' : (0 < n)%nat -> Forall event_blocking s -> recv n s = (r, s') ->
  Forall event_blocking s' /\
  match r with
  | Got d => d <> [] /\ (length d <= n)%nat
  | Eintr => True
  | Eagain => s = []
  | Efail => False
  end.
Proof.
  intros Hn Hs H. destruct s as [|e s0]; [by simplify_eq/=|].
  apply Forall_cons_iff in Hs as [He Hs]. destruct e as [d| | | |]; try done; simplify_eq/=; [|done].
  destruct (Nat.ltb_spec n (length d)); simplify_eq/=.
  - rewrite Forall_cons_iff. split_and!; [|done| |rewrite length_take; lia]; cbn.
    + intros E%(f_equal length). rewrite length_drop in E. cbn in E. lia.
    + intros E%(f_equal length). rewrite length_take in E. cbn in E. lia.
  - split_and!; (done || lia).
Qed.

(** Two decompositions of a list, the first one cut further right. *)
Lemma prefix_split (p l x y : bytes) :
  l ++ x = p ++ y -> (length p <= length l)%nat -> exists z, l = p ++ z.
Proof.
  intros H Hl. exists (drop (length p) l). apply (f_equal (take (length p))) in H.
  rewrite take_app_length, take_app_le in H by done. rewrite <- H at 1. by rewrite take_drop.
Qed.

Lemma read_head_spec head tail fuel : forall buf s,
  well_formed_head head -> Forall event_blocking s ->
  buf ++ script_bytes s = head ++ CRLF2 ++ tail -> (length buf < length head + 4)%nat ->
  (script_size s < fuel)%nat ->
  exists y s', read_head fuel buf s = Some (head ++ CRLF2 ++ y, s') /\
    y ++ script_bytes s' = tail /\ Forall event_blocking s'.
Proof.
  induction fuel as [|fuel IH]; intros buf s Hh Hs He Hl Hf; [lia|]. cbn [read_head].
  pose proof (head_fits _ Hh) as Hfit. unfold len in *.
  rewrite (proj2 (Z.leb_gt _ _)) by lia.
  destruct (recv _ s) as [r s'] eqn:Er.
  pose proof (recv_conserves _ _ _ _ Er) as Hc. pose proof (recv_decreases _ _ _ _ Er) as Hd.
  apply recv_blocking in Er as [Hs' Hr]; [|lia|done].
  destruct r as [d| | |]; [|rewrite Hc in He; by apply (IH buf s'); try lia| |done].
  - destruct Hr as [Hne _]. destruct d as [|x d0]; [done|]. cbv beta iota in Hd.
    set (d := x :: d0) in *. clearbody d.
    destruct Hc as [Hc _]. rewrite Hc, app_assoc in He.
    destruct (decide (length (buf ++ d) < length head + 4)%nat) as [Hlt|Hge].
    + rewrite (partial_head _ _ _ _ Hh He Hlt). apply (IH (buf ++ d) s'); try done. lia.
    + assert (exists y, buf ++ d = head ++ CRLF2 ++ y) as [y Hy].
      { rewrite (app_assoc head) in He.
        apply prefix_split in He as [y ->]; [|rewrite !length_app in *; cbn; lia].
        exists y. by rewrite <- app_assoc. }
      rewrite Hy in He. rewrite <- !app_assoc in He. apply app_inv_head, app_inv_head in He.
      exists y, s'. rewrite Hy, c_str_head, head_strstr by done. done.
  - subst s. rewrite app_nil_r in He. apply (f_equal length) in He.
    rewrite !length_app in He. cbn in He. lia.
Qed.

Lemma read_body_spec body rest fuel : forall filled s,
  Forall event_blocking s -> filled ++ script_bytes s = body ++ rest ->
  (length filled <= length body)%nat -> (script_size s < fuel)%nat ->
  read_body fuel (length body) filled s = Some body.
Proof.
  induction fuel as [|fuel IH]; intros filled s Hs He Hl Hf; [lia|]. cbn [read_body].
  destruct (Nat.leb_spec (length body) (length filled)) as [Hfull|Hpart].
  - f_equal. apply (f_equal (take (length body))) in He.
    rewrite take_app_length, take_app_le, take_ge in He by lia. done.
  - destruct (recv _ s) as [r s'] eqn:Er.
    pose proof (recv_conserves _ _ _ _ Er) as Hc. pose proof (recv_decreases _ _ _ _ Er) as Hd.
    apply recv_blocking in Er as [Hs' Hr]; [|lia|done].
    destruct r as [d| | |]; [|rewrite Hc in He; apply (IH filled s'); (done || lia)| |done].
    + destruct Hr as [Hne Hn]. destruct d as [|x d0]; [done|]. cbv beta iota in Hd.
    set (d := x :: d0) in *. clearbody d.
      destruct Hc as [Hc _]. rewrite Hc, app_assoc in He.
      apply (IH (filled ++ d) s'); try done; [rewrite length_app|]; lia.
    + subst s. rewrite app_nil_r in He. apply (f_equal length) in He.
      rewrite !length_app in He. lia.
Qed.

(** *** Header fields do not depend on what follows the blank line *)

Lemma starts_with_nocase_app p l x :
  (length p <= length l)%nat -> starts_with_nocase p (l ++ x) = starts_with_nocase p l.
Proof.
  intros H. unfold starts_with_nocase. rewrite map_app. apply starts_with_app. by rewrite !length_map.
Qed.

(** The line that is left behind the end of a line. *)
Lemma next_line g : starts_with CRLF (g ++ CRLF2) = true ->
  drop 2 (g ++ CRLF2) = CRLF \/ exists h, drop 2 (g ++ CRLF2) = h ++ CRLF2.
Proof.
  destruct g as [|a [|b g]]; [by left| |by right; exists g].
  cbn -[Z.eqb]. by destruct (13 =? a).
Qed.

Lemma blank_line fuel y name : header_lines fuel (CRLF ++ y) name = None.
Proof. destruct fuel; [done|]. cbn. by rewrite Nat.sub_diag. Qed.

Lemma header_step fuel pre e name :
  strstr (pre ++ e) CRLF = Some e -> e <> [] ->
  header_lines (S fuel) (pre ++ e) name =
  if (length pre =? 0)%nat then None
  else if (length name + 1 <? length pre)%nat && starts_with_nocase name (pre ++ e) &&
          (byte_at (pre ++ e) (length name) =? 58)
  then Some (skip_blanks (drop (length name + 1) (pre ++ e)))
  else header_lines fuel (drop 2 e) name.
Proof.
  intros Hs He. cbn [header_lines]. rewrite Hs, length_app, Nat.add_sub.
  destruct (pre ++ e) eqn:E; [|done]. by apply app_eq_nil in E as [_ ->].
Qed.

Lemma header_lines_app name y fuel : forall fuel' line,
  (exists h, line = h ++ CRLF2) -> (length line <= fuel)%nat -> (length line <= fuel')%nat ->
  header_lines fuel (line ++ y) name = (fun v => v ++ y) <$> header_lines fuel' line name.
Proof.
  induction fuel as [|fuel IH]; intros fuel' line [h ->] Hf Hf'.
  { rewrite length_app in Hf. cbn in Hf. lia. }
  destruct fuel' as [|fuel']; [rewrite length_app in Hf'; cbn in Hf'; lia|].
  destruct (strstr_before h CRLF2 CRLF eq_refl) as [g Hg].
  pose proof (strstr_extend _ _ _ y Hg) as Hgy.
  destruct (strstr_suffix _ _ _ Hg) as (pre & t & Hpre & Ht). rewrite Hpre in *.
  assert (Hne : g ++ CRLF2 <> []) by (by destruct g).
  rewrite <- app_assoc in Hgy |- *.
  rewrite !header_step by (done || by destruct g).
  destruct (Nat.eqb_spec (length pre) 0) as [|Hp]; [done|].
  assert (Hrec : header_lines fuel (drop 2 ((g ++ CRLF2) ++ y)) name =
    (fun v => v ++ y) <$> header_lines fuel' (drop 2 (g ++ CRLF2)) name).
  { rewrite !length_app in Hf, Hf'. cbn in Hf, Hf'.
    assert (Hl : (length (drop 2 (g ++ CRLF2)) <= length g + 2)%nat)
      by (rewrite length_drop, length_app; cbn; lia).
    rewrite drop_app_le by (rewrite length_app; cbn; lia).
    destruct (next_line g) as [->|Hh]; [by rewrite Ht|by rewrite blank_line; destruct fuel'|].
    apply IH; [done|lia..]. }
  destruct (Nat.ltb_spec (length name + 1) (length pre)) as [Hn|_]; cbn [andb]; [|done].
  rewrite (app_assoc pre (g ++ CRLF2) y).
  rewrite starts_with_nocase_app, byte_at_app_l by (rewrite length_app; lia).
  destruct (_ && _); [|done]. cbn. f_equal. unfold skip_blanks.
  rewrite drop_app_le by (rewrite length_app; lia). apply skip_app.
  rewrite drop_app_le by lia. apply Exists_app. right. rewrite Ht. by left.
Qed.

Lemma header_value_app head y name :
  header_value (head ++ CRLF2 ++ y) name = (fun v => v ++ y) <$> header_value (head ++ CRLF2) name.
Proof.
  unfold header_value. rewrite app_assoc. apply header_lines_app; [by exists head| |done].
  rewrite !length_app. lia.
Qed.

Lemma declares_strtoul head y n : declares head n -> n < 2 ^ 64 ->
  match header_value (head ++ CRLF2 ++ y) "Content-Length" with
  | Some v => strtoul v
  | None => 0
  end = n.
Proof.
  unfold declares. rewrite header_value_app. destruct (header_value _ _) as [v|]; cbn; [|by intros ->].
  intros (d & more & -> & Hne & Hd & <-) Hn. rewrite <- !app_assoc. cbn [CRLF app].
  apply strtoul_digits; try done. unfold is_digit. lia.
Qed.

(** ** Text *)

(** Characters the interface can type. *)
Definition bmp_scalar (cp : Z) : Prop := 0 < cp < 0x10000 /\ ~ 0xd800 <= cp <= 0xdfff.

Definition utf8 (cp : Z) : bytes := default [] (utf8_encode cp).
Definition utf8_text (cps : list Z) : bytes := concat (map utf8 cps).

(** What [JSON.stringify] escapes of a printable text. *)
Definition json_escape1 (c : Z) : bytes :=
  if (c =? 34) || (c =? 92) then [92; c]
  else if c =? 10 then [92; 110] else if c =? 9 then [92; 116] else [c].
Definition json_escape (t : bytes) : bytes := concat (map json_escape1 t).

Definition text_body (t : bytes) : bytes := quoted "{`text`:`" ++ json_escape t ++ quoted "`}".

Definition text_message (cp : Z) : NanokvmControlMessage :=
  Message (control_code CONTROL_TEXT_UTF8) (utf8 cp).

Lemma decode_escaped t rest used size :
  (used + length t < size)%nat ->
  decode_loop 34 (json_escape t ++ 34 :: rest) used size = Some t.
Proof.
  revert used. induction t as [|c t IH]; intros used Hl; [done|].
  change (json_escape (c :: t)) with (json_escape1 c ++ json_escape t). rewrite <- app_assoc.
  assert (Hs : (size <=? used + 1)%nat = false) by (apply Nat.leb_gt; cbn in Hl; lia).
  assert (IHt : decode_loop 34 (json_escape t ++ 34 :: rest) (used + 1) size = Some t)
    by (apply IH; cbn in Hl; lia).
  unfold json_escape1. destruct (Z.eqb_spec c 34) as [->|H34]; [cbn; by rewrite Hs, IHt|].
  destruct (Z.eqb_spec c 92) as [->|H92]; [cbn; by rewrite Hs, IHt|]. cbn [orb].
  destruct (Z.eqb_spec c 10) as [->|H10]; [cbn; by rewrite Hs, IHt|].
  destruct (Z.eqb_spec c 9) as [->|H9]; [cbn; by rewrite Hs, IHt|].
  cbn [app decode_loop]. rewrite (proj2 (Z.eqb_neq c 34)), (proj2 (Z.eqb_neq c 92)) by done.
  by rewrite Hs, IHt.
Qed.

Lemma length_json_escape t : (length (json_escape t) <= 2 * length t)%nat.
Proof.
  induction t as [|c t IH]; [done|].
  change (json_escape (c :: t)) with (json_escape1 c ++ json_escape t). rewrite length_app.
  assert (length (json_escape1 c) <= 2)%nat by (unfold json_escape1; repeat case_match; cbn; lia).
  cbn [length]. lia.
Qed.

Lemma json_escape_text t : Forall (fun c => c <> 0) t -> Forall (fun c => c <> 0) (json_escape t).
Proof.
  induction 1 as [|c t Hc _ IH]; [constructor|].
  change (json_escape (c :: t)) with (json_escape1 c ++ json_escape t). apply Forall_app. split; [|done].
  unfold json_escape1. repeat case_match; repeat constructor; lia.
Qed.

Lemma text_body_text t : Forall (fun c => c <> 0) t -> Forall (fun c => c <> 0) (text_body t).
Proof.
  intros Ht%json_escape_text.
  assert (Hq : forallb (fun c => negb (c =? 0)) (quoted "{`text`:`" ++ quoted "`}") = true) by done.
  rewrite forallb_app in Hq. apply andb_true_iff in Hq as [H1 H2].
  apply Forall_app. split; [by apply nonzero_forallb|].
  apply Forall_app. split; [done|by apply nonzero_forallb].
Qed.

Lemma text_body_decodes t size :
  strstr (text_body t) (c_string "'text'") = None -> (length t < size)%nat ->
  decode_json_string (text_body t) "text" size = Some t.
Proof.
  intros Hq Hl. unfold decode_json_string, json_field.
  change (39 :: c_string "text" ++ [39]) with (c_string "'text'"). rewrite Hq.
  cbn -[decode_loop json_escape]. by apply decode_escaped.
Qed.

Lemma cont_payload r : 0 <= r < 64 -> Z.land (0x80 + r) 0x3f = r.
Proof.
  intros Hr. apply Z.eqb_eq. by apply (range_forallb (fun r => Z.land (0x80 + r) 0x3f =? r) 0 64).
Qed.

Lemma lead2_payload q : 0 <= q < 32 ->
  Z.land (0xc0 + q) 0xe0 = 0xc0 /\ Z.land (0xc0 + q) 0x1f = q.
Proof.
  intros Hq. rewrite <- !Z.eqb_eq, <- andb_true_iff.
  by apply (range_forallb (fun q => (Z.land (0xc0 + q) 0xe0 =? 0xc0) && (Z.land (0xc0 + q) 0x1f =? q)) 0 32).
Qed.

Lemma lead3_payload q : 0 <= q < 16 ->
  Z.land (0xe0 + q) 0xe0 = 0xe0 /\ Z.land (0xe0 + q) 0xf0 = 0xe0 /\ Z.land (0xe0 + q) 0x0f = q.
Proof.
  intros Hq. rewrite <- !Z.eqb_eq, <- !andb_true_iff.
  by apply (range_forallb (fun q => (Z.land (0xe0 + q) 0xe0 =? 0xe0) &&
    ((Z.land (0xe0 + q) 0xf0 =? 0xe0) && (Z.land (0xe0 + q) 0x0f =? q))) 0 16).
Qed.

Lemma utf8_bmp cp : bmp_scalar cp ->
  utf8 cp = if cp <=? 0x7f then [cp]
            else if cp <=? 0x7ff then [0xc0 + cp / 64; 0x80 + cp mod 64]
            else [0xe0 + cp / 4096; 0x80 + (cp / 64) mod 64; 0x80 + cp mod 64].
Proof.
  intros [Hr Hs]. unfold utf8. rewrite utf8_encode_arith by lia.
  rewrite (proj2 (Z.ltb_ge 0x10ffff cp)), (proj2 (Z.leb_le cp 0xffff)) by lia. cbn [orb].
  destruct (Z.leb_spec 0xd800 cp), (Z.leb_spec cp 0xdfff); cbn [andb]; try lia.
  all: by repeat case_match.
Qed.

(** The loop of the handler reads back one character. *)
Lemma text_codepoint_utf8 cp rest :
  bmp_scalar cp -> text_codepoint (utf8 cp ++ rest) = Some (cp, length (utf8 cp)).
Proof.
  intros Hcp. rewrite utf8_bmp by done. destruct Hcp as [Hr Hs]. unfold text_codepoint.
  destruct (Z.leb_spec cp 0x7f); [|destruct (Z.leb_spec cp 0x7ff)]; cbn -[Z.land Z.lor Z.shiftl Z.mul].
  - by rewrite (proj2 (Z.ltb_lt cp 128)) by lia.
  - rewrite (proj2 (Z.ltb_ge _ _)) by mlia.
    destruct (lead2_payload (cp / 64)) as [-> ->]; [mlia|]. rewrite cont_payload by mlia.
    cbn -[Z.lor Z.shiftl]. rewrite lor_shiftl_add by mlia. do 2 f_equal. mlia.
  - rewrite (proj2 (Z.ltb_ge _ _)) by mlia.
    destruct (lead3_payload (cp / 4096)) as (-> & -> & ->); [mlia|]. rewrite !cont_payload by mlia.
    cbn -[Z.lor Z.shiftl]. rewrite <- Z.lor_assoc, (lor_shiftl_add (cp / 64 mod 64)) by mlia.
    rewrite lor_shiftl_add by mlia. do 2 f_equal. mlia.
Qed.

Lemma utf8_text_nonzero cps : Forall bmp_scalar cps -> Forall (fun c => c <> 0) (utf8_text cps).
Proof.
  induction 1 as [|cp cps Hcp _ IH]; [constructor|].
  change (utf8_text (cp :: cps)) with (utf8 cp ++ utf8_text cps). apply Forall_app. split; [|done].
  rewrite utf8_bmp by done. destruct Hcp as [Hr _].
  repeat case_match; repeat constructor; mlia.
Qed.

Lemma utf8_nonempty cp : bmp_scalar cp -> (0 < length (utf8 cp))%nat.
Proof. intros H. rewrite utf8_bmp by done. repeat case_match; cbn; lia. Qed.

(** ** Requests *)

(** Evaluate the comparisons with the routes. *)
Ltac eval_routes :=
  repeat match goal with
  | |- context [is_str ?x ?y] =>
      let b := eval vm_compute in (is_str x y) in
      replace (is_str x y) with b by (vm_compute; reflexivity)
  end; cbn [andb orb negb].

Section Http.
Context {F Ctx : Type} (frame_size : F -> Z * Z) (av_encode : F -> option bytes)
  (send_control : Ctx -> NanokvmControlMessage -> bool * Ctx) (VIEWER_PAGE : bytes).

Abbreviation serve := (serve_client frame_size av_encode send_control VIEWER_PAGE).
Abbreviation request := (handle_request frame_size av_encode send_control VIEWER_PAGE).

Lemma serve_client_framed a c e s head tail n :
  well_formed_head head -> declares head n -> 0 <= n < 2 ^ 64 ->
  Forall event_blocking s -> script_bytes s = head ++ CRLF2 ++ tail ->
  (n <= HTTP_API_MAX_BODY -> n <= len tail) ->
  serve a c e s =
  if HTTP_API_MAX_BODY <? n then (Some (send_error 413 "body"), (a, c))
  else if negb (alloc_body e) then (None, (a, c))
  else let '(r, st) := request a c e head (c_str (take (Z.to_nat n) tail)) in (Some r, st).
Proof.
  intros Hh Hn Hr Hs He Ht. unfold serve_client.
  destruct (read_head_spec head tail (S (script_size s)) [] s) as (y & s' & -> & Hy & Hs');
    try done; [cbn; lia|lia|].
  rewrite c_str_head, head_strstr, declares_strtoul with (n := n) by (done || lia).
  rewrite !length_app. replace (length head + _ - _)%nat with (length head) by lia.
  rewrite take_app_length.
  replace (drop (length head + 4) (head ++ CRLF2 ++ y)) with y
    by (rewrite app_assoc, drop_app_ge by (rewrite length_app; cbn; lia);
        rewrite length_app; cbn [length CRLF2]; by rewrite Nat.sub_diag).
  destruct (Z.ltb_spec HTTP_API_MAX_BODY n) as [|Hmax]; [done|].
  destruct (alloc_body e); [|done]. specialize (Ht Hmax). unfold len in Ht. cbn [negb].
  set (k := Z.to_nat n). assert (Hk : (k <= length tail)%nat) by lia.
  assert (Hl : length (take k tail) = k) by (rewrite length_take; lia).
  replace (read_body _ k (take k y) s') with (Some (take k tail)); [done|].
  symmetry. rewrite <- Hl at 1. destruct (decide (k <= length y)%nat) as [Hky|Hky].
  - apply (read_body_spec _ (script_bytes s')); try done; [|rewrite !length_take; lia|lia].
    by rewrite <- Hy, take_app_le.
  - apply (read_body_spec _ (drop k tail)); try done; [|rewrite !length_take; lia|lia].
    by rewrite take_drop, take_ge by lia.
Qed.

(** C31: Request framing: however the request is cut into chunks and the
    reads interrupted, a request whose head announces [n] bytes is handled with
    exactly that head and the next [n] bytes as its body, bytes behind them are
    ignored; an announced body over 64 KiB is refused with 413 unread, and
    nothing but an allocation failure prevents an answer. *)
Theorem serve_client_framing a c e s head tail n :
  well_formed_head head -> declares head n -> 0 <= n < 2 ^ 64 ->
  Forall event_blocking s -> script_bytes s = head ++ CRLF2 ++ tail ->
  (n <= HTTP_API_MAX_BODY -> n <= len tail) -> alloc_body e = true ->
  serve a c e s =
  if HTTP_API_MAX_BODY <? n then (Some (send_error 413 "body"), (a, c))
  else let '(r, st) := request a c e head (c_str (take (Z.to_nat n) tail)) in (Some r, st).
Proof.
  intros Hh Hn Hr Hs He Ht Ha. rewrite (serve_client_framed a c e s head tail n) by done.
  by rewrite Ha.
Qed.

(** *** Text input *)

(** Sending in order until a send fails. *)
Fixpoint send_messages (c : Ctx) (ms : list NanokvmControlMessage) : bool * Ctx :=
  match ms with
  | [] => (true, c)
  | m :: ms => let '(ok, c) := send_control c m in if ok then send_messages c ms else (false, c)
  end.

Lemma text_loop_done fuel s c : (text_loop send_control fuel s false c) = (send_ok false, c).
Proof. destruct fuel; [done|]. cbn. by rewrite orb_true_r. Qed.

Lemma text_loop_spec cps : forall fuel c,
  Forall bmp_scalar cps -> (length (utf8_text cps) < fuel)%nat ->
  text_loop send_control fuel (utf8_text cps) true c =
  let '(ok, c) := send_messages c (map text_message cps) in (send_ok ok, c).
Proof.
  induction cps as [|cp cps IH]; intros fuel c Hcps Hf; (destruct fuel as [|fuel]; [lia|]); [done|].
  apply Forall_cons_iff in Hcps as [Hcp Hcps].
  change (utf8_text (cp :: cps)) with (utf8 cp ++ utf8_text cps) in *.
  pose proof (utf8_nonempty cp Hcp) as Hne. rewrite length_app in Hf.
  cbn [text_loop]. rewrite length_app, (proj2 (Nat.eqb_neq _ _)) by lia. cbn [orb negb].
  rewrite text_codepoint_utf8, drop_app_length by done.
  assert (Hu : is_u16 cp) by (destruct Hcp; unfold is_u16; lia).
  rewrite (proj2 (Z.eqb_neq cp 0)), (proj2 (Z.ltb_ge 0xffff cp)) by (destruct Hcp; lia).
  cbn [orb]. rewrite u16_id by done.
  destruct (unicode_routed cp) as [m Hm]; [done|destruct Hcp; lia|apply Hcp|].
  rewrite Hm. destruct (unicode_message cp m Hu Hm) as (enc & He & _ & Hw).
  unfold send_router_message. replace (im_type m =? 0) with false.
  - rewrite Hw. cbn [map send_messages]. unfold text_message, utf8. rewrite He. cbn [default].
    destruct (send_control c _) as [[] c']; [|apply text_loop_done]. apply IH; [done|lia].
  - symmetry. apply Z.eqb_neq. apply (f_equal msg_type) in Hw. cbn in Hw. by rewrite Hw.
Qed.

Lemma post_text a c e head path body :
  scan_two 7 255 head = Some (c_string "POST", path) -> strip_query path = c_string "/api/text" ->
  request a c e head body = handle_text send_control a c body.
Proof. intros Hs Hp. unfold handle_request. rewrite Hs, Hp. eval_routes. reflexivity. Qed.

(** C21: Text input.  The text is non-zero scalar values of the basic plane, less
    than 1024 bytes of UTF-8; the body escapes its quotes, backslashes,
    newlines and tabs and carries every other character raw (control characters
    too); it nowhere contains the key text in single quotes; and its buffer can be
    allocated.  A POST of it to /api/text, arriving in any chunks, is then answered with success exactly when the control connection
    accepts one message per character, and the messages carry the characters in
    order, none lost, changed or added, up to the first one that is not accepted;
    the state of the interface does not change.  Outside these conditions valid
    JSON can be refused or mistyped: [quoted_key_in_text],
    [carriage_return_escape]. *)
Theorem http_text_typed a c e s head path cps rest :
  well_formed_head head -> scan_two 7 255 head = Some (c_string "POST", path) ->
  strip_query path = c_string "/api/text" ->
  Forall bmp_scalar cps -> (length (utf8_text cps) < 1024)%nat ->
  strstr (text_body (utf8_text cps)) (c_string "'text'") = None ->
  declares head (len (text_body (utf8_text cps))) ->
  Forall event_blocking s ->
  script_bytes s = head ++ CRLF2 ++ text_body (utf8_text cps) ++ rest -> alloc_body e = true ->
  serve a c e s =
  let '(ok, c) := send_messages c (map text_message cps) in (Some (send_ok ok), (a, c)).
Proof.
  intros Hh Hscan Hp Hcps Hl Hq Hd Hs He Ha. set (t := utf8_text cps) in *.
  assert (Hb : (length (text_body t) <= 2 * length t + 11)%nat).
  { unfold text_body. rewrite !length_app. pose proof (length_json_escape t). cbn. lia. }
  rewrite (serve_client_framed a c e s head (text_body t ++ rest) (len (text_body t)));
    try done; unfold len, HTTP_API_MAX_BODY in *; [|lia|rewrite length_app; lia].
  rewrite (proj2 (Z.ltb_ge _ _)), Ha by lia. cbn [negb]. rewrite Nat2Z.id, take_app_length, c_str_id.
  - rewrite (post_text _ _ _ _ path) by done. unfold handle_text.
    rewrite text_body_decodes by done. subst t. rewrite text_loop_spec by (done || lia).
    by destruct (send_messages c _).
  - apply text_body_text. by apply utf8_text_nonzero.
Qed.

(** *** Snapshots *)

(** The frames a list of calls publishes. *)
Definition valid_frame (f : F) : bool := let '(w, h) := frame_size f in (0 <? w) && (0 <? h).
Definition published (os : list (outside (F := F))) : list F :=
  flat_map (fun o => match o with
                     | PublishFrame f => if valid_frame f then [f] else []
                     | SetDesktop _ _ => []
                     end) os.

Definition newest (h : list F) : option F := h !! (length h - 1)%nat.

Definition snapshot_request (head : bytes) : bool :=
  match scan_two 7 255 head with
  | Some (method, path) => is_str method "GET" && is_str (strip_query path) "/snapshot.jpg"
  | None => false
  end.

(** The calls of other threads that run between the sections of a request. *)
Definition interleaved (a : HttpApi (F := F)) (e : answers (F := F)) (head : bytes) : list outside :=
  if snapshot_request head then
    match get_snapshot_begin a (alloc_first e) with
    | ToEncode _ (Some _) => during e
    | _ => []
    end
  else [].

Inductive api_event := Outside (o : outside (F := F)) | Request (e : answers (F := F)) (head body : bytes).

(** A run of the interface with the frames published so far; every response is
    noted with the frames published before its request. *)
Fixpoint session (h : list F) (a : HttpApi) (c : Ctx) (l : list api_event) : list (list F * response) :=
  match l with
  | [] => []
  | Outside o :: l => session (h ++ published [o]) (run_outside frame_size a o) c l
  | Request e head body :: l =>
      let '(r, (a', c')) := request a c e head body in
      (h, r) :: session (h ++ published (interleaved a e head)) a' c' l
  end.

(** The frames a run publishes. *)
Fixpoint session_frames (h : list F) (a : HttpApi) (c : Ctx) (l : list api_event) : list F :=
  match l with
  | [] => h
  | Outside o :: l => session_frames (h ++ published [o]) (run_outside frame_size a o) c l
  | Request e head body :: l =>
      let '(r, (a', c')) := request a c e head body in
      session_frames (h ++ published (interleaved a e head)) a' c' l
  end.

Definition snapshot_response (id : Z) (j : bytes) : response :=
  MkResponse 200 (c_string "OK") (c_string "image/jpeg") j
    (c_string "X-Frame-Id: " ++ print_number id ++ CRLF).

(** The cache holds the encoding of the frame whose number it carries. *)
Record snapshot_inv (h : list F) (a : HttpApi) : Prop := {
  inv_id : frame_id a = Z.of_nat (length h);
  inv_frame : frame a = newest h;
  inv_jpeg : forall j, jpeg a = Some j -> exists i f,
    jpeg_frame_id a = Z.of_nat (S i) /\ h !! i = Some f /\ encode_frame av_encode f = Some j }.

Definition same_frames (a a' : HttpApi (F := F)) : Prop :=
  frame a' = frame a /\ jpeg a' = jpeg a /\ frame_id a' = frame_id a /\ jpeg_frame_id a' = jpeg_frame_id a.

Lemma snapshot_inv_same h a a' : same_frames a a' -> snapshot_inv h a -> snapshot_inv h a'.
Proof. intros (Hf & Hj & Hi & Hji) [H1 H2 H3]. split; rewrite ?Hf, ?Hj, ?Hi, ?Hji; done. Qed.

Lemma last_published h f : newest (h ++ [f]) = Some f.
Proof. unfold newest. rewrite length_app. cbn. by rewrite Nat.add_sub, lookup_app_r, Nat.sub_diag by lia. Qed.

Lemma outside_inv h a o :
  Z.of_nat (length (h ++ published [o])) < 2 ^ 32 ->
  snapshot_inv h a -> snapshot_inv (h ++ published [o]) (run_outside frame_size a o).
Proof.
  destruct o as [f|w ht]; cbn [published flat_map run_outside]; rewrite ?app_nil_r.
  - unfold http_api_publish_frame, valid_frame. destruct (frame_size f) as [w ht].
    intros Hl [Hid Hf Hj].
    destruct (Z.ltb_spec 0 w), (Z.ltb_spec 0 ht), (Z.leb_spec w 0), (Z.leb_spec ht 0);
      cbn [andb orb] in *; rewrite ?app_nil_r in *; try lia; try (by split).
    split; cbn.
    + rewrite Hid. rewrite length_app in *. cbn [length] in *. rewrite u32_id; [lia|unfold is_u32; lia].
    + by rewrite last_published.
    + intros j (i & f' & -> & Hi & He)%Hj. exists i, f'. split_and!; [done| |done].
      rewrite lookup_app_l; [done|]. by eapply lookup_lt_Some.
  - intros _. apply snapshot_inv_same. unfold http_api_set_desktop. by destruct (_ || _).
Qed.

Lemma published_cons o os : published (o :: os) = published [o] ++ published os.
Proof. unfold published. cbn [flat_map]. by rewrite app_nil_r. Qed.

Lemma outsides_inv os : forall h a,
  Z.of_nat (length (h ++ published os)) < 2 ^ 32 ->
  snapshot_inv h a -> snapshot_inv (h ++ published os) (run_outsides frame_size a os).
Proof.
  induction os as [|o os IH]; intros h a Hl Hi; [by rewrite app_nil_r|].
  rewrite published_cons, app_assoc in *. apply (IH _ (run_outside frame_size a o)); [done|].
  apply outside_inv; [|done]. rewrite length_app in Hl. lia.
Qed.

Lemma last_lookup_id (h : list F) f : newest h = Some f -> exists i, length h = S i /\ h !! i = Some f.
Proof.
  intros H. exists (length h - 1)%nat. split; [|done].
  apply lookup_lt_Some in H. lia.
Qed.

(** A snapshot is the encoding of the newest frame when it was begun. *)
Lemma snapshot_spec h a e r a' :
  snapshot_inv h a ->
  Z.of_nat (length (h ++ published (match get_snapshot_begin a (alloc_first e) with
                                    | ToEncode _ (Some _) => during e | _ => [] end))) < 2 ^ 32 ->
  get_snapshot frame_size av_encode a e = (r, a') ->
  snapshot_inv (h ++ published (match get_snapshot_begin a (alloc_first e) with
                                | ToEncode _ (Some _) => during e | _ => [] end)) a' /\
  match r with
  | None => True
  | Some (j, id) => id = Z.of_nat (length h) /\
      exists f, newest h = Some f /\ encode_frame av_encode f = Some j
  end.
Proof.
  intros Hinv Hl. pose proof Hinv as [Hid Hf Hj]. unfold get_snapshot.
  destruct (get_snapshot_begin a (alloc_first e)) as [|id j|id clone] eqn:Eb;
    cbn [published flat_map] in *; rewrite ?app_nil_r in *; unfold get_snapshot_begin in Eb.
  - by intros [= <- <-].
  - destruct (frame a) as [f0|]; [|done]. destruct (jpeg a) as [j0|]; [|done].
    destruct (Z.eqb_spec (jpeg_frame_id a) (frame_id a)) as [Heq|]; [|done].
    injection Eb as <- <-. intros [= <- <-]. split; [done|].
    destruct (alloc_first e); [|done]. cbn. split; [done|].
    destruct (Hj j0 eq_refl) as (i & f & Hji & Hi & He). exists f. split; [|done].
    unfold newest. replace (length h - 1)%nat with i by lia. done.
  - assert (id = frame_id a /\ clone = (if alloc_first e then frame a else None)) as [-> ->].
    { destruct (frame a) as [f0|]; [|done].
      destruct (jpeg a); [destruct (_ =? _)|]; try done; injection Eb as <- <-; by destruct (alloc_first e). }
    clear Eb. destruct (alloc_first e); cbn [published flat_map] in *; rewrite ?app_nil_r in *;
      [|by intros [= <- <-]].
    rewrite Hf in *. destruct (newest h) as [f|] eqn:Elast; rewrite ?app_nil_r in *; [|by intros [= <- <-]].
    pose proof (outsides_inv (during e) h a Hl Hinv) as Ho.
    destruct (encode_frame av_encode f) as [enc|] eqn:Ee; [|by intros [= <- <-]].
    cbn [get_snapshot_commit]. intros [= <- <-]. split.
    + destruct Ho as [Ho1 Ho2 Ho3]. split; [done|done|]. intros j [= <-].
      destruct (last_lookup_id _ _ Elast) as (i & Hi & Hlook). exists i, f. split_and!; [|by apply lookup_app_l_Some|done].
      cbn. rewrite Hid. lia.
    + destruct (alloc_second e); [|done]. cbn. split; [done|]. by exists f.
Qed.

(** Handlers other than the snapshot leave the frames alone. *)
Definition plain (a : HttpApi) (x : response * (HttpApi (F := F) * Ctx)) : Prop :=
  same_frames a x.2.1 /\ content_type x.1 <> c_string "image/jpeg".

Lemma plain_json a ok r c :
  plain a (send_ok ok, (note_input_busy (set_router a r), c)) /\
  plain a (send_ok ok, (set_router a r, c)) /\ plain a (send_ok ok, (a, c)).
Proof. by destruct ok. Qed.

Lemma plain_error a status error c : plain a (send_error status error, (a, c)).
Proof. done. Qed.

Lemma handle_key_plain a c body : plain a (handle_key send_control a c body).
Proof.
  unfold handle_key. destruct (json_long body "code"); [|done]. destruct (_ || _); [done|].
  destruct (input_router_keyboard _ _ _ _) as [r m].
  destruct (send_router_message send_control c m) as [ok c']. apply plain_json.
Qed.

Lemma text_loop_type fuel : forall s ok c,
  content_type (text_loop send_control fuel s ok c).1 <> c_string "image/jpeg".
Proof.
  assert (Hok : forall ok, content_type (send_ok ok) <> c_string "image/jpeg") by (by intros []).
  induction fuel as [|fuel IH]; intros s ok c; [apply Hok|]. cbn [text_loop].
  destruct (_ || _); [apply Hok|]. destruct (text_codepoint s) as [[cp n]|]; [|done].
  destruct (_ || _); [done|]. destruct (input_router_unicode _ _); [|apply IH].
  destruct (send_router_message _ _ _). apply IH.
Qed.

Lemma handle_text_plain a c body : plain a (handle_text send_control a c body).
Proof.
  unfold handle_text. destruct (decode_json_string _ _ _) as [t|]; [|done].
  pose proof (text_loop_type (S (length t)) t true c) as H.
  destruct (text_loop send_control _ t true c). by split.
Qed.

Lemma handle_mouse_plain a c body : plain a (handle_mouse send_control a c body).
Proof.
  unfold handle_mouse. destruct (json_long body "x"), (json_long body "y"); try done.
  destruct (_ || _); [done|]. destruct (input_router_absolute_pointer _ _ _ _ _) as [r m].
  by destruct (send_router_message send_control c m) as [[] c'].
Qed.

Lemma handle_wheel_plain a c body : plain a (handle_wheel send_control a c body).
Proof.
  unfold handle_wheel. destruct (_ && _); [done|].
  destruct (input_router_absolute_pointer _ _ _ _ _) as [r m].
  destruct (send_router_message send_control c m) as [ok c']. apply plain_json.
Qed.

Lemma handle_release_plain a c : plain a (handle_release send_control a c).
Proof.
  unfold handle_release. destruct (input_router_release_all _) as [r m].
  destruct (send_router_message send_control c m) as [ok c']. apply plain_json.
Qed.

Lemma request_plain a c e head body :
  snapshot_request head = false -> plain a (request a c e head body).
Proof.
  unfold snapshot_request, handle_request.
  destruct (scan_two 7 255 head) as [[method path]|]; [|done]. cbv zeta. intros ->.
  destruct (is_str method "OPTIONS"); [done|].
  destruct (is_str method "GET" && (_ || _)); [done|].
  destruct (is_str method "GET" && _); [done|].
  destruct (negb _); [done|].
  destruct (is_str _ "/api/key"); [apply handle_key_plain|].
  destruct (is_str _ "/api/text"); [apply handle_text_plain|].
  destruct (is_str _ "/api/mouse"); [apply handle_mouse_plain|].
  destruct (is_str _ "/api/wheel"); [apply handle_wheel_plain|].
  destruct (is_str _ "/api/release"); [apply handle_release_plain|done].
Qed.

Lemma request_snapshot a c e head body :
  snapshot_request head = true ->
  request a c e head body =
  let '(r, a) := handle_snapshot frame_size av_encode a e in (r, (a, c)).
Proof.
  unfold snapshot_request, handle_request.
  destruct (scan_two 7 255 head) as [[method path]|]; [|done]. cbv zeta.
  intros [Hm Hp]%andb_true_iff. rewrite Hm, Hp. unfold is_str in *. apply c_eq_true in Hm, Hp.
  rewrite Hm, Hp. done.
Qed.

(** What a response must satisfy, given the frames published before its request. *)
Definition fresh (hr : list F * response) : Prop :=
  content_type hr.2 = c_string "image/jpeg" -> exists f j,
    newest hr.1 = Some f /\ encode_frame av_encode f = Some j /\
    hr.2 = snapshot_response (Z.of_nat (length hr.1)) j.

Lemma request_step h a c e head body r a' c' :
  snapshot_inv h a -> Z.of_nat (length (h ++ published (interleaved a e head))) < 2 ^ 32 ->
  request a c e head body = (r, (a', c')) ->
  snapshot_inv (h ++ published (interleaved a e head)) a' /\ fresh (h, r).
Proof.
  intros Hi Hl Hr. unfold interleaved in *. destruct (snapshot_request head) eqn:Es.
  - rewrite request_snapshot in Hr by done. unfold handle_snapshot in Hr.
    destruct (get_snapshot frame_size av_encode a e) as [sn a1] eqn:Eg.
    pose proof (snapshot_spec h a e sn a1 Hi Hl Eg) as [Hi' Hsn].
    injection Hr as <- <- <-. split; [done|]. unfold fresh. cbn [fst snd].
    destruct sn as [[j id]|]; [|done]. intros _. destruct Hsn as [-> (f & Hf & He)]. by exists f, j.
  - cbn [published flat_map] in *. rewrite app_nil_r in *.
    pose proof (request_plain a c e head body Es) as [Hs Ht]. rewrite Hr in Hs, Ht.
    split; [by eapply snapshot_inv_same|]. by intros ?%Ht.
Qed.

Lemma session_frames_prefix l : forall h a c, (length h <= length (session_frames h a c l))%nat.
Proof.
  induction l as [|[o|e head body] l IH]; intros h a c; cbn [session_frames]; [done| |].
  - etrans; [|apply IH]. rewrite length_app. lia.
  - destruct (request a c e head body) as [r [a' c']]. etrans; [|apply IH]. rewrite length_app. lia.
Qed.

Lemma session_fresh l : forall h a c,
  snapshot_inv h a -> Z.of_nat (length (session_frames h a c l)) < 2 ^ 32 ->
  Forall fresh (session h a c l).
Proof.
  induction l as [|[o|e head body] l IH]; intros h a c Hi Hl; cbn [session session_frames] in *; [done| |].
  - apply IH; [|done]. apply outside_inv; [|done].
    eapply Z.le_lt_trans; [|exact Hl]. apply Nat2Z.inj_le, session_frames_prefix.
  - destruct (request a c e head body) as [r [a' c']] eqn:Er.
    destruct (request_step h a c e head body r a' c' Hi) as [Hi' Hf]; [|done|].
    + eapply Z.le_lt_trans; [|exact Hl]. apply Nat2Z.inj_le, session_frames_prefix.
    + constructor; [done|]. by apply IH.
Qed.

(** C15: Snapshots: for every sequence of requests and of frames published and
    desktop sizes set by other threads, also while a snapshot is being encoded,
    every image that is served is the encoding of the newest frame published
    before its request was begun and carries that frame's number; the cache
    never hands out the image of another frame.  (Frame numbers have 32 bits;
    the run publishes fewer frames than that.) *)
Theorem snapshot_served_fresh width height swap a c l :
  http_api_create width height swap = Some a ->
  Z.of_nat (length (session_frames [] a c l)) < 2 ^ 32 ->
  Forall fresh (session [] a c l).
Proof.
  unfold http_api_create. destruct (_ || _); [done|]. intros [= <-] Hl.
  apply session_fresh; [|done]. by split.
Qed.
End Http.

(** ** Pointer *)

(** The width or height a pointer position refers to. *)
Definition source_dim (frame_dim desktop_dim : Z) : Z :=
  if frame_dim =? 0 then desktop_dim else frame_dim.

Lemma map_axis_eq fd dd x : 0 <= x -> is_u16 fd -> is_u16 dd ->
  map_axis fd dd x =
  if (source_dim fd dd <=? 1) || (dd <=? 1) then 0
  else Z.min x (source_dim fd dd - 1) * (dd - 1) / (source_dim fd dd - 1).
Proof.
  intros Hx Hf Hd. unfold map_axis. fold (source_dim fd dd). set (s := source_dim fd dd).
  assert (is_u16 s) by (unfold s, source_dim; by destruct (_ =? _)). unfold is_u16 in *.
  rewrite (proj2 (Z.ltb_ge x 0)) by lia.
  destruct (Z.leb_spec s 1), (Z.leb_spec dd 1), (Z.ltb_spec 1 s), (Z.leb_spec s x);
    cbn [andb orb]; try lia.
  - rewrite Z.min_r by lia. apply u16_id. unfold is_u16. rewrite Z.mul_comm, Z.div_mul by lia. lia.
  - rewrite Z.min_l by lia. apply u16_id. unfold is_u16. split; [apply Z.div_pos; nia|].
    apply Z.div_lt_upper_bound; nia.
Qed.

(** Pointer mapping: a position in the frame is mapped into the desktop,
    in order, the first and last pixel of the frame to the first and last of
    the desktop, and unchanged where both have the same size. *)
Theorem map_axis_spec frame_dim desktop_dim :
  is_u16 frame_dim -> 0 < desktop_dim < 65536 ->
  (forall x, 0 <= x -> 0 <= map_axis frame_dim desktop_dim x < desktop_dim) /\
  (forall x y, 0 <= x <= y -> map_axis frame_dim desktop_dim x <= map_axis frame_dim desktop_dim y) /\
  map_axis frame_dim desktop_dim 0 = 0 /\
  (1 < source_dim frame_dim desktop_dim ->
   map_axis frame_dim desktop_dim (source_dim frame_dim desktop_dim - 1) = desktop_dim - 1) /\
  (source_dim frame_dim desktop_dim = desktop_dim -> forall x, 0 <= x < desktop_dim ->
   map_axis frame_dim desktop_dim x = x).
Proof.
  intros Hf Hd. assert (Hd' : is_u16 desktop_dim) by (unfold is_u16; lia).
  set (s := source_dim frame_dim desktop_dim).
  assert (Hs : is_u16 s) by (unfold s, source_dim; by destruct (_ =? _)).
  assert (H : forall x, 0 <= x -> map_axis frame_dim desktop_dim x =
    if (s <=? 1) || (desktop_dim <=? 1) then 0 else Z.min x (s - 1) * (desktop_dim - 1) / (s - 1))
    by (intros; by apply map_axis_eq).
  destruct ((s <=? 1) || (desktop_dim <=? 1)) eqn:E.
  - split_and!; intros; rewrite ?H by lia; try lia; bool_hyps; destruct E; bool_hyps; lia.
  - bool_hyps. split_and!.
    + intros x Hx. rewrite H by lia. split; [apply Z.div_pos; nia|apply Z.div_lt_upper_bound; nia].
    + intros x y Hxy. rewrite !H by lia. apply Z.div_le_mono; [lia|]. apply Z.mul_le_mono_nonneg_r; lia.
    + by rewrite H, Z.min_l by lia.
    + intros _. rewrite H, Z.min_id, Z.mul_comm, Z.div_mul by lia. done.
    + intros Heq x Hx. rewrite H by lia. rewrite Heq, Z.min_l, Z.div_mul by lia. done.
Qed.

(** ** Concrete runs *)

(** A control connection that accepts everything and records it. *)
Definition recorder (c : list NanokvmControlMessage) (m : NanokvmControlMessage)
  : bool * list NanokvmControlMessage := (true, c ++ [m]).

(** Frames are numbers of a size, encoded as one byte. *)
Definition test_size (f : Z) : Z * Z := (640, 480).
Definition test_encode (f : Z) : option bytes := Some [u8 f].

Abbreviation test_request := (handle_request test_size test_encode recorder []).
Abbreviation test_serve := (serve_client test_size test_encode recorder []).

Definition test_api : HttpApi (F := Z) :=
  MkApi 1920 1080 false false None None 0 0 0 0 (input_router_init 1920 1080 false).
Definition test_answers : answers (F := Z) := MkAnswers true true true [PublishFrame 8].
Definition test_head : bytes :=
  c_string "POST /api/text HTTP/1.1" ++ CRLF ++ c_string "content-length: 13".
Definition get_snapshot_head : bytes := c_string "GET /snapshot.jpg?t=1 HTTP/1.1".

(** The request in three pieces, the reads interrupted once. *)
Definition test_script : recv_script :=
  [RecvData (take 30 test_head); RecvIntr;
   RecvData (drop 30 test_head ++ CRLF2 ++ take 3 (text_body (utf8_text [104; 105])));
   RecvData (drop 3 (text_body (utf8_text [104; 105])) ++ [120])].

Lemma test_head_ok : well_formed_head test_head.
Proof.
  split; [|vm_compute; reflexivity|vm_compute; discriminate].
  apply nonzero_forallb. vm_compute. reflexivity.
Qed.

Lemma test_head_declares : declares test_head 13.
Proof.
  unfold declares. replace (header_value _ _) with (Some ([49; 51] ++ CRLF ++ CRLF)) by (vm_compute; reflexivity).
  exists [49; 51], CRLF. split_and!; [done..| |done]. repeat constructor; unfold is_digit; lia.
Qed.

Lemma test_script_ok : Forall event_blocking test_script.
Proof. repeat constructor; cbn; discriminate. Qed.

Lemma serve_client_framing_witness :
  test_serve test_api [] test_answers test_script =
  let '(r, st) := test_request test_api [] test_answers test_head (text_body [104; 105]) in (Some r, st).
Proof.
  rewrite (serve_client_framing test_size test_encode recorder [] test_api [] test_answers test_script
             test_head (text_body [104; 105] ++ [120]) 13).
  - vm_compute. reflexivity.
  - apply test_head_ok.
  - apply test_head_declares.
  - lia.
  - apply test_script_ok.
  - vm_compute. reflexivity.
  - vm_compute. discriminate.
  - reflexivity.
Defined.

Lemma http_text_typed_witness :
  test_serve test_api [] test_answers test_script =
  (Some (send_ok true), (test_api, [text_message 104; text_message 105])).
Proof.
  rewrite (http_text_typed test_size test_encode recorder [] test_api [] test_answers test_script
             test_head (c_string "/api/text") [104; 105] [120]).
  - reflexivity.
  - apply test_head_ok.
  - vm_compute. reflexivity.
  - reflexivity.
  - repeat constructor; lia.
  - vm_compute. lia.
  - vm_compute. reflexivity.
  - apply test_head_declares.
  - apply test_script_ok.
  - vm_compute. reflexivity.
  - reflexivity.
Defined.

(** Two snapshots, the second frame published while the first is encoded. *)
Definition test_session : list (api_event (F := Z)) :=
  [Outside (PublishFrame 7); Request test_answers get_snapshot_head [];
   Request test_answers get_snapshot_head []].

Lemma snapshot_served_fresh_witness :
  Forall (fresh test_encode) (session test_size test_encode recorder [] [] test_api [] test_session) /\
  map snd (session test_size test_encode recorder [] [] test_api [] test_session) =
  [snapshot_response 1 [7]; snapshot_response 2 [8]].
Proof.
  split.
  - apply (snapshot_served_fresh test_size test_encode recorder [] 1920 1080 false);
      [reflexivity|vm_compute; reflexivity].
  - vm_compute. reflexivity.
Defined.

Lemma map_axis_spec_witness : map_axis 1280 1920 1279 = 1919.
Proof. apply (map_axis_spec 1280 1920); [unfold is_u16; lia|lia|reflexivity]. Defined.

(** *** Deviations *)

(** A key in single quotes inside the text is taken for the field. *)
Example quoted_key_in_text :
  (handle_text recorder test_api [] (text_body (c_string "say 'text' now"))).1 = send_error 400 "text".
Proof. vm_compute. reflexivity. Qed.

(** The JSON escape of a carriage return types the letter r. *)
Example carriage_return_escape :
  (handle_text recorder test_api [] (quoted "{`text`:`\r`}")).2.2 = [text_message 114].
Proof. vm_compute. reflexivity. Qed.

(** One step down turns the wheel by two detents, one step up by one: the
    rotation is sent as sign and magnitude and read as a signed 9-bit number. *)
Example wheel_step_down :
  wheel_detents (wheel_flags 0 (-1)) = -2 /\ wheel_detents (wheel_flags 0 1) = 1.
Proof. vm_compute. split; reflexivity. Qed.
