(* ===== verification/HttpEncode.v ===== *)
(** * Encoding snapshots ([src/src/http_api.c], [encode_frame])

    The encoder, the picture it reads and the scaler that fills it are kept between
    snapshots and remade when the size or the format of the frames changes.  libav's
    objects are what they were made for; its calls are answers of the environment. *)

From S2P Require Import Prelude.

(** A frame of the decoder, as far as [encode_frame] looks at it. *)
Record source_frame := MkSource { s_width : Z; s_height : Z; s_format : Z }.

Definition HTTP_API_MAX_JPEG : Z := 8 * 1024 * 1024.

(** The fields of [HttpApi] that are kept: the sizes of the encoder and of its
    picture, the frames the scaler was made for, and the record of the last one. *)
Record JpegState := MkJpeg {
  jpeg_encoder : option (Z * Z);
  jpeg_yuv : option (Z * Z);
  jpeg_scaler : option source_frame;
  jpeg_source_format : Z;
  jpeg_source_width : Z;
  jpeg_source_height : Z }.

(** [calloc]. *)
Definition jpeg_none : JpegState := MkJpeg None None None 0 0 0.

(** The calls that read or write pixels: with what object, on what. *)
Inductive encode_call :=
| Scale (made_for : option source_frame) (source : source_frame) (target : option (Z * Z))
| SendFrame (encoder picture : option (Z * Z)).

Inductive encode_stage :=
| StagePacket | StageEncoder | StageOpen | StageYuv | StageBuffer | StageScaler | StageWritable
| StageScale | StageSend | StageReceive | StageCopy.

Record encode_answers := MkEncode {
  e_packet : bool; e_encoder : bool; e_open : bool; e_yuv : bool; e_buffer : bool; e_scaler : bool;
  e_writable : bool; e_scaled : Z; e_send : bool; e_received : option bytes; e_copy : bool }.

(** A step that remakes or uses an object: the new state and the calls, or the stage
    that failed. *)
Definition encode_result : Type := (JpegState * list encode_call * (bytes + encode_stage))%type.

Definition same_size (size : option (Z * Z)) (f : source_frame) : bool :=
  match size with Some (w, h) => (w =? s_width f) && (h =? s_height f) | None => false end.

Definition set_encoder (j : JpegState) (e : option (Z * Z)) : JpegState :=
  MkJpeg e (jpeg_yuv j) (jpeg_scaler j) (jpeg_source_format j) (jpeg_source_width j) (jpeg_source_height j).
Definition set_yuv (j : JpegState) (y : option (Z * Z)) : JpegState :=
  MkJpeg (jpeg_encoder j) y (jpeg_scaler j) (jpeg_source_format j) (jpeg_source_width j) (jpeg_source_height j).

(** The encoder for the frame's size.  A context that cannot be opened is freed at
    once, so that one that is kept between calls is open: its size is all there is to
    tell. *)
Definition ensure_encoder (a : encode_answers) (f : source_frame) (j : JpegState)
    : JpegState * option encode_stage :=
  if same_size (jpeg_encoder j) f then (j, None)
  else if negb (e_encoder a) then (set_encoder j None, Some StageEncoder)
  else if negb (e_open a) then (set_encoder j None, Some StageOpen)
  else (set_encoder j (Some (s_width f, s_height f)), None).

(** The picture of that size. *)
Definition ensure_yuv (a : encode_answers) (f : source_frame) (j : JpegState)
    : JpegState * option encode_stage :=
  if same_size (jpeg_yuv j) f then (j, None)
  else if negb (e_yuv a) then (set_yuv j None, Some StageYuv)
  else if negb (e_buffer a) then (set_yuv j None, Some StageBuffer)
  else (set_yuv j (Some (s_width f, s_height f)), None).

(** The scaler for frames like this one; [sws_getCachedContext] gives one that was
    made for its arguments, or none. *)
Definition ensure_scaler (a : encode_answers) (f : source_frame) (j : JpegState)
    : JpegState * option encode_stage :=
  let j :=
    if match jpeg_scaler j with None => true | Some _ => false end ||
       negb (jpeg_source_format j =? s_format f) || negb (jpeg_source_width j =? s_width f) ||
       negb (jpeg_source_height j =? s_height f)
    then MkJpeg (jpeg_encoder j) (jpeg_yuv j) (if e_scaler a then Some f else None)
           (s_format f) (s_width f) (s_height f)
    else j in
  (j, match jpeg_scaler j with None => Some StageScaler | Some _ => None end).

(** The rest: scale, encode and copy. *)
Definition encode_pixels (a : encode_answers) (f : source_frame) (j : JpegState)
    : list encode_call * (bytes + encode_stage) :=
  if negb (e_writable a) then ([], inr StageWritable)
  else
    let scale := Scale (jpeg_scaler j) f (jpeg_yuv j) in
    if negb (e_scaled a =? s_height f) then ([scale], inr StageScale)
    else
      let send := SendFrame (jpeg_encoder j) (jpeg_yuv j) in
      if negb (e_send a) then ([scale; send], inr StageSend)
      else
        match e_received a with
        | None => ([scale; send], inr StageReceive)
        | Some packet =>
            if (length packet =? 0)%nat || (HTTP_API_MAX_JPEG <? Z.of_nat (length packet))
            then ([scale; send], inr StageReceive)
            else if negb (e_copy a) then ([scale; send], inr StageCopy)
            else ([scale; send], inl packet)
        end.

Definition encode_frame (a : encode_answers) (f : source_frame) (j : JpegState) : encode_result :=
  if negb (e_packet a) then (j, [], inr StagePacket)
  else
    match ensure_encoder a f j with
    | (j, Some stage) => (j, [], inr stage)
    | (j, None) =>
        match ensure_yuv a f j with
        | (j, Some stage) => (j, [], inr stage)
        | (j, None) =>
            match ensure_scaler a f j with
            | (j, Some stage) => (j, [], inr stage)
            | (j, None) => let '(calls, result) := encode_pixels a f j in (j, calls, result)
            end
        end
    end.

(** A run of snapshots, with all calls and results. *)
Fixpoint encode_frames (fs : list (encode_answers * source_frame)) (j : JpegState)
    : list (source_frame * list encode_call * (bytes + encode_stage)) :=
  match fs with
  | [] => []
  | (a, f) :: fs => let '(j, calls, result) := encode_frame a f j in (f, calls, result) :: encode_frames fs j
  end.

(** ** Every object fits the frame it is used on *)

(** The record of the scaler's frames is true. *)
Definition jpeg_ok (j : JpegState) : Prop :=
  match jpeg_scaler j with
  | Some f => jpeg_source_format j = s_format f /\ jpeg_source_width j = s_width f /\
              jpeg_source_height j = s_height f
  | None => True
  end.

(** What the libraries require of a call. *)
Definition call_fits (f : source_frame) (c : encode_call) : Prop :=
  match c with
  | Scale made_for source target =>
      source = f /\ made_for = Some f /\ target = Some (s_width f, s_height f)
  | SendFrame encoder picture =>
      encoder = Some (s_width f, s_height f) /\ picture = Some (s_width f, s_height f)
  end.

Lemma same_size_true size f : same_size size f = true -> size = Some (s_width f, s_height f).
Proof. destruct size as [[w h]|]; [|done]. cbn. intros H. bool_hyps. by subst. Qed.

Lemma ensure_encoder_spec a f j j' stage : ensure_encoder a f j = (j', stage) -> jpeg_ok j ->
  jpeg_ok j' /\ (stage = None -> jpeg_encoder j' = Some (s_width f, s_height f)).
Proof.
  unfold ensure_encoder, jpeg_ok. destruct (same_size _ _) eqn:E.
  { intros [= <- <-] Hj. split; [done|]. intros _. by apply same_size_true. }
  intros H Hj. destruct (negb (e_encoder a)), (negb (e_open a)); simplify_eq; split; done.
Qed.

Lemma ensure_yuv_spec a f j j' stage : ensure_yuv a f j = (j', stage) -> jpeg_ok j ->
  jpeg_ok j' /\ jpeg_encoder j' = jpeg_encoder j /\
  (stage = None -> jpeg_yuv j' = Some (s_width f, s_height f)).
Proof.
  unfold ensure_yuv, jpeg_ok. destruct (same_size _ _) eqn:E.
  { intros [= <- <-] Hj. split_and!; [done..|]. intros _. by apply same_size_true. }
  intros H Hj. destruct (negb (e_yuv a)), (negb (e_buffer a)); simplify_eq; split_and!; done.
Qed.

Lemma ensure_scaler_spec a f j j' stage : ensure_scaler a f j = (j', stage) -> jpeg_ok j ->
  jpeg_ok j' /\ jpeg_encoder j' = jpeg_encoder j /\ jpeg_yuv j' = jpeg_yuv j /\
  (stage = None -> jpeg_scaler j' = Some f).
Proof.
  unfold ensure_scaler, jpeg_ok. intros H Hj. destruct (_ || _) eqn:E; simplify_eq; cbn.
  - split_and!; try done; destruct (e_scaler a); done.
  - split_and!; try done. destruct (jpeg_scaler j') as [[w h fmt]|]; [|done]. intros _. cbn in Hj.
    bool_hyps. f_equal. destruct f. cbn in *. destruct Hj as (? & ? & ?). congruence.
Qed.

Lemma encode_pixels_fits a f j : jpeg_encoder j = Some (s_width f, s_height f) ->
  jpeg_yuv j = Some (s_width f, s_height f) -> jpeg_scaler j = Some f ->
  let '(calls, result) := encode_pixels a f j in
  Forall (call_fits f) calls /\
  (forall d, result = inl d -> (0 < length d)%nat /\ Z.of_nat (length d) <= HTTP_API_MAX_JPEG).
Proof.
  intros He Hy Hs. unfold encode_pixels. rewrite He, Hy, Hs.
  assert (Hsc : call_fits f (Scale (Some f) f (Some (s_width f, s_height f)))) by done.
  assert (Hse : call_fits f (SendFrame (Some (s_width f, s_height f)) (Some (s_width f, s_height f)))) by done.
  destruct (negb (e_writable a)); [done|]. destruct (negb (_ =? _)); [by split; [constructor|]|].
  destruct (negb (e_send a)); [by split; [repeat constructor|]|].
  destruct (e_received a) as [packet|]; [|by split; [repeat constructor|]].
  destruct (_ || _) eqn:E; [by split; [repeat constructor|]|].
  destruct (negb (e_copy a)); [by split; [repeat constructor|]|].
  split; [by repeat constructor|]. intros d [= <-]. bool_hyps. lia.
Qed.

Lemma encode_frame_fits a f j : jpeg_ok j ->
  let '(j', calls, result) := encode_frame a f j in
  jpeg_ok j' /\ Forall (call_fits f) calls /\
  (forall d, result = inl d -> (0 < length d)%nat /\ Z.of_nat (length d) <= HTTP_API_MAX_JPEG).
Proof.
  intros Hj. unfold encode_frame. destruct (negb _); [done|].
  destruct (ensure_encoder a f j) as [j1 s1] eqn:E1. apply ensure_encoder_spec in E1 as [H1 He]; [|done].
  destruct s1; [done|]. specialize (He eq_refl).
  destruct (ensure_yuv a f j1) as [j2 s2] eqn:E2. apply ensure_yuv_spec in E2 as (H2 & He2 & Hy); [|done].
  destruct s2; [done|]. specialize (Hy eq_refl).
  destruct (ensure_scaler a f j2) as [j3 s3] eqn:E3.
  apply ensure_scaler_spec in E3 as (H3 & He3 & Hy3 & Hs); [|done].
  destruct s3; [done|]. specialize (Hs eq_refl).
  pose proof (encode_pixels_fits a f j3 ltac:(congruence) ltac:(congruence) Hs) as Hp.
  destruct (encode_pixels a f j3) as [calls result]. by split.
Qed.

(** C40: Whatever the sizes and formats of the frames and whichever calls fail on the
    way, every conversion is made by a scaler for exactly the frame's format and size
    into a picture of exactly that size, every picture goes to an encoder of its size,
    and every image that is made has between one byte and 8 MB. *)
Theorem snapshots_fit fs :
  Forall (fun '(f, calls, result) => Forall (call_fits f) calls /\
    (forall d, result = inl d -> (0 < length d)%nat /\ Z.of_nat (length d) <= HTTP_API_MAX_JPEG))
    (encode_frames fs jpeg_none).
Proof.
  assert (Hj : jpeg_ok jpeg_none) by done. revert Hj. generalize jpeg_none.
  induction fs as [|[a f] fs IH]; intros j Hj; cbn [encode_frames]; [done|].
  pose proof (encode_frame_fits a f j Hj) as H. destruct (encode_frame a f j) as [[j' calls] result].
  destruct H as (Hj' & Hc & Hd). constructor; [done|]. by apply IH.
Qed.

(** A scaler that could not be made is made for the next frame of the same kind. *)
Example demo_encode :
  let good := MkEncode true true true true true true true 2 true (Some [1; 2; 3]) true in
  let no_scaler := MkEncode true true true true true false true 2 true None true in
  map snd (encode_frames [(no_scaler, MkSource 4 2 0); (good, MkSource 4 2 0)] jpeg_none) =
  [inr StageScaler; inl [1; 2; 3]].
Proof. reflexivity. Qed.
