(* ===== verification/Threads.v ===== *)
(** * Threads over a shared core

    The gateway and the agent run several threads over locked or atomic fields.
    A thread is a tree of atomic actions (a critical section, a system call, an
    atomic load or store); a schedule picks, step by step, the thread to advance
    and the environment's answer.  The logic at the end proves invariants of all
    schedules from one proof per program: every thread owns a part of a ghost map,
    as in concurrent separation logic. *)

From stdpp Require Import gmap.
From S2P Require Import Prelude.

Section Threads.
(** The shared state, and what the environment answers to one action. *)
Context {C I : Type}.

Inductive prog (R : Type) : Type :=
| Ret (r : R)
| Act {X : Type} (f : I -> C -> option (X * C)) (k : X -> prog R).
Arguments Ret {R} r.
Arguments Act {R X} f k.

Fixpoint pbind {R S} (p : prog R) (q : R -> prog S) : prog S :=
  match p with
  | Ret r => q r
  | Act f k => Act f (fun x => pbind (k x) q)
  end.

(** One atomic action; [None] while it is blocked. *)
Definition act {X} (f : I -> C -> option (X * C)) : prog X := Act f Ret.
(** An action that is always enabled. *)
Definition atomically {X} (f : I -> C -> X * C) : prog X := act (fun i c => Some (f i c)).

(** ** Schedules *)

Context {A : Type}.
(** The answers the environment may give, and the threads it may start. *)
Variable allowed : I -> C -> bool.
Variable spawn : A -> C -> option (C * prog unit).

Inductive action := Run (thread : nat) (input : I) | Start (call : A).

Definition exec (a : action) (s : C * list (prog unit)) : option (C * list (prog unit)) :=
  match a with
  | Run n i =>
      match s.2 !! n with
      | Some (Act f k) =>
          if allowed i s.1 then
            match f i s.1 with
            | Some (x, c) => Some (c, <[n := k x]> s.2)
            | None => None
            end
          else None
      | _ => None
      end
  | Start call =>
      match spawn call s.1 with
      | Some (c, p) => Some (c, s.2 ++ [p])
      | None => None
      end
  end.

Fixpoint exec_all (l : list action) (s : C * list (prog unit)) : option (C * list (prog unit)) :=
  match l with
  | [] => Some s
  | a :: l => match exec a s with Some s' => exec_all l s' | None => None end
  end.

(** ** Ownership *)

Context {K V : Type} `{Countable K}.
Local Abbreviation ghost := (gmap K V).
(** What holds of the core whenever no action is in progress, with the ghost
    entries of all threads together. *)
Variable inv : C -> ghost -> Prop.

(** The thread may run [p] with the ghost entries [o], whatever the others do
    in between, and ends with a result and entries that satisfy [Q]. *)
Fixpoint wp {R} (p : prog R) (o : ghost) (Q : R -> ghost -> Prop) : Prop :=
  match p with
  | Ret r => Q r o
  | Act f k =>
      forall i c fr x c',
        allowed i c = true -> o ##ₘ fr -> inv c (o ∪ fr) -> f i c = Some (x, c') ->
        exists o', o' ##ₘ fr /\ inv c' (o' ∪ fr) /\ wp (k x) o' Q
  end.

Lemma twp_mono {R} (p : prog R) : forall o (Q Q' : R -> ghost -> Prop),
  wp p o Q -> (forall r o', Q r o' -> Q' r o') -> wp p o Q'.
Proof.
  induction p as [r|X f k IH]; intros o Q Q' Hp HQ; [by apply HQ|].
  intros i c fr x c' Ha Hd Hi Hf. destruct (Hp i c fr x c' Ha Hd Hi Hf) as (o' & ? & ? & Hk).
  exists o'. split_and!; [done..|]. by eapply IH.
Qed.

Lemma twp_bind {R S} (p : prog R) (q : R -> prog S) : forall o Q,
  wp p o (fun r o' => wp (q r) o' Q) -> wp (pbind p q) o Q.
Proof.
  induction p as [r|X f k IH]; intros o Q Hp; [done|].
  intros i c fr x c' Ha Hd Hi Hf. destruct (Hp i c fr x c' Ha Hd Hi Hf) as (o' & ? & ? & Hk).
  exists o'. split_and!; [done..|]. by apply IH.
Qed.

(** A thread keeps the entries its program does not mention. *)
Lemma twp_frame {R} (p : prog R) : forall o fr Q,
  o ##ₘ fr -> wp p o Q ->
  wp p (o ∪ fr) (fun r o' => exists o1, o1 ##ₘ fr /\ o' = o1 ∪ fr /\ Q r o1).
Proof.
  induction p as [r|X f k IH]; intros o fr Q Hd Hp; [by exists o|].
  intros i c fr' x c' Ha Hd' Hi Hf.
  apply map_disjoint_union_l in Hd' as [Hd1 Hd2].
  rewrite <- (assoc_L (∪)) in Hi.
  destruct (Hp i c (fr ∪ fr') x c' Ha) as (o' & Ho & Hi' & Hk);
    [by apply map_disjoint_union_r_2|done|done|].
  apply map_disjoint_union_r in Ho as [Ho1 Ho2]. exists (o' ∪ fr). split_and!.
  - by apply map_disjoint_union_l_2.
  - by rewrite <- (assoc_L (∪)).
  - by apply IH.
Qed.

(** The threads of a pool, each with its entries. *)
Inductive owned : list (prog unit) -> ghost -> Prop :=
| owned_nil : owned [] ∅
| owned_cons p o ps g :
    wp p o (fun _ o' => o' = ∅) -> owned ps g -> o ##ₘ g -> owned (p :: ps) (o ∪ g).

Lemma owned_split pre p post : forall g,
  owned (pre ++ p :: post) g ->
  exists o fr, g = o ∪ fr /\ o ##ₘ fr /\ wp p o (fun _ o' => o' = ∅) /\
    forall p' o', wp p' o' (fun _ o' => o' = ∅) -> o' ##ₘ fr -> owned (pre ++ p' :: post) (o' ∪ fr).
Proof.
  induction pre as [|q pre IH]; intros g Hg; cbn in Hg; inversion Hg; subst.
  - exists o, g0. split_and!; [done..|]. intros p' o' Hp' Hd. by constructor.
  - match goal with Hp : owned (pre ++ _) _ |- _ => destruct (IH _ Hp) as (o1 & fr & -> & Hd & Hw & Hput) end.
    match goal with Hdis : o ##ₘ _ ∪ _ |- _ => apply map_disjoint_union_r in Hdis as [Hd1 Hd2] end.
    exists o1, (o ∪ fr). split_and!; [|by apply map_disjoint_union_r_2|done|].
    + rewrite !(assoc_L (∪)). by rewrite (map_union_comm o o1).
    + intros p' o' Hp' Hd'. apply map_disjoint_union_r in Hd' as [Hd3 Hd4].
      rewrite (assoc_L (∪)), (map_union_comm o' o), <- (assoc_L (∪)) by done.
      cbn. constructor; [done|by apply Hput|]. apply map_disjoint_union_r_2; [|done].
      by apply map_disjoint_sym.
Qed.

Lemma owned_app ps p g : owned ps g -> forall o,
  wp p o (fun _ o' => o' = ∅) -> o ##ₘ g -> owned (ps ++ [p]) (o ∪ g).
Proof.
  induction 1 as [|q oq ps g Hq Hps IH Hd]; intros o Hp Hdo; cbn.
  - rewrite <- (right_id_L ∅ (∪) (o ∪ ∅)).
    rewrite (right_id_L ∅ (∪) o). constructor; [done|constructor|done].
  - apply map_disjoint_union_r in Hdo as [H1 H2].
    rewrite (assoc_L (∪)), (map_union_comm o oq), <- (assoc_L (∪)) by done.
    constructor; [done|by apply IH|]. apply map_disjoint_union_r_2; [by apply map_disjoint_sym|done].
Qed.

(** A pool whose threads have all returned owns nothing. *)
Lemma owned_done ps g : owned ps g -> Forall (fun p => p = Ret tt) ps -> g = ∅.
Proof.
  induction 1 as [|p o ps g Hp Hps IH Hd]; intros Hdone; [done|].
  apply Forall_cons_iff in Hdone as [-> Hdone]. cbn in Hp. subst.
  by rewrite (IH Hdone), (left_id_L ∅ (∪)).
Qed.

Definition pool_ok (s : C * list (prog unit)) : Prop := exists g, owned s.2 g /\ inv s.1 g.

(** Starting a thread hands it entries of its own. *)
Variable spawn_ok : forall call c g c' p,
  spawn call c = Some (c', p) -> inv c g ->
  exists o, o ##ₘ g /\ inv c' (o ∪ g) /\ wp p o (fun _ o' => o' = ∅).

Lemma exec_ok a s s' : exec a s = Some s' -> pool_ok s -> pool_ok s'.
Proof.
  destruct s as [c ps]. intros Hx (g & Hown & Hinv). cbn [fst snd] in *.
  destruct a as [n i|call]; cbn [exec fst snd] in Hx.
  - destruct (ps !! n) as [[r|X f k]|] eqn:Hn; [done| |done].
    destruct (allowed i c) eqn:Ha; [|done].
    destruct (f i c) as [[x c']|] eqn:Hf; [|done]. injection Hx as <-.
    rewrite <- (take_drop_middle ps n _ Hn) in Hown.
    apply owned_split in Hown as (o & fr & -> & Hd & Hw & Hput).
    destruct (Hw i c fr x c' Ha Hd Hinv Hf) as (o' & Hd' & Hinv' & Hk).
    exists (o' ∪ fr). split; [|done]. cbn.
    rewrite insert_take_drop by (by eapply lookup_lt_Some). by apply Hput.
  - destruct (spawn call c) as [[c' p]|] eqn:Hs; [|done]. injection Hx as <-.
    destruct (spawn_ok _ _ _ _ _ Hs Hinv) as (o & Hd & Hinv' & Hw).
    exists (o ∪ g). split; [|done]. by apply owned_app.
Qed.

(** Every state a schedule reaches satisfies the invariant. *)
Lemma exec_all_ok l : forall s s', exec_all l s = Some s' -> pool_ok s -> pool_ok s'.
Proof.
  induction l as [|a l IH]; intros s s' Hx Hs; cbn in Hx; [by injection Hx as <-|].
  destruct (exec a s) as [s1|] eqn:Ha; [|done]. eapply IH; [done|]. by eapply exec_ok.
Qed.
End Threads.

Arguments Ret {C I R} r.
Arguments Act {C I R X} f k.
Arguments prog : clear implicits.
Arguments Run {I A} thread input.
Arguments Start {I A} call.
