(* ===== verification/AgentTransport.v ===== *)
(** * The gateway's side of the control connection ([src/src/agent_transport.h],
      [src/src/agent_transport.c])

    Every operation is a thread program over the shared transport, the process's
    descriptor table and the sockets behind it: a critical section of
    [transport->lock] is one atomic action, so is a system call; [send_lock] is
    taken and released by actions of their own.  The environment accepts
    connections, answers [dup], [protocol_receive] and [protocol_send], and reads
    the clock. *)

From stdpp Require Import gmap.
From S2P Require Import Prelude Protocol Threads.

Definition AGENT_TRANSPORT_HEARTBEAT_INTERVAL_MS : Z := 1000.
Definition AGENT_TRANSPORT_HEARTBEAT_TIMEOUT_MS : Z := 5000.
Definition AGENT_TRANSPORT_HANDSHAKE_TIMEOUT_MS : Z := 1000.

Inductive AgentTransportEvent := EventDisconnected | EventHeartbeatTimeout.

#[export] Instance AgentTransportEvent_eq_dec : EqDecision AgentTransportEvent.
Proof. solve_decision. Defined.

Record AgentTransportStats := MkStats {
  st_sent_packets : Z; st_dropped_packets : Z; st_capture_frames : Z; st_dropped_frames : Z }.

(** The fields guarded by [lock]. *)
Record AgentTransport := MkTransport {
  t_fd : Z;
  pending_fd : Z;
  epoch : Z;
  last_activity_at : Z;
  last_ping_at : Z;
  stream_requested : bool;
  supports_key_ack : bool;
  heartbeat_timed_out : bool;
  stopping : bool;
  waiting_key_sequence : Z;
  key_ack_received : bool;
  key_ack_success : bool;
  stats : AgentTransportStats }.

(** ** Critical sections: functions of the guarded fields *)

(** [agent_transport_init] *)
Definition agent_transport_init : AgentTransport :=
  MkTransport (-1) (-1) 0 0 0 false false false false 0 false false (MkStats 0 0 0 0).

Definition is_current_locked (t : AgentTransport) (fd e : Z) : bool :=
  negb (stopping t) && (t_fd t =? fd) && (epoch t =? e).

Definition set_key_ack (t : AgentTransport) (waiting : Z) (received success : bool)
    : AgentTransport :=
  MkTransport (t_fd t) (pending_fd t) (epoch t) (last_activity_at t) (last_ping_at t)
    (stream_requested t) (supports_key_ack t) (heartbeat_timed_out t) (stopping t)
    waiting received success (stats t).

Definition cancel_key_ack_locked (t : AgentTransport) : AgentTransport := set_key_ack t 0 false false.

Definition set_connection (t : AgentTransport) (fd e : Z) (acks : bool) : AgentTransport :=
  MkTransport fd (pending_fd t) e (last_activity_at t) (last_ping_at t)
    (stream_requested t) acks (heartbeat_timed_out t) (stopping t)
    (waiting_key_sequence t) (key_ack_received t) (key_ack_success t) (stats t).
Definition set_pending (t : AgentTransport) (fd : Z) : AgentTransport :=
  MkTransport (t_fd t) fd (epoch t) (last_activity_at t) (last_ping_at t)
    (stream_requested t) (supports_key_ack t) (heartbeat_timed_out t) (stopping t)
    (waiting_key_sequence t) (key_ack_received t) (key_ack_success t) (stats t).
Definition set_times (t : AgentTransport) (activity ping : Z) (timed_out : bool) : AgentTransport :=
  MkTransport (t_fd t) (pending_fd t) (epoch t) activity ping
    (stream_requested t) (supports_key_ack t) timed_out (stopping t)
    (waiting_key_sequence t) (key_ack_received t) (key_ack_success t) (stats t).
Definition set_stream (t : AgentTransport) (requested : bool) : AgentTransport :=
  MkTransport (t_fd t) (pending_fd t) (epoch t) (last_activity_at t) (last_ping_at t)
    requested (supports_key_ack t) (heartbeat_timed_out t) (stopping t)
    (waiting_key_sequence t) (key_ack_received t) (key_ack_success t) (stats t).
Definition set_stopping (t : AgentTransport) : AgentTransport :=
  MkTransport (t_fd t) (pending_fd t) (epoch t) (last_activity_at t) (last_ping_at t)
    (stream_requested t) (supports_key_ack t) (heartbeat_timed_out t) true
    (waiting_key_sequence t) (key_ack_received t) (key_ack_success t) (stats t).
Definition set_stats (t : AgentTransport) (s : AgentTransportStats) : AgentTransport :=
  MkTransport (t_fd t) (pending_fd t) (epoch t) (last_activity_at t) (last_ping_at t)
    (stream_requested t) (supports_key_ack t) (heartbeat_timed_out t) (stopping t)
    (waiting_key_sequence t) (key_ack_received t) (key_ack_success t) s.

(** First section of [agent_transport_accept]: reserve the handshake. *)
Definition accept_begin (fd : Z) (t : AgentTransport) : bool * AgentTransport :=
  let can_wait := negb (stopping t) && (pending_fd t <? 0) in
  (can_wait, if can_wait then set_pending t fd else t).

(** The condition on the first message of a connection. *)
Definition valid_hello (hello : option NanokvmControlMessage) : bool :=
  match hello with
  | None => false
  | Some m => (msg_type m =? control_code CONTROL_HELLO) &&
              ((msg_length m =? NANOKVM_HELLO_BASE_PAYLOAD_SIZE)%nat ||
               (msg_length m =? NANOKVM_HELLO_CAPABILITIES_PAYLOAD_SIZE)%nat)
  end.

Definition hello_key_ack (hello : option NanokvmControlMessage) : bool :=
  match hello with
  | None => false
  | Some m => (msg_length m =? NANOKVM_HELLO_CAPABILITIES_PAYLOAD_SIZE)%nat &&
              negb (Z.land (byte_at (msg_payload m) 8) NANOKVM_AGENT_CAPABILITY_KEY_ACK =? 0)
  end.

(** Second section of [agent_transport_accept]: publish the connection.  The
    result is the accepted epoch, the replaced descriptor and whether the stream
    has to be started. *)
Definition accept_commit (fd : Z) (hello : option NanokvmControlMessage) (now : Z)
    (t : AgentTransport) : option (Z * Z * bool) * AgentTransport :=
  let t := if pending_fd t =? fd then set_pending t (-1) else t in
  if valid_hello hello && negb (stopping t) then
    let t' := set_connection t fd (u64 (epoch t + 1)) (hello_key_ack hello) in
    let t' := cancel_key_ack_locked (set_times t' now now false) in
    (Some (epoch t', t_fd t, stream_requested t'), t')
  else (None, t).

(** The critical section of [handle_message]: whether to answer with a pong. *)
Definition handle_message_locked (fd e : Z) (m : NanokvmControlMessage) (now : Z)
    (t : AgentTransport) : bool * AgentTransport :=
  if is_current_locked t fd e then
    let t := set_times t now (last_ping_at t) (heartbeat_timed_out t) in
    let p := msg_payload m in
    if (msg_type m =? control_code CONTROL_KEY_ACK) &&
       (msg_length m =? NANOKVM_KEY_ACK_PAYLOAD_SIZE)%nat then
      if waiting_key_sequence t =? protocol_read_u32 p
      then (false, set_key_ack t (waiting_key_sequence t) true (negb (byte_at p 4 =? 0)))
      else (false, t)
    else if (msg_type m =? control_code CONTROL_STATS) &&
            (msg_length m =? NANOKVM_STATS_PAYLOAD_SIZE)%nat then
      (false, set_stats t (MkStats (protocol_read_u32 p) (protocol_read_u32 (drop 4 p))
                             (protocol_read_u32 (drop 8 p)) (protocol_read_u32 (drop 12 p))))
    else (msg_type m =? control_code CONTROL_PING, t)
  else (false, t).

(** The last section of [agent_transport_run]: whether the current connection ended. *)
Definition run_end (fd e : Z) (t : AgentTransport) : bool * AgentTransport :=
  if (t_fd t =? fd) && (epoch t =? e)
  then (negb (stopping t), cancel_key_ack_locked (set_connection t (-1) (epoch t) false))
  else (false, t).

(** The descriptor and epoch [agent_transport_send] captures; -1 when there is
    no connection. *)
Definition captured (t : AgentTransport) : Z * Z :=
  if negb (stopping t) && (0 <=? t_fd t) then (t_fd t, epoch t) else (-1, 0).

(** What [agent_transport_heartbeat] decides. *)
Inductive heartbeat_action := HeartbeatIdle | HeartbeatPing (fd e : Z) | HeartbeatTimeout (fd e : Z).

Definition heartbeat_locked (now : Z) (t : AgentTransport) : heartbeat_action * AgentTransport :=
  if negb (stopping t) && (0 <=? t_fd t) then
    if negb (heartbeat_timed_out t) &&
       (AGENT_TRANSPORT_HEARTBEAT_TIMEOUT_MS <? u64 (now - last_activity_at t))
    then (HeartbeatTimeout (t_fd t) (epoch t),
          set_stream (set_times t (last_activity_at t) (last_ping_at t) true) false)
    else if negb (heartbeat_timed_out t) &&
            (AGENT_TRANSPORT_HEARTBEAT_INTERVAL_MS <=? u64 (now - last_ping_at t))
    then (HeartbeatPing (t_fd t) (epoch t),
          set_times t (last_activity_at t) now (heartbeat_timed_out t))
    else (HeartbeatIdle, t)
  else (HeartbeatIdle, t).

Definition is_current_epoch_locked (e : Z) (t : AgentTransport) : bool :=
  negb (stopping t) && (0 <=? t_fd t) && (epoch t =? e).

Definition current_epoch_locked (t : AgentTransport) : Z :=
  if negb (stopping t) && (0 <=? t_fd t) then epoch t else 0.

Definition supports_key_ack_locked (t : AgentTransport) : bool :=
  (0 <=? t_fd t) && supports_key_ack t.

Definition begin_key_ack_locked (sequence : Z) (t : AgentTransport) : bool * AgentTransport :=
  if sequence =? 0 then (false, t)
  else
    let started := negb (stopping t) && (0 <=? t_fd t) && supports_key_ack t in
    (started, if started then set_key_ack t sequence false false else t).

(** [None] where the function returns [false], else [received] and [success]. *)
Definition get_key_ack_locked (sequence : Z) (t : AgentTransport) : option (bool * bool) :=
  if negb (sequence =? 0) && (waiting_key_sequence t =? sequence)
  then Some (key_ack_received t, key_ack_success t) else None.

(** ** The process around it *)

(** What can be observed of the transport: calls of the other side, messages on
    the sockets, events published. *)
Inductive obs :=
| Accepted (sock : nat) (e : Z)          (** [agent_transport_accept] returned the epoch *)
| SendStarted (sock : nat) (e : Z)       (** the [send_started] callback *)
| Sent (sock : nat) (e : Z) (m : NanokvmControlMessage)  (** for the connection of epoch [e] *)
| Received (sock : nat) (m : NanokvmControlMessage)
| Shutdown (sock : nat)
| ReceiveTimeout (sock : nat) (ms : Z)
| Published (ev : AgentTransportEvent) (e : Z).

Record Core := MkCore {
  tr : AgentTransport;
  fds : gmap Z nat;       (** open descriptors and their sockets *)
  send_locked : bool;
  next_sock : nat;
  log : list obs }.       (** newest first *)

Record Input := MkInput {
  in_clock : Z;
  in_fd : Z;                                (** result of [dup] *)
  in_ok : bool;                             (** result of [protocol_send] *)
  in_msg : option NanokvmControlMessage }.  (** result of [protocol_receive] *)

(** The kernel returns a free descriptor or fails; fewer than 2^64 connections
    are ever accepted. *)
Definition allowed (i : Input) (c : Core) : bool :=
  ((in_fd i <? 0) || negb (bool_decide (is_Some (fds c !! in_fd i)))) &&
  (epoch (tr c) + 1 <? 18446744073709551616).

Definition set_tr (c : Core) (t : AgentTransport) : Core :=
  MkCore t (fds c) (send_locked c) (next_sock c) (log c).
Definition set_fds (c : Core) (f : gmap Z nat) : Core :=
  MkCore (tr c) f (send_locked c) (next_sock c) (log c).
Definition set_send_locked (c : Core) (b : bool) : Core :=
  MkCore (tr c) (fds c) b (next_sock c) (log c).
Definition add_log (o : obs) (c : Core) : Core :=
  MkCore (tr c) (fds c) (send_locked c) (next_sock c) (o :: log c).

(** An observation about the socket behind a descriptor, if it is open. *)
Definition log_fd (fd : Z) (o : nat -> obs) (c : Core) : Core :=
  match fds c !! fd with Some s => add_log (o s) c | None => c end.

Abbreviation tprog := (prog Core Input).

Local Notation "'let*' x ':=' m 'in' k" := (pbind m (fun x => k))
  (at level 100, x name, m at level 100, k at level 200, right associativity).
Local Notation "m ;; k" := (pbind m (fun _ => k))
  (at level 100, k at level 200, right associativity).

(** A critical section of [lock]. *)
Definition locked {X} (f : AgentTransport -> X * AgentTransport) : tprog X :=
  atomically (fun _ c => let '(x, t) := f (tr c) in (x, set_tr c t)).
(** One that reads the clock ([transport_now]). *)
Definition locked_now {X} (f : Z -> AgentTransport -> X * AgentTransport) : tprog X :=
  atomically (fun i c => let '(x, t) := f (in_clock i) (tr c) in (x, set_tr c t)).
Definition peek {X} (f : AgentTransport -> X) : tprog X := locked (fun t => (f t, t)).

(** System calls and callbacks. *)
Definition sys_close (fd : Z) : tprog unit :=
  atomically (fun _ c => (tt, set_fds c (delete fd (fds c)))).
Definition sys_observe (fd : Z) (o : nat -> obs) : tprog unit :=
  atomically (fun _ c => (tt, log_fd fd o c)).
Definition sys_shutdown (fd : Z) : tprog unit := sys_observe fd Shutdown.
Definition sys_timeout (fd ms : Z) : tprog unit := sys_observe fd (fun s => ReceiveTimeout s ms).
Definition publish_event (ev : AgentTransportEvent) (e : Z) : tprog unit :=
  atomically (fun _ c => (tt, add_log (Published ev e) c)).
Definition receive (fd : Z) : tprog (option NanokvmControlMessage) :=
  atomically (fun i c =>
    match fds c !! fd, in_msg i with
    | Some s, Some m => (Some m, add_log (Received s m) c)
    | _, _ => (None, c)
    end).
(** [protocol_send] on the descriptor; [e] only labels the observation with the
    epoch the caller sends for. *)
Definition send (fd e : Z) (m : NanokvmControlMessage) : tprog bool :=
  atomically (fun i c =>
    match fds c !! fd, in_ok i with
    | Some s, true => (true, add_log (Sent s e m) c)
    | _, _ => (false, c)
    end).
Definition take_send_lock : tprog unit :=
  act (fun _ c => if send_locked c then None else Some (tt, set_send_locked c true)).
Definition drop_send_lock : tprog unit :=
  atomically (fun _ c => (tt, set_send_locked c false)).

(** [dup(fd)] if the connection is still current, under [lock]. *)
Definition dup_current (fd e : Z) : tprog Z :=
  atomically (fun i c =>
    if is_current_locked (tr c) fd e then
      match fds c !! fd with
      | Some s => if in_fd i <? 0 then (-1, c) else (in_fd i, set_fds c (<[in_fd i := s]> (fds c)))
      | None => (-1, c)
      end
    else (-1, c)).

Section Programs.
(** Which optional callbacks are installed. *)
Variables (on_event on_send_started : bool).

Definition send_for_epoch (fd e : Z) (m : NanokvmControlMessage) : tprog bool :=
  take_send_lock ;;
  let* send_fd := dup_current fd e in
  let* sent :=
    (if 0 <=? send_fd then
       (if on_send_started then sys_observe send_fd (fun s => SendStarted s e) else Ret tt) ;;
       send send_fd e m
     else Ret false) in
  (if 0 <=? send_fd then sys_close send_fd else Ret tt) ;;
  drop_send_lock ;;
  Ret sent.

Definition publish (ev : AgentTransportEvent) (e : Z) : tprog unit :=
  if on_event then publish_event ev e else Ret tt.

Definition bare (t : NanokvmControlType) : NanokvmControlMessage := Message (control_code t) [].

(** [None] where it returns [false], else the epoch. *)
Definition agent_transport_accept (fd : Z) : tprog (option Z) :=
  if fd <? 0 then Ret None
  else
    let* can_wait := locked (accept_begin fd) in
    if negb can_wait then sys_close fd ;; Ret None
    else
      sys_timeout fd AGENT_TRANSPORT_HANDSHAKE_TIMEOUT_MS ;;
      let* hello := receive fd in
      sys_timeout fd 0 ;;
      let* accepted := locked_now (accept_commit fd hello) in
      match accepted with
      | None => sys_close fd ;; Ret None
      | Some (e, replaced_fd, send_start) =>
          (if 0 <=? replaced_fd then sys_shutdown replaced_fd else Ret tt) ;;
          (if send_start
           then send_for_epoch fd e (bare CONTROL_START_STREAM) ;; Ret tt else Ret tt) ;;
          Ret (Some e)
      end.

Definition handle_message (fd e : Z) (m : NanokvmControlMessage) : tprog unit :=
  let* send_pong := locked_now (handle_message_locked fd e m) in
  if send_pong then send_for_epoch fd e (bare CONTROL_PONG) ;; Ret tt else Ret tt.

(** The receive loop; [fuel] bounds the messages the peer sends, after which the
    thread stays in [protocol_receive]. *)
Fixpoint run_loop (fuel : nat) (fd e : Z) : tprog unit :=
  match fuel with
  | O => act (fun _ _ => None)
  | S fuel =>
      let* message := receive fd in
      match message with
      | None => Ret tt
      | Some m =>
          handle_message fd e m ;;
          let* current := peek (fun t => is_current_locked t fd e) in
          if current then run_loop fuel fd e else Ret tt
      end
  end.

Definition agent_transport_run (fuel : nat) (fd e : Z) : tprog unit :=
  if fd <? 0 then Ret tt
  else
    run_loop fuel fd e ;;
    let* disconnected := locked (run_end fd e) in
    sys_close fd ;;
    if disconnected then publish EventDisconnected e else Ret tt.

(** The shutdowns happen while the lock is held. *)
Definition agent_transport_shutdown : tprog unit :=
  atomically (fun _ c =>
    let c := set_tr c (set_stopping (tr c)) in
    let c := if 0 <=? t_fd (tr c) then log_fd (t_fd (tr c)) Shutdown c else c in
    (tt, if 0 <=? pending_fd (tr c) then log_fd (pending_fd (tr c)) Shutdown c else c)).

Definition agent_transport_send (m : NanokvmControlMessage) : tprog bool :=
  let* c := peek captured in
  if 0 <=? c.1 then send_for_epoch c.1 c.2 m else Ret false.

Definition agent_transport_set_stream_requested (requested : bool) : tprog bool :=
  let* c := locked (fun t => let t := set_stream t requested in (captured t, t)) in
  if 0 <=? c.1
  then send_for_epoch c.1 c.2 (bare (if requested then CONTROL_START_STREAM else CONTROL_STOP_STREAM))
  else Ret false.

Definition agent_transport_heartbeat (now : Z) : tprog unit :=
  let* action := atomically (fun _ c =>
    let '(action, t) := heartbeat_locked now (tr c) in
    let c := set_tr c t in
    (action, match action with HeartbeatTimeout fd _ => log_fd fd Shutdown c | _ => c end)) in
  match action with
  | HeartbeatIdle => Ret tt
  | HeartbeatPing fd e => send_for_epoch fd e (bare CONTROL_PING) ;; Ret tt
  | HeartbeatTimeout fd e => publish EventHeartbeatTimeout e
  end.

Definition agent_transport_is_current_epoch (e : Z) : tprog bool := peek (is_current_epoch_locked e).
Definition agent_transport_current_epoch : tprog Z := peek current_epoch_locked.
Definition agent_transport_get_stats : tprog AgentTransportStats := peek stats.
Definition agent_transport_supports_key_ack : tprog bool := peek supports_key_ack_locked.
Definition agent_transport_begin_key_ack (sequence : Z) : tprog bool :=
  locked (begin_key_ack_locked sequence).
Definition agent_transport_get_key_ack (sequence : Z) : tprog (option (bool * bool)) :=
  peek (get_key_ack_locked sequence).

(** Called once every other thread is gone. *)
Definition agent_transport_destroy : tprog unit :=
  let* p := locked (fun t => ((t_fd t, pending_fd t), set_stopping (set_pending
                              (set_connection t (-1) (epoch t) (supports_key_ack t)) (-1)))) in
  let* _ := (if 0 <=? p.1 then sys_shutdown p.1 else Ret tt) in
  let* _ := (if (0 <=? p.2) && negb (p.2 =? p.1) then sys_shutdown p.2 else Ret tt) in
  take_send_lock ;;
  let* _ := (if 0 <=? p.1 then sys_close p.1 else Ret tt) in
  let* _ := (if (0 <=? p.2) && negb (p.2 =? p.1) then sys_close p.2 else Ret tt) in
  drop_send_lock.

(** *** The threads of the gateway *)

(** One round of [control_thread]: serve a connection that was accepted. *)
Definition control_connection (fuel : nat) (fd : Z) : tprog unit :=
  let* accepted := agent_transport_accept fd in
  match accepted with
  | None => Ret tt
  | Some e => sys_observe fd (fun s => Accepted s e) ;; agent_transport_run fuel fd e
  end.

Inductive call :=
| Connect (fuel : nat) (fd : Z)
| Send (m : NanokvmControlMessage)
| SetStream (requested : bool)
| Heartbeat (now : Z)
| Stop
| BeginKeyAck (sequence : Z)
| GetKeyAck (sequence : Z)
| Query (e : Z).

(** A new connection has a free descriptor and a socket of its own; the rest of
    the gateway sends any message but a pong. *)
Definition spawn (a : call) (c : Core) : option (Core * tprog unit) :=
  match a with
  | Connect fuel fd =>
      if (0 <=? fd) && negb (bool_decide (is_Some (fds c !! fd))) then
        Some (MkCore (tr c) (<[fd := next_sock c]> (fds c)) (send_locked c) (S (next_sock c)) (log c),
              control_connection fuel fd)
      else None
  | Send m =>
      if msg_type m =? control_code CONTROL_PONG then None
      else Some (c, agent_transport_send m ;; Ret tt)
  | SetStream requested => Some (c, agent_transport_set_stream_requested requested ;; Ret tt)
  | Heartbeat now => Some (c, agent_transport_heartbeat now)
  | Stop => Some (c, agent_transport_shutdown)
  | BeginKeyAck sequence => Some (c, agent_transport_begin_key_ack sequence ;; Ret tt)
  | GetKeyAck sequence => Some (c, agent_transport_get_key_ack sequence ;; Ret tt)
  | Query e =>
      Some (c, agent_transport_is_current_epoch e ;; agent_transport_current_epoch ;;
               agent_transport_get_stats ;; agent_transport_supports_key_ack ;; Ret tt)
  end.

Definition transport_start : Core * list (tprog unit) := (MkCore agent_transport_init ∅ false 0 [], []).

Definition reachable (s : Core * list (tprog unit)) : Prop :=
  exists l, exec_all allowed spawn l transport_start = Some s.
End Programs.
