(* ===== verification/AgentTransportSpec.v ===== *)
(** * What the transport promises to its threads

    One invariant, proved for every schedule with the ownership logic of
    [Threads]: a connection's descriptor is owned by the thread that serves it, a
    duplicate by the thread that sends on it, an event by the thread that will
    publish it. *)

From stdpp Require Import gmap.
From S2P Require Import Prelude Protocol Threads AgentTransport.

(** ** Ghost state *)

(** What its owner knows of a descriptor. *)
Inductive status :=
| SFresh                  (** accepted by the listener *)
| SHandshake              (** reserved: waiting for the hello *)
| SPublished (e : Z)      (** the connection of epoch [e] *)
| SRetired                (** no longer reachable through the transport *)
| SDup (e : Z).           (** a duplicate of the connection of epoch [e] *)

Inductive key := KFd (fd : Z) | KEvent (ev : AgentTransportEvent) (e : Z) | KSendLock.

(** A descriptor's socket, its status and the message last received on it. *)
Inductive value := VFd (sock : nat) (st : status) (last : option NanokvmControlMessage) | VToken.

#[export] Instance key_eq_dec : EqDecision key.
Proof. solve_decision. Defined.

Definition key_code (k : key) : Z + ((bool * Z) + unit) :=
  match k with
  | KFd fd => inl fd
  | KEvent EventDisconnected e => inr (inl (true, e))
  | KEvent EventHeartbeatTimeout e => inr (inl (false, e))
  | KSendLock => inr (inr tt)
  end.
Definition key_decode (c : Z + ((bool * Z) + unit)) : key :=
  match c with
  | inl fd => KFd fd
  | inr (inl (true, e)) => KEvent EventDisconnected e
  | inr (inl (false, e)) => KEvent EventHeartbeatTimeout e
  | inr (inr _) => KSendLock
  end.
#[export] Instance key_countable : Countable key.
Proof. refine (inj_countable' key_code key_decode _). by intros [fd|[] e|]. Defined.

Abbreviation ghost := (gmap key value).

(** ** The invariant *)

Definition entry_ok (c : Core) (conns : gmap Z nat) (fd : Z) (s : nat) (st : status)
    (last : option NanokvmControlMessage) : Prop :=
  0 <= fd /\
  (forall m, last = Some m -> Received s m ∈ log c) /\
  match st with SPublished e | SDup e => conns !! e = Some s | _ => True end.

(** The event can have happened. *)
Definition fired (ev : AgentTransportEvent) (e : Z) (t : AgentTransport) : Prop :=
  e < epoch t \/
  e = epoch t /\ match ev with
                 | EventDisconnected => t_fd t < 0
                 | EventHeartbeatTimeout => heartbeat_timed_out t = true
                 end.

Definition published_events (l : list obs) : list (AgentTransportEvent * Z) :=
  omap (fun o => match o with Published ev e => Some (ev, e) | _ => None end) l.

(** [m] acknowledges [sequence]. *)
Definition acknowledges (m : NanokvmControlMessage) (sequence : Z) (success : bool) : Prop :=
  msg_type m = control_code CONTROL_KEY_ACK /\ msg_length m = NANOKVM_KEY_ACK_PAYLOAD_SIZE /\
  protocol_read_u32 (msg_payload m) = sequence /\ success = negb (byte_at (msg_payload m) 4 =? 0).

(** An acknowledged key: the acknowledgement came over the current connection. *)
Definition ack_ok (t : AgentTransport) (table : gmap Z nat) (l : list obs) : Prop :=
  waiting_key_sequence t <> 0 -> key_ack_received t = true ->
  exists s m, 0 <= t_fd t /\ table !! t_fd t = Some s /\ Received s m ∈ l /\
    acknowledges m (waiting_key_sequence t) (key_ack_success t).

(** Every pong went to a socket a ping had come from. *)
Definition pong_ok (l : list obs) : Prop :=
  forall s e m, Sent s e m ∈ l -> msg_type m = control_code CONTROL_PONG ->
  exists m', Received s m' ∈ l /\ msg_type m' = control_code CONTROL_PING.

(** The socket was accepted as epoch [e], or a send for [e] was started or made
    on it. *)
Definition used_for (l : list obs) (sock : nat) (e : Z) : Prop :=
  SendStarted sock e ∈ l \/ Accepted sock e ∈ l \/ exists m, Sent sock e m ∈ l.

(** [conns] gives every epoch's socket. *)
Record good (c : Core) (g : ghost) (conns : gmap Z nat) : Prop := {
  g_table : forall fd s, fds c !! fd = Some s <-> exists st l, g !! KFd fd = Some (VFd s st l);
  g_entry : forall fd s st l, g !! KFd fd = Some (VFd s st l) -> entry_ok c conns fd s st l;
  g_current : 0 <= t_fd (tr c) ->
    exists s l, g !! KFd (t_fd (tr c)) = Some (VFd s (SPublished (epoch (tr c))) l);
  g_pending : 0 <= pending_fd (tr c) ->
    exists s l, g !! KFd (pending_fd (tr c)) = Some (VFd s SHandshake l);
  g_fired : forall ev e, is_Some (g !! KEvent ev e) \/ (ev, e) ∈ published_events (log c) ->
    fired ev e (tr c);
  g_once : NoDup (published_events (log c));
  g_unpublished : forall ev e, is_Some (g !! KEvent ev e) -> (ev, e) ∉ published_events (log c);
  g_epochs : forall e s, conns !! e = Some s -> e <= epoch (tr c);
  g_epoch : 0 <= epoch (tr c);
  g_named : forall s e, used_for (log c) s e -> conns !! e = Some s;
  g_pong : pong_ok (log c);
  g_ack : ack_ok (tr c) (fds c) (log c);
  g_send : send_locked c = true <-> is_Some (g !! KSendLock);
  g_closed : forall fd, fds c !! fd = None -> g !! KFd fd = None }.

Definition inv (c : Core) (g : ghost) : Prop := exists conns, good c g conns.

(** ** How the invariant moves *)

(** A new status leaves the descriptor table as it was. *)
Lemma table_status (g : ghost) fd s st l st' l' fd' s' :
  g !! KFd fd = Some (VFd s st l) ->
  (exists st1 l1, <[KFd fd := VFd s st' l']> g !! KFd fd' = Some (VFd s' st1 l1)) <->
  (exists st1 l1, g !! KFd fd' = Some (VFd s' st1 l1)).
Proof.
  intros Hl. destruct (decide (fd' = fd)) as [->|Hne].
  - rewrite lookup_insert_eq, Hl. split; intros (? & ? & [= -> _ _]); eauto.
  - by rewrite lookup_insert_ne by congruence.
Qed.

Definition obs_ok (o : obs) (l : list obs) (conns : gmap Z nat) : Prop :=
  match o with
  | Accepted s e | SendStarted s e => conns !! e = Some s
  | Sent s e m => conns !! e = Some s /\
      (msg_type m = control_code CONTROL_PONG ->
       exists m', Received s m' ∈ l /\ msg_type m' = control_code CONTROL_PING)
  | Published _ _ => False
  | _ => True
  end.

Lemma ack_ok_log t table l o : ack_ok t table l -> ack_ok t table (o :: l).
Proof.
  intros Ha Hw Hr. destruct (Ha Hw Hr) as (s & m & ? & ? & ? & ?). exists s, m.
  split_and!; [done..|by right|done].
Qed.

Lemma good_log o c g conns : good c g conns -> obs_ok o (log c) conns -> good (add_log o c) g conns.
Proof.
  intros [] Ho. split; cbn; auto.
  - intros fd s st l Hl. destruct (g_entry0 _ _ _ _ Hl) as (? & Hm & ?).
    split_and!; [done| |done]. intros m ->. right. by apply Hm.
  - by destruct o.
  - by destruct o.
  - by destruct o.
  - intros s e Hs. unfold used_for in *. setoid_rewrite elem_of_cons in Hs.
    destruct Hs as [[<-|?]|[[<-|?]|(m & [<-|?])]]; eauto 6. apply Ho.
  - intros s e m Hs Ht. apply elem_of_cons in Hs as [<-|Hs].
    + destruct (proj2 Ho Ht) as (m' & ? & ?). exists m'. split; [by right|done].
    + destruct (g_pong0 _ _ _ Hs Ht) as (m' & ? & ?). exists m'. split; [by right|done].
  - by apply ack_ok_log.
Qed.

Lemma good_log_fd fd o c g conns :
  good c g conns -> (forall s, fds c !! fd = Some s -> obs_ok (o s) (log c) conns) ->
  good (log_fd fd o c) g conns.
Proof.
  intros Hg Ho. unfold log_fd. destruct (fds c !! fd) as [s|] eqn:E; [|done].
  apply good_log; auto.
Qed.

(** Assignments that keep the connection. *)
Lemma good_tr t c g conns :
  good c g conns ->
  t_fd t = t_fd (tr c) -> pending_fd t = pending_fd (tr c) -> epoch t = epoch (tr c) ->
  (heartbeat_timed_out (tr c) = true -> heartbeat_timed_out t = true) ->
  ack_ok t (fds c) (log c) ->
  good (set_tr c t) g conns.
Proof.
  intros [] Ef Ep Ee Et Ha. split; cbn; rewrite ?Ef, ?Ep, ?Ee; auto.
  intros ev e Hv. destruct (g_fired0 ev e Hv) as [?|[? Hev]]; [left; congruence|right].
  split; [congruence|]. destruct ev; [by rewrite Ef|auto].
Qed.

(** The owner learns something about its descriptor. *)
Lemma good_status fd s st l st' l' c g conns :
  good c g conns -> g !! KFd fd = Some (VFd s st l) -> entry_ok c conns fd s st' l' ->
  (t_fd (tr c) = fd -> st' = SPublished (epoch (tr c))) ->
  (pending_fd (tr c) = fd -> st' = SHandshake) ->
  good c (<[KFd fd := VFd s st' l']> g) conns.
Proof.
  intros [] Hl He Hc Hp. split; cbn; auto.
  - intros fd' s'. by rewrite (table_status _ _ _ _ _ _ _ _ _ Hl).
  - intros fd' s' st1 l1 Hx. apply lookup_insert_Some in Hx as [[E1 E2]|[Hne Hx]]; [|by eapply g_entry0].
    injection E1 as <-. injection E2 as <- <- <-. done.
  - intros H0. destruct (decide (t_fd (tr c) = fd)) as [E|Hne].
    + rewrite E, lookup_insert_eq, (Hc E). eauto.
    + rewrite lookup_insert_ne by congruence. auto.
  - intros H0. destruct (decide (pending_fd (tr c) = fd)) as [E|Hne].
    + rewrite E, lookup_insert_eq, (Hp E). eauto.
    + rewrite lookup_insert_ne by congruence. auto.
  - intros ev e. rewrite lookup_insert_ne by done. apply g_fired0.
  - intros ev e. rewrite lookup_insert_ne by done. apply g_unpublished0.
  - by rewrite lookup_insert_ne by done.
  - intros fd' Hn. rewrite lookup_insert_ne; [auto|]. intros [= <-].
    assert (fds c !! fd = Some s) by (apply g_table0; eauto). congruence.
Qed.

Lemma entry_absent c g conns fd : good c g conns -> fds c !! fd = None ->
  forall s st l, g !! KFd fd <> Some (VFd s st l).
Proof. intros [] Hn s st l Hl. assert (fds c !! fd = Some s) by (apply g_table0; eauto). congruence. Qed.

Lemma good_open fd s st c g conns :
  good c g conns -> fds c !! fd = None -> entry_ok c conns fd s st None ->
  good (set_fds c (<[fd := s]> (fds c))) (<[KFd fd := VFd s st None]> g) conns.
Proof.
  intros Hg Hn He. pose proof (entry_absent _ _ _ _ Hg Hn) as Habs. destruct Hg. split; cbn; auto.
  - intros fd' s'. destruct (decide (fd' = fd)) as [->|Hne].
    + rewrite !lookup_insert_eq. split; [intros [= ->]; eauto|by intros (? & ? & [= -> _ _])].
    + by rewrite !lookup_insert_ne by congruence.
  - intros fd' s' st1 l1 Hx. apply lookup_insert_Some in Hx as [[E1 E2]|[Hne Hx]]; [|by eapply g_entry0].
    injection E1 as <-. injection E2 as <- <- <-. done.
  - intros H0. destruct (g_current0 H0) as (s1 & l1 & Hl). exists s1, l1.
    rewrite lookup_insert_ne; [done|]. intros [= ->]. by eapply Habs.
  - intros H0. destruct (g_pending0 H0) as (s1 & l1 & Hl). exists s1, l1.
    rewrite lookup_insert_ne; [done|]. intros [= ->]. by eapply Habs.
  - intros ev e. rewrite lookup_insert_ne by done. apply g_fired0.
  - intros ev e. rewrite lookup_insert_ne by done. apply g_unpublished0.
  - intros Hw Hr. destruct (g_ack0 Hw Hr) as (s1 & m & ? & ? & ?). exists s1, m.
    split_and!; [done| |tauto..]. rewrite lookup_insert_ne; [done|congruence].
  - by rewrite lookup_insert_ne by done.
  - intros fd' Hx. apply lookup_insert_None in Hx as [Hx Hne].
    rewrite lookup_insert_ne by congruence. auto.
Qed.

Lemma good_close fd s st l c g conns :
  good c g conns -> g !! KFd fd = Some (VFd s st l) ->
  match st with SHandshake | SPublished _ => False | _ => True end ->
  good (set_fds c (delete fd (fds c))) (delete (KFd fd) g) conns.
Proof.
  intros [] Hl Hst.
  assert (Hcur : 0 <= t_fd (tr c) -> t_fd (tr c) <> fd).
  { intros H0 E. destruct (g_current0 H0) as (? & ? & Hx). rewrite E, Hl in Hx.
    injection Hx as <- -> <-. done. }
  split; cbn; auto.
  - intros fd' s'. destruct (decide (fd' = fd)) as [->|Hne].
    + rewrite !lookup_delete_eq. split; [done|by intros (? & ? & ?)].
    + by rewrite !lookup_delete_ne by congruence.
  - intros fd' s' st1 l1 Hx. apply lookup_delete_Some in Hx as [Hne Hx]. by eapply g_entry0.
  - intros H0. rewrite lookup_delete_ne; [auto|]. intros [= E]. by apply Hcur.
  - intros H0. rewrite lookup_delete_ne; [auto|]. intros [= E].
    destruct (g_pending0 H0) as (? & ? & Hx). rewrite <- E, Hl in Hx. injection Hx as <- -> <-. done.
  - intros ev e. rewrite lookup_delete_ne by done. apply g_fired0.
  - intros ev e. rewrite lookup_delete_ne by done. apply g_unpublished0.
  - intros Hw Hr. destruct (g_ack0 Hw Hr) as (s1 & m & ? & ? & ?). exists s1, m.
    split_and!; [done| |tauto..]. rewrite lookup_delete_ne; [done|].
    intros E. by apply Hcur.
  - by rewrite lookup_delete_ne by done.
  - intros fd' Hx. destruct (decide (fd' = fd)) as [->|Hne]; [apply lookup_delete_eq|].
    rewrite lookup_delete_ne in Hx by done. rewrite lookup_delete_ne by congruence. auto.
Qed.

(** An entry that is not a descriptor's leaves the descriptors alone. *)
Lemma good_event_new ev e c g conns :
  good c g conns -> (ev, e) ∉ published_events (log c) -> fired ev e (tr c) ->
  good c (<[KEvent ev e := VToken]> g) conns.
Proof.
  intros [] Hn Hf. split; auto.
  1,2: intros ? ?; rewrite lookup_insert_ne by done; auto.
  1,2: by rewrite lookup_insert_ne by done.
  - intros ev' e' [Hs|Hs]; [|by apply g_fired0; right].
    destruct (decide (KEvent ev' e' = KEvent ev e)) as [[= -> ->]|Hne]; [done|].
    rewrite lookup_insert_ne in Hs by congruence. apply g_fired0. by left.
  - intros ev' e' Hs. destruct (decide (KEvent ev' e' = KEvent ev e)) as [[= -> ->]|Hne]; [done|].
    rewrite lookup_insert_ne in Hs by congruence. by apply g_unpublished0.
  - by rewrite lookup_insert_ne by done.
  - intros fd' Hx. rewrite lookup_insert_ne by done. auto.
Qed.

Lemma good_publish ev e c g conns :
  good c g conns -> is_Some (g !! KEvent ev e) ->
  good (add_log (Published ev e) c) (delete (KEvent ev e) g) conns.
Proof.
  intros Hg Hs. pose proof (g_fired _ _ _ Hg ev e (or_introl Hs)) as Hf.
  pose proof (g_unpublished _ _ _ Hg ev e Hs) as Hn. destruct Hg. split; cbn; auto.
  - intros ? ?. by rewrite lookup_delete_ne by done.
  - intros fd s st l Hl. rewrite lookup_delete_ne in Hl by done.
    destruct (g_entry0 _ _ _ _ Hl) as (? & Hm & ?). split_and!; [done| |done].
    intros m ->. right. by apply Hm.
  - by rewrite lookup_delete_ne by done.
  - by rewrite lookup_delete_ne by done.
  - intros ev' e' [Hx|Hx].
    + apply g_fired0. left. destruct Hx as [v Hx]. apply lookup_delete_Some in Hx as [_ Hx]. by exists v.
    + apply elem_of_cons in Hx as [[= -> ->]|Hx]; [done|]. apply g_fired0. by right.
  - by constructor.
  - intros ev' e' [v Hx]. apply lookup_delete_Some in Hx as [Hne Hx]. rewrite elem_of_cons.
    intros [[= -> ->]|Hin]; [done|]. by eapply g_unpublished0; [eexists|].
  - intros s e' Hx. unfold used_for in *. setoid_rewrite elem_of_cons in Hx. apply g_named0.
    destruct Hx as [[[=]|?]|[[[=]|?]|(m & [[=]|?])]]; eauto.
  - intros s e' m Hx Ht. apply elem_of_cons in Hx as [[=]|Hx].
    destruct (g_pong0 _ _ _ Hx Ht) as (m' & ? & ?). exists m'. split; [by right|done].
  - by apply ack_ok_log.
  - by rewrite lookup_delete_ne by done.
  - intros fd' Hx. rewrite lookup_delete_ne by done. auto.
Qed.

Lemma good_send_lock b v c g conns :
  good c g conns -> (b = true <-> is_Some v) ->
  good (set_send_locked c b) (partial_alter (fun _ => v) KSendLock g) conns.
Proof.
  intros [] Hb. split; cbn [set_send_locked tr fds log send_locked]; auto.
  - intros ? ?. by rewrite lookup_partial_alter_ne by done.
  - intros ? ?. rewrite lookup_partial_alter_ne by done. apply g_entry0.
  - by rewrite lookup_partial_alter_ne by done.
  - by rewrite lookup_partial_alter_ne by done.
  - intros ? ?. rewrite lookup_partial_alter_ne by done. apply g_fired0.
  - intros ? ?. rewrite lookup_partial_alter_ne by done. apply g_unpublished0.
  - by rewrite lookup_partial_alter_eq.
  - intros fd' Hx. rewrite lookup_partial_alter_ne by done. auto.
Qed.

Lemma good_pending p c g conns :
  good c g conns -> (0 <= p -> exists s l, g !! KFd p = Some (VFd s SHandshake l)) ->
  good (set_tr c (set_pending (tr c) p)) g conns.
Proof. intros [] Hp. by split. Qed.

(** The serving thread takes its connection down. *)
Lemma good_run_end c g conns :
  good c g conns ->
  good (set_tr c (cancel_key_ack_locked (set_connection (tr c) (-1) (epoch (tr c)) false))) g conns.
Proof.
  intros []. split; cbn; auto; [lia| |by intros ?].
  intros ev e Hv. destruct (g_fired0 ev e Hv) as [?|[? Hev]]; [by left|right].
  split; [done|]. destruct ev; cbn; [lia|done].
Qed.

(** A connection becomes the current one. *)
Lemma good_commit fd s l acks now c g conns :
  good c g conns -> g !! KFd fd = Some (VFd s SHandshake l) -> pending_fd (tr c) <> fd ->
  good (set_tr c (cancel_key_ack_locked (set_times
          (set_connection (tr c) fd (epoch (tr c) + 1) acks) now now false)))
    (<[KFd fd := VFd s (SPublished (epoch (tr c) + 1)) l]> g)
    (<[epoch (tr c) + 1 := s]> conns).
Proof.
  intros [] Hl Hp. pose proof (g_entry0 _ _ _ _ Hl) as (H0 & Hm & _).
  assert (Hfresh : forall e s', conns !! e = Some s' ->
            <[epoch (tr c) + 1 := s]> conns !! e = Some s').
  { intros e s' He. rewrite lookup_insert_ne; [done|]. apply g_epochs0 in He. lia. }
  split; cbn; auto.
  - intros fd' s'. by rewrite (table_status _ _ _ _ _ _ _ _ _ Hl).
  - intros fd' s' st1 l1 Hx. apply lookup_insert_Some in Hx as [[E1 E2]|[Hne Hx]].
    + injection E1 as <-. injection E2 as <- <- <-. split_and!; [done..|]. apply lookup_insert_eq.
    + destruct (g_entry0 _ _ _ _ Hx) as (? & ? & Hst). split_and!; [done..|].
      destruct st1; auto.
  - intros _. rewrite lookup_insert_eq. eauto.
  - intros Hx. rewrite lookup_insert_ne by congruence. auto.
  - intros ev e. rewrite lookup_insert_ne by done. intros Hv. left.
    destruct (g_fired0 ev e Hv) as [?|[? _]]; cbn; lia.
  - intros ev e. rewrite lookup_insert_ne by done. apply g_unpublished0.
  - intros e s' Hx. apply lookup_insert_Some in Hx as [[? ?]|[_ Hx]]; [lia|].
    apply g_epochs0 in Hx. lia.
  - lia.
  - by intros ?.
  - by rewrite lookup_insert_ne by done.
  - intros fd' Hn. rewrite lookup_insert_ne; [auto|]. intros [= <-].
    assert (fds c !! fd = Some s) by (apply g_table0; eauto). congruence.
Qed.

(** ** Rules for the actions *)

Abbreviation twp := (wp allowed inv).

(** Entries changed by one action, each owned or new. *)
Definition updates (u : list (key * option value)) (g : ghost) : ghost :=
  foldr (fun kv g => partial_alter (fun _ => kv.2) kv.1 g) g u.

Lemma update_frame k v (o fr : ghost) :
  o ##ₘ fr -> (is_Some (o !! k) \/ (o ∪ fr) !! k = None) ->
  partial_alter (fun _ => v) k o ##ₘ fr /\
  partial_alter (fun _ => v) k (o ∪ fr) = partial_alter (fun _ => v) k o ∪ fr.
Proof.
  intros Hd Hk.
  assert (Hfr : fr !! k = None).
  { destruct Hk as [Hs|Hn]; [|by apply lookup_union_None in Hn as [_ ?]].
    destruct Hs as [x Hx]. by eapply map_disjoint_Some_l. }
  split.
  - apply map_disjoint_spec. intros j x y Hx Hy. destruct (decide (j = k)) as [->|Hne]; [congruence|].
    rewrite lookup_partial_alter_ne in Hx by done. by eapply (map_disjoint_spec o fr).
  - apply map_eq. intros j. destruct (decide (j = k)) as [->|Hne].
    + rewrite lookup_partial_alter_eq, lookup_union, lookup_partial_alter_eq, Hfr. by destruct v.
    + by rewrite lookup_partial_alter_ne, !lookup_union, lookup_partial_alter_ne by done.
Qed.

Lemma updates_frame u : forall (o fr : ghost),
  o ##ₘ fr ->
  NoDup u.*1 -> Forall (fun kv => is_Some (o !! kv.1) \/ (o ∪ fr) !! kv.1 = None) u ->
  updates u o ##ₘ fr /\ updates u (o ∪ fr) = updates u o ∪ fr /\
  forall k, k ∉ u.*1 -> updates u o !! k = o !! k.
Proof.
  induction u as [|[k v] u IH]; intros o fr Hd Hnd Hall; cbn [updates foldr fst snd]; [done|].
  apply Forall_cons_iff in Hall as [Hk Hall]. cbn in Hnd. apply list.NoDup_cons in Hnd as [Hnk Hnd].
  destruct (IH o fr Hd Hnd Hall) as (Hd' & Hu & Hl).
  destruct (update_frame k v (updates u o) fr Hd') as [Hd2 Hu2].
  { rewrite Hl by done. rewrite lookup_union_None, Hl by done. by rewrite lookup_union_None in Hk. }
  split_and!; [done|by fold (updates u (o ∪ fr)); rewrite Hu|].
  intros j Hj. cbn in Hj. apply not_elem_of_cons in Hj as [Hne Hj].
  rewrite lookup_partial_alter_ne by done. by apply Hl.
Qed.

(** The rule for one action. *)
Lemma twp_act {X} (f : Input -> Core -> option (X * Core)) o Q :
  (forall i c g conns x c', allowed i c = true -> o ⊆ g -> good c g conns ->
     f i c = Some (x, c') ->
     exists u conns', NoDup u.*1 /\ Forall (fun kv => is_Some (o !! kv.1) \/ g !! kv.1 = None) u /\
       good c' (updates u g) conns' /\ Q x (updates u o)) ->
  twp (act f) o Q.
Proof.
  intros Hf i c fr x c' Ha Hd [conns Hg] Hx.
  destruct (Hf i c (o ∪ fr) conns x c' Ha) as (u & conns' & Hnd & Hall & Hg' & HQ);
    [by apply map_union_subseteq_l|done..|].
  destruct (updates_frame u o fr Hd Hnd Hall) as (Hd' & Hu & _).
  exists (updates u o). split_and!; [done| |done]. exists conns'. by rewrite <- Hu.
Qed.

(** An action that changes no entry. *)
Lemma twp_keep {X} (f : Input -> Core -> X * Core) o (Q : X -> ghost -> Prop) :
  (forall i c g conns, allowed i c = true -> o ⊆ g -> good c g conns ->
     good (f i c).2 g conns /\ Q (f i c).1 o) ->
  twp (atomically f) o Q.
Proof.
  intros Hf. apply twp_act. intros i c g conns x c' Ha Ho Hg [= E].
  destruct (Hf i c g conns Ha Ho Hg) as [Hg' HQ]. rewrite E in *.
  exists [], conns. split_and!; [constructor|constructor|done|done].
Qed.

(** An action that changes one entry. *)
Lemma twp_change {X} (f : Input -> Core -> X * Core) o (Q : X -> ghost -> Prop) :
  (forall i c g conns, allowed i c = true -> o ⊆ g -> good c g conns ->
     exists k v conns', (is_Some (o !! k) \/ g !! k = None) /\
       good (f i c).2 (partial_alter (fun _ => v) k g) conns' /\
       Q (f i c).1 (partial_alter (fun _ => v) k o)) ->
  twp (atomically f) o Q.
Proof.
  intros Hf. apply twp_act. intros i c g conns x c' Ha Ho Hg [= E].
  destruct (Hf i c g conns Ha Ho Hg) as (k & v & conns' & Hk & Hg' & HQ). rewrite E in *.
  exists [(k, v)], conns'. split_and!; [apply NoDup_singleton|by constructor|done|done].
Qed.

(** A critical section that keeps the connection. *)
Lemma twp_locked {X} (f : AgentTransport -> X * AgentTransport) o (Q : X -> ghost -> Prop) :
  (forall c g conns, o ⊆ g -> good c g conns ->
     good (set_tr c (f (tr c)).2) g conns /\ Q (f (tr c)).1 o) ->
  twp (locked f) o Q.
Proof.
  intros Hf. apply twp_keep. intros i c g conns _ Ho Hg.
  destruct (Hf c g conns Ho Hg). by destruct (f (tr c)).
Qed.

Lemma twp_peek {X} (f : AgentTransport -> X) o (Q : X -> ghost -> Prop) :
  (forall t, Q (f t) o) -> twp (peek f) o Q.
Proof.
  intros HQ. apply twp_locked. intros c g conns _ Hg. split; [by destruct c|]. apply HQ.
Qed.

Lemma twp_observe fd s st l (ob : nat -> obs) o (Q : unit -> ghost -> Prop) :
  o !! KFd fd = Some (VFd s st l) ->
  (forall c conns, entry_ok c conns fd s st l -> obs_ok (ob s) (log c) conns) ->
  Q tt o -> twp (sys_observe fd ob) o Q.
Proof.
  intros Hl Hob HQ. apply twp_keep. intros i c g conns _ Ho Hg. split; [|done].
  assert (Hgl : g !! KFd fd = Some (VFd s st l)) by by eapply lookup_weaken.
  apply good_log_fd; [done|]. intros s' Hs'.
  assert (Hs : fds c !! fd = Some s) by (apply (g_table _ _ _ Hg); eauto).
  replace s' with s by congruence. apply Hob. by eapply g_entry.
Qed.

Lemma twp_close fd s st l o (Q : unit -> ghost -> Prop) :
  o !! KFd fd = Some (VFd s st l) ->
  match st with SHandshake | SPublished _ => False | _ => True end ->
  Q tt (delete (KFd fd) o) -> twp (sys_close fd) o Q.
Proof.
  intros Hl Hst HQ. apply twp_change. intros i c g conns _ Ho Hg.
  exists (KFd fd), None, conns. split_and!; [left; by eexists| |done].
  eapply good_close; [done| |done]. by eapply lookup_weaken.
Qed.

Lemma twp_send_lock o (Q : unit -> ghost -> Prop) :
  (o !! KSendLock = None -> Q tt (<[KSendLock := VToken]> o)) -> twp take_send_lock o Q.
Proof.
  intros HQ. apply twp_act. intros i c g conns x c' _ Ho Hg Hx.
  destruct (send_locked c) eqn:E; [done|]. injection Hx as <- <-.
  assert (Hn : g !! KSendLock = None).
  { apply eq_None_not_Some. intros Hs%(g_send _ _ _ Hg). congruence. }
  exists [(KSendLock, Some VToken)], conns. split_and!.
  - apply NoDup_singleton.
  - constructor; [by right|done].
  - apply good_send_lock; [done|]. split; [by eexists|done].
  - apply HQ. by eapply lookup_weaken_None.
Qed.

Lemma twp_send_unlock o (Q : unit -> ghost -> Prop) :
  is_Some (o !! KSendLock) -> Q tt (delete KSendLock o) -> twp drop_send_lock o Q.
Proof.
  intros Hs HQ. apply twp_change. intros i c g conns _ Ho Hg.
  exists KSendLock, None, conns. split_and!; [by left| |done].
  apply good_send_lock; [done|]. split; [done|by intros [? ?]].
Qed.

Lemma twp_publish_event ev e o (Q : unit -> ghost -> Prop) :
  is_Some (o !! KEvent ev e) -> Q tt (delete (KEvent ev e) o) -> twp (publish_event ev e) o Q.
Proof.
  intros Hs HQ. apply twp_change. intros i c g conns _ Ho Hg.
  exists (KEvent ev e), None, conns. split_and!; [by left| |done].
  apply good_publish; [done|]. destruct Hs as [v Hv]. exists v. by eapply lookup_weaken.
Qed.

(** The status of an owned descriptor agrees with the transport. *)
Lemma current_status c g conns fd s st l :
  good c g conns -> g !! KFd fd = Some (VFd s st l) ->
  (t_fd (tr c) = fd -> st = SPublished (epoch (tr c))) /\ (pending_fd (tr c) = fd -> st = SHandshake).
Proof.
  intros Hg Hl. destruct (g_entry _ _ _ Hg _ _ _ _ Hl) as (H0 & _). split; intros E.
  - destruct (g_current _ _ _ Hg ltac:(lia)) as (? & ? & Hx). rewrite E, Hl in Hx. by injection Hx.
  - destruct (g_pending _ _ _ Hg ltac:(lia)) as (? & ? & Hx). rewrite E, Hl in Hx. by injection Hx.
Qed.

Lemma twp_receive fd s st l o (Q : option NanokvmControlMessage -> ghost -> Prop) :
  o !! KFd fd = Some (VFd s st l) -> Q None o ->
  (forall m, Q (Some m) (<[KFd fd := VFd s st (Some m)]> o)) -> twp (receive fd) o Q.
Proof.
  intros Hl Hnone Hsome. apply twp_act. intros i c g conns x c' _ Ho Hg [= Hx].
  assert (Hgl : g !! KFd fd = Some (VFd s st l)) by by eapply lookup_weaken.
  assert (Hs : fds c !! fd = Some s) by (apply (g_table _ _ _ Hg); eauto). rewrite Hs in Hx.
  destruct (in_msg i) as [m|]; injection Hx as <- <-.
  - exists [(KFd fd, Some (VFd s st (Some m)))], conns. split_and!; [apply NoDup_singleton| | |apply Hsome].
    { constructor; [left; by eexists|done]. }
    destruct (current_status _ _ _ _ _ _ _ Hg Hgl) as [Hc Hp].
    apply (good_status fd s st l); [by apply good_log|done| |done|done].
    destruct (g_entry _ _ _ Hg _ _ _ _ Hgl) as (H0 & _ & Hst). split_and!; [done| |done].
    intros m' [= <-]. left.
  - exists [], conns. split_and!; [constructor|constructor|done|done].
Qed.

Lemma twp_send fd s e l m o (Q : bool -> ghost -> Prop) :
  o !! KFd fd = Some (VFd s (SDup e) l) ->
  (msg_type m = control_code CONTROL_PONG ->
     exists fd' st' m', o !! KFd fd' = Some (VFd s st' (Some m')) /\
       msg_type m' = control_code CONTROL_PING) ->
  (forall b, Q b o) -> twp (send fd e m) o Q.
Proof.
  intros Hl Hpong HQ. apply twp_keep. intros i c g conns _ Ho Hg.
  assert (Hgl : g !! KFd fd = Some (VFd s (SDup e) l)) by by eapply lookup_weaken.
  assert (Hs : fds c !! fd = Some s) by (apply (g_table _ _ _ Hg); eauto). rewrite Hs.
  destruct (in_ok i); [|done]. split; [|done]. apply good_log; [done|].
  split; [by apply (g_entry _ _ _ Hg) in Hgl as (_ & _ & ?)|]. intros Ht.
  destruct (Hpong Ht) as (fd' & st' & m' & Hl' & Ht'). exists m'. split; [|done].
  apply (lookup_weaken _ _ _ _ Hl') in Ho. by apply (g_entry _ _ _ Hg) in Ho as (_ & Hm & _); apply Hm.
Qed.

(** The duplicate is of the socket of the epoch; it is the caller's own socket
    if the caller owns the descriptor. *)
Lemma twp_dup_current fd e o (Q : Z -> ghost -> Prop) :
  (forall r, r < 0 -> Q r o) ->
  (forall r s, 0 <= r -> o !! KFd r = None ->
     (forall s' st l, o !! KFd fd = Some (VFd s' st l) -> s' = s) ->
     Q r (<[KFd r := VFd s (SDup e) None]> o)) ->
  twp (dup_current fd e) o Q.
Proof.
  intros Hneg Hpos. apply twp_act. intros i c g conns x c' Ha Ho Hg [= Hx].
  assert (Hskip : (-1, c) = (x, c') -> exists u conns', NoDup u.*1 /\
    Forall (fun kv => is_Some (o !! kv.1) \/ g !! kv.1 = None) u /\
    good c' (updates u g) conns' /\ Q x (updates u o)).
  { intros [= <- <-]. exists [], conns. split_and!; [constructor|constructor|done|by apply Hneg]. }
  destruct (is_current_locked (tr c) fd e) eqn:Ec; [|by apply Hskip].
  destruct (fds c !! fd) as [s|] eqn:Es; [|by apply Hskip].
  unfold allowed in Ha. apply andb_true_iff in Ha as [Ha _].
  destruct (Z.ltb_spec (in_fd i) 0) as [Hlt|Hge]; [by apply Hskip|].
  injection Hx as <- <-. cbn [orb] in Ha. apply negb_true_iff, bool_decide_eq_false in Ha.
  apply eq_None_not_Some in Ha.
  unfold is_current_locked in Ec. apply andb_true_iff in Ec as [Ec Ee].
  apply andb_true_iff in Ec as [_ Ef]. apply Z.eqb_eq in Ef, Ee.
  apply (g_table _ _ _ Hg) in Es as (st & l & Hgl).
  destruct (g_entry _ _ _ Hg _ _ _ _ Hgl) as (H0 & _ & Hst).
  destruct (current_status _ _ _ _ _ _ _ Hg Hgl) as [Hcur _]. rewrite (Hcur Ef), Ee in Hst.
  assert (Hgn : g !! KFd (in_fd i) = None) by by apply (g_closed _ _ _ Hg).
  exists [(KFd (in_fd i), Some (VFd s (SDup e) None))], conns. split_and!.
  - apply NoDup_singleton.
  - constructor; [by right|done].
  - by apply good_open.
  - apply Hpos; [done|by eapply lookup_weaken_None|]. intros s' st' l' Hl'.
    apply (lookup_weaken _ _ _ _ Hl') in Ho. rewrite Hgl in Ho. by injection Ho.
Qed.

(** ** The programs *)

Section Specs.
Variables (on_event on_send_started : bool).

(** A pong answers a ping the caller received on its own descriptor. *)
Definition pong_allowed (m : NanokvmControlMessage) (fd : Z) (o : ghost) : Prop :=
  msg_type m = control_code CONTROL_PONG ->
  exists s st m', o !! KFd fd = Some (VFd s st (Some m')) /\
    msg_type m' = control_code CONTROL_PING.

Lemma send_for_epoch_spec fd e m o :
  pong_allowed m fd o ->
  twp (send_for_epoch on_send_started fd e m) o (fun _ o' => o' = o).
Proof.
  intros Hpong. unfold send_for_epoch. apply twp_bind, twp_send_lock. intros Hfree.
  apply twp_bind, twp_dup_current.
  - intros r Hr. rewrite (proj2 (Z.leb_gt 0 r)) by done. cbn [pbind].
    apply twp_bind, twp_send_unlock; [rewrite lookup_insert_eq; by eexists|].
    cbn. by rewrite delete_insert_id.
  - intros r s Hr Hnone Hsame. rewrite (proj2 (Z.leb_le 0 r)) by done.
    set (o1 := <[KFd r := VFd s (SDup e) None]> (<[KSendLock := VToken]> o)).
    assert (Hl : o1 !! KFd r = Some (VFd s (SDup e) None)) by apply lookup_insert_eq.
    apply twp_bind, twp_bind, (twp_mono _ _ _ _ (fun _ o' => o' = o1)).
    { destruct on_send_started; [|done]. eapply twp_observe; [done| |done].
      intros c conns (_ & _ & Hc). exact Hc. }
    intros _ o' ->. eapply twp_send; [done| |].
    { intros Ht. destruct (Hpong Ht) as (s' & st & m' & Hl' & Ht').
      assert (Hold : <[KSendLock := VToken]> o !! KFd fd = Some (VFd s' st (Some m')))
        by by rewrite lookup_insert_ne by done.
      pose proof (Hsame _ _ _ Hold) as ->. exists fd, st, m'. split; [|done].
      unfold o1. rewrite lookup_insert_ne; [done|]. intros [= ->].
      rewrite lookup_insert_ne in Hnone by done. congruence. }
    intros b. apply twp_bind. eapply twp_close; [done|done|].
    unfold o1. rewrite delete_insert_id by done.
    apply twp_bind, twp_send_unlock; [rewrite lookup_insert_eq; by eexists|].
    cbn. by rewrite delete_insert_id.
Qed.

(** A sender that owns nothing. *)
Lemma send_any fd e m :
  msg_type m <> control_code CONTROL_PONG ->
  twp (send_for_epoch on_send_started fd e m) ∅ (fun _ o' => o' = ∅).
Proof. intros Ht. apply send_for_epoch_spec. by intros ?. Qed.

Lemma handle_message_locked_good fd e m now c g conns s st :
  good c g conns -> g !! KFd fd = Some (VFd s st (Some m)) ->
  good (set_tr c (handle_message_locked fd e m now (tr c)).2) g conns /\
  ((handle_message_locked fd e m now (tr c)).1 = true -> msg_type m = control_code CONTROL_PING).
Proof.
  intros Hg Hl. pose proof (g_ack _ _ _ Hg) as Hack. unfold handle_message_locked.
  destruct (is_current_locked (tr c) fd e) eqn:Ec; [|split; [by destruct c|done]].
  unfold is_current_locked in Ec. apply andb_true_iff in Ec as [Ec Ee].
  apply andb_true_iff in Ec as [_ Ef]. apply Z.eqb_eq in Ef.
  destruct ((msg_type m =? control_code CONTROL_KEY_ACK) && _) eqn:Ek.
  { apply andb_true_iff in Ek as [Et El]. apply Z.eqb_eq in Et. apply Nat.eqb_eq in El.
    destruct (waiting_key_sequence _ =? _) eqn:Es; (split; [|done]).
    - apply Z.eqb_eq in Es. apply good_tr; [done..|]. intros _ _.
      destruct (g_entry _ _ _ Hg _ _ _ _ Hl) as (H0 & Hm & _). exists s, m. cbn in *.
      split_and!; [lia| |by apply Hm|]. { rewrite Ef. apply (g_table _ _ _ Hg). eauto. }
      split_and!; done.
    - by apply good_tr. }
  destruct ((msg_type m =? control_code CONTROL_STATS) && _); (split; [by apply good_tr|]); [done|].
  apply Z.eqb_eq.
Qed.

Lemma handle_message_spec fd e m s st :
  let o := {[KFd fd := VFd s st (Some m)]} in
  twp (handle_message on_send_started fd e m) o (fun _ o' => o' = o).
Proof.
  intros o. unfold handle_message. apply twp_bind.
  apply twp_keep. intros i c g conns _ Ho Hg.
  assert (Hl : o !! KFd fd = Some (VFd s st (Some m))) by apply lookup_singleton_eq.
  destruct (handle_message_locked_good fd e m (in_clock i) c g conns s st Hg) as [Hg' Hping];
    [by eapply lookup_weaken|].
  destruct (handle_message_locked fd e m (in_clock i) (tr c)) as [pong t]. cbn [fst snd] in *.
  split; [done|]. destruct pong; [|done].
  apply twp_bind. eapply twp_mono; [apply send_for_epoch_spec|by intros r o' ->].
  intros _. exists s, st, m. split; [done|by apply Hping].
Qed.

Lemma run_loop_spec fuel fd e s : forall l,
  twp (run_loop on_send_started fuel fd e) {[KFd fd := VFd s (SPublished e) l]}
    (fun _ o' => exists l', o' = {[KFd fd := VFd s (SPublished e) l']}).
Proof.
  induction fuel as [|fuel IH]; intros l; cbn [run_loop]; [by intros ? ? ? ? ? _ _ _ [=]|].
  apply twp_bind. eapply twp_receive; [apply lookup_singleton_eq|by exists l|].
  intros m. rewrite insert_singleton_eq. apply twp_bind.
  eapply twp_mono; [apply handle_message_spec|intros _ o' ->].
  apply twp_bind, twp_peek. intros t. destruct (is_current_locked t fd e); [apply IH|by eexists].
Qed.

Lemma event_fresh ev e c g conns :
  good c g conns -> ~ fired ev e (tr c) ->
  g !! KEvent ev e = None /\ (ev, e) ∉ published_events (log c).
Proof.
  intros Hg Hn. split.
  - apply eq_None_not_Some. intros Hs. apply Hn, (g_fired _ _ _ Hg). by left.
  - intros Hs. apply Hn, (g_fired _ _ _ Hg). by right.
Qed.

Lemma updates_singleton k v w : updates [(k, Some v)] ({[k := w]} : ghost) = {[k := v]}.
Proof. exact (insert_singleton_eq k v w). Qed.

Lemma updates_singleton_new k k' v v' w :
  updates [(k', Some v'); (k, Some v)] ({[k := w]} : ghost) = <[k' := v']> {[k := v]}.
Proof. exact (f_equal (insert k' v') (updates_singleton k v w)). Qed.

(** The thread that serves [fd] takes it out of the transport, and will publish
    the end of the connection exactly if the connection was the current one. *)
Lemma twp_run_end fd e s l (Q : bool -> ghost -> Prop) :
  let o := {[KFd fd := VFd s SRetired l]} : ghost in
  Q false o ->
  Q true (if on_event then <[KEvent EventDisconnected e := VToken]> o else o) ->
  twp (locked (run_end fd e)) {[KFd fd := VFd s (SPublished e) l]} Q.
Proof.
  intros o Hfalse Htrue. apply twp_act. intros i c g conns x c' _ Ho Hg [= Hx].
  assert (Hl : g !! KFd fd = Some (VFd s (SPublished e) l))
    by (eapply lookup_weaken; [apply lookup_singleton_eq|done]).
  pose proof (g_entry _ _ _ Hg _ _ _ _ Hl) as (H0 & Hm & _).
  destruct (current_status _ _ _ _ _ _ _ Hg Hl) as [Hcur Hpend].
  assert (Hown : is_Some (({[KFd fd := VFd s (SPublished e) l]} : ghost) !! KFd fd))
    by (rewrite lookup_singleton_eq; by eexists).
  unfold run_end in Hx.
  destruct ((t_fd (tr c) =? fd) && (epoch (tr c) =? e)) eqn:E.
  - apply andb_true_iff in E as [Ef Ee]. apply Z.eqb_eq in Ef, Ee. injection Hx as <- <-.
    assert (Hret : good (set_tr c (cancel_key_ack_locked
        (set_connection (tr c) (-1) (epoch (tr c)) false))) (<[KFd fd := VFd s SRetired l]> g) conns).
    { eapply good_status; [by apply good_run_end|done|done|cbn; lia|cbn]. intros Ep. by discriminate (Hpend Ep). }
    destruct (event_fresh EventDisconnected e c g conns Hg) as [Hn Hp];
      [intros [?|[_ ?]]; lia|].
    destruct (negb (stopping (tr c)) && on_event) eqn:Eo.
    + apply andb_true_iff in Eo as [-> Eo]. rewrite Eo in Htrue.
      exists [(KEvent EventDisconnected e, Some VToken); (KFd fd, Some (VFd s SRetired l))], conns.
      split_and!.
      * apply list.NoDup_cons. split; [|apply NoDup_singleton]. by rewrite list_elem_of_singleton.
      * constructor; [by right|]. constructor; [by left|done].
      * apply good_event_new; [done|done|]. right. split; [done|]. cbn. lia.
      * by rewrite updates_singleton_new.
    + exists [(KFd fd, Some (VFd s SRetired l))], conns.
      split_and!; [apply NoDup_singleton|by constructor; [left|]|done|].
      rewrite updates_singleton. destruct (stopping (tr c)); [done|]. by destruct on_event.
  - injection Hx as <- <-. exists [(KFd fd, Some (VFd s SRetired l))], conns.
    split_and!; [apply NoDup_singleton|by constructor; [left|]| |by rewrite updates_singleton].
    assert (Hne : t_fd (tr c) <> fd).
    { intros Ef. specialize (Hcur Ef). injection Hcur as Ee. rewrite Ef, <- Ee, !Z.eqb_refl in E. done. }
    destruct c. eapply good_status; [done|done|done|done|]. intros Ep. by discriminate (Hpend Ep).
Qed.

Lemma publish_spec ev e :
  twp (publish on_event ev e) (if on_event then {[KEvent ev e := VToken]} else ∅) (fun _ o' => o' = ∅).
Proof.
  unfold publish. destruct on_event; [|done].
  apply twp_publish_event; [rewrite lookup_singleton_eq; by eexists|]. apply delete_singleton_eq.
Qed.

Lemma agent_transport_run_spec fuel fd e s l :
  0 <= fd ->
  twp (agent_transport_run on_event on_send_started fuel fd e) {[KFd fd := VFd s (SPublished e) l]}
    (fun _ o' => o' = ∅).
Proof.
  intros H0. unfold agent_transport_run. rewrite (proj2 (Z.ltb_ge fd 0)) by done.
  apply twp_bind. eapply twp_mono; [apply run_loop_spec|]. intros _ o' (l' & ->).
  apply twp_bind, twp_run_end.
  - apply twp_bind. eapply twp_close; [apply lookup_singleton_eq|done|]. apply delete_singleton_eq.
  - apply twp_bind. destruct on_event eqn:Eo.
    + eapply twp_close; [rewrite lookup_insert_ne by done; apply lookup_singleton_eq|done|].
      rewrite delete_insert_ne, delete_singleton_eq by done.
      pose proof (publish_spec EventDisconnected e) as Hp. rewrite Eo in Hp. exact Hp.
    + eapply twp_close; [apply lookup_singleton_eq|done|]. rewrite delete_singleton_eq.
      pose proof (publish_spec EventDisconnected e) as Hp. rewrite Eo in Hp. exact Hp.
Qed.

Lemma twp_shutdown fd o (Q : unit -> ghost -> Prop) : Q tt o -> twp (sys_shutdown fd) o Q.
Proof. intros HQ. apply twp_keep. intros i c g conns _ _ Hg. split; [|done]. by apply good_log_fd. Qed.

Lemma twp_timeout fd ms o (Q : unit -> ghost -> Prop) : Q tt o -> twp (sys_timeout fd ms) o Q.
Proof. intros HQ. apply twp_keep. intros i c g conns _ _ Hg. split; [|done]. by apply good_log_fd. Qed.

Lemma twp_accept_begin fd s (Q : bool -> ghost -> Prop) :
  Q false {[KFd fd := VFd s SFresh None]} -> Q true {[KFd fd := VFd s SHandshake None]} ->
  twp (locked (accept_begin fd)) {[KFd fd := VFd s SFresh None]} Q.
Proof.
  intros Hfalse Htrue. apply twp_act. intros i c g conns x c' _ Ho Hg [= <- <-].
  assert (Hl : g !! KFd fd = Some (VFd s SFresh None))
    by (eapply lookup_weaken; [apply lookup_singleton_eq|done]).
  destruct (current_status _ _ _ _ _ _ _ Hg Hl) as [Hcur Hpend].
  pose proof (g_entry _ _ _ Hg _ _ _ _ Hl) as Hent.
  destruct (negb (stopping (tr c)) && (pending_fd (tr c) <? 0)).
  - exists [(KFd fd, Some (VFd s SHandshake None))], conns.
    split_and!; [apply NoDup_singleton| | |by rewrite updates_singleton].
    { constructor; [left; rewrite lookup_singleton_eq; by eexists|done]. }
    change (updates _ g) with (<[KFd fd := VFd s SHandshake None]> g).
    apply (good_pending fd c); [|intros _; exists s, None; apply lookup_insert_eq].
    eapply good_status; [done|done|exact Hent| |done]. intros Ef. by discriminate (Hcur Ef).
  - exists [], conns. split_and!; [constructor|constructor|by destruct c|done].
Qed.

Lemma twp_accept_commit fd s l hello (Q : option (Z * Z * bool) -> ghost -> Prop) :
  Q None {[KFd fd := VFd s SRetired l]} ->
  (forall e replaced start, Q (Some (e, replaced, start)) {[KFd fd := VFd s (SPublished e) l]}) ->
  twp (locked_now (accept_commit fd hello)) {[KFd fd := VFd s SHandshake l]} Q.
Proof.
  intros Hnone Hsome. apply twp_act. intros i c g conns x c' Ha Ho Hg [= Hx].
  assert (Hl : g !! KFd fd = Some (VFd s SHandshake l))
    by (eapply lookup_weaken; [apply lookup_singleton_eq|done]).
  pose proof (g_entry _ _ _ Hg _ _ _ _ Hl) as Hent. destruct (Hent) as (H0 & _).
  unfold accept_commit in Hx.
  set (t := if pending_fd (tr c) =? fd then set_pending (tr c) (-1) else tr c) in *.
  assert (Hp : pending_fd t <> fd /\ t_fd t = t_fd (tr c) /\ epoch t = epoch (tr c)).
  { unfold t. destruct (Z.eqb_spec (pending_fd (tr c)) fd); cbn; split_and!; auto. lia. }
  assert (Hgt : good (set_tr c t) g conns).
  { unfold t. destruct (pending_fd (tr c) =? fd); [by apply good_pending; [|lia]|by destruct c]. }
  destruct Hp as (Hp & Hf & He). clearbody t.
  assert (Hin : is_Some (({[KFd fd := VFd s SHandshake l]} : ghost) !! KFd fd))
    by (rewrite lookup_singleton_eq; by eexists).
  destruct (valid_hello hello && negb (stopping t)); injection Hx as <- <-.
  - assert (Eu : u64 (epoch t + 1) = epoch t + 1).
    { apply u64_id. pose proof (g_epoch _ _ _ Hg). unfold allowed in Ha.
      apply andb_true_iff in Ha as [_ Ha]. apply Z.ltb_lt in Ha. unfold is_u64. lia. }
    exists [(KFd fd, Some (VFd s (SPublished (epoch t + 1)) l))], (<[epoch t + 1 := s]> conns).
    split_and!; [apply NoDup_singleton|by constructor; [left|]| |].
    + rewrite Eu. by apply (good_commit fd s l _ _ (set_tr c t)).
    + rewrite updates_singleton. cbn [epoch cancel_key_ack_locked set_key_ack set_times set_connection].
      rewrite Eu. apply Hsome.
  - exists [(KFd fd, Some (VFd s SRetired l))], conns.
    split_and!; [apply NoDup_singleton|by constructor; [left|]| |by rewrite updates_singleton].
    destruct (current_status _ _ _ _ _ _ _ Hgt Hl) as [Hcur _].
    eapply good_status; [done|done|done| |done]. intros Ef. by discriminate (Hcur Ef).
Qed.

Lemma agent_transport_accept_spec fd s :
  0 <= fd ->
  twp (agent_transport_accept on_send_started fd) {[KFd fd := VFd s SFresh None]}
    (fun r o' => match r with
                 | None => o' = ∅
                 | Some e => exists l, o' = {[KFd fd := VFd s (SPublished e) l]}
                 end).
Proof.
  intros H0. unfold agent_transport_accept. rewrite (proj2 (Z.ltb_ge fd 0)) by done.
  apply twp_bind, twp_accept_begin; cbn [negb].
  { apply twp_bind. eapply twp_close; [apply lookup_singleton_eq|done|]. apply delete_singleton_eq. }
  apply twp_bind, twp_timeout, twp_bind.
  apply (twp_mono _ _ _ _ (fun _ o' => exists l, o' = {[KFd fd := VFd s SHandshake l]})).
  { eapply twp_receive; [apply lookup_singleton_eq|by eexists|].
    intros m. exists (Some m). apply insert_singleton_eq. }
  intros hello o' (l & ->). apply twp_bind, twp_timeout, twp_bind, twp_accept_commit.
  { apply twp_bind. eapply twp_close; [apply lookup_singleton_eq|done|]. apply delete_singleton_eq. }
  intros e replaced start. set (o := {[KFd fd := VFd s (SPublished e) l]} : ghost).
  apply twp_bind, (twp_mono _ _ _ _ (fun _ o' => o' = o)).
  { destruct (0 <=? replaced); [by apply twp_shutdown|done]. }
  intros _ o' ->. apply twp_bind, (twp_mono _ _ _ _ (fun _ o' => o' = o)).
  { destruct start; [|done]. apply twp_bind.
    eapply twp_mono; [by apply send_for_epoch_spec|by intros r o' ->]. }
  intros _ o' ->. by exists l.
Qed.

Lemma control_connection_spec fuel fd s :
  0 <= fd ->
  twp (control_connection on_event on_send_started fuel fd) {[KFd fd := VFd s SFresh None]}
    (fun _ o' => o' = ∅).
Proof.
  intros H0. unfold control_connection. apply twp_bind.
  eapply twp_mono; [by apply agent_transport_accept_spec|]. intros [e|] o'; [|by intros ->].
  intros (l & ->). apply twp_bind. eapply twp_observe; [apply lookup_singleton_eq| |].
  - intros c conns (_ & _ & Hc). exact Hc.
  - by apply agent_transport_run_spec.
Qed.

Lemma agent_transport_send_spec m :
  msg_type m <> control_code CONTROL_PONG ->
  twp (agent_transport_send on_send_started m) ∅ (fun _ o' => o' = ∅).
Proof.
  intros Ht. unfold agent_transport_send. apply twp_bind, twp_peek. intros t.
  destruct (0 <=? (captured t).1); [by apply send_any|done].
Qed.

Lemma set_stream_requested_spec requested :
  twp (agent_transport_set_stream_requested on_send_started requested) ∅ (fun _ o' => o' = ∅).
Proof.
  apply twp_bind, twp_locked. intros c g conns _ Hg. split.
  - apply good_tr; [done..|]. exact (g_ack _ _ _ Hg).
  - cbn [fst]. destruct (0 <=? _); [|done]. apply send_any. by destruct requested.
Qed.

Lemma heartbeat_spec now :
  twp (agent_transport_heartbeat on_event on_send_started now) ∅ (fun _ o' => o' = ∅).
Proof.
  apply twp_bind, twp_act. intros i c g conns x c' _ Ho Hg [= Hx].
  assert (Hkeep : good c' g conns -> x = HeartbeatIdle \/ (exists fd e, x = HeartbeatPing fd e) ->
    exists u conns', NoDup u.*1 /\
      Forall (fun kv => is_Some ((∅ : ghost) !! kv.1) \/ g !! kv.1 = None) u /\
      good c' (updates u g) conns' /\
      twp match x with
          | HeartbeatIdle => Ret tt
          | HeartbeatPing fd e =>
              pbind (send_for_epoch on_send_started fd e (bare CONTROL_PING)) (fun _ => Ret tt)
          | HeartbeatTimeout _ e => publish on_event EventHeartbeatTimeout e
          end (updates u ∅) (fun _ o' => o' = ∅)).
  { intros Hgood Hxx. exists [], conns. split_and!; [constructor|constructor|done|].
    destruct Hxx as [->|(fd & e & ->)]; [done|]. apply twp_bind.
    eapply twp_mono; [by apply send_any|done]. }
  unfold heartbeat_locked in Hx.
  destruct (negb (stopping (tr c)) && (0 <=? t_fd (tr c))) eqn:Ec.
  2: { injection Hx as <- <-. apply Hkeep; [by destruct c|by left]. }
  apply andb_true_iff in Ec as [_ Ec]. apply Z.leb_le in Ec.
  destruct (heartbeat_timed_out (tr c)) eqn:Et; cbn [negb andb] in Hx.
  { injection Hx as <- <-. apply Hkeep; [by destruct c|by left]. }
  destruct (_ <? _).
  2: { destruct (_ <=? _); injection Hx as <- <-; apply Hkeep; eauto; [|by destruct c].
       apply good_tr; [done..|by rewrite Et|exact (g_ack _ _ _ Hg)]. }
  injection Hx as <- <-.
  destruct (event_fresh EventHeartbeatTimeout (epoch (tr c)) c g conns Hg) as [Hn Hp];
    [intros [?|[_ ?]]; [lia|congruence]|].
  set (t := set_stream _ _). assert (Hgt : good (log_fd (t_fd (tr c)) Shutdown (set_tr c t)) g conns).
  { apply good_log_fd; [|done]. apply good_tr; [done..|]. exact (g_ack _ _ _ Hg). }
  pose proof (publish_spec EventHeartbeatTimeout (epoch (tr c))) as Hpub.
  destruct on_event.
  - exists [(KEvent EventHeartbeatTimeout (epoch (tr c)), Some VToken)], conns.
    split_and!; [apply NoDup_singleton|constructor; [by right|done]| |exact Hpub].
    apply good_event_new; [done| |].
    + unfold log_fd. by destruct (fds (set_tr c t) !! t_fd (tr c)).
    + right. unfold log_fd. by destruct (fds (set_tr c t) !! t_fd (tr c)).
  - exists [], conns. split_and!; [constructor|constructor|done|exact Hpub].
Qed.

Lemma shutdown_spec : twp agent_transport_shutdown ∅ (fun _ o' => o' = ∅).
Proof.
  apply twp_keep. intros i c g conns _ _ Hg. split; [|done]. cbn [snd].
  assert (H1 : good (set_tr c (set_stopping (tr c))) g conns)
    by (apply good_tr; [done..|]; exact (g_ack _ _ _ Hg)).
  set (c1 := set_tr c _) in *. clearbody c1.
  assert (H2 : good (if 0 <=? t_fd (tr c1) then log_fd (t_fd (tr c1)) Shutdown c1 else c1) g conns).
  { destruct (0 <=? _); [by apply good_log_fd|done]. }
  set (c2 := if 0 <=? t_fd (tr c1) then log_fd (t_fd (tr c1)) Shutdown c1 else c1) in *. clearbody c2.
  destruct (0 <=? _); [by apply good_log_fd|done].
Qed.

Lemma begin_key_ack_spec sequence :
  twp (agent_transport_begin_key_ack sequence) ∅ (fun _ o' => o' = ∅).
Proof.
  apply twp_locked. intros c g conns _ Hg. split; [|done]. unfold begin_key_ack_locked.
  destruct (sequence =? 0); [by destruct c|]. destruct (_ && _ && _); [|by destruct c].
  by apply good_tr.
Qed.

Lemma good_connect fd c g conns :
  good c g conns -> 0 <= fd -> fds c !! fd = None ->
  good (MkCore (tr c) (<[fd := next_sock c]> (fds c)) (send_locked c) (S (next_sock c)) (log c))
    (<[KFd fd := VFd (next_sock c) SFresh None]> g) conns.
Proof.
  intros Hg H0 Hn. destruct (good_open fd (next_sock c) SFresh c g conns Hg Hn); [done|]. by split.
Qed.

Lemma transport_spawn_ok a c g c' p :
  spawn on_event on_send_started a c = Some (c', p) -> inv c g ->
  exists o, o ##ₘ g /\ inv c' (o ∪ g) /\ twp p o (fun _ o' => o' = ∅).
Proof.
  intros Hs [conns Hg].
  assert (Hnone : c' = c -> twp p ∅ (fun _ o' => o' = ∅) ->
            exists o, o ##ₘ g /\ inv c' (o ∪ g) /\ twp p o (fun _ o' => o' = ∅)).
  { intros -> Hw. exists ∅. rewrite (left_id_L ∅ (∪)).
    split_and!; [apply map_disjoint_empty_l|by exists conns|done]. }
  destruct a; cbn [spawn] in Hs.
  - destruct ((0 <=? fd) && _) eqn:E; [|done]. apply (inj Some), pair_eq in Hs as [<- <-].
    apply andb_true_iff in E as [H0 Hn]. apply Z.leb_le in H0.
    apply negb_true_iff, bool_decide_eq_false, eq_None_not_Some in Hn.
    exists {[KFd fd := VFd (next_sock c) SFresh None]}. split_and!.
    + apply map_disjoint_singleton_l, (g_closed _ _ _ Hg), Hn.
    + exists conns. rewrite <- insert_union_singleton_l. by apply good_connect.
    + by apply control_connection_spec.
  - destruct (Z.eqb_spec (msg_type m) (control_code CONTROL_PONG)); [done|]. apply (inj Some), pair_eq in Hs as [<- <-].
    apply Hnone; [done|]. apply twp_bind. eapply twp_mono; [by apply agent_transport_send_spec|done].
  - apply (inj Some), pair_eq in Hs as [<- <-]. apply Hnone; [done|].
    apply twp_bind. eapply twp_mono; [apply set_stream_requested_spec|done].
  - apply (inj Some), pair_eq in Hs as [<- <-]. apply Hnone; [done|]. apply heartbeat_spec.
  - apply (inj Some), pair_eq in Hs as [<- <-]. apply Hnone; [done|]. apply shutdown_spec.
  - apply (inj Some), pair_eq in Hs as [<- <-]. apply Hnone; [done|].
    apply twp_bind. eapply twp_mono; [apply begin_key_ack_spec|done].
  - apply (inj Some), pair_eq in Hs as [<- <-]. apply Hnone; [done|]. by apply twp_bind, twp_peek.
  - apply (inj Some), pair_eq in Hs as [<- <-]. apply Hnone; [done|].
    apply twp_bind, twp_peek; intros _. apply twp_bind, twp_peek; intros _.
    apply twp_bind, twp_peek; intros _. by apply twp_bind, twp_peek.
Qed.

Lemma start_good : pool_ok allowed inv transport_start.
Proof.
  exists (∅ : ghost). split; [constructor|]. exists (∅ : gmap Z nat). split; cbn; try done; try lia.
  - intros fd s. rewrite !lookup_empty. split; [done|by intros (? & ? & ?)].
  - intros ev e [[? Hx]|Hx]; [by rewrite lookup_empty in Hx|by apply elem_of_nil in Hx].
  - constructor.
  - intros ev e [? Hx]. by rewrite lookup_empty in Hx.
  - by intros s e [?%elem_of_nil|[?%elem_of_nil|(? & ?%elem_of_nil)]].
  - by intros s e m ?%elem_of_nil.
  - rewrite lookup_empty. split; [done|by intros [? ?]].
Qed.

Lemma reachable_ok s : reachable on_event on_send_started s -> pool_ok allowed inv s.
Proof.
  intros (l & Hl). eapply exec_all_ok; [|done|apply start_good].
  intros. by eapply transport_spawn_ok.
Qed.

(** ** Theorems *)

(** C1: Messages reach the connection they are meant for, whatever the threads
    interleave and however descriptor numbers are reused: the connection accepted
    as an epoch, the sends started for it and every message sent for it are one
    socket; a pong goes to a socket a ping came from; the current descriptor is
    open, and what was sent for the current epoch went to its socket. *)
Theorem transport_sends_to_epoch s :
  reachable on_event on_send_started s ->
  let l := log s.1 in
  (forall s1 s2 e, used_for l s1 e -> used_for l s2 e -> s1 = s2) /\
  pong_ok l /\
  (0 <= t_fd (tr s.1) ->
     exists sock, fds s.1 !! t_fd (tr s.1) = Some sock /\
       forall s1, used_for l s1 (epoch (tr s.1)) -> s1 = sock).
Proof.
  intros (g & _ & conns & Hg)%reachable_ok l. split_and!.
  - intros s1 s2 e H1%(g_named _ _ _ Hg) H2%(g_named _ _ _ Hg). congruence.
  - apply (g_pong _ _ _ Hg).
  - intros H0. destruct (g_current _ _ _ Hg H0) as (sock & last & Hl). exists sock. split.
    + apply (g_table _ _ _ Hg). eauto.
    + intros s1 H1%(g_named _ _ _ Hg). apply (g_entry _ _ _ Hg) in Hl as (_ & _ & Hc). congruence.
Qed.

(** C28: An event is published at most once per connection: a disconnection only
    for a connection that is gone, a heartbeat timeout only for one that timed
    out. *)
Theorem transport_events_once s :
  reachable on_event on_send_started s ->
  NoDup (published_events (log s.1)) /\
  forall ev e, Published ev e ∈ log s.1 -> fired ev e (tr s.1).
Proof.
  intros (g & _ & conns & Hg)%reachable_ok. split; [apply (g_once _ _ _ Hg)|].
  intros ev e Hin. apply (g_fired _ _ _ Hg). right. unfold published_events.
  apply list_elem_of_omap. by exists (Published ev e).
Qed.

(** Every thread has returned. *)
Definition all_returned (s : Core * list (tprog unit)) : Prop := Forall (fun p => p = Ret tt) s.2.

(** C29: Once every thread has returned, no descriptor is open, none is recorded
    in the transport and the send lock is free: nothing leaks, and
    [agent_transport_destroy] has nothing left to close. *)
Theorem transport_no_leak s :
  reachable on_event on_send_started s -> all_returned s ->
  fds s.1 = ∅ /\ t_fd (tr s.1) < 0 /\ pending_fd (tr s.1) < 0 /\ send_locked s.1 = false.
Proof.
  intros (g & Hown & conns & Hg)%reachable_ok Hdone.
  rewrite (owned_done _ _ _ _ Hown Hdone) in Hg. split_and!.
  - apply map_eq. intros fd. rewrite lookup_empty. apply eq_None_not_Some. intros [sock Hs].
    apply (g_table _ _ _ Hg) in Hs as (st & last & Hl). by rewrite lookup_empty in Hl.
  - apply Z.nle_gt. intros (? & ? & Hl)%(g_current _ _ _ Hg). by rewrite lookup_empty in Hl.
  - apply Z.nle_gt. intros (? & ? & Hl)%(g_pending _ _ _ Hg). by rewrite lookup_empty in Hl.
  - destruct (send_locked s.1) eqn:E; [|done]. apply (g_send _ _ _ Hg) in E as [? Hl].
    by rewrite lookup_empty in Hl.
Qed.

(** A key acknowledgement is never made up or stale: when the transport
    reports a key as acknowledged, a well-formed acknowledgement with that
    sequence number and that verdict was received on the current connection. *)
Theorem transport_key_ack s sequence success :
  reachable on_event on_send_started s ->
  get_key_ack_locked sequence (tr s.1) = Some (true, success) ->
  exists sock m, fds s.1 !! t_fd (tr s.1) = Some sock /\ Received sock m ∈ log s.1 /\
    acknowledges m sequence success.
Proof.
  intros (g & _ & conns & Hg)%reachable_ok Hget. unfold get_key_ack_locked in Hget.
  destruct (_ && _) eqn:E; [|done]. injection Hget as Hr Hs.
  apply andb_true_iff in E as [E1 E2]. apply negb_true_iff, Z.eqb_neq in E1. apply Z.eqb_eq in E2.
  destruct (g_ack _ _ _ Hg) as (sock & m & _ & Hf & Hin & Ha); [congruence|done|].
  exists sock, m. rewrite <- E2, <- Hs. done.
Qed.
End Specs.

(** ** Schedules *)

(** The state a schedule ends in (the initial state if it is impossible). *)
Definition outcome_of (l : list (action (I := Input) (A := call))) : Core * list (tprog unit) :=
  default transport_start (exec_all allowed (spawn true true) l transport_start).

Lemma outcome_reachable l : reachable true true (outcome_of l).
Proof.
  unfold outcome_of. destruct (exec_all _ _ l _) as [s|] eqn:E; [by exists l|by exists []].
Qed.

Definition hello_message : NanokvmControlMessage :=
  Message 1 [7; 128; 4; 56; 19; 140; 4; 176; 1].
Definition ack_message : NanokvmControlMessage := Message 15 [0; 0; 0; 7; 1].

Definition plain (n : nat) : action (I := Input) (A := call) := Run n (MkInput 100 (-1) true None).
Definition gets (n : nat) (m : NanokvmControlMessage) : action (I := Input) (A := call) :=
  Run n (MkInput 100 (-1) true (Some m)).
Definition dups (n : nat) (fd : Z) : action (I := Input) (A := call) :=
  Run n (MkInput 100 fd true None).

(** An agent connects, pings, and acknowledges a key. *)
Definition session : list (action (I := Input) (A := call)) :=
  [Start (Connect 5 4); plain 0; plain 0; gets 0 hello_message; plain 0; plain 0; plain 0;
   gets 0 (bare CONTROL_PING); plain 0; plain 0; dups 0 9; plain 0; plain 0; plain 0; plain 0;
   plain 0; Start (BeginKeyAck 7); plain 1; gets 0 ack_message; plain 0].

(** ... and then hangs up. *)
Definition hang_up : list (action (I := Input) (A := call)) :=
  session ++ [plain 0; plain 0; plain 0; plain 0; plain 0].

Lemma transport_sends_to_epoch_witness :
  let l := log (outcome_of session).1 in
  Accepted 0 1 ∈ l /\ Sent 0 1 (bare CONTROL_PONG) ∈ l /\
  (forall sock m, Sent sock 1 m ∈ l -> sock = 0%nat) /\
  exists m', Received 0 m' ∈ l /\ msg_type m' = control_code CONTROL_PING.
Proof.
  assert (Hp : Sent 0 1 (bare CONTROL_PONG) ∈ log (outcome_of session).1) by (vm_compute; set_solver).
  assert (Ha : Accepted 0 1 ∈ log (outcome_of session).1) by (clear; vm_compute; set_solver).
  intros l. split; [exact Ha|]. split; [exact Hp|]. split.
  { intros sock m Hs.
    apply (proj1 (transport_sends_to_epoch true true _ (outcome_reachable session)) _ _ 1);
      [right; right; exists m; exact Hs|right; left; exact Ha]. }
  apply (proj1 (proj2 (transport_sends_to_epoch true true _ (outcome_reachable session))) 0%nat 1
           (bare CONTROL_PONG)); [exact Hp|reflexivity].
Defined.

Lemma transport_events_once_witness :
  published_events (log (outcome_of hang_up).1) = [(EventDisconnected, 1)] /\
  NoDup (published_events (log (outcome_of hang_up).1)).
Proof.
  split; [reflexivity|].
  exact (proj1 (transport_events_once true true _ (outcome_reachable hang_up))).
Defined.

Lemma transport_no_leak_witness : fds (outcome_of hang_up).1 = ∅.
Proof.
  refine (proj1 (transport_no_leak true true _ (outcome_reachable hang_up) _)).
  vm_compute. repeat constructor.
Defined.

Lemma transport_key_ack_witness :
  exists sock m, fds (outcome_of session).1 !! t_fd (tr (outcome_of session).1) = Some sock /\
    Received sock m ∈ log (outcome_of session).1 /\ acknowledges m 7 true.
Proof.
  apply (transport_key_ack true true _ 7 true (outcome_reachable session)). reflexivity.
Defined.

(** [agent_transport_accept] shuts the replaced descriptor down after it released
    the lock.  If the replaced connection is served by another thread, that thread
    can close the descriptor first, and the number can be in use again: the
    shutdown then hits a connection that was never replaced (socket 2 here, still
    in its handshake).  [control_thread] serves one connection at a time, so the
    gateway itself never has two serving threads. *)
Example replaced_descriptor_reused :
  let s := outcome_of
    [Start (Connect 5 4); plain 0; plain 0; gets 0 hello_message; plain 0; plain 0; plain 0;
     Start (Connect 5 6); plain 1; plain 1; gets 1 hello_message; plain 1; plain 1;
     gets 0 (bare CONTROL_PING); plain 0; plain 0; plain 0; plain 0;
     Start (Connect 5 4); plain 1] in
  Shutdown 2 ∈ log s.1 /\ fds s.1 !! 4 = Some 2%nat /\ epoch (tr s.1) = 2.
Proof. vm_compute. split_and!; [set_solver|reflexivity|reflexivity]. Qed.
