(* ===== verification/GatewayConfig.v ===== *)
(** * Command line of the gateway ([src/src/gateway_config.h], [src/src/gateway_config.c])

    Strings are C strings.  A failed parse leaves the configuration as far as it
    was filled in, as the C code does, and says why. *)

From stdpp Require Import strings.
From S2P Require Import Prelude CString.

Record GatewayConfig := MkConfig {
  bind_address : bytes;
  port : Z;
  certificate : bytes;
  private_key : bytes;
  width : Z;
  height : Z;
  bitrate : Z;
  control_port : Z;
  video_port : Z;
  http_port : Z;
  jpeg_quality : Z;
  direct_gfx : bool;
  swap_alt_command : bool }.

Definition set_listen (c : GatewayConfig) (host : bytes) (p : Z) : GatewayConfig :=
  MkConfig host p (certificate c) (private_key c) (width c) (height c) (bitrate c) (control_port c)
    (video_port c) (http_port c) (jpeg_quality c) (direct_gfx c) (swap_alt_command c).
Definition set_files (c : GatewayConfig) (cert key : bytes) : GatewayConfig :=
  MkConfig (bind_address c) (port c) cert key (width c) (height c) (bitrate c) (control_port c)
    (video_port c) (http_port c) (jpeg_quality c) (direct_gfx c) (swap_alt_command c).
Definition set_picture (c : GatewayConfig) (w h b q : Z) : GatewayConfig :=
  MkConfig (bind_address c) (port c) (certificate c) (private_key c) w h b (control_port c)
    (video_port c) (http_port c) q (direct_gfx c) (swap_alt_command c).
Definition set_ports (c : GatewayConfig) (control video http : Z) : GatewayConfig :=
  MkConfig (bind_address c) (port c) (certificate c) (private_key c) (width c) (height c)
    (bitrate c) control video http (jpeg_quality c) (direct_gfx c) (swap_alt_command c).
Definition set_modes (c : GatewayConfig) (gfx swap : bool) : GatewayConfig :=
  MkConfig (bind_address c) (port c) (certificate c) (private_key c) (width c) (height c)
    (bitrate c) (control_port c) (video_port c) (http_port c) (jpeg_quality c) gfx swap.

(** What [set_error] prints. *)
Inductive config_error :=
| UnknownOption (option : bytes)
| MissingValue (option : bytes)
| InvalidValue (option value : bytes).

(** The loop of [parse_decimal], on 64-bit unsigned numbers. *)
Fixpoint decimal_loop (value : bytes) (maximum result : Z) : option Z :=
  match value with
  | [] => Some result
  | c :: value =>
      if (c <? 48) || (57 <? c) then None
      else
        let digit := c - 48 in
        if u64 (maximum - digit) / 10 <? result then None
        else decimal_loop value maximum (u64 (u64 (result * 10) + digit))
  end.

Definition parse_decimal (value : bytes) (minimum maximum : Z) : option Z :=
  match value with
  | [] => None
  | _ =>
      match decimal_loop value maximum 0 with
      | None => None
      | Some result => if (result <? minimum) || (maximum <? result) then None else Some result
      end
  end.

(** The last colon: the parts before and behind it ([strrchr]). *)
Fixpoint split_colon (value : bytes) : option (bytes * bytes) :=
  match value with
  | [] => None
  | c :: value =>
      match split_colon value with
      | Some (host, rest) => Some (c :: host, rest)
      | None => if c =? 58 then Some ([], value) else None
      end
  end.

Definition parse_listen (c : GatewayConfig) (value : bytes) : option GatewayConfig :=
  match split_colon value with
  | None => None
  | Some (host, rest) =>
      if (length host =? 0)%nat || (length rest =? 0)%nat then None
      else if (64 <=? length host)%nat then None
      else match parse_decimal rest 1 65535 with
           | None => None
           | Some p => Some (set_listen c host (u16 p))
           end
  end.

Section Options.
Local Open Scope string_scope.

Definition value_options : list bytes :=
  map c_string ["-listen"; "-cert"; "-key"; "-width"; "-height"; "-bitrate"; "-control-port";
                "-video-port"; "-http-port"; "-jpeg-quality"].

Definition is_value_option (option : bytes) : bool := existsb (c_eq option) value_options.

Definition gateway_config_defaults : GatewayConfig :=
  MkConfig (c_string "0.0.0.0") 3389 (c_string "/root/nanokvm-rdp/cert.pem")
    (c_string "/root/nanokvm-rdp/key.pem") 1920 1080 8000 3390 5004 8080 8 false false.

(** [parse_option_number], then the assignment. *)
Definition parse_option_number (option value : bytes) (minimum maximum : Z)
    (set : Z -> GatewayConfig) : GatewayConfig + config_error :=
  match parse_decimal value minimum maximum with
  | Some parsed => inl (set parsed)
  | None => inr (InvalidValue option value)
  end.

(** One option with its value. *)
Definition apply_option (c : GatewayConfig) (option value : bytes) : GatewayConfig + config_error :=
  if c_eq option (c_string "-listen") then
    match parse_listen c value with Some c' => inl c' | None => inr (InvalidValue option value) end
  else if c_eq option (c_string "-cert") then inl (set_files c value (private_key c))
  else if c_eq option (c_string "-key") then inl (set_files c (certificate c) value)
  else if c_eq option (c_string "-width") then
    parse_option_number option value 1 8192
      (fun p => set_picture c (u16 p) (height c) (bitrate c) (jpeg_quality c))
  else if c_eq option (c_string "-height") then
    parse_option_number option value 1 8192
      (fun p => set_picture c (width c) (u16 p) (bitrate c) (jpeg_quality c))
  else if c_eq option (c_string "-bitrate") then
    parse_option_number option value 1 65535
      (fun p => set_picture c (width c) (height c) (u16 p) (jpeg_quality c))
  else if c_eq option (c_string "-control-port") then
    parse_option_number option value 1 65535
      (fun p => set_ports c (u16 p) (video_port c) (http_port c))
  else if c_eq option (c_string "-video-port") then
    parse_option_number option value 1 65535
      (fun p => set_ports c (control_port c) (u16 p) (http_port c))
  else if c_eq option (c_string "-http-port") then
    parse_option_number option value 1 65535
      (fun p => set_ports c (control_port c) (video_port c) (u16 p))
  else if c_eq option (c_string "-jpeg-quality") then
    parse_option_number option value 2 31
      (fun p => set_picture c (width c) (height c) (bitrate c) p)
  else inr (UnknownOption option).

(** The loop over [argv[1..]]; every iteration takes one or two arguments. *)
Fixpoint gateway_config_parse (fuel : nat) (c : GatewayConfig) (args : list bytes)
    : GatewayConfig * option config_error :=
  match args, fuel with
  | [], _ => (c, None)
  | option :: _, O => (c, Some (UnknownOption option))
  | option :: args, S fuel =>
      if c_eq option (c_string "-direct-gfx")
      then gateway_config_parse fuel (set_modes c true (swap_alt_command c)) args
      else if c_eq option (c_string "-swap-alt-command")
      then gateway_config_parse fuel (set_modes c (direct_gfx c) true) args
      else if negb (is_value_option option) then (c, Some (UnknownOption option))
      else match args with
           | [] => (c, Some (MissingValue option))
           | value :: args =>
               match apply_option c option value with
               | inl c' => gateway_config_parse fuel c' args
               | inr e => (c, Some e)
               end
           end
  end.
End Options.

(** ** Decimal numbers *)

Lemma decimal_loop_spec maximum (Hmax : 9 <= maximum < 2 ^ 64) value : forall acc n,
  0 <= acc <= maximum ->
  decimal_loop value maximum acc = Some n <->
  Forall is_digit value /\ decimal_value acc value = n /\ n <= maximum.
Proof.
  induction value as [|c value IH]; intros acc n Hacc; cbn [decimal_loop].
  { unfold decimal_value; cbn. split; [|by intros (_ & -> & _)].
    intros [= <-]. split; [constructor|lia]. }
  rewrite Forall_cons_iff. unfold is_digit at 1.
  destruct (Z.ltb_spec c 48); cbn [orb]; [split; [done|lia]|].
  destruct (Z.ltb_spec 57 c); [split; [done|lia]|].
  rewrite (u64_id (maximum - (c - 48))) by mlia.
  change (decimal_value acc (c :: value)) with (decimal_value (acc * 10 + (c - 48)) value).
  destruct (Z.ltb_spec ((maximum - (c - 48)) / 10) acc) as [Hlt|Hge].
  - split; [done|]. intros ((_ & Hv) & <- & Hle).
    pose proof (decimal_value_ge value (acc * 10 + (c - 48)) ltac:(lia) Hv). mlia.
  - assert (acc * 10 + (c - 48) <= maximum) by mlia.
    rewrite (u64_id (acc * 10)), u64_id by (unfold is_u64; lia). rewrite IH by lia.
    split; [|tauto]. intros ?; split; [split; [lia|tauto]|tauto].
Qed.

Lemma parse_decimal_correct value minimum maximum n :
  9 <= maximum < 2 ^ 64 ->
  parse_decimal value minimum maximum = Some n <->
  value <> [] /\ Forall is_digit value /\ decimal_value 0 value = n /\ minimum <= n <= maximum.
Proof.
  intros Hmax. unfold parse_decimal. destruct value as [|c value];
    [split; [done|by intros (? & _)]|].
  pose proof (decimal_loop_spec maximum Hmax (c :: value) 0) as Hloop.
  destruct (decimal_loop (c :: value) maximum 0) as [r|] eqn:E.
  - destruct (proj1 (Hloop r ltac:(lia)) eq_refl) as (Hd & Hr & Hle).
    destruct (Z.ltb_spec r minimum); cbn [orb];
      [split; [done|intros (_ & _ & <- & ?); lia]|].
    destruct (Z.ltb_spec maximum r); [lia|].
    split; [intros [= <-]; split_and!; auto; lia|intros (_ & _ & <- & _); by rewrite Hr].
  - split; [done|]. intros (_ & Hd & Hn & Hb).
    pose proof (proj2 (Hloop n ltac:(lia)) ltac:(split_and!; auto; lia)). done.
Qed.

(** ** Valid configurations *)

(** What the rest of the gateway relies on. *)
Record config_valid (c : GatewayConfig) : Prop := {
  cv_host : (0 < length (bind_address c) < 64)%nat;
  cv_port : 1 <= port c <= 65535;
  cv_width : 1 <= width c <= 8192;
  cv_height : 1 <= height c <= 8192;
  cv_bitrate : 1 <= bitrate c <= 65535;
  cv_control : 1 <= control_port c <= 65535;
  cv_video : 1 <= video_port c <= 65535;
  cv_http : 1 <= http_port c <= 65535;
  cv_quality : 2 <= jpeg_quality c <= 31 }.

Lemma parse_decimal_range value minimum maximum n :
  9 <= maximum < 2 ^ 64 -> parse_decimal value minimum maximum = Some n -> minimum <= n <= maximum.
Proof. intros Hm Hp. by apply parse_decimal_correct in Hp as (_ & _ & _ & ?). Qed.

Lemma defaults_valid : config_valid gateway_config_defaults.
Proof. split; cbn; lia. Qed.

Lemma parse_listen_valid c value c' :
  config_valid c -> parse_listen c value = Some c' -> config_valid c'.
Proof.
  intros [] Hp. unfold parse_listen in Hp.
  destruct (split_colon value) as [[host rest]|]; [|done].
  destruct (Nat.eqb_spec (length host) 0); [done|].
  destruct (Nat.eqb_spec (length rest) 0); [done|]; cbn [orb] in Hp.
  destruct (Nat.leb_spec 64 (length host)); [done|].
  destruct (parse_decimal rest 1 65535) as [p|] eqn:E; [|done]. injection Hp as <-.
  apply parse_decimal_range in E; [|lia].
  split; cbn; auto; [lia|]. rewrite u16_id by mlia. done.
Qed.

(** A number in the range of its option keeps the configuration valid. *)
Lemma parse_option_number_valid option value minimum maximum set c' :
  9 <= maximum < 2 ^ 64 ->
  (forall p, minimum <= p <= maximum -> config_valid (set p)) ->
  parse_option_number option value minimum maximum set = inl c' -> config_valid c'.
Proof.
  intros Hm Hset. unfold parse_option_number.
  destruct (parse_decimal value minimum maximum) as [p|] eqn:E; [|done].
  intros [= <-]. apply Hset. by eapply parse_decimal_range.
Qed.

Lemma apply_option_valid c option value c' :
  config_valid c -> apply_option c option value = inl c' -> config_valid c'.
Proof.
  intros Hc. unfold apply_option.
  repeat match goal with |- (if ?b then _ else _) = _ -> _ => destruct b end.
  1: { destruct (parse_listen c value) as [c1|] eqn:E; [|done].
       intros [= <-]. by eapply parse_listen_valid. }
  1,2: destruct Hc; intros [= <-]; by split.
  all: try done.
  all: apply parse_option_number_valid; [lia|];
    intros p Hp; destruct Hc; split; cbn; auto; rewrite u16_id by mlia; lia.
Qed.

Lemma parse_valid fuel : forall c args,
  config_valid c -> config_valid (gateway_config_parse fuel c args).1.
Proof.
  induction fuel as [|fuel IH]; intros c args Hc; destruct args as [|option args]; cbn; auto.
  destruct (c_eq option _); [apply IH; by destruct Hc; split|].
  destruct (c_eq option _); [apply IH; by destruct Hc; split|].
  destruct (negb _); [done|]. destruct args as [|value args]; [done|].
  destruct (apply_option c option value) as [c'|e] eqn:E; [|done].
  apply IH. by eapply apply_option_valid.
Qed.

Lemma parse_fuel fuel : forall c args,
  (length args <= fuel)%nat ->
  gateway_config_parse fuel c args = gateway_config_parse (length args) c args.
Proof.
  induction fuel as [fuel IH] using lt_wf_ind. intros c args Hf.
  destruct args as [|option args]; [by destruct fuel|].
  destruct fuel as [|fuel]; [cbn in Hf; lia|]. cbn [length] in Hf |- *.
  cbn [gateway_config_parse].
  destruct (c_eq option _); [apply IH; lia|].
  destruct (c_eq option _); [apply IH; lia|].
  destruct (negb _); [done|]. destruct args as [|value args]; [done|]. cbn [length] in *.
  destruct (apply_option c option value) as [c'|e] eqn:E; [|done].
  rewrite (IH fuel) by lia. destruct fuel as [|fuel]; [lia|].
  destruct (decide (length args = fuel)) as [<-|]; [symmetry; apply IH; lia|].
  symmetry. apply IH; lia.
Qed.

(** ** Writing a configuration as arguments *)

(** A number of at most five digits. *)
Definition print_number (n : Z) : bytes := print_decimal 5 n.

Lemma parse_print_number n minimum maximum :
  9 <= maximum <= 65535 -> 0 <= minimum -> minimum <= n <= maximum ->
  parse_decimal (print_number n) minimum maximum = Some n.
Proof.
  intros Hm Hmin Hn. apply parse_decimal_correct; [lia|].
  destruct (print_decimal_spec 5 n) as (Hd & Hv & _); [lia|].
  split_and!; auto; try lia.
  unfold print_number; cbn [print_decimal]. by destruct (if n <? 10 then _ else _).
Qed.

Lemma split_colon_app host rest :
  Forall (fun c => c <> 58) rest -> split_colon (host ++ 58 :: rest) = Some (host, rest).
Proof.
  intros Hr. assert (Hnone : split_colon rest = None).
  { induction rest as [|c rest IH]; [done|]. apply Forall_cons_iff in Hr as [Hc Hr]. cbn.
    rewrite (IH Hr). by rewrite (proj2 (Z.eqb_neq c 58)) by done. }
  induction host as [|c host IH]; cbn; [by rewrite Hnone|by rewrite IH].
Qed.

Lemma parse_listen_print c host p :
  (0 < length host < 64)%nat -> 1 <= p <= 65535 ->
  parse_listen c (host ++ 58 :: print_number p) = Some (set_listen c host p).
Proof.
  intros Hh Hp. destruct (print_decimal_spec 5 p) as (_ & _ & Hcol); [lia|].
  unfold parse_listen. rewrite split_colon_app by done.
  rewrite parse_print_number by lia.
  replace (length (print_number p) =? 0)%nat with false
    by (unfold print_number; cbn [print_decimal]; rewrite length_app; cbn;
        symmetry; apply Nat.eqb_neq; lia).
  rewrite (proj2 (Nat.eqb_neq _ _)), (proj2 (Nat.leb_gt _ _)) by lia; cbn.
  by rewrite u16_id by mlia.
Qed.

(** Arguments that set every field. *)
Definition print_args (c : GatewayConfig) : list bytes :=
  [c_string "-listen"%string; bind_address c ++ 58 :: print_number (port c);
   c_string "-cert"%string; certificate c;
   c_string "-key"%string; private_key c;
   c_string "-width"%string; print_number (width c);
   c_string "-height"%string; print_number (height c);
   c_string "-bitrate"%string; print_number (bitrate c);
   c_string "-control-port"%string; print_number (control_port c);
   c_string "-video-port"%string; print_number (video_port c);
   c_string "-http-port"%string; print_number (http_port c);
   c_string "-jpeg-quality"%string; print_number (jpeg_quality c)] ++
  (if direct_gfx c then [c_string "-direct-gfx"%string] else []) ++
  (if swap_alt_command c then [c_string "-swap-alt-command"%string] else []).

(** One known option and its value. *)
Lemma parse_value_option fuel c c' option value args :
  c_eq option (c_string "-direct-gfx"%string) = false ->
  c_eq option (c_string "-swap-alt-command"%string) = false ->
  is_value_option option = true ->
  apply_option c option value = inl c' ->
  gateway_config_parse (S fuel) c (option :: value :: args) = gateway_config_parse fuel c' args.
Proof. intros H1 H2 H3 H4. cbn [gateway_config_parse]. by rewrite H1, H2, H3, H4. Qed.

Lemma parse_option_number_print option n minimum maximum set :
  9 <= maximum <= 65535 -> 0 <= minimum -> minimum <= n <= maximum ->
  parse_option_number option (print_number n) minimum maximum set = inl (set n).
Proof. intros. unfold parse_option_number. by rewrite parse_print_number. Qed.

Lemma apply_listen_print c host p :
  (0 < length host < 64)%nat -> 1 <= p <= 65535 ->
  apply_option c (c_string "-listen"%string) (host ++ 58 :: print_number p) =
  inl (set_listen c host p).
Proof.
  intros. unfold apply_option. rewrite (proj2 (c_eq_true _ _)) by done.
  by rewrite parse_listen_print.
Qed.

(** Consumes the next option of [print_args]. *)
Ltac take_option :=
  erewrite parse_value_option; [|reflexivity|reflexivity|reflexivity|
    first [ reflexivity
          | refine (parse_option_number_print _ _ _ _ _ _ _ _); lia ]].

Lemma parse_modes fuel c gfx swap :
  (2 <= fuel)%nat -> direct_gfx c = false -> swap_alt_command c = false ->
  gateway_config_parse fuel c
    ((if gfx : bool then [c_string "-direct-gfx"%string] else []) ++
     (if swap : bool then [c_string "-swap-alt-command"%string] else [])) =
  (set_modes c gfx swap, None).
Proof.
  intros Hf Hg Hs. destruct fuel as [|[|fuel]]; [lia|lia|].
  destruct c; cbn in Hg, Hs; subst. destruct gfx, swap; destruct fuel; reflexivity.
Qed.

(** A decimal is accepted exactly when it is a non-empty run of digits that
    denotes a number in the option's range, however many digits it has, and the
    number returned is the one denoted: no wrap-around is mistaken for a value. *)
Theorem parse_decimal_spec value minimum maximum n :
  9 <= maximum < 2 ^ 64 ->
  parse_decimal value minimum maximum = Some n <->
  value <> [] /\ Forall is_digit value /\ decimal_value 0 value = n /\ minimum <= n <= maximum.
Proof. apply parse_decimal_correct. Qed.

Lemma parse_decimal_spec_witness :
  parse_decimal [48; 53; 48; 48; 52] 1 65535 = Some 5004.
Proof.
  apply (parse_decimal_spec [48; 53; 48; 48; 52] 1 65535 5004); [lia|].
  split_and!; [done|repeat constructor; unfold is_digit; lia|reflexivity|lia|lia].
Defined.

(** C27: whatever the arguments, the configuration stays within the bounds the
    gateway relies on (also when parsing fails half way), the loop ends within one
    iteration per argument, and every valid configuration can be asked for: the
    arguments that spell it out parse back to it. *)
Theorem gateway_config_parse_valid c args :
  config_valid c ->
  config_valid (gateway_config_parse (length args) gateway_config_defaults args).1 /\
  (forall fuel, (length args <= fuel)%nat ->
     gateway_config_parse fuel c args = gateway_config_parse (length args) c args) /\
  gateway_config_parse (length (print_args c)) gateway_config_defaults (print_args c) = (c, None).
Proof.
  intros Hc. split_and!; [apply parse_valid, defaults_valid|intros; by apply parse_fuel|].
  destruct Hc. rewrite <- (parse_fuel (12 + length (print_args c))) by lia.
  assert (Hlen : (length (print_args c) >= 20)%nat) by (unfold print_args; cbn; lia).
  remember (length (print_args c)) as len eqn:E; clear E.
  unfold print_args; cbn [app Nat.add].
  erewrite parse_value_option; [|reflexivity|reflexivity|reflexivity|
    exact (apply_listen_print _ _ _ cv_host0 cv_port0)].
  do 9 take_option. rewrite parse_modes; [|lia|done|done].
  cbn -[u16]. rewrite !u16_id by (unfold is_u16; lia). by destruct c.
Qed.

Lemma gateway_config_parse_valid_witness :
  config_valid gateway_config_defaults /\
  (gateway_config_parse 20 gateway_config_defaults (print_args gateway_config_defaults)).2 = None.
Proof.
  split; [apply defaults_valid|].
  exact (f_equal snd (proj2 (proj2
    (gateway_config_parse_valid gateway_config_defaults [] defaults_valid)))).
Defined.
