(* ===== verification/Agent.v ===== *)
(** * The NanoKVM agent ([src/src/agent.c])

    The control thread (connection to the gateway, input, heartbeat) and the video
    thread (capture, pacing, RTP).  The HID state of [struct Agent] is the state of
    [Hid]; the rest is the record below, next to the kernel.  The control thread's
    programs are those of [Hid]'s monad over both.  What is printed, and the clock
    reads that only serve a printed line, are left out. *)

From stdpp Require Import strings.
From S2P Require Import Prelude Protocol RtpH264 CString HidMap Hid.

Definition HEARTBEAT_INTERVAL_MS : Z := 1000.
Definition HEARTBEAT_TIMEOUT_MS : Z := 5000.
Definition CAPTURE_RETRY_SLEEP_NS : Z := 10000000.
Definition CAPTURE_DEINIT_GRACE_NS : Z := 600000000.
Definition CAPTURE_FAIL_LIMIT : Z := 50.
Definition CAPTURE_REINIT_LIMIT : Z := 3.
Definition EINPROGRESS : Z := 115.
Definition ENOBUFS : Z := 105.

Definition KVM_FRAME_SPS : Z := 1.
Definition KVM_FRAME_PPS : Z := 2.
Definition KVM_FRAME_IDR : Z := 3.
Definition KVM_FRAME_P : Z := 4.

(** [struct Agent] but for the HID state, and [stop_requested]. *)
Record Agent := MkAgent {
  a_width : Z;
  a_height : Z;
  a_bitrate : Z;
  a_control_port : Z;
  a_video_port : Z;
  control_fd : Z;
  video_fd : Z;
  video_address : Z;
  control_reader : bytes;
  input_events : Z;
  max_input_handler_ms : Z;
  last_input_log_at : Z;
  a_packetizer : RtpH264Packetizer;
  streaming : bool;
  wait_for_idr : bool;
  a_timestamp : Z;
  send_deadline_ms : Z;
  send_retries : Z;
  sent_packets : Z;
  dropped_packets : Z;
  capture_frames : Z;
  dropped_frames : Z;
  last_ping_at : Z;
  last_pong_at : Z;
  last_stats_at : Z;
  stop_requested : bool }.

Definition set_control (a : Agent) (fd : Z) : Agent :=
  MkAgent (a_width a) (a_height a) (a_bitrate a) (a_control_port a) (a_video_port a) fd
    (video_fd a) (video_address a) (control_reader a) (input_events a) (max_input_handler_ms
    a) (last_input_log_at a) (a_packetizer a) (streaming a) (wait_for_idr a) (a_timestamp a)
    (send_deadline_ms a) (send_retries a) (sent_packets a) (dropped_packets a) (capture_frames
    a) (dropped_frames a) (last_ping_at a) (last_pong_at a) (last_stats_at a) (stop_requested
    a).
Definition set_reader (a : Agent) (r : bytes) : Agent :=
  MkAgent (a_width a) (a_height a) (a_bitrate a) (a_control_port a) (a_video_port a)
    (control_fd a) (video_fd a) (video_address a) r (input_events a) (max_input_handler_ms a)
    (last_input_log_at a) (a_packetizer a) (streaming a) (wait_for_idr a) (a_timestamp a)
    (send_deadline_ms a) (send_retries a) (sent_packets a) (dropped_packets a) (capture_frames
    a) (dropped_frames a) (last_ping_at a) (last_pong_at a) (last_stats_at a) (stop_requested
    a).
Definition set_address (a : Agent) (x : Z) : Agent :=
  MkAgent (a_width a) (a_height a) (a_bitrate a) (a_control_port a) (a_video_port a)
    (control_fd a) (video_fd a) x [] (input_events a) (max_input_handler_ms a)
    (last_input_log_at a) (a_packetizer a) (streaming a) (wait_for_idr a) (a_timestamp a)
    (send_deadline_ms a) (send_retries a) (sent_packets a) (dropped_packets a) (capture_frames
    a) (dropped_frames a) (last_ping_at a) (last_pong_at a) (last_stats_at a) (stop_requested
    a).
Definition set_times (a : Agent) (ping pong stats : Z) : Agent :=
  MkAgent (a_width a) (a_height a) (a_bitrate a) (a_control_port a) (a_video_port a)
    (control_fd a) (video_fd a) (video_address a) (control_reader a) (input_events a)
    (max_input_handler_ms a) (last_input_log_at a) (a_packetizer a) (streaming a)
    (wait_for_idr a) (a_timestamp a) (send_deadline_ms a) (send_retries a) (sent_packets a)
    (dropped_packets a) (capture_frames a) (dropped_frames a) ping pong stats (stop_requested
    a).
Definition set_input (a : Agent) (n ms : Z) : Agent :=
  MkAgent (a_width a) (a_height a) (a_bitrate a) (a_control_port a) (a_video_port a)
    (control_fd a) (video_fd a) (video_address a) (control_reader a) n ms (last_input_log_at
    a) (a_packetizer a) (streaming a) (wait_for_idr a) (a_timestamp a) (send_deadline_ms a)
    (send_retries a) (sent_packets a) (dropped_packets a) (capture_frames a) (dropped_frames
    a) (last_ping_at a) (last_pong_at a) (last_stats_at a) (stop_requested a).
Definition set_input_log (a : Agent) (now : Z) : Agent :=
  MkAgent (a_width a) (a_height a) (a_bitrate a) (a_control_port a) (a_video_port a)
    (control_fd a) (video_fd a) (video_address a) (control_reader a) (input_events a) 0 now
    (a_packetizer a) (streaming a) (wait_for_idr a) (a_timestamp a) (send_deadline_ms a)
    (send_retries a) (sent_packets a) (dropped_packets a) (capture_frames a) (dropped_frames
    a) (last_ping_at a) (last_pong_at a) (last_stats_at a) (stop_requested a).
Definition set_flags (a : Agent) (stream wait : bool) : Agent :=
  MkAgent (a_width a) (a_height a) (a_bitrate a) (a_control_port a) (a_video_port a)
    (control_fd a) (video_fd a) (video_address a) (control_reader a) (input_events a)
    (max_input_handler_ms a) (last_input_log_at a) (a_packetizer a) stream wait (a_timestamp
    a) (send_deadline_ms a) (send_retries a) (sent_packets a) (dropped_packets a)
    (capture_frames a) (dropped_frames a) (last_ping_at a) (last_pong_at a) (last_stats_at a)
    (stop_requested a).
Definition set_packetizer (a : Agent) (pk : RtpH264Packetizer) : Agent :=
  MkAgent (a_width a) (a_height a) (a_bitrate a) (a_control_port a) (a_video_port a)
    (control_fd a) (video_fd a) (video_address a) (control_reader a) (input_events a)
    (max_input_handler_ms a) (last_input_log_at a) pk (streaming a) (wait_for_idr a)
    (a_timestamp a) (send_deadline_ms a) (send_retries a) (sent_packets a) (dropped_packets a)
    (capture_frames a) (dropped_frames a) (last_ping_at a) (last_pong_at a) (last_stats_at a)
    (stop_requested a).
Definition set_timestamp (a : Agent) (ts : Z) : Agent :=
  MkAgent (a_width a) (a_height a) (a_bitrate a) (a_control_port a) (a_video_port a)
    (control_fd a) (video_fd a) (video_address a) (control_reader a) (input_events a)
    (max_input_handler_ms a) (last_input_log_at a) (a_packetizer a) (streaming a)
    (wait_for_idr a) ts (send_deadline_ms a) (send_retries a) (sent_packets a)
    (dropped_packets a) (capture_frames a) (dropped_frames a) (last_ping_at a) (last_pong_at
    a) (last_stats_at a) (stop_requested a).
Definition set_sending (a : Agent) (deadline retries : Z) : Agent :=
  MkAgent (a_width a) (a_height a) (a_bitrate a) (a_control_port a) (a_video_port a)
    (control_fd a) (video_fd a) (video_address a) (control_reader a) (input_events a)
    (max_input_handler_ms a) (last_input_log_at a) (a_packetizer a) (streaming a)
    (wait_for_idr a) (a_timestamp a) deadline retries (sent_packets a) (dropped_packets a)
    (capture_frames a) (dropped_frames a) (last_ping_at a) (last_pong_at a) (last_stats_at a)
    (stop_requested a).
Definition set_counters (a : Agent) (sp dp cf df : Z) : Agent :=
  MkAgent (a_width a) (a_height a) (a_bitrate a) (a_control_port a) (a_video_port a)
    (control_fd a) (video_fd a) (video_address a) (control_reader a) (input_events a)
    (max_input_handler_ms a) (last_input_log_at a) (a_packetizer a) (streaming a)
    (wait_for_idr a) (a_timestamp a) (send_deadline_ms a) (send_retries a) sp dp cf df
    (last_ping_at a) (last_pong_at a) (last_stats_at a) (stop_requested a).
Definition set_stop (a : Agent) : Agent :=
  MkAgent (a_width a) (a_height a) (a_bitrate a) (a_control_port a) (a_video_port a)
    (control_fd a) (video_fd a) (video_address a) (control_reader a) (input_events a)
    (max_input_handler_ms a) (last_input_log_at a) (a_packetizer a) (streaming a)
    (wait_for_idr a) (a_timestamp a) (send_deadline_ms a) (send_retries a) (sent_packets a)
    (dropped_packets a) (capture_frames a) (dropped_frames a) (last_ping_at a) (last_pong_at
    a) (last_stats_at a) true.

(** ** The kernel and the capture library *)

(** Stores of the control thread to the flags both threads share. *)
Inductive flag_store := StoreStreaming (b : bool) | StoreWait.

Class AgentOS (W : Type) := {
  agent_hid :: HidOS W;
  (** [protocol_send] on a descriptor. *)
  os_control_send : W -> Z -> NanokvmControlMessage -> bool * W;
  (** What the control socket has to read. *)
  os_incoming : W -> recv_script;
  os_set_incoming : W -> recv_script -> W;
  os_socket : W -> Z * W;
  os_resolve : W -> option Z * W;
  (** [fcntl(fd, F_SETFL, ...)]: non-blocking or blocking. *)
  os_nonblock : W -> Z -> bool -> Z * W;
  os_connect : W -> Z -> Z -> Z -> Z * W;
  (** [poll] for 250 ms, then no pending socket error. *)
  os_connected : W -> Z -> bool * W;
  os_sendto : W -> Z -> Z -> bytes -> Z * W;
  os_sleep : W -> Z -> W;
  (** [poll] over the control and HID descriptors: whether the control socket is
      ready. *)
  os_wait : W -> Z -> list (Z * bool) -> Z -> bool * W;
  (** libkvm: [kvm_ensure_loaded], [init], [read_image], [free_data]. *)
  kvm_ensure_loaded : W -> bool * W;
  kvm_init : W -> W;
  kvm_read_image : W -> Z -> Z -> Z -> (Z * option bytes) * W;
  kvm_free_data : W -> W;
  (** What the control thread stored since the video thread last looked, and
      whether a signal asked to stop. *)
  os_stores : W -> list flag_store * W;
  os_signalled : W -> bool * W }.

Section Agent.
Context {W : Type} {os : AgentOS W}.
(** Bounds on the signals that interrupt one report write, and on the retries of
    one RTP packet (the deadline is 40 ms and every retry sleeps 250 us). *)
Variables (interrupts attempts : nat).

(** ** The agent's own state *)

Definition SM (A : Type) : Type := Agent * W -> A * (Agent * W).
Definition sret {A} (a : A) : SM A := fun s => (a, s).
Definition sbind {A B} (m : SM A) (k : A -> SM B) : SM B := fun s => let '(a, s') := m s in k a s'.
Definition aget {A} (f : Agent -> A) : SM A := fun s => (f s.1, s).
Definition amodify (f : Agent -> Agent) : SM unit := fun s => (tt, (f s.1, s.2)).
Definition kernel {A} (f : W -> A * W) : SM A := fun s => let '(a, w) := f s.2 in (a, (s.1, w)).
Definition kernel_ (f : W -> W) : SM unit := fun s => (tt, (s.1, f s.2)).

Local Notation "'let!' x ':=' m 'in' k" := (sbind m (fun x => k))
  (at level 100, x name, m at level 100, k at level 200, right associativity).
Local Notation "m >>> k" := (sbind m (fun _ => k))
  (at level 100, k at level 200, right associativity).

Definition monotonic_milliseconds : SM Z := kernel os_now.

(** [protocol_send(agent->control_fd, ...)] *)
Definition control_send (t : NanokvmControlType) (payload : bytes) : SM bool :=
  let! fd := aget control_fd in
  kernel (fun w => os_control_send w fd (Message (control_code t) payload)).

Definition send_stats : SM bool :=
  let! payload := aget (fun a =>
    protocol_write_u32 (sent_packets a) ++ protocol_write_u32 (dropped_packets a) ++
    protocol_write_u32 (capture_frames a) ++ protocol_write_u32 (dropped_frames a)) in
  control_send CONTROL_STATS payload.

Definition hello_payload (a : Agent) : bytes :=
  protocol_write_u16 (a_width a) ++ protocol_write_u16 (a_height a) ++
  protocol_write_u16 (a_video_port a) ++
  protocol_write_u16 (Z.of_nat RTP_H264_DEFAULT_MTU) ++ [NANOKVM_AGENT_CAPABILITY_KEY_ACK].

Definition close_and_fail (fd : Z) : SM bool := kernel_ (fun w => os_close w fd) >>> sret false.

Definition connect_control : SM bool :=
  let! fd := kernel os_socket in
  if fd <? 0 then sret false
  else
    let! address := kernel os_resolve in
    match address with
    | None => close_and_fail fd
    | Some address =>
        let! nonblock := kernel (fun w => os_nonblock w fd true) in
        if nonblock <? 0 then close_and_fail fd
        else
          let! port := aget a_control_port in
          let! connected := kernel (fun w => os_connect w fd address port) in
          let! e := kernel (fun w => (os_errno w, w)) in
          let! up := (if (connected <? 0) && (e =? EINPROGRESS)
                      then kernel (fun w => os_connected w fd)
                      else sret (0 <=? connected)) in
          if negb up then close_and_fail fd
          else
            let! blocking := kernel (fun w => os_nonblock w fd false) in
            if blocking <? 0 then close_and_fail fd
            else
              amodify (fun a => set_address a address) >>>
              let! hello := aget hello_payload in
              let! sent := kernel (fun w => os_control_send w fd
                                     (Message (control_code CONTROL_HELLO) hello)) in
              if negb sent then close_and_fail fd
              else
                amodify (fun a => set_control a fd) >>>
                let! now := monotonic_milliseconds in
                amodify (fun a => set_times a now now now) >>>
                sret true
    end.

(** ** Control thread *)

(** HID operations over the kernel and the rest of the agent. *)
#[local] Instance agent_kernel : HidOS (Agent * W) := {
  os_now s := let '(x, w) := os_now s.2 in (x, (s.1, w));
  os_open s path := let '(x, w) := os_open s.2 path in (x, (s.1, w));
  os_open_read s path := let '(x, w) := os_open_read s.2 path in (x, (s.1, w));
  os_fstat s fd := let '(x, w) := os_fstat s.2 fd in (x, (s.1, w));
  os_poll s fd := let '(x, w) := os_poll s.2 fd in (x, (s.1, w));
  os_write s fd report := let '(x, w) := os_write s.2 fd report in (x, (s.1, w));
  os_read s fd := let '(x, w) := os_read s.2 fd in (x, (s.1, w));
  os_close s fd := (s.1, os_close s.2 fd);
  os_errno s := os_errno s.2;
  os_set_errno s e := (s.1, os_set_errno s.2 e) }.

Abbreviation A := (M (W := Agent * W)).

Local Notation "'let*' x ':=' m 'in' k" := (bind m (fun x => k))
  (at level 100, x name, m at level 100, k at level 200, right associativity).
Local Notation "m ;; k" := (bind m (fun _ => k))
  (at level 100, k at level 200, right associativity).

Definition disconnect_control : A unit :=
  hid_release_all interrupts ;;
  let* fd := sys (aget control_fd) in
  (if 0 <=? fd then sys (kernel_ (fun w => os_close w fd)) else ret tt) ;;
  sys (amodify (fun a => set_flags (set_control a (-1)) false true)).

Definition payload_byte (m : NanokvmControlMessage) (i : nat) : Z := byte_at (msg_payload m) i.
Definition payload_u16 (m : NanokvmControlMessage) (i : nat) : Z :=
  protocol_read_u16 (drop i (msg_payload m)).

(** The key of a [CONTROL_KEY] message. *)
Definition control_key (m : NanokvmControlMessage) : A bool :=
  hid_scancode interrupts (payload_byte m 0) (negb (payload_byte m 1 =? 0))
    (negb (payload_byte m 2 =? 0)).

(** The switch of [handle_control]: whether the input was delivered. *)
Definition control_switch (m : NanokvmControlMessage) : A bool :=
  match control_type_of (msg_type m) with
  | Some CONTROL_START_STREAM =>
      sys (amodify (fun a => set_flags a true true)) ;; ret true
  | Some CONTROL_STOP_STREAM =>
      sys (amodify (fun a => set_flags a false (wait_for_idr a))) ;;
      hid_release_all interrupts ;; ret true
  | Some CONTROL_IDR_REQUEST =>
      sys (amodify (fun a => set_flags a (streaming a) true)) ;; ret true
  | Some CONTROL_KEY =>
      if (msg_length m =? NANOKVM_KEY_PAYLOAD_SIZE)%nat then control_key m
      else if (msg_length m =? NANOKVM_KEY_ACK_REQUEST_PAYLOAD_SIZE)%nat then
        let* succeeded := control_key m in
        let* _ := sys (control_send CONTROL_KEY_ACK
                         (take 4 (drop 3 (msg_payload m)) ++ [if succeeded then 1 else 0])) in
        ret succeeded
      else ret true
  | Some CONTROL_TEXT_UTF8 =>
      if (0 <? msg_length m)%nat then
        let* typed := hid_type_utf8 interrupts (msg_payload m) in
        (if typed then ret tt else hid_release_all interrupts) ;; ret true
      else ret true
  | Some CONTROL_POINTER_ABS =>
      if (msg_length m =? 12)%nat then
        hid_absolute interrupts (payload_u16 m 0) (payload_u16 m 2) (payload_u16 m 4)
          (payload_u16 m 6) (payload_u16 m 8)
      else ret true
  | Some CONTROL_POINTER_REL =>
      if (msg_length m =? 5)%nat then
        hid_relative interrupts (i16 (payload_u16 m 0)) (i16 (payload_u16 m 2)) (payload_byte m 4)
      else ret true
  | Some CONTROL_WHEEL =>
      if (msg_length m =? 2)%nat then hid_wheel interrupts (payload_u16 m 0) else ret true
  | Some CONTROL_RELEASE_ALL => hid_release_all interrupts ;; ret true
  | Some CONTROL_SYNCHRONIZE => hid_synchronize interrupts
  | Some CONTROL_PING => let* _ := sys (control_send CONTROL_PONG []) in ret true
  | Some CONTROL_PONG =>
      let* now := sys monotonic_milliseconds in
      sys (amodify (fun a => set_times a (last_ping_at a) now (last_stats_at a))) ;; ret true
  | _ => ret true
  end.

Definition is_input (type : Z) : bool :=
  ((control_code CONTROL_KEY <=? type) && (type <=? control_code CONTROL_RELEASE_ALL)) ||
  (type =? control_code CONTROL_TEXT_UTF8) || (type =? control_code CONTROL_SYNCHRONIZE).

(** The statistics of one handled input. *)
Definition count_input (started : Z) : SM unit :=
  amodify (fun a => set_input a (u64 (input_events a + 1)) (max_input_handler_ms a)) >>>
  let! now := monotonic_milliseconds in
  amodify (fun a => set_input a (input_events a)
                      (Z.max (max_input_handler_ms a) (u64 (now - started)))).

Definition handle_control (m : NanokvmControlMessage) : A unit :=
  let* started := sys monotonic_milliseconds in
  let* succeeded := control_switch m in
  (if succeeded then ret tt else hid_release_all interrupts) ;;
  if is_input (msg_type m) then sys (count_input started) else ret tt.

(** The batch of at most [n] messages one round of the main loop handles.
    [protocol_receive_available] always returns; the [None] case stands for
    no message. *)
Fixpoint control_batch (n : nat) : A unit :=
  match n with
  | O => ret tt
  | S n =>
      let* result := sys (fun s =>
        match protocol_receive_available (control_reader s.1) (os_incoming s.2) with
        | Some (r, reader, rest) => (r, (set_reader s.1 reader, os_set_incoming s.2 rest))
        | None => (Partial, s)
        end) in
      match result with
      | Broken => disconnect_control
      | Partial => ret tt
      | Available m => handle_control m ;; control_batch n
      end
  end.

(** Heartbeat and statistics at the end of a round. *)
Definition control_heartbeat (now : Z) : A unit :=
  let* a := sys (aget (fun a => a)) in
  if control_fd a <? 0 then ret tt
  else
    let due := HEARTBEAT_INTERVAL_MS <=? u64 (now - last_ping_at a) in
    let* lost :=
      if HEARTBEAT_TIMEOUT_MS <? u64 (now - last_pong_at a) then ret true
      else if due then let* sent := sys (control_send CONTROL_PING []) in ret (negb sent)
      else ret false in
    if lost then disconnect_control
    else
      (if due then sys (amodify (fun a => set_times a now (last_pong_at a) (last_stats_at a)))
       else ret tt) ;;
      if HEARTBEAT_INTERVAL_MS <=? u64 (now - last_stats_at a) then
        let* sent := sys send_stats in
        if negb sent then disconnect_control
        else sys (amodify (fun a => set_times a (last_ping_at a) (last_pong_at a) now))
      else ret tt.

(** One round of the main loop; the argument and result are [reconnect_at]. *)
Definition agent_round (reconnect_at : Z) : A Z :=
  let* flushed := hid_flush interrupts in
  let* alive := (if flushed then let* now := sys monotonic_milliseconds in hid_keepalive interrupts now
                 else ret false) in
  (if alive then ret tt else hid_release_all interrupts) ;;
  let* now := sys monotonic_milliseconds in
  let* fd := sys (aget control_fd) in
  let* reconnect_at :=
    (if (fd <? 0) && (reconnect_at <=? now) then
       let* _ := sys connect_control in
       let* now := sys monotonic_milliseconds in
       ret (u64 (now + 1000))
     else ret reconnect_at) in
  let* fd := sys (aget control_fd) in
  let* pollfds := hid_pollfds in
  let* timeout := hid_poll_timeout 20 in
  let* ready := sys (kernel (fun w => os_wait w fd pollfds timeout)) in
  (if ready && (0 <=? fd) then control_batch 32 else ret tt) ;;
  let* now := sys monotonic_milliseconds in
  let* last := sys (aget last_input_log_at) in
  (if 5000 <=? u64 (now - last) then
     modify (fun h => set_max_queue_age_ms h 0) ;;
     sys (amodify (fun a => set_input_log a now))
   else ret tt) ;;
  control_heartbeat now ;;
  ret reconnect_at.

(** ** Video thread *)

(** What the video thread sees or does that matters to the stream. *)
Inductive video_event :=
| VRequest                     (** the control thread asked for an IDR *)
| VCaptured (kind : Z)
| VSent (kind : Z) (ok : bool) (** handed to the packetizer *)
| VFailed.                     (** the capture failed *)

(** The stores of the control thread become visible. *)
Definition apply_store (a : Agent) (s : flag_store) : Agent :=
  match s with
  | StoreStreaming b => set_flags a b (wait_for_idr a)
  | StoreWait => set_flags a (streaming a) true
  end.
Definition store_events (l : list flag_store) : list video_event :=
  omap (fun s => match s with StoreWait => Some VRequest | StoreStreaming _ => None end) l.

(** An atomic load of the shared flags. *)
Definition load_flags {A} (f : Agent -> A) : SM (A * list video_event) :=
  let! stores := kernel os_stores in
  amodify (fun a => fold_left apply_store stores a) >>>
  let! x := aget f in
  sret (x, store_events stores).

Definition stopping : SM bool :=
  let! signalled := kernel os_signalled in
  (if signalled then amodify set_stop else sret tt) >>>
  aget stop_requested.

Definition add_sent (a : Agent) : Agent :=
  set_counters a (u32 (sent_packets a + 1)) (dropped_packets a) (capture_frames a) (dropped_frames a).
Definition add_dropped_packet (a : Agent) : Agent :=
  set_counters a (sent_packets a) (u32 (dropped_packets a + 1)) (capture_frames a) (dropped_frames a).
Definition add_captured (a : Agent) : Agent :=
  set_counters a (sent_packets a) (dropped_packets a) (u32 (capture_frames a + 1)) (dropped_frames a).
Definition add_dropped_frame (a : Agent) : Agent :=
  set_counters a (sent_packets a) (dropped_packets a) (capture_frames a) (u32 (dropped_frames a + 1)).

(** The retry loop of [send_packet]. *)
Fixpoint send_packet_loop (fuel : nat) (packet : bytes) : SM bool :=
  let! fd := aget video_fd in
  let! address := aget video_address in
  let! result := kernel (fun w => os_sendto w fd address packet) in
  if result =? Z.of_nat (length packet) then amodify add_sent >>> sret true
  else
    let! e := kernel (fun w => (os_errno w, w)) in
    let send_error := if result <? 0 then e else EIO in
    let! stop := stopping in
    let! now := (if stop then sret 0 else monotonic_milliseconds) in
    let! deadline := aget send_deadline_ms in
    if stop || (deadline <=? now) ||
       negb ((send_error =? EINTR) || (send_error =? EAGAIN) || (send_error =? ENOBUFS))
    then amodify add_dropped_packet >>> sret false
    else
      amodify (fun a => set_sending a (send_deadline_ms a) (u64 (send_retries a + 1))) >>>
      kernel_ (fun w => os_sleep w 250000) >>>
      match fuel with
      | O => amodify add_dropped_packet >>> sret false
      | S fuel => send_packet_loop fuel packet
      end.

(** The packetizer's callback. *)
Definition send_packet (s : Agent * W) (packet : bytes) : bool * (Agent * W) :=
  send_packet_loop attempts packet s.

(** [rtp_h264_packetize_access_unit(&agent->packetizer, ..., send_packet, agent)] *)
Definition packetize (data : bytes) : SM bool := fun s =>
  let '(ok, pk, s') :=
    rtp_h264_packetize_access_unit send_packet (a_packetizer s.1) data (a_timestamp s.1) s in
  (ok, (set_packetizer s'.1 pk, s'.2)).

(** Local variables of [video_loop]. *)
Record VideoLocals := MkLocals {
  capture_initialized : bool;
  capture_fail_count : Z;
  capture_reinit_count : Z }.

(** The failed capture of one iteration: [false] where the loop is left. *)
Definition capture_failed (v : VideoLocals) : SM (VideoLocals * bool) :=
  let fails := u32 (capture_fail_count v + 1) in
  let! step :=
    (if CAPTURE_FAIL_LIMIT <=? fails then
       let reinits := u32 (capture_reinit_count v + 1) in
       if CAPTURE_REINIT_LIMIT <? reinits
       then amodify set_stop >>> sret (MkLocals false fails reinits, false)
       else kernel_ (fun w => os_sleep w CAPTURE_DEINIT_GRACE_NS) >>>
            sret (MkLocals false 0 reinits, true)
     else sret (MkLocals (capture_initialized v) fails (capture_reinit_count v), true)) in
  (if step.2 then kernel_ (fun w => os_sleep w CAPTURE_RETRY_SLEEP_NS) else sret tt) >>>
  sret step.

(** Send a frame the gate let through, count one it did not. *)
Definition send_frame (kind : Z) (data : bytes) (pass : bool) : SM (list video_event) :=
  if pass then
    let! now := monotonic_milliseconds in
    amodify (fun a => set_sending a (u64 (now + 40)) (send_retries a)) >>>
    let! ok := packetize data in
    (if ok then sret tt
     else amodify (fun a => set_flags (add_dropped_frame a) (streaming a) true)) >>>
    sret [VSent kind ok]
  else
    (if kind =? KVM_FRAME_P then amodify add_dropped_frame else sret tt) >>> sret [].

(** A captured frame: gate it, send it, count it. *)
Definition frame_captured (kind : Z) (data : bytes) : SM (list video_event) :=
  (if kind =? KVM_FRAME_IDR then amodify (fun a => set_flags a (streaming a) false) else sret tt) >>>
  amodify add_captured >>>
  let! stream := load_flags streaming in
  let! gate :=
    (if negb stream.1 then sret (false, [])
     else if (kind =? KVM_FRAME_SPS) || (kind =? KVM_FRAME_PPS) || (kind =? KVM_FRAME_IDR)
     then sret (true, [])
     else
       let! wait := load_flags wait_for_idr in
       sret (negb wait.1 && (kind =? KVM_FRAME_P), wait.2)) in
  let! sent := send_frame kind data gate.1 in
  amodify (fun a => set_timestamp a (u32 (a_timestamp a + 9000))) >>>
  kernel_ kvm_free_data >>>
  sret ([VCaptured kind] ++ stream.2 ++ gate.2 ++ sent).

(** One iteration of [video_loop]: the locals, whether the loop goes on, and what
    happened. *)
Definition video_iteration (v : VideoLocals) : SM (VideoLocals * bool * list video_event) :=
  let! stop := stopping in
  if stop then sret (v, false, [])
  else
    let! stream := load_flags streaming in
    if negb stream.1 then
      kernel_ (fun w => os_sleep w CAPTURE_RETRY_SLEEP_NS) >>> sret (v, true, stream.2)
    else
      let! ready :=
        (if capture_initialized v then sret (v, true)
         else
           let! loaded := kernel kvm_ensure_loaded in
           if negb loaded
           then kernel_ (fun w => os_sleep w 1000000000) >>>
                sret (MkLocals false 0 (capture_reinit_count v), false)
           else kernel_ kvm_init >>> sret (MkLocals true 0 (capture_reinit_count v), true)) in
      if negb ready.2 then sret (ready.1, true, stream.2)
      else
        let v := ready.1 in
        let! a := aget (fun a => a) in
        let! image := kernel (fun w => kvm_read_image w (a_width a) (a_height a) (a_bitrate a)) in
        match image with
        | (kind, Some (b :: data)) =>
            if kind <? 0 then
              kernel_ kvm_free_data >>>
              let! step := capture_failed v in
              sret (step.1, step.2, stream.2 ++ [VFailed])
            else
              let! events := frame_captured kind (b :: data) in
              sret (MkLocals (capture_initialized v) 0 0, true, stream.2 ++ events)
        | (_, data) =>
            (match data with Some _ => kernel_ kvm_free_data | None => sret tt end) >>>
            let! step := capture_failed v in
            sret (step.1, step.2, stream.2 ++ [VFailed])
        end.

(** [video_loop] for at most [n] iterations, with everything that happened. *)
Fixpoint video_loop (n : nat) (v : VideoLocals) : SM (VideoLocals * bool * list video_event) :=
  match n with
  | O => sret (v, true, [])
  | S n =>
      let! r := video_iteration v in
      if r.1.2 then
        let! r' := video_loop n r.1.1 in sret (r'.1.1, r'.1.2, r.2 ++ r'.2)
      else sret (MkLocals false (capture_fail_count r.1.1) (capture_reinit_count r.1.1), false, r.2)
  end.
End Agent.
