(* ===== verification/AgentSpec.v ===== *)
(** * What the agent's video thread promises

    It hands dependent frames to the packetizer only behind an IDR, and gives up
    after a fixed number of failed captures in a row. *)

From stdpp Require Import strings.
From S2P Require Import Prelude Protocol RtpH264 CString HidMap Hid Agent.

(** ** Programs of the video thread *)

Section Video.
Context {W : Type} {os : AgentOS W}.
Variable attempts : nat.

(** From agent states in [P], [m] returns into [Q]; the kernel does as it likes. *)
Definition triple {A} (P : Agent -> Prop) (m : SM (W := W) A) (Q : A -> Agent -> Prop) : Prop :=
  forall s, P s.1 -> Q (m s).1 (m s).2.1.

Lemma triple_ret {A} (x : A) (P : Agent -> Prop) (Q : A -> Agent -> Prop) :
  (forall a, P a -> Q x a) -> triple P (sret x) Q.
Proof. intros H s. apply H. Qed.

Lemma triple_bind {A B} (m : SM A) (k : A -> SM B) P R Q :
  triple P m R -> (forall x, triple (R x) (k x) Q) -> triple P (sbind m k) Q.
Proof.
  intros Hm Hk s Hs. unfold sbind. specialize (Hm s Hs). destruct (m s) as [x s1].
  by apply (Hk x s1).
Qed.

Lemma triple_weaken {A} (m : SM A) (P P' : Agent -> Prop) (Q Q' : A -> Agent -> Prop) :
  triple P m Q -> (forall a, P' a -> P a) -> (forall x a, Q x a -> Q' x a) -> triple P' m Q'.
Proof. intros Hm HP HQ s Hs. by apply HQ, Hm, HP. Qed.

Lemma triple_get {A} (f : Agent -> A) (P : Agent -> Prop) :
  triple P (aget f) (fun x a => x = f a /\ P a).
Proof. by intros s Hs. Qed.

Lemma triple_modify f (P Q : Agent -> Prop) :
  (forall a, P a -> Q (f a)) -> triple P (amodify f) (fun _ => Q).
Proof. intros H s. apply H. Qed.

Lemma triple_kernel {A} (f : W -> A * W) (P : Agent -> Prop) : triple P (kernel f) (fun _ => P).
Proof. intros s Hs. unfold kernel. by destruct (f s.2). Qed.

Lemma triple_kernel_ (f : W -> W) (P : Agent -> Prop) : triple P (kernel_ f) (fun _ => P).
Proof. by intros s Hs. Qed.

(** Programs that leave [P] alone. *)
Lemma stable_bind {A B} (m : SM A) (k : A -> SM B) (P : Agent -> Prop) :
  triple P m (fun _ => P) -> (forall x, triple P (k x) (fun _ => P)) ->
  triple P (sbind m k) (fun _ => P).
Proof. apply triple_bind. Qed.

Lemma stable_get {A} (f : Agent -> A) (P : Agent -> Prop) : triple P (aget f) (fun _ => P).
Proof. by intros s Hs. Qed.
End Video.

#[export] Hint Resolve triple_kernel triple_kernel_ stable_get : kvm.

(** Walks down a program that keeps a predicate. *)
Ltac stable_step :=
  match goal with
  | |- triple _ (sbind _ _) _ => apply stable_bind; [|intros ?]
  | |- triple _ (sret _) _ => by apply triple_ret
  | |- triple _ (aget _) _ => apply stable_get
  | |- triple _ (kernel _) _ => apply triple_kernel
  | |- triple _ (kernel_ _) _ => apply triple_kernel_
  | |- triple _ monotonic_milliseconds _ => apply triple_kernel
  | |- triple _ (if ?b then _ else _) _ => destruct b
  | |- triple _ (match ?x with _ => _ end) _ => destruct x
  end.

(** ** Sending *)

(** A predicate the callback keeps is kept by the packetizer. *)
Section Packetizer.
Context {S : Type} (callback : S -> bytes -> bool * S) (P : S -> Prop).
Hypothesis callback_ok : forall s p, P s -> P (callback s p).2.

Lemma emit_packet_keeps pk payload marker ts s : P s -> P (emit_packet callback pk payload marker ts s).2.
Proof.
  intros Hs. unfold emit_packet. destruct (_ <? _)%nat; [done|].
  pose proof (callback_ok s (rtp_packet pk payload marker ts) Hs). by destruct (callback _ _).
Qed.

Lemma fragment_loop_keeps fuel nal limit ts marker : forall pk offset s,
  P s -> P (fragment_loop callback fuel pk nal offset limit ts marker s).2.
Proof.
  induction fuel as [|fuel IH]; intros pk offset s Hs; cbn [fragment_loop];
    destruct (_ <? _)%nat; try done.
  cbv zeta.
  match goal with |- context [emit_packet _ pk ?payload ?last _ _] =>
    pose proof (emit_packet_keeps pk payload last ts s Hs) as He end.
  destruct (emit_packet _ _ _ _ _ _) as [[ok pk'] s']. destruct ok; [by apply IH|done].
Qed.

Lemma packetize_marker_keeps pk nal ts marker s :
  P s -> P (rtp_h264_packetize_marker callback pk nal ts marker s).2.
Proof.
  intros Hs. unfold rtp_h264_packetize_marker. destruct (_ || _); [done|]. cbv zeta.
  destruct (_ <=? _)%nat; [by apply emit_packet_keeps|]. destruct (_ =? 0)%nat; [done|].
  by apply fragment_loop_keeps.
Qed.

Lemma access_unit_loop_keeps fuel data ts : forall pk offset sent s,
  P s -> P (access_unit_loop callback fuel pk data offset ts sent s).2.
Proof.
  induction fuel as [|fuel IH]; intros pk offset sent s Hs; cbn [access_unit_loop];
    destruct (_ <? _)%nat; try done.
  destruct (_ =? 0)%nat; [done|]. cbv zeta. set (next := default _ _).
  destruct (_ <? next)%nat; [|by apply IH].
  pose proof (packetize_marker_keeps pk
    (take (next - (offset + start_code_length data offset))
       (drop (offset + start_code_length data offset) data)) ts (next =? length data)%nat s Hs) as Hp.
  destruct (rtp_h264_packetize_marker _ _ _ _ _ _) as [[ok pk'] s'].
  destruct ok; [by apply IH|done].
Qed.

Lemma packetize_access_unit_keeps pk data ts s :
  P s -> P (rtp_h264_packetize_access_unit callback pk data ts s).2.
Proof.
  intros Hs. unfold rtp_h264_packetize_access_unit. destruct (_ =? 0)%nat; [done|].
  destruct (find_from _ _ _); [by apply access_unit_loop_keeps|by apply packetize_marker_keeps].
Qed.
End Packetizer.

Section Gate.
Context {W : Type} {os : AgentOS W}.
Variable attempts : nat.

(** No signal asks the agent to stop. *)
Definition quiet : Prop := forall w : W, (os_signalled w).1 = false.

(** [P] survives a stop request, or there is none. *)
Definition stop_safe (P : Agent -> Prop) : Prop := quiet \/ forall a, P a -> P (set_stop a).

Lemma stopping_stable (P : Agent -> Prop) : stop_safe P -> triple P (stopping (W := W)) (fun _ => P).
Proof.
  intros [Hq|Hs] s Ha; unfold stopping, sbind, kernel.
  - specialize (Hq s.2). destruct (os_signalled s.2) as [b w]. cbn in Hq. by subst.
  - destruct (os_signalled s.2) as [[] w]; cbn; auto.
Qed.

(** The fields that sending a packet leaves alone. *)
Lemma send_packet_loop_stable fuel packet (P : Agent -> Prop) :
  (forall a, P a -> P (add_sent a)) -> (forall a, P a -> P (add_dropped_packet a)) ->
  (forall a d r, P a -> P (set_sending a d r)) -> stop_safe P ->
  triple P (send_packet_loop (W := W) fuel packet) (fun _ => P).
Proof.
  intros Hs Hd Hr Ht. induction fuel as [|fuel IH]; cbn [send_packet_loop];
    repeat first [exact IH | by apply stopping_stable | stable_step | by apply triple_modify; auto].
Qed.

Lemma packetize_stable data (P : Agent -> Prop) :
  (forall a, P a -> P (add_sent a)) -> (forall a, P a -> P (add_dropped_packet a)) ->
  (forall a d r, P a -> P (set_sending a d r)) ->
  (forall a pk, P a -> P (set_packetizer a pk)) -> stop_safe P ->
  triple P (packetize (W := W) attempts data) (fun _ => P).
Proof.
  intros Hs Hd Hr Hp Ht s Ha. unfold packetize.
  pose proof (packetize_access_unit_keeps (send_packet attempts) (fun s => P s.1)) as Hk.
  specialize (Hk ltac:(intros s' p Hs'; by apply (send_packet_loop_stable attempts p P))
                (a_packetizer s.1) data (a_timestamp s.1) s Ha).
  destruct (rtp_h264_packetize_access_unit _ _ _ _ _) as [[ok pk] s']. cbn in *. by apply Hp.
Qed.

(** ** The gate *)

(** An IDR was captured, and since then no unit failed and none was asked for. *)
Definition armed_step (b : bool) (e : video_event) : bool :=
  match e with
  | VRequest => false
  | VCaptured kind => (kind =? KVM_FRAME_IDR) || b
  | VSent _ ok => b && ok
  | VFailed => b
  end.
Definition armed (t : list video_event) : bool := fold_left armed_step t false.

Lemma armed_app t t' : armed (t ++ t') = fold_left armed_step t' (armed t).
Proof. apply fold_left_app. Qed.

(** Behind [t], every dependent frame of [l] was sent behind an IDR. *)
Definition gated (t l : list video_event) : Prop :=
  forall pre ok post, l = pre ++ VSent KVM_FRAME_P ok :: post -> armed (t ++ pre) = true.

Lemma gated_app t l l' : gated t l -> gated (t ++ l) l' -> gated t (l ++ l').
Proof.
  intros Hl Hl' pre ok post E. apply app_eq_app in E as (m & [[-> E]|[-> E]]).
  - destruct m as [|e m]; cbn in E.
    + pose proof (Hl' [] ok post (eq_sym E)) as Hx. by rewrite !app_nil_r in Hx.
    + injection E as E _. by eapply (Hl pre ok m); rewrite E.
  - rewrite app_assoc. by eapply Hl'.
Qed.

Lemma gated_nil t : gated t [].
Proof. by intros [] ? ?. Qed.

Lemma gated_one t e : (forall ok, e = VSent KVM_FRAME_P ok -> armed t = true) -> gated t [e].
Proof.
  intros He pre ok post E. destruct pre as [|x pre]; [|by destruct pre].
  injection E as -> _. rewrite app_nil_r. by eapply He.
Qed.

(** The flag says so. *)
Definition flag_ok (t : list video_event) (a : Agent) : Prop :=
  wait_for_idr a = false -> armed t = true.

Lemma stores_flag stores : forall a t,
  flag_ok t a -> flag_ok (t ++ store_events stores) (fold_left apply_store stores a).
Proof.
  induction stores as [|st stores IH]; intros a t Ha; cbn [fold_left]; [by rewrite app_nil_r|].
  destruct st as [b|].
  - by apply (IH (apply_store a (StoreStreaming b)) t).
  - change (store_events (StoreWait :: stores)) with ([VRequest] ++ store_events stores).
    rewrite app_assoc. by apply IH.
Qed.

Lemma gated_stores t stores : gated t (store_events stores).
Proof.
  intros pre ok post E. assert (Hin : VSent KVM_FRAME_P ok ∈ store_events stores)
    by (rewrite E; apply elem_of_app; right; left).
  apply list_elem_of_omap in Hin as ([] & _ & [=]).
Qed.

(** Where an iteration stands: the flag and the sends are right so far. *)
Definition gate_ok (t l : list video_event) (a : Agent) : Prop := flag_ok (t ++ l) a /\ gated t l.

Lemma load_flags_spec {A} (f : Agent -> A) t l :
  triple (gate_ok t l) (load_flags (W := W) f)
    (fun r a => r.1 = f a /\ gate_ok t (l ++ r.2) a).
Proof.
  intros s [Hs Hl]. unfold load_flags, sbind, kernel.
  destruct (os_stores s.2) as [stores w]. cbn. split; [done|]. split.
  - rewrite app_assoc. by apply stores_flag.
  - apply gated_app; [done|apply gated_stores].
Qed.

(** The flag is all that the gate looks at. *)
Lemma gate_ok_same t l a a' : wait_for_idr a' = wait_for_idr a -> gate_ok t l a -> gate_ok t l a'.
Proof. intros E [Hf Hg]. split; [|done]. unfold flag_ok. by rewrite E. Qed.

Lemma gate_modify t l f :
  (forall a, wait_for_idr (f a) = wait_for_idr a) ->
  triple (gate_ok t l) (amodify (W := W) f) (fun _ => gate_ok t l).
Proof. intros Hf. apply triple_modify. intros a. by apply gate_ok_same. Qed.

(** What the gate lets through. *)
Definition admitted (kind : Z) (t l : list video_event) (r : bool * list video_event) (a : Agent) : Prop :=
  gate_ok t (l ++ r.2) a /\ (r.1 = true -> kind = KVM_FRAME_P -> armed (t ++ l ++ r.2) = true).

Lemma send_admitted kind data t l r :
  triple (admitted kind t l r)
    (send_frame (W := W) attempts kind data r.1)
    (fun sent a => gate_ok t (l ++ r.2 ++ sent) a).
Proof.
  unfold send_frame. destruct r as [[] g]; cbn [fst snd].
  - apply (triple_bind _ _ _ (fun _ => admitted kind t l (true, g))); [apply triple_kernel|intros now].
    apply (triple_bind _ _ _ (fun _ => admitted kind t l (true, g))).
    { apply triple_modify. intros a [Hg Ha]. split; [by eapply gate_ok_same|done]. }
    intros _. apply (triple_bind _ _ _ (fun _ => admitted kind t l (true, g))).
    { apply packetize_stable; [| | | |right]; intros a **;
        (split; [eapply gate_ok_same; [reflexivity|]|]; apply H). }
    intros ok. apply (triple_bind _ _ _ (fun _ => gate_ok t (l ++ g ++ [VSent kind ok]))).
    + assert (Hgated : forall a, admitted kind t l (true, g) a -> gated t (l ++ g ++ [VSent kind ok])).
      { intros a [[_ Hg] Ha]. rewrite app_assoc. apply gated_app; [done|]. apply gated_one.
        intros ok' [= Ek _]. by apply Ha. }
      destruct ok.
      * apply triple_ret. intros a Ha. split; [|by eapply Hgated].
        destruct Ha as [[Hf _] _]. intros Hw. specialize (Hf Hw). cbn [snd] in Hf.
        rewrite !app_assoc in *. rewrite armed_app, Hf. done.
      * apply triple_modify. intros a Ha. split; [done|by eapply Hgated].
    + intros _. by apply triple_ret.
  - apply (triple_bind _ _ _ (fun _ => gate_ok t (l ++ g))).
    + destruct (kind =? KVM_FRAME_P).
      * apply triple_modify. intros a [Hg _]. by eapply gate_ok_same.
      * apply triple_ret. by intros a [Hg _].
    + intros _. apply triple_ret. by rewrite app_nil_r.
Qed.

Lemma frame_captured_gate kind data t l :
  triple (gate_ok t l) (frame_captured (W := W) attempts kind data)
    (fun evs a => gate_ok t (l ++ evs) a).
Proof.
  unfold frame_captured.
  apply (triple_bind _ _ _ (fun _ => gate_ok t (l ++ [VCaptured kind]))).
  { assert (Hg : forall a, gate_ok t l a -> gated t (l ++ [VCaptured kind])).
    { intros a [_ Hg]. apply gated_app; [done|]. by apply gated_one. }
    destruct (kind =? KVM_FRAME_IDR) eqn:Ek.
    - apply triple_modify. intros a Ha. split; [|by eapply Hg]. intros _.
      rewrite app_assoc, armed_app. cbn. by rewrite Ek.
    - apply triple_ret. intros a Ha. split; [|by eapply Hg]. intros Hw.
      rewrite app_assoc, armed_app. cbn. rewrite Ek. by apply Ha. }
  intros _. apply (triple_bind _ _ _ (fun _ => gate_ok t (l ++ [VCaptured kind]))); [by apply gate_modify|].
  intros _. eapply triple_bind; [apply load_flags_spec|]. intros stream. cbv beta.
  set (l1 := (l ++ [VCaptured kind]) ++ stream.2).
  apply (triple_bind _ _ _ (fun r => admitted kind t l1 r)).
  { destruct (negb stream.1).
    { apply triple_ret. intros a [_ Ha]. split; [by rewrite app_nil_r|done]. }
    destruct ((kind =? KVM_FRAME_SPS) || _ || _) eqn:Ek.
    { apply triple_ret. intros a [_ Ha]. split; [by rewrite app_nil_r|]. intros _ ->. done. }
    eapply triple_bind.
    { eapply triple_weaken; [apply (load_flags_spec wait_for_idr t l1)|by intros a [_ Ha]|done]. }
    intros wait. apply triple_ret. intros a [Hw Hg]. split; [done|]. intros Hadm _.
    apply andb_true_iff in Hadm as [Hadm _]. apply negb_true_iff in Hadm. apply Hg. congruence. }
  intros r. eapply triple_bind; [apply send_admitted|]. intros sent. cbv beta.
  eapply triple_bind; [by apply gate_modify|]. intros ?. cbv beta.
  eapply triple_bind; [apply triple_kernel_|]. intros ?. cbv beta.
  apply triple_ret. intros a. unfold l1. by rewrite <- !app_assoc.
Qed.

Lemma capture_failed_stable v (P : Agent -> Prop) :
  (forall a, P a -> P (set_stop a)) ->
  triple P (capture_failed (W := W) v) (fun _ => P).
Proof.
  intros Hs. unfold capture_failed. cbv zeta.
  repeat first [stable_step | by apply triple_modify; auto].
Qed.

Lemma gate_failed t l v :
  triple (gate_ok t l)
    (sbind (capture_failed (W := W) v) (fun step => sret (step.1, step.2, l ++ [VFailed])))
    (fun r a => gate_ok t r.2 a).
Proof.
  eapply triple_bind; [apply capture_failed_stable; intros a; by apply gate_ok_same|].
  intros step. apply triple_ret. intros a [Hf Hg]. cbn. split.
  - intros Hw. rewrite app_assoc, armed_app. cbn. by apply Hf.
  - apply gated_app; [done|]. by apply gated_one.
Qed.

Lemma video_iteration_gate t v :
  triple (gate_ok t []) (video_iteration (W := W) attempts v) (fun r a => gate_ok t r.2 a).
Proof.
  unfold video_iteration.
  eapply triple_bind; [apply stopping_stable; right; intros a; by apply gate_ok_same|].
  intros stop. cbv beta. destruct stop; [by apply triple_ret|].
  eapply triple_bind; [apply load_flags_spec|]. intros stream. cbv beta. cbn [app].
  destruct (negb stream.1).
  { eapply triple_bind; [apply triple_kernel_|]. intros ?. apply triple_ret. by intros a [_ Ha]. }
  apply (triple_bind _ _ _ (fun _ => gate_ok t stream.2)).
  { eapply (triple_weaken _ (gate_ok t stream.2) _ (fun _ => gate_ok t stream.2)); [|by intros a [_ Ha]|done].
    repeat stable_step. }
  intros ready. destruct (negb ready.2); [by apply triple_ret|].
  apply (triple_bind _ _ _ (fun _ => gate_ok t stream.2)); [apply stable_get|]. intros a0.
  apply (triple_bind _ _ _ (fun _ => gate_ok t stream.2)); [apply triple_kernel|].
  intros [kind [[|b data]|]].
  - eapply triple_bind; [apply triple_kernel_|]. intros ?. apply gate_failed.
  - destruct (kind <? 0); [eapply triple_bind; [apply triple_kernel_|]; intros ?; apply gate_failed|].
    eapply triple_bind; [apply frame_captured_gate|]. intros evs. by apply triple_ret.
  - apply (triple_bind _ _ _ (fun _ => gate_ok t stream.2)); [by apply triple_ret|]. intros ?. apply gate_failed.
Qed.

Lemma video_loop_gate n : forall t v,
  triple (gate_ok t []) (video_loop (W := W) attempts n v) (fun r a => gate_ok t r.2 a).
Proof.
  induction n as [|n IH]; intros t v; cbn [video_loop]; [by apply triple_ret|].
  eapply triple_bind; [apply video_iteration_gate|]. intros r. cbv beta.
  destruct r.1.2; [|by apply triple_ret].
  intros s [Hf Hg]. unfold sbind. pose proof (IH (t ++ r.2) r.1.1 s) as Hl.
  destruct (video_loop attempts n r.1.1 s) as [r' s']. cbn in *.
  destruct Hl as [Hf' Hg']; [split; [by rewrite app_nil_r|apply gated_nil]|]. split.
  - by rewrite app_assoc.
  - by apply gated_app.
Qed.

(** No request for an IDR and no unit that failed to go out. *)
Definition undisturbed (l : list video_event) : Prop :=
  Forall (fun e => e <> VRequest /\ forall kind, e <> VSent kind false) l.

(** [armed], read off the events. *)
Lemma armed_spec t :
  armed t = true <->
  exists pre post, t = pre ++ VCaptured KVM_FRAME_IDR :: post /\
    undisturbed post.
Proof.
  induction t as [|e t IH] using rev_ind.
  { split; [done|]. intros ([] & post & [=] & _). }
  rewrite armed_app. cbn [fold_left]. split.
  - intros Ha. assert (Hold : armed t = true -> e <> VRequest /\ (forall kind, e <> VSent kind false) ->
      exists pre post, t ++ [e] = pre ++ VCaptured KVM_FRAME_IDR :: post /\
        undisturbed post).
    { intros Ht He. apply IH in Ht as (pre & post & -> & Hp). exists pre, (post ++ [e]).
      rewrite <- app_assoc. split; [done|]. apply Forall_app. by split; [|constructor]. }
    destruct e as [|kind|kind ok|]; cbn in Ha; [done| | |by apply Hold].
    + apply orb_true_iff in Ha as [Hk|Ha]; [|by apply Hold]. apply Z.eqb_eq in Hk. subst.
      exists t, []. by split; [|constructor].
    + apply andb_true_iff in Ha as [Ha ->]. by apply Hold.
  - intros (pre & post & E & Hp). destruct post as [|x post _] using rev_ind.
    + apply app_inj_tail in E as [_ ->]. done.
    + rewrite app_comm_cons, app_assoc in E. apply app_inj_tail in E as [-> ->].
      apply Forall_app in Hp as [Hp Hx]. apply Forall_cons_iff in Hx as [[Hr Hs] _].
      assert (Ha : armed (pre ++ VCaptured KVM_FRAME_IDR :: post) = true).
      { apply IH. by exists pre, post. }
      rewrite Ha. destruct x as [|kind|kind ok|]; cbn; [done|apply orb_true_r| |done].
      destruct ok; [done|by destruct (Hs kind)].
Qed.

(** ** The watchdog *)

(** Failed captures since the last captured frame. *)
Definition failures (n : Z) (l : list video_event) : Z :=
  fold_left (fun n e => match e with VFailed => n + 1 | VCaptured _ => 0 | _ => n end) l n.

Lemma failures_app n l l' : failures n (l ++ l') = failures (failures n l) l'.
Proof. apply fold_left_app. Qed.

Lemma failures_stores n stores : failures n (store_events stores) = n.
Proof. induction stores as [|[] stores IH]; [done|exact IH|exact IH]. Qed.

(** The counters of the loop count the failures in a row. *)
Record watch (v : VideoLocals) (n : Z) : Prop := {
  w_fails : 0 <= capture_fail_count v < CAPTURE_FAIL_LIMIT;
  w_reinits : 0 <= capture_reinit_count v <= CAPTURE_REINIT_LIMIT;
  w_total : n = CAPTURE_FAIL_LIMIT * capture_reinit_count v + capture_fail_count v;
  w_idle : capture_initialized v = false -> capture_fail_count v = 0 }.

Lemma load_flags_events {A} (f : Agent -> A) (P : Agent -> Prop) :
  (forall a b w, P a -> P (set_flags a b w)) ->
  triple P (load_flags (W := W) f) (fun r a => P a /\ forall n, failures n r.2 = n).
Proof.
  intros HP s Hs. unfold load_flags, sbind, kernel. destruct (os_stores s.2) as [stores w]. cbn.
  split; [|intros n; apply failures_stores].
  revert Hs. generalize s.1. induction stores as [|[] stores IH]; intros a Ha; cbn; auto.
Qed.

Definition running (a : Agent) : Prop := stop_requested a = false.

Lemma send_frame_failures kind data pass :
  quiet ->
  triple running (send_frame (W := W) attempts kind data pass)
    (fun evs a => running a /\ failures 0 evs = 0).
Proof.
  intros Hq. unfold send_frame. destruct pass.
  - apply (triple_bind _ _ _ (fun _ => running)); [apply triple_kernel|]. intros now.
    apply (triple_bind _ _ _ (fun _ => running)); [by apply triple_modify|]. intros _.
    apply (triple_bind _ _ _ (fun _ => running)).
    { apply packetize_stable; [done..|by left]. }
    intros ok. apply (triple_bind _ _ _ (fun _ => running)).
    { destruct ok; [by apply triple_ret|by apply triple_modify]. }
    intros _. by apply triple_ret.
  - apply (triple_bind _ _ _ (fun _ => running)).
    { destruct (_ =? _); [by apply triple_modify|by apply triple_ret]. }
    intros _. by apply triple_ret.
Qed.

Lemma frame_captured_failures kind data :
  quiet ->
  triple running (frame_captured (W := W) attempts kind data)
    (fun evs a => running a /\ forall n, failures n evs = 0).
Proof.
  intros Hq. unfold frame_captured.
  apply (triple_bind _ _ _ (fun _ => running)).
  { destruct (_ =? _); [by apply triple_modify|by apply triple_ret]. }
  intros _. apply (triple_bind _ _ _ (fun _ => running)); [by apply triple_modify|].
  intros _. eapply triple_bind; [by apply load_flags_events|]. intros stream. cbv beta.
  apply (triple_bind _ _ _ (fun r a => running a /\ failures 0 (stream.2 ++ r.2) = 0)).
  { destruct (negb stream.1); [|destruct (_ || _)].
    1,2: apply triple_ret; intros a [Ha Hn]; split; [done|]; by rewrite app_nil_r.
    intros s [Ha Hn]. unfold sbind. pose proof (load_flags_events wait_for_idr running) as Hl.
    specialize (Hl ltac:(done) s Ha). destruct (load_flags wait_for_idr s) as [wait s'].
    destruct Hl as [Ha' Hn']. cbn in *. split; [done|]. by rewrite failures_app, Hn, Hn'. }
  intros r. apply (triple_bind _ _ _ (fun sent a => running a /\
    failures 0 (stream.2 ++ r.2 ++ sent) = 0)).
  { intros s [Ha Hn]. destruct (send_frame_failures kind data r.1 Hq s Ha) as [Ha' Hs].
    split; [done|]. by rewrite app_assoc, failures_app, Hn. }
  intros sent. apply (triple_bind _ _ _ (fun _ a => running a /\
    failures 0 (stream.2 ++ r.2 ++ sent) = 0)); [by apply triple_modify|intros ?].
  eapply triple_bind; [apply triple_kernel_|]. intros ?. cbv beta.
  apply triple_ret. intros a [Ha Hn]. split; [done|]. intros n. exact Hn.
Qed.

(** What an iteration that goes on, or gives up, says about the failures. *)
Definition watched (n : Z) (r : VideoLocals * bool * list video_event) (a : Agent) : Prop :=
  if r.1.2 then watch r.1.1 (failures n r.2) /\ running a
  else failures n r.2 = CAPTURE_FAIL_LIMIT * (CAPTURE_REINIT_LIMIT + 1).

Lemma capture_failed_watched v n l :
  watch v n -> (forall n, failures n l = n) -> capture_initialized v = true ->
  triple running
    (sbind (capture_failed (W := W) v) (fun step => sret (step.1, step.2, l ++ [VFailed])))
    (watched n).
Proof.
  intros [Hf Hr Ht Hi] Hl Hinit s Hs. unfold CAPTURE_FAIL_LIMIT, CAPTURE_REINIT_LIMIT in *.
  unfold capture_failed, watched, sbind, sret, CAPTURE_FAIL_LIMIT, CAPTURE_REINIT_LIMIT. cbv zeta.
  rewrite (u32_id (capture_fail_count v + 1)), (u32_id (capture_reinit_count v + 1)) by (unfold is_u32; lia).
  destruct (Z.leb_spec 50 (capture_fail_count v + 1)).
  - destruct (Z.ltb_spec 3 (capture_reinit_count v + 1)); cbn -[failures]; rewrite failures_app, Hl; cbn; [lia|].
    split; [|done]. split; cbn; unfold CAPTURE_FAIL_LIMIT, CAPTURE_REINIT_LIMIT; lia.
  - cbn -[failures]. rewrite failures_app, Hl; cbn. split; [|done].
    split; cbn; unfold CAPTURE_FAIL_LIMIT, CAPTURE_REINIT_LIMIT; try lia. by rewrite Hinit.
Qed.

Lemma video_iteration_watched v n :
  quiet -> watch v n -> triple running (video_iteration (W := W) attempts v) (watched n).
Proof.
  intros Hq Hw. unfold video_iteration.
  apply (triple_bind _ _ _ (fun stop a => stop = false /\ running a)).
  { intros s Hs. unfold stopping, sbind, kernel. specialize (Hq s.2).
    destruct (os_signalled s.2) as [b w]. cbn in Hq. by subst. }
  intros stop s [-> Hs]. revert s Hs. apply (triple_bind _ _ _
    (fun r a => running a /\ forall n, failures n r.2 = n)); [by apply load_flags_events|].
  intros [stream evs] s [Hs Hn]. cbn [fst snd] in *. revert s Hs.
  destruct (negb stream).
  { apply (triple_bind _ _ _ (fun _ => running)); [apply triple_kernel_|]. intros _. apply triple_ret.
    intros a Ha. split; [by rewrite Hn|done]. }
  apply (triple_bind _ _ _ (fun ready a => running a /\ watch ready.1 n /\
    (ready.2 = true -> capture_initialized ready.1 = true))).
  { assert (Hnew : forall b, watch (MkLocals b 0 (capture_reinit_count v)) n \/
                     capture_initialized v = true).
    { intros b. destruct (capture_initialized v) eqn:E; [by right|left].
      destruct Hw as [Hf Hr Ht Hi]. specialize (Hi E). split; cbn; auto; lia. }
    destruct (capture_initialized v) eqn:Ei; [by apply triple_ret|].
    apply (triple_bind _ _ _ (fun _ => running)); [apply triple_kernel|]. intros loaded.
    destruct (negb loaded); (apply (triple_bind _ _ _ (fun _ => running)); [apply triple_kernel_|]);
      intros _; apply triple_ret; intros a Ha; split_and!; auto.
    - by destruct (Hnew false).
    - by destruct (Hnew true). }
  intros [v' ok] s (Hs & Hv & Hok). cbn [fst snd] in *. revert s Hs. destruct ok; cbn [negb].
  2: { apply triple_ret. intros a Ha. split; [by rewrite Hn|done]. }
  specialize (Hok eq_refl).
  apply (triple_bind _ _ _ (fun _ => running)); [apply stable_get|]. intros a0.
  apply (triple_bind _ _ _ (fun _ => running)); [apply triple_kernel|].
  assert (Hfail : forall (m : SM (W := W) unit), triple running m (fun _ => running) ->
    triple running (sbind m (fun _ => sbind (capture_failed v')
      (fun step => sret (step.1, step.2, evs ++ [VFailed])))) (watched n)).
  { intros m Hm. apply (triple_bind _ _ _ (fun _ => running)); [done|]. intros _.
    by apply capture_failed_watched. }
  intros [kind [[|b data]|]].
  - apply Hfail, triple_kernel_.
  - destruct (kind <? 0); [apply Hfail, triple_kernel_|].
    eapply triple_bind; [by apply frame_captured_failures|]. intros fevs. apply triple_ret.
    intros a [Ha Hz]. split; [|done]. cbn -[failures]. rewrite failures_app, Hz.
    destruct Hv. split; cbn; unfold CAPTURE_FAIL_LIMIT, CAPTURE_REINIT_LIMIT; try lia.
  - apply Hfail. by apply triple_ret.
Qed.

Lemma video_loop_watched k : forall v n,
  quiet -> watch v n -> triple running (video_loop (W := W) attempts k v) (watched n).
Proof.
  induction k as [|k IH]; intros v n Hq Hw; cbn [video_loop]; [by apply triple_ret|].
  eapply triple_bind; [by apply video_iteration_watched|]. intros [[v' go] evs]. unfold watched at 1. cbn [fst snd].
  destruct go; [|by apply triple_ret].
  intros s [Hv Hs]. unfold sbind. pose proof (IH v' (failures n evs) Hq Hv s Hs) as Hk.
  destruct (video_loop attempts k v' s) as [[[v'' go'] evs'] s']. unfold watched in *. cbn -[failures] in *.
  destruct go'; by rewrite failures_app.
Qed.


(** C30: The capture watchdog: without a stop signal the loop ends exactly when
    200 captures in a row (50 failures, and 3 reinitializations that did not help)
    have failed; a captured frame starts the count again. *)
Theorem video_loop_watchdog n s :
  quiet -> stop_requested s.1 = false ->
  let r := (video_loop attempts n (MkLocals false 0 0) s).1 in
  if r.1.2 then 0 <= failures 0 r.2 < 200 else failures 0 r.2 = 200.
Proof.
  intros Hq Hs r.
  assert (Hw : watch (MkLocals false 0 0) 0) by (by split).
  pose proof (video_loop_watched n (MkLocals false 0 0) 0 Hq Hw s Hs) as H. fold r in H.
  unfold watched in H. destruct r.1.2; [|exact H]. destruct H as [[Hf Hr Ht _] _].
  unfold CAPTURE_FAIL_LIMIT, CAPTURE_REINIT_LIMIT in *. lia.
Qed.
End Gate.

(** ** A capture device for the witnesses *)

(** The world is the list of images still to come; nothing else happens. *)
#[export] Instance camera : AgentOS (list (Z * option bytes)) := {
  agent_hid := {| os_now w := (0, w); os_open w _ := (-1, w); os_open_read w _ := (-1, w);
    os_fstat w _ := (None, w); os_poll w _ := ((0, false), w); os_write w _ _ := (-1, w);
    os_read w _ := ((-1, 0), w); os_close w _ := w; os_errno _ := 0; os_set_errno w _ := w |};
  os_control_send w _ _ := (true, w);
  os_incoming _ := [];
  os_set_incoming w _ := w;
  os_socket w := (3, w);
  os_resolve w := (Some 0, w);
  os_nonblock w _ _ := (0, w);
  os_connect w _ _ _ := (0, w);
  os_connected w _ := (true, w);
  os_sendto w _ _ p := (Z.of_nat (length p), w);
  os_sleep w _ := w;
  os_wait w _ _ _ := (false, w);
  kvm_ensure_loaded w := (true, w);
  kvm_init w := w;
  kvm_read_image w _ _ _ := match w with [] => ((-1, None), []) | i :: w => (i, w) end;
  kvm_free_data w := w;
  os_stores w := ([], w);
  os_signalled w := (false, w) }.

Definition streaming_agent : Agent :=
  MkAgent 1920 1080 4000 3390 5004 3 4 0 [] 0 0 0 (rtp_h264_packetizer_init 1200 7) true true 1
    0 0 0 0 0 0 0 0 0 false.

Definition images : list (Z * option bytes) :=
  [(KVM_FRAME_P, Some [0; 0; 0; 1; 65]); (KVM_FRAME_IDR, Some [0; 0; 0; 1; 101]); (-1, None);
   (KVM_FRAME_P, Some [0; 0; 0; 1; 65])].


Lemma video_loop_watchdog_witness :
  let r := (video_loop (os := camera) 0 201 (MkLocals false 0 0) (streaming_agent, images)).1 in
  r.1.2 = true /\ 0 <= failures 0 r.2 < 200.
Proof.
  pose proof (video_loop_watchdog (os := camera) 0 201 (streaming_agent, images)
                (fun _ => eq_refl) eq_refl) as H. cbv zeta in *.
  assert (E : (video_loop (os := camera) 0 201 (MkLocals false 0 0)
                 (streaming_agent, images)).1.1.2 = true) by (vm_compute; reflexivity).
  rewrite E in H. split; [exact E|exact H].
Defined.

(** Four frames later the camera goes dark: the loop ends 200 failures later. *)
Example camera_dark :
  (video_loop (os := camera) 0 500 (MkLocals false 0 0) (streaming_agent, images)).1.1.2 = false.
Proof. vm_compute. reflexivity. Qed.
