(* ===== verification/AgentInput.v ===== *)
(** * From the gateway's input to the HID state

    The input router of the gateway and the control thread of the agent together:
    what is routed is what is delivered, and both ends agree on the modifiers and
    buttons that are down. *)

From stdpp Require Import strings.
From S2P Require Import Prelude Protocol CString HidMap Hid HidSpec InputRouter Agent AgentSpec.

(** ** Input events *)

(** The calls of the router that produce a message. *)
Inductive input_event :=
| InKey (code : Z) (extended release : bool)
| InText (code : Z)
| InSynchronize
| InReleaseAll
| InAbsolute (x y flags : Z) (wheel : bool)
| InRelative (dx dy flags : Z) (wheel : bool).

Definition route (r : InputRouter) (e : input_event) : option (InputRouter * InputRouterMessage) :=
  match e with
  | InKey code extended release => Some (input_router_keyboard r code extended release)
  | InText code => (fun m => (r, m)) <$> input_router_unicode code false
  | InSynchronize => Some (input_router_synchronize r)
  | InReleaseAll => Some (input_router_release_all r)
  | InAbsolute x y flags wheel => Some (input_router_absolute_pointer r x y flags wheel)
  | InRelative dx dy flags wheel => Some (input_router_relative_pointer r dx dy flags wheel)
  end.

(** Arguments within their C types. *)
Definition event_ok (e : input_event) : Prop :=
  match e with
  | InKey code _ _ => is_u8 code
  | InText code => is_u16 code
  | InSynchronize | InReleaseAll => True
  | InAbsolute x y flags _ => is_u16 x /\ is_u16 y /\ is_u16 flags
  | InRelative dx dy flags _ =>
      -32768 <= dx <= 32767 /\ -32768 <= dy <= 32767 /\ is_u16 flags
  end.

Definition router_ok (r : InputRouter) : Prop :=
  is_u16 (r_width r) /\ is_u16 (r_height r) /\ is_u8 (r_keyboard_modifiers r) /\
  0 <= r_pointer_buttons r < 32.

Section Delivery.
Context {W : Type} {os : AgentOS W}.
Variable interrupts : nat.
#[local] Existing Instance agent_kernel.

Local Abbreviation A := (M (W := Agent * W)).
Local Notation "'let*' x ':=' m 'in' k" := (bind m (fun x => k))
  (at level 100, x name, m at level 100, k at level 200, right associativity).
Local Notation "m ;; k" := (bind m (fun _ => k))
  (at level 100, k at level 200, right associativity).

(** The HID operation an event asks for, with the event's own arguments. *)
Definition hid_operation (r : InputRouter) (e : input_event) : A bool :=
  match e with
  | InKey code extended release =>
      let '(c, x) := hid_map_scancode code extended (r_swap_alt_command r) in
      hid_scancode interrupts c x release
  | InText code =>
      let* typed := hid_type_utf8 interrupts (default [] (utf8_encode code)) in
      (if typed then ret tt else hid_release_all interrupts) ;; ret true
  | InSynchronize => hid_synchronize interrupts
  | InReleaseAll => hid_release_all interrupts ;; ret true
  | InAbsolute x y flags wheel =>
      if wheel then hid_wheel interrupts flags
      else hid_absolute interrupts (hid_clamp_absolute x (r_width r))
             (hid_clamp_absolute y (r_height r)) (r_width r) (r_height r) flags
  | InRelative dx dy flags wheel =>
      if wheel then hid_wheel interrupts flags
      else hid_relative interrupts dx dy (hid_pointer_buttons (r_pointer_buttons r) flags)
  end.

(** One delivery: run the operation, release everything if it failed, count it. *)
Definition deliver (op : A bool) : A unit :=
  let* started := sys monotonic_milliseconds in
  let* ok := op in
  (if ok then ret tt else hid_release_all interrupts) ;;
  sys (count_input started).

(** ** What the wire carries *)

Lemma read_u16_at pre v l : is_u16 v -> protocol_read_u16 (drop (length pre) (pre ++ write_u16 v ++ l)) = v.
Proof. intros Hv. rewrite drop_app_length. by apply read_write_u16. Qed.

Lemma i16_u16 d : -32768 <= d <= 32767 -> i16 (u16 d) = d.
Proof. intros Hd. unfold i16, u16. destruct (Z.ltb_spec d 0); mlia. Qed.

Lemma clamp_u16 v d : is_u16 v -> is_u16 d -> is_u16 (hid_clamp_absolute v d).
Proof.
  intros Hv Hd. unfold hid_clamp_absolute. destruct (_ =? 0); [done|].
  destruct (_ <? _); [done|apply u16_range].
Qed.

Lemma bool_byte_zero b : negb (bool_byte b =? 0) = b.
Proof. by destruct b. Qed.

Lemma switch_delivers m op s :
  is_input (msg_type m) = true -> (forall s, control_switch interrupts m s = op s) ->
  handle_control interrupts m s = deliver op s.
Proof.
  intros Hi Hop. unfold handle_control, deliver, bind. rewrite Hi.
  destruct (sys monotonic_milliseconds s) as [started s1]. by rewrite Hop.
Qed.

Lemma key_switch code extended release swap s :
  let '(c, x) := hid_map_scancode code extended swap in
  control_switch interrupts
    (router_wire (fill_message CONTROL_KEY [c; bool_byte x; bool_byte release]
                    NANOKVM_KEY_PAYLOAD_SIZE)) s =
  hid_scancode interrupts c x release s.
Proof.
  destruct (hid_map_scancode code extended swap) as [c x].
  change (control_switch interrupts _ s) with
    (hid_scancode (os := agent_kernel) interrupts c (negb (bool_byte x =? 0))
       (negb (bool_byte release =? 0)) s).
  by rewrite !bool_byte_zero.
Qed.

Lemma wheel_switch flags s :
  is_u16 flags ->
  control_switch interrupts (router_wire (fill_message CONTROL_WHEEL (protocol_write_u16 flags) 2)) s =
  hid_wheel interrupts flags s.
Proof.
  intros Hf. change (control_switch interrupts _ s) with
    (hid_wheel (os := agent_kernel) interrupts (read_u16 (write_u16 flags)) s).
  rewrite <- (app_nil_r (write_u16 flags)). by rewrite read_write_u16.
Qed.

Lemma absolute_switch x y w h flags s :
  is_u16 x -> is_u16 y -> is_u16 w -> is_u16 h -> is_u16 flags ->
  control_switch interrupts
    (router_wire (fill_message CONTROL_POINTER_ABS
       (protocol_write_u16 x ++ protocol_write_u16 y ++ protocol_write_u16 w ++
        protocol_write_u16 h ++ protocol_write_u16 flags) 12)) s =
  hid_absolute interrupts x y w h flags s.
Proof.
  intros Hx Hy Hw Hh Hf. set (tail v l := write_u16 v ++ l).
  change (control_switch interrupts _ s) with
    (hid_absolute (os := agent_kernel) interrupts
       (read_u16 (tail x (tail y (tail w (tail h (tail flags [0; 0]))))))
       (read_u16 (tail y (tail w (tail h (tail flags [0; 0])))))
       (read_u16 (tail w (tail h (tail flags [0; 0]))))
       (read_u16 (tail h (tail flags [0; 0])))
       (read_u16 (tail flags [0; 0])) s).
  unfold tail. by rewrite !read_write_u16.
Qed.

Lemma relative_switch dx dy b s :
  -32768 <= dx <= 32767 -> -32768 <= dy <= 32767 ->
  control_switch interrupts
    (router_wire (fill_message CONTROL_POINTER_REL
       (protocol_write_u16 (u16 dx) ++ protocol_write_u16 (u16 dy) ++ [b]) 5)) s =
  hid_relative interrupts dx dy b s.
Proof.
  intros Hx Hy.
  change (control_switch interrupts _ s) with
    (hid_relative (os := agent_kernel) interrupts
       (i16 (read_u16 (write_u16 (u16 dx) ++ write_u16 (u16 dy) ++ [b])))
       (i16 (read_u16 (write_u16 (u16 dy) ++ [b]))) b s).
  rewrite !read_write_u16 by apply u16_range. by rewrite !i16_u16.
Qed.

Lemma text_switch code m s :
  is_u16 code -> input_router_unicode code false = Some m ->
  control_switch interrupts (router_wire m) s = hid_operation (input_router_init 0 0 false) (InText code) s.
Proof.
  intros Hc Hm. destruct (unicode_message code m Hc Hm) as (enc & He & Hne & ->).
  unfold hid_operation. rewrite He. destruct enc as [|b enc]; [done|]. reflexivity.
Qed.

(** Every routed event is switched to its operation. *)
Lemma routed_switch r e r' m s :
  router_ok r -> event_ok e -> route r e = Some (r', m) ->
  is_input (msg_type (router_wire m)) = true /\
  control_switch interrupts (router_wire m) s = hid_operation r e s.
Proof.
  intros (Hw & Hh & _ & _) He Hr.
  destruct e as [code extended release|code| | |x y flags wheel|dx dy flags wheel]; cbn [route] in Hr.
  - pose proof (key_switch code extended release (r_swap_alt_command r) s) as Hk.
    unfold input_router_keyboard in Hr. unfold hid_operation.
    destruct (hid_map_scancode code extended (r_swap_alt_command r)) as [c x].
    apply (inj Some), pair_eq in Hr as [_ <-]. split; [reflexivity|exact Hk].
  - destruct (input_router_unicode code false) as [m'|] eqn:Em; [|done].
    apply (inj Some), pair_eq in Hr as [_ <-]. split; [|by apply text_switch].
    destruct (unicode_message code m' He Em) as (enc & _ & _ & ->). reflexivity.
  - apply (inj Some), pair_eq in Hr as [_ <-]. split; [reflexivity|].
    change (control_switch interrupts _ s) with (hid_synchronize (os := agent_kernel) interrupts s).
    unfold hid_operation. reflexivity.
  - apply (inj Some), pair_eq in Hr as [_ <-]. split; [reflexivity|].
    change (control_switch interrupts _ s) with
      (bind (hid_release_all (os := agent_kernel) interrupts) (fun _ => ret true) s).
    unfold hid_operation. reflexivity.
  - destruct He as (Hx & Hy & Hf). unfold input_router_absolute_pointer in Hr. unfold hid_operation.
    destruct wheel; apply (inj Some), pair_eq in Hr as [_ <-].
    + split; [reflexivity|by apply wheel_switch].
    + split; [reflexivity|]. by apply absolute_switch; [apply clamp_u16..| | |].
  - destruct He as (Hx & Hy & Hf). unfold input_router_relative_pointer in Hr. unfold hid_operation.
    destruct wheel; apply (inj Some), pair_eq in Hr as [_ <-].
    + split; [reflexivity|by apply wheel_switch].
    + split; [reflexivity|]. by apply relative_switch.
Qed.

(** C17: What the gateway routes is what the agent does: for every event the
    router turns into a message, the agent that receives the message runs exactly
    the HID operation of the event, with the event's own arguments (scancode after
    the Alt/Command swap, clamped position and screen size, signed deltas with the
    router's button state, the text's UTF-8 bytes), releases everything if that
    fails, and counts one input. *)
Theorem routed_input_delivered r e r' m s :
  router_ok r -> event_ok e -> route r e = Some (r', m) ->
  handle_control interrupts (router_wire m) s = deliver (hid_operation r e) s.
Proof.
  intros Hr He Hm. apply switch_delivers.
  - by destruct (routed_switch r e r' m s Hr He Hm).
  - intros s'. by destruct (routed_switch r e r' m s' Hr He Hm).
Qed.

(** ** Both ends agree on what is held *)

Local Abbreviation st := (HidState * (Agent * W))%type.

Definition held (s : st) : Z * Z := (modifiers s.1, buttons s.1).

Lemma inputs_held (s s' : st) : inputs s'.1 = inputs s.1 -> held s' = held s.
Proof. intros [= Em _ _ _ _ _ Eb _ _ _ _ _ _]. unfold held. by rewrite Em, Eb. Qed.

Lemma queue_report_held id path data m d :
  keeps held (queue_report (os := agent_kernel) interrupts id path data m d).
Proof.
  eapply (keeps_weaken (apart id)); [|apply queue_report_apart].
  intros s s' E. apply inputs_held. exact (f_equal fst E).
Qed.

Lemma send_keyboard_held : keeps held (send_keyboard (os := agent_kernel) interrupts).
Proof. eapply keeps_weaken; [|apply send_keyboard_inputs]. apply inputs_held. Qed.

Lemma agent_write_held fd report :
  keeps held (sys (fun w => os_write (HidOS := agent_kernel) w fd report)).
Proof. apply keeps_sys. by intros h w. Qed.

Lemma send_absolute_held motion' : keeps held (send_absolute (os := agent_kernel) interrupts motion').
Proof.
  unfold send_absolute, write_absolute_now.
  repeat first [apply queue_report_held | apply agent_write_held | keeps_step].
Qed.

Lemma send_relative_held dx dy w : keeps held (send_relative (os := agent_kernel) interrupts dx dy w).
Proof. unfold send_relative. repeat first [apply queue_report_held | keeps_step]. Qed.

Lemma relative_loop_held fuel : forall x y,
  keeps held (relative_loop (os := agent_kernel) interrupts fuel x y).
Proof.
  induction fuel as [|fuel IH]; intros x y; cbn [relative_loop];
    repeat first [apply IH | apply send_relative_held | keeps_step].
Qed.

Lemma hid_wheel_held flags : keeps held (hid_wheel (os := agent_kernel) interrupts flags).
Proof.
  unfold hid_wheel.
  repeat first [apply send_absolute_held | apply send_relative_held | keeps_step].
Qed.

(** Behind a program that keeps [held], it is as it was. *)
Lemma wp_held {B} (m : A B) (Q : B -> st -> Prop) s :
  keeps held m -> (forall x s', held s' = held s -> Q x s') -> wp m Q s.
Proof. apply wp_keeps. Qed.

Lemma hid_synchronize_held s :
  wp (hid_synchronize (os := agent_kernel) interrupts) (fun _ s' => held s' = (0, 0)) s.
Proof.
  unfold hid_synchronize, reset_keyboard_state.
  apply wp_bind, wp_modify, wp_bind, wp_modify, wp_bind, wp_modify, wp_bind, wp_held;
    [apply send_keyboard_held|]. intros ok s1 H1.
  apply wp_bind, wp_get, wp_bind, wp_held; [apply queue_report_held|]. intros ok2 s2 H2.
  apply wp_bind, wp_held; [apply send_absolute_held|]. intros ok3 s3 H3.
  apply wp_ret. by rewrite H3, H2, H1.
Qed.

Lemma hid_release_all_held s :
  wp (hid_release_all (os := agent_kernel) interrupts) (fun _ s' => held s' = (0, 0)) s.
Proof.
  unfold hid_release_all. apply wp_bind, wp_modify, wp_bind.
  eapply wp_mono; [apply hid_synchronize_held|]. intros ok s1 H1. by apply wp_ret.
Qed.

(** *** Modifiers *)

Definition press_modifier (mods m : Z) (release : bool) : Z :=
  if release then Z.land mods (Z.lxor 0xff m) else Z.lor mods m.

Definition modifier_check (m mods : Z) : bool :=
  (if Z.land mods m =? 0 then press_modifier mods m true =? mods else press_modifier mods m false =? mods)
  && (0 <=? press_modifier mods m true) && (press_modifier mods m true <? 256)
  && (0 <=? press_modifier mods m false) && (press_modifier mods m false <? 256).

(** A modifier bit, or no modifier at all. *)
Definition modifier_bit (m : Z) : Prop := m = 0 \/ exists i, (i < 8)%nat /\ m = Z.shiftl 1 (Z.of_nat i).

Lemma modifier_check_ok m mods : modifier_bit m -> is_u8 mods -> modifier_check m mods = true.
Proof.
  intros Hm Hu. revert mods Hu. apply byte_forallb. destruct Hm as [->|(i & Hi & ->)].
  - vm_compute. reflexivity.
  - do 8 (destruct i as [|i]; [vm_compute; reflexivity|]). lia.
Qed.

(** Pressing what is down, or releasing what is up, changes nothing. *)
Lemma press_again m mods release :
  modifier_bit m -> is_u8 mods -> negb (Z.land mods m =? 0) = negb release ->
  press_modifier mods m release = mods.
Proof.
  intros Hm Hu Hd. pose proof (modifier_check_ok m mods Hm Hu) as Hc. unfold modifier_check in Hc.
  bool_hyps. destruct (Z.land mods m =? 0), release; cbn in Hd; try done; by apply Z.eqb_eq.
Qed.

Lemma press_none mods release : is_u8 mods -> press_modifier mods 0 release = mods.
Proof.
  intros Hu. destruct release; [|apply Z.lor_0_r].
  apply press_again; [by left|done|]. by rewrite Z.land_0_r.
Qed.

Lemma press_range m mods release : modifier_bit m -> is_u8 mods -> is_u8 (press_modifier mods m release).
Proof.
  intros Hm Hu. pose proof (modifier_check_ok m mods Hm Hu) as Hc. unfold modifier_check in Hc.
  bool_hyps. unfold is_u8. destruct release; lia.
Qed.

Lemma hid_scancode_held code extended release s :
  is_u8 code -> is_u8 (modifiers s.1) ->
  wp (hid_scancode (os := agent_kernel) interrupts code extended release)
    (fun _ s' => held s' =
       (press_modifier (modifiers s.1) (match hid_translate_scancode code extended with
                                        | Some (_, m) => m | None => 0 end) release,
        buttons s.1)) s.
Proof.
  intros Hc Hm. unfold hid_scancode.
  destruct (hid_translate_scancode code extended) as [[u m]|] eqn:E.
  2: { apply wp_ret. unfold held. by rewrite press_none. }
  assert (Hbit : modifier_bit m).
  { apply translate_shape in E as (_ & [[-> _]|[_ Hi]]); [by left|by right|done]. }
  apply wp_bind, wp_get. destruct (Bool.eqb _ _) eqn:Ed.
  - apply wp_ret. apply eqb_prop in Ed. unfold held. destruct (Z.eqb_spec m 0) as [->|Hne].
    + by rewrite press_none.
    + by rewrite press_again.
  - apply wp_bind, wp_modify, wp_held; [apply send_keyboard_held|]. intros ok s' ->.
    unfold held. cbn [fst]. destruct (Z.eqb_spec m 0) as [->|Hne]; cbn [negb].
    + by rewrite press_none.
    + by destruct release.
Qed.

Lemma hid_absolute_held x y w h flags s :
  wp (hid_absolute (os := agent_kernel) interrupts x y w h flags)
    (fun _ s' => held s' = (modifiers s.1, hid_pointer_buttons (buttons s.1) flags)) s.
Proof.
  unfold hid_absolute. apply wp_bind, wp_get, wp_bind, wp_modify, wp_bind, wp_held;
    [apply send_absolute_held|]. intros ok s1 H1.
  destruct (negb ok); [by apply wp_ret|]. apply wp_bind, wp_get.
  destruct (_ =? 0); [by apply wp_ret|].
  apply wp_held; [apply send_relative_held|]. intros ok2 s2 H2. by rewrite H2, H1.
Qed.

Lemma hid_relative_held x y b s :
  wp (hid_relative (os := agent_kernel) interrupts x y b)
    (fun _ s' => held s' = (modifiers s.1, Z.land b HID_TOUCH_BUTTONS_MASK)) s.
Proof.
  unfold hid_relative. apply wp_bind, wp_get, wp_bind, wp_modify, wp_bind.
  eapply (wp_mono _ (fun _ s' => held s' = (modifiers s.1, Z.land b HID_TOUCH_BUTTONS_MASK))).
  { destruct (negb _); [|by apply wp_ret].
    apply wp_held; [apply send_absolute_held|]. by intros ok s1 ->. }
  intros ok s1 H1. destruct (negb ok); [by apply wp_ret|].
  destruct (_ && _); [destruct (_ =? 0); [by apply wp_ret|]|].
  - apply wp_held; [apply send_relative_held|]. by intros ok2 s2 ->.
  - apply wp_held; [apply relative_loop_held|]. by intros ok2 s2 ->.
Qed.

(** *** Buttons *)

Lemma pointer_button_range flags b i :
  (i < 5)%nat -> 0 <= b < 32 -> 0 <= pointer_button flags b i < 32.
Proof.
  intros Hi Hb. unfold pointer_button. destruct (flag flags _); [|done].
  assert (Hall : forall f : Z -> Z,
            forallb (fun b => (0 <=? f b) && (f b <? 32)) (seqZ 0 32) = true -> 0 <= f b < 32).
  { intros f Hf. pose proof (range_forallb _ 0 32 Hf b ltac:(lia)) as Hx. cbv beta in Hx.
    bool_hyps. lia. }
  destruct (flag flags PTR_FLAGS_DOWN).
  - apply (Hall (fun b => Z.lor b (u8 (Z.shiftl 1 (Z.of_nat i))))).
    do 5 (destruct i as [|i]; [vm_compute; reflexivity|]). lia.
  - apply (Hall (fun b => Z.land b (Z.lxor 0xff (u8 (Z.shiftl 1 (Z.of_nat i)))))).
    do 5 (destruct i as [|i]; [vm_compute; reflexivity|]). lia.
Qed.

Lemma pointer_buttons_range b flags : 0 <= b < 32 -> 0 <= hid_pointer_buttons b flags < 32.
Proof.
  intros Hb. unfold hid_pointer_buttons. cbn [seq fold_left].
  repeat (apply pointer_button_range; [lia|]). done.
Qed.

Lemma touch_mask_id b : 0 <= b < 32 -> Z.land b HID_TOUCH_BUTTONS_MASK = b.
Proof.
  intros Hb. apply Z.eqb_eq. revert b Hb.
  apply (range_forallb (fun b => Z.land b HID_TOUCH_BUTTONS_MASK =? b) 0 32). vm_compute. reflexivity.
Qed.

(** *** The agreement *)

(** The agent holds the modifiers and buttons the router has announced. *)
Definition mirrored (r : InputRouter) (s : st) : Prop :=
  held s = (r_keyboard_modifiers r, r_pointer_buttons r).

Definition is_text (e : input_event) : bool := match e with InText _ => true | _ => false end.

Lemma map_scancode_u8 code extended swap :
  is_u8 code -> is_u8 (hid_map_scancode code extended swap).1.
Proof.
  intros Hc. unfold hid_map_scancode.
  repeat match goal with |- context [if ?b then _ else _] => destruct b end; done.
Qed.

Lemma operation_mirrors r e r' m s :
  router_ok r -> event_ok e -> is_text e = false -> route r e = Some (r', m) -> mirrored r s ->
  router_ok r' /\ wp (hid_operation r e) (fun _ s' => mirrored r' s') s.
Proof.
  intros (Hw & Hh & Hm & Hb) He Ht Hr Hs. unfold mirrored in Hs.
  assert (Hmod : modifiers s.1 = r_keyboard_modifiers r) by exact (f_equal fst Hs).
  assert (Hbut : buttons s.1 = r_pointer_buttons r) by exact (f_equal snd Hs).
  destruct e as [code extended release|code| | |x y flags wheel|dx dy flags wheel];
    cbn [route] in Hr; [|done| | | |].
  - unfold input_router_keyboard in Hr. unfold hid_operation.
    pose proof (map_scancode_u8 code extended (r_swap_alt_command r) He) as Hc.
    destruct (hid_map_scancode code extended (r_swap_alt_command r)) as [c x]. cbn [fst] in Hc.
    apply (inj Some), pair_eq in Hr as [<- _]. split.
    + split; [done|split; [done|split; [|done]]].
      apply press_range; [|done]. destruct (hid_translate_scancode c x) as [[u k]|] eqn:E;
        [apply translate_shape in E as (_ & [[-> _]|[_ Hi]]); [by left|by right|done]|by left].
    + eapply wp_mono; [apply hid_scancode_held; [done|by rewrite Hmod]|].
      intros ok s' E. unfold mirrored. rewrite E. cbn. by rewrite Hmod, Hbut.
  - apply (inj Some), pair_eq in Hr as [<- _]. split; [by split_and!; cbn|]. apply hid_synchronize_held.
  - apply (inj Some), pair_eq in Hr as [<- _]. split; [by split_and!; cbn|].
    apply wp_bind. eapply wp_mono; [apply hid_release_all_held|]. intros ok s' Hs'. by apply wp_ret.
  - unfold input_router_absolute_pointer in Hr. unfold hid_operation.
    destruct wheel; apply (inj Some), pair_eq in Hr as [<- _].
    + split; [done|]. apply wp_held; [apply hid_wheel_held|]. intros ok s' E. unfold mirrored. by rewrite E.
    + pose proof (pointer_buttons_range (r_pointer_buttons r) flags Hb) as Hr'.
      split; [split; [done|split; [done|split; [done|exact Hr']]]|].
      eapply wp_mono; [apply hid_absolute_held|]. intros ok s' E. unfold mirrored. rewrite E. cbn.
      by rewrite Hmod, Hbut.
  - unfold input_router_relative_pointer in Hr. unfold hid_operation.
    destruct wheel; apply (inj Some), pair_eq in Hr as [<- _].
    + split; [done|]. apply wp_held; [apply hid_wheel_held|]. intros ok s' E. unfold mirrored. by rewrite E.
    + pose proof (pointer_buttons_range (r_pointer_buttons r) flags Hb) as Hr'.
      split; [split; [done|split; [done|split; [done|exact Hr']]]|].
      eapply wp_mono; [apply hid_relative_held|]. intros ok s' E. unfold mirrored. rewrite E. cbn.
      by rewrite Hmod, touch_mask_id.
Qed.

Lemma sys_keeps_hid {B} (m : SM (W := W) B) : keeps (fun s : st => s.1) (sys m).
Proof. intros s. unfold sys. by destruct (m s.2). Qed.

(** *** Text *)

Definition pointer_buttons_of (s : st) : Z := buttons s.1.

Lemma send_keyboard_buttons : keeps pointer_buttons_of (send_keyboard (os := agent_kernel) interrupts).
Proof. eapply keeps_weaken; [|apply send_keyboard_held]. intros s s' E. exact (f_equal snd E). Qed.

Lemma tap_buttons key : keeps pointer_buttons_of (tap_text_key (os := agent_kernel) interrupts key).
Proof. unfold tap_text_key. repeat first [apply send_keyboard_buttons | keeps_step]. Qed.

Lemma sequence_buttons l : keeps pointer_buttons_of (type_ascii_sequence (os := agent_kernel) interrupts l).
Proof.
  induction l as [|c l IH]; cbn [type_ascii_sequence];
    repeat first [apply IH | apply tap_buttons | keeps_step].
Qed.

Lemma codepoint_buttons cp : keeps pointer_buttons_of (type_codepoint (os := agent_kernel) interrupts cp).
Proof.
  unfold type_codepoint, and_then, type_entry.
  repeat first [apply tap_buttons | apply sequence_buttons | keeps_step].
Qed.

Lemma paste_buttons cp : keeps pointer_buttons_of (type_paste_codepoint (os := agent_kernel) interrupts cp).
Proof. unfold type_paste_codepoint. repeat first [apply send_keyboard_buttons | keeps_step]. Qed.

Lemma type_loop_buttons fuel text : forall offset,
  keeps pointer_buttons_of (type_loop (os := agent_kernel) interrupts fuel text offset).
Proof.
  induction fuel as [|fuel IH]; intros offset; cbn [type_loop];
    repeat first [apply IH | apply codepoint_buttons | apply paste_buttons | keeps_step].
Qed.

Lemma type_utf8_buttons text s :
  wp (hid_type_utf8 (os := agent_kernel) interrupts text)
    (fun ok s' => ok = true -> buttons s'.1 = buttons s.1) s.
Proof.
  unfold hid_type_utf8. destruct (_ =? _)%nat; [done|].
  apply wp_bind, wp_modify, wp_bind, wp_get, wp_bind.
  eapply (wp_keeps pointer_buttons_of).
  { destruct (shortcut_key _ _); [apply tap_buttons|].
    apply keeps_bind; [unfold reset_keyboard_state; keeps_step|intros u].
    apply keeps_bind; [apply send_keyboard_buttons|intros ok].
    destruct ok; [apply type_loop_buttons|apply keeps_ret]. }
  intros ok s1 E1. apply wp_bind, wp_modify, wp_bind. destruct ok; [by apply wp_ret, wp_ret|].
  apply (wp_keeps (fun _ : st => tt)); [done|]. intros u s2 _. by apply wp_ret.
Qed.

(** The key of a text event, if it is typed on the held modifiers. *)
Definition shortcut_text (r : InputRouter) (code : Z) : option HidTextKey :=
  match utf8_encode code with
  | Some [b] => if r_keyboard_modifiers r =? 0 then None else ascii_to_hid b
  | _ => None
  end.

Lemma shortcut_text_key (r : InputRouter) (h : HidState) code :
  modifiers h = r_keyboard_modifiers r ->
  shortcut_key h (default [] (utf8_encode code)) = shortcut_text r code.
Proof.
  intros E. unfold shortcut_key, shortcut_text. rewrite E.
  destruct (utf8_encode code) as [[|b [|b' l]]|]; cbn; try done. by destruct (_ =? 0).
Qed.

(** What the agent holds behind an event that succeeded: what the router announced,
    except that typing plain text has released the modifiers. *)
Definition held_after (r' : InputRouter) (e : input_event) : Z * Z :=
  match e with
  | InText code =>
      (match shortcut_text r' code with Some _ => r_keyboard_modifiers r' | None => 0 end,
       r_pointer_buttons r')
  | _ => (r_keyboard_modifiers r', r_pointer_buttons r')
  end.

(** Whether the HID layer carried the event out. *)
Definition input_succeeds (r : InputRouter) (e : input_event) (s : st) : bool :=
  let s1 := (sys monotonic_milliseconds s).2 in
  match e with
  | InText code => (hid_type_utf8 interrupts (default [] (utf8_encode code)) s1).1
  | _ => (hid_operation r e s1).1
  end.

(** How an event leaves the agent. *)
Definition event_end (r r' : InputRouter) (e : input_event) (s s' : st) : Prop :=
  if input_succeeds r e s then held s' = held_after r' e else released s' /\ held s' = (0, 0).

Lemma event_end_hid r r' e s (s1 s2 : st) :
  s2.1 = s1.1 -> event_end r r' e s s1 -> event_end r r' e s s2.
Proof. intros E. unfold event_end, held, released. by rewrite E. Qed.

Lemma wp_result {B} (m : A B) s : wp m (fun x _ => x = (m s).1) s.
Proof. done. Qed.

Lemma release_all_end s :
  wp (hid_release_all (os := agent_kernel) interrupts)
    (fun _ s' => released s' /\ held s' = (0, 0)) s.
Proof.
  eapply wp_mono; [apply wp_and; [apply release_all_released|apply hid_release_all_held]|].
  by intros u s' [[? _] ?].
Qed.

Lemma deliver_text r code s :
  router_ok r -> event_ok (InText code) -> input_router_unicode code false <> None -> mirrored r s ->
  wp (deliver (hid_operation r (InText code))) (fun _ s' => event_end r r (InText code) s s') s.
Proof.
  intros Hr He Hu Hs. unfold deliver, hid_operation. apply wp_bind.
  set (s1 := (sys monotonic_milliseconds s).2).
  assert (E1 : s1.1 = s.1) by apply sys_keeps_hid.
  change (wp (bind (bind (hid_type_utf8 (os := agent_kernel) interrupts (default [] (utf8_encode code)))
    (fun typed => bind (if typed then ret tt else hid_release_all (os := agent_kernel) interrupts)
                    (fun _ => ret true)))
    (fun ok => bind (if ok then ret tt else hid_release_all (os := agent_kernel) interrupts)
       (fun _ => sys (count_input (sys monotonic_milliseconds s).1))))
    (fun _ s' => event_end r r (InText code) s s') s1).
  assert (Hne : default [] (utf8_encode code) <> []).
  { destruct (input_router_unicode code false) as [m|] eqn:Em; [|done].
    destruct (unicode_message code m He Em) as (enc & -> & Hne & _). done. }
  assert (Hm : modifiers s1.1 = r_keyboard_modifiers r) by (rewrite E1; exact (f_equal fst Hs)).
  assert (Hb : buttons s1.1 = r_pointer_buttons r) by (rewrite E1; exact (f_equal snd Hs)).
  apply wp_bind, wp_bind. eapply wp_mono.
  { apply wp_and; [apply wp_result|]. apply wp_and; [by apply type_utf8_end|apply type_utf8_buttons]. }
  intros typed s2 [Et [(_ & _ & Hk) Hbut]]. rewrite (shortcut_text_key r) in Hk by done.
  assert (Hsuc : input_succeeds r (InText code) s = typed) by done.
  unfold event_end. rewrite Hsuc. clear Et Hsuc. destruct typed.
  - apply wp_bind, wp_ret, wp_ret, wp_bind, wp_ret.
    eapply wp_keeps; [apply sys_keeps_hid|]. intros u s3 E3. unfold held, held_after. rewrite E3.
    rewrite Hbut, Hb by done. f_equal.
    destruct (shortcut_text r code); [destruct Hk; congruence|by destruct Hk].
  - apply wp_bind. eapply wp_mono; [apply release_all_end|]. intros u s3 H3.
    apply wp_ret, wp_bind, wp_ret. eapply wp_keeps; [apply sys_keeps_hid|]. intros v s4 E4.
    unfold released, held in *. by rewrite E4.
Qed.

Lemma deliver_other r e r' m s :
  router_ok r -> event_ok e -> is_text e = false -> route r e = Some (r', m) -> mirrored r s ->
  wp (deliver (hid_operation r e)) (fun _ s' => event_end r r' e s s') s.
Proof.
  intros Hr He Ht Hm Hs. unfold deliver. apply wp_bind.
  set (s1 := (sys monotonic_milliseconds s).2).
  assert (E1 : s1.1 = s.1) by apply sys_keeps_hid.
  assert (Hs1 : mirrored r s1) by (unfold mirrored, held in *; by rewrite E1).
  change (wp (bind (hid_operation r e)
    (fun ok => bind (if ok then ret tt else hid_release_all (os := agent_kernel) interrupts)
       (fun _ => sys (count_input (sys monotonic_milliseconds s).1))))
    (fun _ s' => event_end r r' e s s') s1).
  apply wp_bind. eapply wp_mono.
  { apply wp_and; [apply wp_result|]. apply (operation_mirrors r e r' m s1 Hr He Ht Hm Hs1). }
  intros ok s2 [Eok H2].
  assert (Hsuc : input_succeeds r e s = ok) by (rewrite Eok; by destruct e).
  assert (Hh : held_after r' e = (r_keyboard_modifiers r', r_pointer_buttons r')) by (by destruct e).
  unfold event_end. rewrite Hsuc, Hh. clear Eok Hsuc Hh. apply wp_bind. destruct ok.
  - apply wp_ret. eapply wp_keeps; [apply sys_keeps_hid|]. intros u s3 E3.
    unfold mirrored, held in *. by rewrite E3.
  - eapply wp_mono; [apply release_all_end|]. intros u s3 H3.
    eapply wp_keeps; [apply sys_keeps_hid|]. intros v s4 E4. unfold released, held in *. by rewrite E4.
Qed.

Lemma text_router r code r' m : route r (InText code) = Some (r', m) ->
  r' = r /\ input_router_unicode code false <> None.
Proof.
  cbn [route]. destruct (input_router_unicode code false) as [m'|]; [|done].
  intros H. apply (inj Some), pair_eq in H as [<- _]. done.
Qed.

(** C2: The gateway and the agent agree on what is held.  The agent holds the
    modifiers and buttons the router has announced; an event is routed and
    delivered.  If the HID layer carries it out, the agent holds exactly what the
    router announces now, with one exception: a text event that is not typed as a
    shortcut releases the agent's modifiers, which the router still counts as
    held (so the two agree behind text exactly when no modifier was held or the
    text was a shortcut).  If the HID layer fails, the agent has released every
    key and button.  The router's state stays within its types. *)
Theorem router_agent_agree r e r' m s :
  router_ok r -> event_ok e -> route r e = Some (r', m) -> mirrored r s ->
  let s' := (handle_control interrupts (router_wire m) s).2 in
  router_ok r' /\
  if input_succeeds r e s then held s' = held_after r' e else released s' /\ held s' = (0, 0).
Proof.
  intros Hr He Hm Hs. cbv zeta.
  rewrite (switch_delivers _ (hid_operation r e));
    [|by destruct (routed_switch r e r' m s Hr He Hm)
     |intros s1; by destruct (routed_switch r e r' m s1 Hr He Hm)].
  destruct (is_text e) eqn:Et.
  - destruct e as [|code| | | |]; try done. destruct (text_router _ _ _ _ Hm) as [-> Hu].
    split; [done|]. by apply deliver_text.
  - split; [by eapply operation_mirrors|]. by eapply deliver_other.
Qed.
End Delivery.

(** ** Witnesses *)

Definition desk_state : HidState * (Agent * list (Z * option bytes)) :=
  (blank_state.1, (streaming_agent, [])).

Definition desk_router : InputRouter := input_router_init 1920 1080 true.

Lemma desk_router_ok : router_ok desk_router.
Proof. unfold router_ok, is_u16, is_u8. cbn. lia. Qed.

Lemma routed_input_delivered_witness :
  handle_control 0 (router_wire (input_router_absolute_pointer desk_router 5000 10 0x9000 false).2)
    desk_state =
  deliver 0 (hid_operation 0 desk_router (InAbsolute 5000 10 0x9000 false)) desk_state.
Proof.
  apply (routed_input_delivered 0 desk_router (InAbsolute 5000 10 0x9000 false)
           (input_router_absolute_pointer desk_router 5000 10 0x9000 false).1 _ desk_state).
  - apply desk_router_ok.
  - unfold event_ok, is_u16. lia.
  - reflexivity.
Defined.

(** A board whose USB endpoints accept every report. *)
#[local] Instance usb_board : AgentOS unit := {
  agent_hid := {| os_now w := (1, w); os_open w _ := (5, w); os_open_read w _ := (6, w);
    os_fstat w _ := (Some true, w); os_poll w _ := ((1, false), w);
    os_write w _ b := (Z.of_nat (length b), w);
    os_read w _ := ((-1, 0), w); os_close w _ := w; os_errno _ := 11; os_set_errno w _ := w |};
  os_control_send w _ _ := (true, w);
  os_incoming _ := [];
  os_set_incoming w _ := w;
  os_socket w := (3, w);
  os_resolve w := (Some 0, w);
  os_nonblock w _ _ := (0, w);
  os_connect w _ _ _ := (0, w);
  os_connected w _ := (true, w);
  os_sendto w _ _ p := (Z.of_nat (length p), w);
  os_sleep w _ := w;
  os_wait w _ _ _ := (false, w);
  kvm_ensure_loaded w := (true, w);
  kvm_init w := w;
  kvm_read_image w _ _ _ := ((-1, None), w);
  kvm_free_data w := w;
  os_stores w := ([], w);
  os_signalled w := (false, w) }.

Definition usb_state : HidState * (Agent * unit) := (blank_state.1, (streaming_agent, tt)).

(** Alt, which the router swaps to Command, goes down: the HID layer accepts it
    and both ends hold it. *)
Lemma router_agent_agree_witness :
  let p := input_router_keyboard desk_router 0x38 false false in
  let s' := (handle_control 0 (router_wire p.2) usb_state).2 in
  router_ok p.1 /\ held s' = (8, 0).
Proof.
  pose proof (router_agent_agree 0 desk_router (InKey 0x38 false false) _ _ usb_state
    desk_router_ok ltac:(unfold event_ok, is_u8; lia) eq_refl eq_refl) as [Hr Hh].
  split; [exact Hr|].
  assert (Hs : input_succeeds 0 desk_router (InKey 0x38 false false) usb_state = true)
    by (vm_compute; reflexivity).
  rewrite Hs in Hh. exact Hh.
Defined.

(** With Shift held, a text event outside ASCII (U+AC00) makes the agent let go of
    Shift while the router still counts it as held. *)
Example text_releases_modifiers :
  let shift := input_router_keyboard desk_router 0x2a false false in
  let s1 := (handle_control 0 (router_wire shift.2) usb_state).2 in
  match input_router_unicode 0xac00 false with
  | Some m => let s2 := (handle_control 0 (router_wire m) s1).2 in
              held s1 = (2, 0) /\ r_keyboard_modifiers shift.1 = 2 /\ held s2 = (0, 0)
  | None => False
  end.
Proof. vm_compute. repeat split. Qed.
