(* ===== verification/AgentMain.v ===== *)
(** * The agent's main program ([src/src/agent.c], [main])

    The arguments, the device nodes of the HID gadget, the loop over the rounds of
    [Agent], and the way out, on which everything that is held is released. *)

From stdpp Require Import strings.
From S2P Require Import Prelude Protocol CString RtpH264 HidMap Hid Agent.

(** ** Arguments *)

Definition DEFAULT_CONTROL_PORT : Z := 3390.
Definition DEFAULT_VIDEO_PORT : Z := 5004.
Definition DEFAULT_WIDTH : Z := 1920.
Definition DEFAULT_HEIGHT : Z := 1080.
Definition DEFAULT_BITRATE : Z := 4000.

Record AgentArgs := MkArgs {
  g_gateway : option bytes;
  g_control_port : Z;
  g_video_port : Z;
  g_width : Z;
  g_height : Z;
  g_bitrate : Z }.

Definition args_default : AgentArgs :=
  MkArgs None DEFAULT_CONTROL_PORT DEFAULT_VIDEO_PORT DEFAULT_WIDTH DEFAULT_HEIGHT DEFAULT_BITRATE.

(** One option with its value; [None] for the usage message. *)
Definition parse_argument (name value : bytes) (c : AgentArgs) : option AgentArgs :=
  let n := u16 (strtoul value) in
  if c_eq name (c_string "-gateway") then
    Some (MkArgs (Some value) (g_control_port c) (g_video_port c) (g_width c) (g_height c) (g_bitrate c))
  else if c_eq name (c_string "-control-port") then
    Some (MkArgs (g_gateway c) n (g_video_port c) (g_width c) (g_height c) (g_bitrate c))
  else if c_eq name (c_string "-video-port") then
    Some (MkArgs (g_gateway c) (g_control_port c) n (g_width c) (g_height c) (g_bitrate c))
  else if c_eq name (c_string "-width") then
    Some (MkArgs (g_gateway c) (g_control_port c) (g_video_port c) n (g_height c) (g_bitrate c))
  else if c_eq name (c_string "-height") then
    Some (MkArgs (g_gateway c) (g_control_port c) (g_video_port c) (g_width c) n (g_bitrate c))
  else if c_eq name (c_string "-bitrate") then
    Some (MkArgs (g_gateway c) (g_control_port c) (g_video_port c) (g_width c) (g_height c) n)
  else None.

(** The loop over [argv]. *)
Fixpoint parse_arguments (args : list bytes) (c : AgentArgs) : option AgentArgs :=
  match args with
  | [] => Some c
  | [_] => None
  | name :: value :: args =>
      match parse_argument name value c with
      | Some c => parse_arguments args c
      | None => None
      end
  end.

(** The whole of the first part of [main]; [None] exits with 2. *)
Definition agent_arguments (args : list bytes) : option AgentArgs :=
  match parse_arguments args args_default with
  | Some c =>
      if match g_gateway c with None => true | Some _ => false end ||
         (g_width c =? 0) || (g_height c =? 0) || (g_bitrate c =? 0) then None
      else Some c
  | None => None
  end.

(** ** The capture library and the gateway's address *)

(** [KvmApi]: whether the handle and the function pointers are set. *)
Record KvmApi := MkKvm {
  handle : bool;
  has_init : bool;
  has_read_image : bool;
  has_free_data : bool;
  has_set_frame_detect : bool }.

Definition kvm_complete (api : KvmApi) : bool :=
  has_init api && has_read_image api && has_free_data api && has_set_frame_detect api.

(** [kvm_ensure_loaded]: [opens] are the answers of [dlopen] for the three candidates,
    [symbols] what [dlsym] finds in the one that opened. *)
Definition load_kvm (opens : list bool) (symbols : bool * bool * bool * bool) (api : KvmApi) : bool * KvmApi :=
  if handle api then (kvm_complete api, api)
  else if negb (existsb id (take 3 opens)) then (false, api)
  else
    let '(init, read_image, free_data, set_frame_detect) := symbols in
    let api := MkKvm true init read_image free_data set_frame_detect in
    (kvm_complete api, api).

(** [inet_pton] on the name, or the first address [getaddrinfo] finds. *)
Definition resolve_gateway (literal : option Z) (looked_up : option (list Z)) : option Z :=
  match literal with
  | Some address => Some address
  | None => match looked_up with Some (address :: _) => Some address | _ => None end
  end.

(** ** Device nodes *)

Definition HIDG_MAJOR : Z := 238.

(** The macros for toolchains without them. *)
Definition makedev (major_number minor_number : Z) : Z :=
  Z.lor (Z.shiftl (Z.land major_number 0xfff) 8) (Z.land minor_number 0xff).
Definition major (device : Z) : Z := Z.land (Z.shiftr device 8) 0xfff.
Definition minor (device : Z) : Z := Z.land device 0xff.

(** [stat]: whether there is a file, whether it is a character device, and its
    number; [unlink] and [mknod] for a character device. *)
Class NodeOS (W : Type) := {
  node_stat : W -> string -> option (bool * Z);
  node_unlink : W -> string -> bool * W;
  node_mknod : W -> string -> Z -> bool * W }.

Section Nodes.
Context {W : Type} {fs : NodeOS W}.

Definition is_hid_node (path : string) (node_minor : Z) (w : W) : bool :=
  match node_stat w path with
  | Some (character, device) => character && (major device =? HIDG_MAJOR) && (minor device =? node_minor)
  | None => false
  end.

(** The result says whether no call failed. *)
Definition ensure_hid_node (path : string) (node_minor : Z) (w : W) : bool * W :=
  if is_hid_node path node_minor w then (true, w)
  else
    let '(ok, w) := match node_stat w path with Some _ => node_unlink w path | None => (true, w) end in
    if ok then node_mknod w path (makedev HIDG_MAJOR node_minor) else (false, w).

Definition ensure_hid_nodes (w : W) : bool * W :=
  let '(ok0, w) := ensure_hid_node "/dev/hidg0" 0 w in
  let '(ok1, w) := ensure_hid_node "/dev/hidg1" 1 w in
  let '(ok2, w) := ensure_hid_node "/dev/hidg2" 2 w in
  (ok0 && ok1 && ok2, w).

End Nodes.

(** ** The way out *)

Section Exit.
Context {W : Type} {os : HidOS W}.
(** [poll] on the descriptors of the HID files. *)
Context (wait : W -> list (Z * bool) -> Z -> W) (interrupts : nat).

Local Notation "'let*' x ':=' m 'in' k" := (bind m (fun x => k))
  (at level 100, x name, m at level 100, k at level 200, right associativity).
Local Notation "m ;; k" := (bind m (fun _ => k))
  (at level 100, k at level 200, right associativity).

(** The loop until [release_deadline], for [fuel] rounds at most: whether its condition
    ended it. *)
Fixpoint release_loop (fuel : nat) (release_deadline : Z) : M (W := W) bool :=
  match fuel with
  | O => ret false
  | S fuel =>
      let* pending := get hid_pending in
      if negb pending then ret true
      else
        let* now := sys os_now in
        if negb (now <? release_deadline) then ret true
        else
          let* fds := hid_pollfds in
          sys_ (fun w => wait w fds 5) ;;
          let* _ := hid_flush interrupts in
          release_loop fuel release_deadline
  end.

Definition agent_exit (fuel : nat) : M (W := W) bool :=
  hid_release_all interrupts ;;
  let* now := sys os_now in
  release_loop fuel (u64 (now + 200)).

End Exit.

(** ** The program *)

Section Main.
Context {W : Type} {os : AgentOS W} {fs : NodeOS W}.
Variables (interrupts : nat).
#[local] Existing Instance agent_kernel.

Local Notation "'let*' x ':=' m 'in' k" := (bind m (fun x => k))
  (at level 100, x name, m at level 100, k at level 200, right associativity).
Local Notation "m ;; k" := (bind m (fun _ => k))
  (at level 100, k at level 200, right associativity).

(** The agent behind its initialization. *)
Definition agent_init (c : AgentArgs) (fd pid : Z) : Agent :=
  MkAgent (g_width c) (g_height c) (g_bitrate c) (g_control_port c) (g_video_port c) (-1) fd 0 [] 0 0 0
    (rtp_h264_packetizer_init RTP_H264_DEFAULT_MTU (u32 pid)) false true 1 0 0 0 0 0 0 0 0 0 false.

(** The loop; [None] while it is still running. *)
Fixpoint main_loop (n : nat) (reconnect_at : Z) : M (W := Agent * W) (option unit) :=
  match n with
  | O => ret None
  | S n =>
      let* stop := sys stopping in
      if stop then ret (Some tt)
      else let* reconnect_at := agent_round interrupts reconnect_at in main_loop n reconnect_at
  end.

(** Behind the loop. *)
Definition agent_end (fuel : nat) : M (W := Agent * W) unit :=
  agent_exit (fun s fds timeout => (s.1, (os_wait s.2 (-1) fds timeout).2)) interrupts fuel ;;
  let* fd := sys (aget control_fd) in
  (if 0 <=? fd then sys (kernel_ (fun w => os_close w fd)) else ret tt) ;;
  let* fd := sys (aget video_fd) in
  (if 0 <=? fd then sys (kernel_ (fun w => os_close w fd)) else ret tt).

(** [main]: the status it exits with, [None] while it runs.  [configured] and
    [descriptor] are the settings [hid_init] reads, [thread] whether the video
    thread starts. *)
Definition agent_main (rounds fuel : nat) (args : list bytes) (pid : Z) (configured : option Z)
    (descriptor : option bytes) (thread : bool) : M (W := Agent * W) (option Z) :=
  match agent_arguments args with
  | None => ret (Some 2)
  | Some c =>
      let* fd := sys (kernel os_socket) in
      if fd <? 0 then ret (Some 1)
      else
        sys (amodify (fun _ => agent_init c fd pid)) ;;
        sys (kernel_ (fun w => (ensure_hid_nodes w).2)) ;;
        hid_init None None None configured descriptor ;;
        hid_release_all interrupts ;;
        if negb thread then ret (Some 1)
        else
          let* ended := main_loop rounds 0 in
          match ended with
          | None => ret None
          | Some _ => agent_end fuel ;; ret (Some 0)
          end
  end.

End Main.
