(* ===== verification/AgentMainSpec.v ===== *)
(** * Correctness of the agent's start and end

    On its way out the agent writes the reports that release everything, each at most
    once and nothing else; the nodes of the HID gadget are the right devices unless a
    call fails; arguments that spell a configuration are read back. *)

From stdpp Require Import strings.
From S2P Require Import Prelude Protocol CString RtpH264 HidMap Hid HidSpec GatewayConfig Agent AgentMain.

(** ** The way out *)

Section Exit.
Context {W : Type} {os : HidOS W}.
Variable interrupts : nat.
Context (wait : W -> list (Z * bool) -> Z -> W).

Local Abbreviation st := (HidState * (W * list bytes))%type.

(** Both queues, the log and the inputs. *)
Definition sights (s : st) := (keyboard_queue s.1, pointer_queue s.1, log s, inputs s.1).

Local Ltac sight_call :=
  match goal with |- sights _ = sights _ =>
    unfold sights, log; simpl;
    match goal with |- context [match ?x with pair _ _ => _ end] => destruct x end; reflexivity
  end.
Local Ltac keeps_sights := repeat first [sight_call | keeps_step].

Lemma open_feedback_sights path : keeps sights (open_keyboard_feedback (os := logged_os) path).
Proof. unfold open_keyboard_feedback. keeps_sights. Qed.

Lemma feedback_loop_sights batch now : keeps sights (feedback_loop (os := logged_os) batch now).
Proof. induction batch as [|batch IH]; cbn [feedback_loop]; repeat first [apply IH | sight_call | keeps_step]. Qed.

Lemma drain_feedback_sights : keeps sights (drain_keyboard_feedback (os := logged_os)).
Proof.
  unfold drain_keyboard_feedback.
  repeat first [apply open_feedback_sights | apply feedback_loop_sights | sight_call | keeps_step].
Qed.

(** Both queues have lost what was written, and the log has it. *)
Definition flushed (s s' : st) (k p : list HidReport) : Prop :=
  contents (keyboard_queue s.1) = k ++ contents (keyboard_queue s'.1) /\
  contents (pointer_queue s.1) = p ++ contents (pointer_queue s'.1) /\
  log s' = log s ++ map report_bytes (k ++ p) /\
  inputs s'.1 = inputs s.1 /\
  (forall id, queue_ok (get_queue id s'.1) /\ no_paste (get_queue id s'.1)).

Lemma hid_flush_spec s :
  (forall id, queue_ok (get_queue id s.1) /\ no_paste (get_queue id s.1)) ->
  wp (hid_flush (os := logged_os) interrupts) (fun _ s' => exists k p, flushed s s' k p) s.
Proof.
  intros Hq. unfold hid_flush. apply wp_bind.
  eapply (wp_keeps sights); [apply drain_feedback_sights|]. intros _ s1 Hs.
  assert (Ek : keyboard_queue s1.1 = keyboard_queue s.1) by exact (f_equal (fun x => x.1.1.1) Hs).
  assert (Ep : pointer_queue s1.1 = pointer_queue s.1) by exact (f_equal (fun x => x.1.1.2) Hs).
  assert (El : log s1 = log s) by exact (f_equal (fun x => x.1.2) Hs).
  assert (Ei : inputs s1.1 = inputs s.1) by exact (f_equal snd Hs).
  pose proof (Hq KeyboardQueue) as [Qk Pk]. pose proof (Hq PointerQueue) as [Qp Pp]. cbn in Qk, Pk, Qp, Pp.
  apply wp_bind. eapply wp_mono.
  { refine (wp_and _ _ (fun _ s' => apart KeyboardQueue s' = apart KeyboardQueue s1) s1
      (flush_reports_spec interrupts KeyboardQueue s1 _ _) _); cbn [get_queue]; [by rewrite Ek..|].
    apply (flush_reports_apart interrupts KeyboardQueue s1). }
  intros okk s2 [(k & Ak) Apk]. 
  assert (Ei2 : inputs s2.1 = inputs s1.1) by exact (f_equal fst Apk).
  assert (Ep2 : pointer_queue s2.1 = pointer_queue s1.1) by exact (f_equal snd Apk).
  apply wp_bind. eapply wp_mono.
  { refine (wp_and _ _ (fun _ s' => apart PointerQueue s' = apart PointerQueue s2) s2
      (flush_reports_spec interrupts PointerQueue s2 _ _) _); cbn [get_queue]; [by rewrite Ep2, Ep..|].
    apply (flush_reports_apart interrupts PointerQueue s2). }
  intros okp s3 [(p & Ap) App]. 
  assert (Ei3 : inputs s3.1 = inputs s2.1) by exact (f_equal fst App).
  assert (Ek3 : keyboard_queue s3.1 = keyboard_queue s2.1) by exact (f_equal snd App).
  apply wp_bind, wp_modify, wp_ret. exists k, p.
  pose proof (advanced_no_paste KeyboardQueue s1 s2 k ltac:(by cbn [get_queue]; rewrite Ek) Ak) as Nk.
  pose proof (advanced_no_paste PointerQueue s2 s3 p ltac:(by cbn [get_queue]; rewrite Ep2, Ep) Ap) as Np.
  destruct Ak as (Ck & Lk & Qk'), Ap as (Cp & Lp & Qp'). cbn [get_queue] in *. split_and!.
  - rewrite <- Ek, Ck, <- Ek3. done.
  - rewrite <- Ep, <- Ep2, Cp. done.
  - change (log s3 = log s ++ map report_bytes (k ++ p)). by rewrite Lp, Lk, El, map_app, app_assoc.
  - change (inputs s3.1 = inputs s.1). congruence.
  - intros []; [change (queue_ok (keyboard_queue s3.1) /\ no_paste (keyboard_queue s3.1)); by rewrite Ek3|done].
Qed.

(** Of the reports [ks] and [ps], some have been written behind [base], each once and
    in the order of their queue, and the others wait. *)
Definition releasing (ks ps : list (Z * bytes)) (base : list bytes) (s : st) : Prop :=
  exists k p l, map wire (k ++ contents (keyboard_queue s.1)) = ks /\
    map wire (p ++ contents (pointer_queue s.1)) = ps /\
    log s = base ++ l /\ l ≡ₚ map report_bytes (k ++ p) /\
    (forall id, queue_ok (get_queue id s.1) /\ no_paste (get_queue id s.1)).

Lemma releasing_flushed ks ps base s s' k p :
  releasing ks ps base s -> flushed s s' k p -> releasing ks ps base s'.
Proof.
  intros (k0 & p0 & l & Hk & Hp & Hl & Hperm & _) (Ck & Cp & Lg & _ & Hq).
  exists (k0 ++ k), (p0 ++ p), (l ++ map report_bytes (k ++ p)). split_and!; [..|done].
  - by rewrite <- app_assoc, <- Ck.
  - by rewrite <- app_assoc, <- Cp.
  - by rewrite Lg, Hl, app_assoc.
  - rewrite Hperm, <- map_app. apply Permutation_map. solve_Permutation.
Qed.

Lemma releasing_sights ks ps base s s' : sights s' = sights s -> releasing ks ps base s -> releasing ks ps base s'.
Proof.
  intros Hs (k & p & l & Hk & Hp & Hl & Hperm & Hq).
  assert (Ek : keyboard_queue s'.1 = keyboard_queue s.1) by exact (f_equal (fun x => x.1.1.1) Hs).
  assert (Ep : pointer_queue s'.1 = pointer_queue s.1) by exact (f_equal (fun x => x.1.1.2) Hs).
  assert (El : log s' = log s) by exact (f_equal (fun x => x.1.2) Hs).
  exists k, p, l. rewrite Ek, Ep, El. split_and!; [done..|].
  intros id. specialize (Hq id). destruct id; cbn [get_queue] in *; by rewrite ?Ek, ?Ep.
Qed.

(** The call of [poll] and the kernel's log. *)
Definition logged_wait (w : W * list bytes) (fds : list (Z * bool)) (timeout : Z) : W * list bytes :=
  (wait w.1 fds timeout, w.2).

Lemma pollfds_sights : keeps sights (hid_pollfds (os := logged_os)).
Proof. unfold hid_pollfds. keeps_sights. Qed.

Lemma release_loop_spec ks ps base i fuel deadline : forall s,
  releasing ks ps base s -> inputs s.1 = i ->
  wp (release_loop (os := logged_os) logged_wait interrupts fuel deadline)
    (fun _ s' => releasing ks ps base s' /\ inputs s'.1 = i) s.
Proof.
  induction fuel as [|fuel IH]; intros s Hr Hi; cbn [release_loop]; [by apply wp_ret|].
  apply wp_bind, wp_get. destruct (negb _); [by apply wp_ret|]. apply wp_bind.
  eapply (wp_keeps sights); [keeps_sights|]. intros now s1 Hs1. cbv beta.
  assert (Hr1 : releasing ks ps base s1) by (by eapply releasing_sights).
  assert (Hi1 : inputs s1.1 = i) by (rewrite <- Hi; exact (f_equal snd Hs1)).
  destruct (negb _); [by apply wp_ret|]. apply wp_bind.
  eapply (wp_keeps sights); [apply pollfds_sights|]. intros fds s2 Hs2. apply wp_bind.
  eapply (wp_keeps sights); [apply keeps_sys_; done|]. intros _ s3 Hs3.
  assert (Hs : sights s3 = sights s1) by congruence.
  assert (Hr3 : releasing ks ps base s3) by (by eapply releasing_sights).
  assert (Hi3 : inputs s3.1 = i) by (rewrite <- Hi1; exact (f_equal snd Hs)).
  apply wp_bind. eapply wp_mono; [apply hid_flush_spec|].
  { destruct Hr3 as (? & ? & ? & _ & _ & _ & _ & Hq). exact Hq. }
  intros _ s4 (k & p & Hf). apply IH; [by eapply releasing_flushed|].
  destruct Hf as (_ & _ & _ & -> & _). done.
Qed.

Lemma contents_pending s : hid_pending s = false -> contents (keyboard_queue s) = [] /\ contents (pointer_queue s) = [].
Proof.
  unfold hid_pending. intros H. bool_hyps. unfold contents. rewrite H, H0. done.
Qed.

Lemma wp_release_all s : (absolute_report_length s.1 <= 8)%nat ->
  wp (hid_release_all (os := logged_os) interrupts) (fun _ s' =>
    releasing (release_wire s.1).1 (release_wire s.1).2 (log s) s' /\
    modifiers s'.1 = 0 /\ (forall u, usages s'.1 u = false) /\ buttons s'.1 = 0) s.
Proof.
  intros Hlen. pose proof (release_all_exact interrupts s Hlen) as Hr. unfold wp.
  destruct (hid_release_all interrupts s) as [[] s1].
  destruct Hr as (k & p & Hk & Hp & Hl & Hm & Hu & Hb & Hq). split; [|done].
  exists k, p, (map report_bytes (k ++ p)). by split_and!.
Qed.

Lemma now_sights : keeps sights (sys (os_now (HidOS := logged_os (os := os)))).
Proof. keeps_sights. Qed.

Lemma wp_agent_exit fuel s : (absolute_report_length s.1 <= 8)%nat ->
  wp (agent_exit (os := logged_os) logged_wait interrupts fuel) (fun _ s' =>
    releasing (release_wire s.1).1 (release_wire s.1).2 (log s) s' /\
    modifiers s'.1 = 0 /\ (forall u, usages s'.1 u = false) /\ buttons s'.1 = 0) s.
Proof.
  intros Hlen. unfold agent_exit. apply wp_bind. eapply wp_mono; [by apply wp_release_all|].
  intros _ s1 (Hr & Hm & Hu & Hb). apply wp_bind.
  eapply (wp_keeps sights); [apply now_sights|]. intros now s2 Hs.
  eapply wp_mono.
  - apply (release_loop_spec (release_wire s.1).1 (release_wire s.1).2 (log s) (inputs s1.1)).
    + by apply (releasing_sights _ _ _ s1).
    + exact (f_equal snd Hs).
  - intros _ s3 [Hrel Hi]. split; [exact Hrel|].
    assert (Em : modifiers s3.1 = modifiers s1.1) by exact (f_equal i_modifiers Hi).
    assert (Eu : usages s3.1 = usages s1.1) by exact (f_equal i_usages Hi).
    assert (Eb : buttons s3.1 = buttons s1.1) by exact (f_equal i_buttons Hi).
    rewrite Em, Eu, Eb. by split_and!.
Qed.

(** All that was to be released, as the part written and the part that waits. *)
Lemma releasing_parts ks ps base s : releasing ks ps base s ->
  exists written waiting, log s = base ++ written /\ written ++ waiting ≡ₚ map snd (ks ++ ps) /\
    (hid_pending s.1 = false -> waiting = []).
Proof.
  intros (k & p & l & <- & <- & Hl & Hperm & _).
  exists l, (map report_bytes (contents (keyboard_queue s.1) ++ contents (pointer_queue s.1))).
  split_and!; [done| |].
  - rewrite Hperm, <- map_app.
    transitivity (map report_bytes ((k ++ contents (keyboard_queue s.1)) ++ (p ++ contents (pointer_queue s.1)))).
    + apply Permutation_map. solve_Permutation.
    + by rewrite <- map_app, map_map.
  - intros [-> ->]%contents_pending. done.
Qed.

(** C19: On its way out the agent, whatever was pending and whatever the kernel does,
    writes nothing but the reports that release the keyboard, the mouse and the touch
    screen, each at most once; if nothing is pending at the end it has written all of
    them; and its own state holds no key, modifier or button. *)
Theorem agent_exit_releases fuel s :
  (absolute_report_length s.1 <= 8)%nat ->
  let '(_, s') := agent_exit (os := logged_os) logged_wait interrupts fuel s in
  let releases := map snd ((release_wire s.1).1 ++ (release_wire s.1).2) in
  (exists written waiting, log s' = log s ++ written /\ written ++ waiting ≡ₚ releases /\
     (hid_pending s'.1 = false -> waiting = [])) /\
  modifiers s'.1 = 0 /\ (forall u, usages s'.1 u = false) /\ buttons s'.1 = 0.
Proof.
  intros Hlen. pose proof (wp_agent_exit fuel s Hlen) as Hw. unfold wp in Hw.
  destruct (agent_exit _ _ _ s) as [u s']. destruct Hw as (Hr & Hrest). split; [|exact Hrest].
  exact (releasing_parts _ _ _ s' Hr).
Qed.

End Exit.

(** ** Arguments *)

Lemma digits_all d : Forall is_digit d -> digits d = (d, []).
Proof.
  unfold is_digit. induction 1 as [|e d He _ IH]; [done|]. cbn.
  rewrite (proj2 (Z.leb_le 48 e)), (proj2 (Z.leb_le e 57)) by lia. cbn. by rewrite IH.
Qed.

Lemma strtoul_decimal d : d <> [] -> Forall is_digit d -> decimal_value 0 d < 2 ^ 64 ->
  strtoul d = decimal_value 0 d.
Proof.
  intros Hne Hd Hv. destruct d as [|e d]; [done|]. unfold strtoul.
  pose proof (Forall_inv Hd) as He. unfold is_digit in He.
  assert (isspace e = false) as Hs by (unfold isspace; bool_cases; cbn; (done || lia)).
  cbn [skip]. rewrite Hs, (proj2 (Z.eqb_neq e 45)), (proj2 (Z.eqb_neq e 43)) by lia.
  rewrite digits_all by done. cbn [fst]. by rewrite (proj2 (Z.ltb_ge _ _)) by lia.
Qed.

Lemma strtoul_print n : is_u16 n -> u16 (strtoul (print_number n)) = n.
Proof.
  unfold is_u16. intros Hn. unfold print_number.
  destruct (print_decimal_spec 5 n) as (Hd & Hv & _); [lia|].
  assert (Hne : print_decimal 5 n <> []) by (cbn [print_decimal]; by destruct (if n <? 10 then _ else _)).
  rewrite strtoul_decimal by (done || lia). rewrite Hv. unfold u16. by apply Z.mod_small.
Qed.

(** The arguments that spell a configuration. *)
Definition print_agent_args (c : AgentArgs) : list bytes :=
  match g_gateway c with Some g => [c_string "-gateway"; g] | None => [] end ++
  [c_string "-control-port"; print_number (g_control_port c);
   c_string "-video-port"; print_number (g_video_port c);
   c_string "-width"; print_number (g_width c);
   c_string "-height"; print_number (g_height c);
   c_string "-bitrate"; print_number (g_bitrate c)].

Definition args_ok (c : AgentArgs) : Prop :=
  g_gateway c <> None /\ is_u16 (g_control_port c) /\ is_u16 (g_video_port c) /\
  (is_u16 (g_width c) /\ g_width c <> 0) /\ (is_u16 (g_height c) /\ g_height c <> 0) /\
  (is_u16 (g_bitrate c) /\ g_bitrate c <> 0).

(** The arguments of a configuration mean that configuration. *)
Lemma agent_arguments_roundtrip c : args_ok c -> agent_arguments (print_agent_args c) = Some c.
Proof.
  intros (Hg & Hc & Hv & [Hw Hw0] & [Hh Hh0] & [Hb Hb0]). unfold agent_arguments, print_agent_args.
  destruct c as [[g|] cp vp w h b]; [|done]. cbn [g_gateway g_control_port g_video_port g_width g_height g_bitrate] in *.
  cbn [app parse_arguments]. unfold parse_argument. cbn [c_eq].
  repeat match goal with |- context [c_eq ?a ?b] =>
    let v := eval vm_compute in (c_eq a b) in change (c_eq a b) with v end.
  cbv iota beta. cbn [g_gateway g_control_port g_video_port g_width g_height g_bitrate].
  rewrite !strtoul_print by done.
  rewrite (proj2 (Z.eqb_neq w 0)), (proj2 (Z.eqb_neq h 0)), (proj2 (Z.eqb_neq b 0)) by done. done.
Qed.

(** Numbers are cut to sixteen bits and text is zero: a width of 67456 is one of 1920,
    and a port that is no number is port 0. *)
Example agent_arguments_truncate :
  agent_arguments [c_string "-gateway"; c_string "kvm"; c_string "-width"; c_string "67456";
                   c_string "-control-port"; c_string "http"] =
  Some (MkArgs (Some (c_string "kvm")) 0 5004 1920 1080 4000).
Proof. reflexivity. Qed.

(** ** The capture library *)

Definition load_all (answers : list (list bool * (bool * bool * bool * bool))) (api : KvmApi) : KvmApi :=
  fold_left (fun api a => (load_kvm a.1 a.2 api).2) answers api.

(** The library is used only with all of its functions, and once it is, it stays so;
    a library that lacks one is never replaced. *)
Lemma kvm_loaded_complete opens symbols api :
  (load_kvm opens symbols api).1 = kvm_complete (load_kvm opens symbols api).2 \/
    (load_kvm opens symbols api) = (false, api) /\ handle api = false.
Proof.
  unfold load_kvm. destruct (handle api); [by left|]. destruct (negb _); [by right|].
  destruct symbols as [[[i r] f] d]. by left.
Qed.

Lemma kvm_settled answers api : handle api = true -> load_all answers api = api.
Proof.
  intros Hh. induction answers as [|a answers IH]; [done|]. cbn. unfold load_kvm at 2. by rewrite Hh.
Qed.

(** ** Device nodes *)

Lemma makedev_hidg n : In n [0; 1; 2] -> major (makedev HIDG_MAJOR n) = HIDG_MAJOR /\ minor (makedev HIDG_MAJOR n) = n.
Proof. intros [<-|[<-|[<-|[]]]]; by split. Qed.

(** What the kernel documents of the calls. *)
Class NodeLaws (W : Type) {fs : NodeOS W} := {
  unlink_gone : forall w p w', node_unlink w p = (true, w') ->
    node_stat w' p = None /\ forall q, q <> p -> node_stat w' q = node_stat w q;
  mknod_made : forall w p d w', node_stat w p = None -> node_mknod w p d = (true, w') ->
    node_stat w' p = Some (true, d) /\ forall q, q <> p -> node_stat w' q = node_stat w q }.

Section Nodes.
Context {W : Type} {fs : NodeOS W} {laws : NodeLaws W}.

Lemma ensure_hid_node_spec path n w w' : In n [0; 1; 2] -> ensure_hid_node path n w = (true, w') ->
  is_hid_node path n w' = true /\ forall q, q <> path -> node_stat w' q = node_stat w q.
Proof.
  intros Hn. unfold ensure_hid_node. destruct (is_hid_node path n w) eqn:E; [by intros [= ->]|].
  destruct (makedev_hidg n Hn) as [Hma Hmi].
  assert (Hmake : forall w1 w2, node_stat w1 path = None ->
    node_mknod w1 path (makedev HIDG_MAJOR n) = (true, w2) ->
    is_hid_node path n w2 = true /\ forall q, q <> path -> node_stat w2 q = node_stat w1 q).
  { intros w1 w2 Hs Hm. destruct (mknod_made _ _ _ _ Hs Hm) as [Hst Ho]. split; [|done].
    unfold is_hid_node. by rewrite Hst, Hma, Hmi, !Z.eqb_refl. }
  destruct (node_stat w path) as [x|] eqn:Es; [|by apply Hmake].
  destruct (node_unlink w path) as [[] w1] eqn:Eu; [|done]. destruct (unlink_gone _ _ _ Eu) as [Hg Ho].
  intros Hm. destruct (Hmake w1 w' Hg Hm) as [Hi Ho']. split; [done|]. intros q Hq. by rewrite Ho', Ho.
Qed.

Lemma is_hid_node_stat path n w w' : node_stat w' path = node_stat w path ->
  is_hid_node path n w' = is_hid_node path n w.
Proof. unfold is_hid_node. by intros ->. Qed.

(** Unless a call fails, the three nodes are the devices of the gadget, whatever was
    there before. *)
Lemma hid_nodes_ensured w w' : ensure_hid_nodes w = (true, w') ->
  is_hid_node "/dev/hidg0" 0 w' = true /\ is_hid_node "/dev/hidg1" 1 w' = true /\
  is_hid_node "/dev/hidg2" 2 w' = true.
Proof.
  unfold ensure_hid_nodes.
  destruct (ensure_hid_node "/dev/hidg0" 0 w) as [ok0 w0] eqn:E0.
  destruct (ensure_hid_node "/dev/hidg1" 1 w0) as [ok1 w1] eqn:E1.
  destruct (ensure_hid_node "/dev/hidg2" 2 w1) as [ok2 w2] eqn:E2.
  intros [= Hok <-]. destruct ok0, ok1, ok2; try done.
  apply ensure_hid_node_spec in E0 as [H0 _], E1 as [H1 O1], E2 as [H2 O2]; [|cbn; tauto..].
  split_and!; [|rewrite (is_hid_node_stat _ _ w1); [done|by apply O2]|done].
  rewrite (is_hid_node_stat _ _ w0); [done|]. by rewrite O2, O1.
Qed.

End Nodes.

(** ** Witness *)

#[local] Instance accepting_os : HidOS Z := {
  os_now w := (w, w); os_open w _ := (5, w); os_open_read w _ := (6, w);
  os_fstat w _ := (Some true, w); os_poll w _ := ((1, false), w);
  os_write w _ b := (Z.of_nat (length b), w); os_read w _ := ((-1, 0), w);
  os_close w _ := w; os_errno w := 11; os_set_errno w _ := w }.

(** An agent with two keys and a button down, and a report waiting. *)
Definition holding : HidState * (Z * list bytes) :=
  let '(_, s) := hid_scancode (os := logged_os) 3 29 false false
                   (hid_blank None None None None None 0, (1000, [])) in
  let '(_, s) := hid_relative (os := logged_os) 3 10 10 1 s in s.

Lemma agent_exit_releases_witness :
  let '(_, s') := agent_exit (os := logged_os) (logged_wait (fun w _ t => w + t)) 3 5 holding in
  let releases := map snd ((release_wire holding.1).1 ++ (release_wire holding.1).2) in
  (exists written waiting, log s' = log holding ++ written /\ written ++ waiting ≡ₚ releases /\
     (hid_pending s'.1 = false -> waiting = [])) /\
  modifiers s'.1 = 0 /\ (forall u, usages s'.1 u = false) /\ buttons s'.1 = 0.
Proof.
  apply (agent_exit_releases (os := accepting_os) 3 (fun w _ t => w + t) 5 holding). vm_compute. lia.
Defined.

(** There, all three are written and the loop is left by its condition. *)
Example demo_exit :
  let '(ended, s') := agent_exit (os := logged_os) (logged_wait (fun w _ t => w + t)) 3 5 holding in
  ended = true /\ hid_pending s'.1 = false /\ length (log s') = (length (log holding) + 3)%nat.
Proof. by vm_compute. Qed.
