(* ===== verification/RdpInput.v ===== *)
(** * Input callbacks of the RDP peer ([src/src/rdp_input.c])

    What FreeRDP calls for keyboard, mouse and synchronize events, over the
    input router and the control connection.  The keyboard flags are constants
    of FreeRDP; log lines are not modelled. *)

From S2P Require Import Prelude Protocol HidMap InputRouter.

Section Input.
Context {Ctx : Type} (server_send_control : Ctx -> NanokvmControlMessage -> bool * Ctx)
  (KBD_FLAGS_EXTENDED KBD_FLAGS_RELEASE : Z).

(** The fields of [Client] the callbacks use. *)
Record InputClient := MkInputClient {
  input_router : InputRouter;
  render_width : Z;
  render_height : Z;
  pointer_position_updates : Z;
  pointer_position_logged : bool }.

Definition with_router (c : InputClient) (r : InputRouter) : InputClient :=
  MkInputClient r (render_width c) (render_height c) (pointer_position_updates c)
    (pointer_position_logged c).

Definition client_send_input_message (x : Ctx) (m : InputRouterMessage) : bool * Ctx :=
  if im_type m =? 0 then (true, x) else server_send_control x (router_wire m).

(** What the pointer channel of the peer is asked to send. *)
Inductive pointer_update := PointerSystemDefault | PointerPosition (x y : Z).

(** The answers of FreeRDP and of the output lock. *)
Record pointer_env := MkPointerEnv {
  has_position : bool;        (** the update and its callback exist *)
  has_system : bool;
  output_free : bool;         (** no frame is being written *)
  position_written : bool }.

Definition client_send_pointer_position (e : pointer_env) (c : InputClient) (x y : Z)
    : InputClient * list pointer_update :=
  if negb (has_position e) || negb (output_free e) then (c, [])
  else
    let updates :=
      (if negb (pointer_position_logged c) && has_system e then [PointerSystemDefault] else []) ++
      [PointerPosition (hid_clamp_absolute x (render_width c))
                       (hid_clamp_absolute y (render_height c))] in
    if negb (position_written e) then (c, updates)
    else (MkInputClient (input_router c) (render_width c) (render_height c)
            (u64 (pointer_position_updates c + 1)) true, updates).

Definition on_keyboard (flags code : Z) (c : InputClient) (x : Ctx) : bool * InputClient * Ctx :=
  let raw_extended := flag flags KBD_FLAGS_EXTENDED in
  let release := flag flags KBD_FLAGS_RELEASE in
  let '(r, m) := input_router_keyboard (input_router c) code raw_extended release in
  let '(sent, x) := client_send_input_message x m in
  (sent, with_router c r, x).

Definition on_unicode_keyboard (flags code : Z) (c : InputClient) (x : Ctx)
    : bool * InputClient * Ctx :=
  match input_router_unicode code (flag flags KBD_FLAGS_RELEASE) with
  | None => (false, c, x)
  | Some m =>
      if im_type m =? 0 then (true, c, x)
      else let '(sent, x) := client_send_input_message x m in (sent, c, x)
  end.

Definition client_release_all_inputs (c : InputClient) (x : Ctx) : bool * InputClient * Ctx :=
  let '(r, m) := input_router_release_all (input_router c) in
  let '(sent, x) := client_send_input_message x m in
  (sent, with_router c r, x).

Definition on_synchronize (c : InputClient) (x : Ctx) : bool * InputClient * Ctx :=
  let '(r, m) := input_router_synchronize (input_router c) in
  let '(sent, x) := client_send_input_message x m in
  (sent, with_router c r, x).

Definition wheel_bits : Z := Z.lor PTR_FLAGS_WHEEL PTR_FLAGS_HWHEEL.

Definition on_mouse (e : pointer_env) (flags x y : Z) (c : InputClient) (s : Ctx)
    : bool * InputClient * Ctx * list pointer_update :=
  let has_wheel := flag flags wheel_bits in
  let '(r, m) := input_router_absolute_pointer (input_router c) x y flags has_wheel in
  let c := with_router c r in
  let '(c, updates) := if negb has_wheel then client_send_pointer_position e c x y else (c, []) in
  let '(sent, s) := client_send_input_message s m in
  (sent, c, s, updates).

Definition on_extended_mouse (e : pointer_env) (flags x y : Z) (c : InputClient) (s : Ctx)
    : bool * InputClient * Ctx * list pointer_update :=
  on_mouse e (hid_pointer_flags_from_extended flags) x y c s.

(** A vertical wheel with a horizontal motion is a horizontal wheel. *)
Definition relative_wheel_flags (flags x_delta y_delta : Z) : Z :=
  if negb (flag flags PTR_FLAGS_HWHEEL) && flag flags PTR_FLAGS_WHEEL &&
     negb (x_delta =? 0) && (y_delta =? 0)
  then
    let moved := Z.lor (Z.lor (Z.land flags (Z.lxor 0xffff (Z.lor PTR_FLAGS_WHEEL WHEEL_ROTATION_MASK)))
                          PTR_FLAGS_HWHEEL) (Z.land flags WHEEL_ROTATION_MASK) in
    if x_delta <? 0 then Z.lor moved PTR_FLAGS_WHEEL_NEGATIVE
    else Z.land moved (Z.lxor 0xffff PTR_FLAGS_WHEEL_NEGATIVE)
  else flags.

Definition on_relative_mouse (flags x_delta y_delta : Z) (c : InputClient) (s : Ctx)
    : bool * InputClient * Ctx :=
  let flags := relative_wheel_flags flags x_delta y_delta in
  let '(r, m) := input_router_relative_pointer (input_router c) x_delta y_delta flags
                   (flag flags wheel_bits) in
  let '(sent, s) := client_send_input_message s m in
  (sent, with_router c r, s).

End Input.

(** ** The wheel *)

(** A diagonal gesture of one detent turns the horizontal wheel by one detent
    into the direction of the motion. *)
Lemma relative_wheel_detents rotation x_delta :
  rotation = 120 \/ rotation = 512 - 120 -> x_delta <> 0 ->
  let flags := relative_wheel_flags (Z.lor PTR_FLAGS_WHEEL rotation) x_delta 0 in
  flag flags PTR_FLAGS_HWHEEL = true /\ flag flags PTR_FLAGS_WHEEL = false /\
  wheel_detents flags = Z.sgn x_delta.
Proof.
  intros Hr Hx. unfold relative_wheel_flags. rewrite (proj2 (Z.eqb_neq x_delta 0)) by done.
  destruct Hr as [-> | ->]; cbn -[Z.ltb Z.sgn wheel_detents flag Z.land Z.lor].
  all: destruct (Z.ltb_spec x_delta 0).
  all: try (rewrite (Z.sgn_neg x_delta) by lia). all: try (rewrite (Z.sgn_pos x_delta) by lia).
  all: vm_compute; auto.
Qed.
