(* ===== verification/Prog.v ===== *)
(** * Programs that leave a trace

    A C function that works on a structure, calls into libraries and returns a
    [bool] is a function of the structure that also lists the events it causes.
    The combinators are the control flow of such functions. *)

From S2P Require Import Prelude.

Section Prog.
Context {S E : Type}.

Definition prog : Type := S -> bool * S * list E.

Definition ret (ok : bool) : prog := fun x => (ok, x, []).
(** [if (!a) return false; b]. *)
Definition or_return (a b : prog) : prog := fun x =>
  let '(ok, x, es) := a x in
  if ok then let '(ok, x, es') := b x in (ok, x, es ++ es') else (false, x, es).
(** [a; b], the result of [a] ignored. *)
Definition and_then (a b : prog) : prog := fun x =>
  let '(_, x, es) := a x in let '(ok, x, es') := b x in (ok, x, es ++ es').
(** [if (c) a]. *)
Definition when (c : S -> bool) (a : prog) : prog := fun x => if c x then a x else (true, x, []).
(** A call that succeeds with answer [ok], and then has this effect. *)
Definition attempt (ok : bool) (f : S -> S) (es : list E) : prog := fun x =>
  if ok then (true, f x, es) else (false, x, []).
Definition effect (f : S -> S) (es : list E) : prog := attempt true f es.
(** A program chosen by the state. *)
Definition branch (c : S -> bool) (a b : prog) : prog := fun x => if c x then a x else b x.

(** What a program does to a state. *)
Definition result (p : prog) (x : S) : bool := (p x).1.1.
Definition state (p : prog) (x : S) : S := (p x).1.2.
Definition trace (p : prog) (x : S) : list E := (p x).2.

End Prog.
Arguments prog : clear implicits.

Declare Scope prog_scope.
Notation "a ;? b" := (or_return a b) (at level 100, b at level 200, right associativity) : prog_scope.
Notation "a ;> b" := (and_then a b) (at level 100, b at level 200, right associativity) : prog_scope.
#[global] Open Scope prog_scope.

(** ** Traces that respect a discipline

    A discipline judges events one by one; a program keeps an invariant between
    its state and the judge's when every event passes. *)

Section Discipline.
Context {S E W : Type} (observe : W -> E -> option W).

Fixpoint observes (w : W) (es : list E) : option W :=
  match es with
  | [] => Some w
  | e :: es => match observe w e with Some w => observes w es | None => None end
  end.

Lemma observes_app w es es' :
  observes w (es ++ es') = match observes w es with Some w => observes w es' | None => None end.
Proof. revert w. induction es as [|e es IH]; intros w; cbn; [done|]. by destruct (observe w e). Qed.

(** From [P], the trace passes and leaves [Q] when the result is [true], [F]
    otherwise. *)
Definition triple (P : S -> W -> Prop) (p : prog S E) (Q F : S -> W -> Prop) : Prop :=
  forall x w, P x w -> exists w', observes w (trace p x) = Some w' /\
    (if result p x then Q else F) (state p x) w'.

Lemma triple_conseq (P P' Q Q' F F' : S -> W -> Prop) p :
  triple P' p Q' F' -> (forall x w, P x w -> P' x w) -> (forall x w, Q' x w -> Q x w) ->
  (forall x w, F' x w -> F x w) -> triple P p Q F.
Proof.
  intros H HP HQ HF x w HPx. destruct (H x w (HP x w HPx)) as (w' & E' & H').
  exists w'. split; [done|]. destruct (result p x); auto.
Qed.

Lemma triple_pre (P P' Q F : S -> W -> Prop) p :
  triple P' p Q F -> (forall x w, P x w -> P' x w) -> triple P p Q F.
Proof. intros H HP. by apply (triple_conseq _ P' _ Q _ F). Qed.

Lemma triple_return (ok : bool) (P Q F : S -> W -> Prop) :
  (forall x w, P x w -> (if ok then Q else F) x w) -> triple P (ret ok) Q F.
Proof. intros H x w HP. exists w. split; [done|]. by apply H. Qed.

Lemma triple_or_return (P R Q F : S -> W -> Prop) a b :
  triple P a R F -> triple R b Q F -> triple P (a ;? b) Q F.
Proof.
  intros Ha Hb x w HP. destruct (Ha x w HP) as (w1 & E1 & H1).
  unfold trace, state, result, or_return in *. destruct (a x) as [[[] x1] es1]; cbn in *; [|by exists w1].
  destruct (Hb x1 w1 H1) as (w2 & E2 & H2). unfold trace, state, result in *.
  destruct (b x1) as [[ok x2] es2]; cbn in *. exists w2. rewrite observes_app, E1. by split.
Qed.

Lemma triple_and_then (P R Q F : S -> W -> Prop) a b :
  triple P a R R -> triple R b Q F -> triple P (a ;> b) Q F.
Proof.
  intros Ha Hb x w HP. destruct (Ha x w HP) as (w1 & E1 & H1).
  unfold trace, state, result, and_then in *. destruct (a x) as [[ok1 x1] es1]; cbn in *.
  assert (HR : R x1 w1) by (by destruct ok1).
  destruct (Hb x1 w1 HR) as (w2 & E2 & H2). unfold trace, state, result in *.
  destruct (b x1) as [[ok x2] es2]; cbn in *. exists w2. rewrite observes_app, E1. by split.
Qed.

Lemma triple_branch (P Q F : S -> W -> Prop) c a b :
  triple (fun x w => P x w /\ c x = true) a Q F -> triple (fun x w => P x w /\ c x = false) b Q F ->
  triple P (branch c a b) Q F.
Proof.
  intros Ha Hb x w HP. specialize (Ha x w). specialize (Hb x w).
  unfold trace, state, result, branch in *. destruct (c x); auto.
Qed.

Lemma triple_when (P Q F : S -> W -> Prop) c a :
  triple (fun x w => P x w /\ c x = true) a Q F -> (forall x w, P x w -> c x = false -> Q x w) ->
  triple P (when c a) Q F.
Proof.
  intros Ha Hc x w HP. specialize (Ha x w). specialize (Hc x w HP).
  unfold trace, state, result, when in *. destruct (c x); [auto|]. exists w. split; [done|]. by apply Hc.
Qed.

Lemma triple_attempt (P Q F : S -> W -> Prop) ok f es :
  (forall x w, P x w -> exists w', observes w es = Some w' /\ Q (f x) w') ->
  (ok = false -> forall x w, P x w -> F x w) -> triple P (attempt ok f es) Q F.
Proof.
  intros HQ HF x w HP. unfold trace, state, result, attempt.
  destruct ok; cbn; [by apply HQ|]. exists w. split; [done|]. by apply HF.
Qed.

(** An invariant is kept whatever the result. *)
Abbreviation keeps I p := (triple I p I I).

Context (I : S -> W -> Prop).

Lemma keeps_iff p : keeps I p <->
  forall x w, I x w -> exists w', observes w (trace p x) = Some w' /\ I (state p x) w'.
Proof. split; intros H x w HI; destruct (H x w HI) as (w' & E' & H'); exists w'; by destruct (result p x). Qed.
Lemma keeps_return ok : keeps I (ret ok).
Proof. apply triple_return. by destruct ok. Qed.
Lemma keeps_or_return a b : keeps I a -> keeps I b -> keeps I (a ;? b).
Proof. apply triple_or_return. Qed.
Lemma keeps_and_then a b : keeps I a -> keeps I b -> keeps I (a ;> b).
Proof. apply triple_and_then. Qed.
Lemma keeps_when c a : keeps I a -> keeps I (when c a).
Proof. intros H. apply triple_when; [|done]. by apply (triple_conseq _ _ _ _ _ _ _ H); [intros ? ? []|..]. Qed.
Lemma keeps_branch c a b : keeps I a -> keeps I b -> keeps I (branch c a b).
Proof.
  intros Ha Hb. apply triple_branch.
  - by apply (triple_conseq _ _ _ _ _ _ _ Ha); [intros ? ? []|..].
  - by apply (triple_conseq _ _ _ _ _ _ _ Hb); [intros ? ? []|..].
Qed.
Lemma keeps_attempt ok f es :
  (forall x w, I x w -> exists w', observes w es = Some w' /\ I (f x) w') -> keeps I (attempt ok f es).
Proof. intros H. by apply triple_attempt. Qed.

End Discipline.

Abbreviation keeps observe I p := (triple observe I p I I).

Create HintDb prog discriminated.
#[export] Hint Resolve keeps_return keeps_or_return keeps_and_then keeps_when keeps_branch : prog.
