(* ===== verification/Gateway.v ===== *)
(** * The gateway server ([src/src/gateway_server.c], [src/src/rdp_peer.c],
    [src/src/main.c])

    Admission of a single RDP client, the keepalive of the host, and the reader
    that feeds the HTTP snapshots.  Each operation is one section of the
    server's lock; FreeRDP, thread creation and the decoder are answers of the
    environment. *)

From S2P Require Import Prelude Protocol H264 VideoSource InputRouter.

Definition GATEWAY_KEEPALIVE_INTERVAL_MS : Z := 10000.

(** ** Server state *)

(** Peer threads and their clients are numbered in the order of their start. *)
Record Server := MkServer {
  peer_thread : option nat;
  active : option nat;
  active_closing : bool;
  next_keepalive_at : Z;
  keepalive_dx : Z }.

Definition set_peer_thread (s : Server) (t : option nat) : Server :=
  MkServer t (active s) (active_closing s) (next_keepalive_at s) (keepalive_dx s).
Definition set_active (s : Server) (c : option nat) (closing : bool) : Server :=
  MkServer (peer_thread s) c closing (next_keepalive_at s) (keepalive_dx s).

(** [gateway_start], the fields above. *)
Definition gateway_start (now : Z) : Server :=
  MkServer None None false (u64 (now + GATEWAY_KEEPALIVE_INTERVAL_MS)) 1.

(** ** The single client *)

(** [finished t]: a wait for the thread's handle with no timeout succeeds. *)
Definition server_reap_finished_peer_thread (finished : nat -> bool) (s : Server) : Server :=
  match peer_thread s with
  | Some t => if finished t then set_peer_thread s None else s
  | None => s
  end.

(** [peer_accepted]: [new] is the thread that would be started, [created]
    whether it is. *)
Definition peer_accepted (finished : nat -> bool) (stop_requested created : bool) (new : nat)
    (s : Server) : bool * Server :=
  let s := server_reap_finished_peer_thread finished s in
  let thread_busy := match peer_thread s with Some _ => true | None => false end in
  let is_active := match active s with Some _ => true | None => false end in
  if stop_requested || thread_busy || is_active || active_closing s then (false, s)
  else if created then (true, set_peer_thread s (Some new)) else (false, s).

(** The result is [owns_active_client]. *)
Definition client_claim_active (client : nat) (s : Server) : bool * Server :=
  match active s with
  | Some _ => (false, s)
  | None => if active_closing s then (false, s) else (true, set_active s (Some client) false)
  end.

(** The two sections of [client_context_free]. *)
Definition client_context_free_begin (client : nat) (owns : bool) (s : Server) : Server :=
  if owns && bool_decide (active s = Some client) then set_active s None true else s.
Definition client_context_free_end (owns : bool) (s : Server) : Server :=
  if owns then set_active s (active s) false else s.

(** [server_join_peer_thread]; [joined]: the thread ends within the timeout. *)
Definition server_join_peer_thread (joined : bool) (s : Server) : bool * Server :=
  match peer_thread s with
  | None => (true, s)
  | Some _ => if joined then (true, set_peer_thread s None) else (false, s)
  end.

(** *** Threads *)

Inductive peer_phase := Serving | Freeing | Exited.
Record peer := MkPeer { phase : peer_phase; owns_active_client : bool }.

Record gateway := MkGateway { server : Server; peers : list peer }.

Definition exited (ps : list peer) (t : nat) : bool :=
  match ps !! t with
  | Some p => match phase p with Exited => true | _ => false end
  | None => false
  end.

Inductive gateway_op :=
| Accept (stop_requested created : bool)
| Claim (t : nat)
| FreeBegin (t : nat)
| FreeEnd (t : nat).

(** A step of the main thread or of a peer thread; steps a thread cannot take
    in its phase do nothing. *)
Definition gateway_step (g : gateway) (o : gateway_op) : gateway :=
  match o with
  | Accept stop created =>
      let '(ok, s) := peer_accepted (exited (peers g)) stop created (length (peers g)) (server g) in
      MkGateway s (if ok then peers g ++ [MkPeer Serving false] else peers g)
  | Claim t =>
      match peers g !! t with
      | Some (MkPeer Serving false) =>
          let '(ok, s) := client_claim_active t (server g) in
          MkGateway s (<[t := MkPeer Serving ok]> (peers g))
      | _ => g
      end
  | FreeBegin t =>
      match peers g !! t with
      | Some (MkPeer Serving owns) =>
          MkGateway (client_context_free_begin t owns (server g)) (<[t := MkPeer Freeing owns]> (peers g))
      | _ => g
      end
  | FreeEnd t =>
      match peers g !! t with
      | Some (MkPeer Freeing owns) =>
          MkGateway (client_context_free_end owns (server g)) (<[t := MkPeer Exited owns]> (peers g))
      | _ => g
      end
  end.

Definition run_gateway (g : gateway) (os : list gateway_op) : gateway := fold_left gateway_step os g.

(** ** Keepalive *)

Definition router_idle (r : InputRouter) : bool :=
  (r_pointer_buttons r =? 0) && (r_keyboard_modifiers r =? 0) && negb (r_control_space_down r).

(** The decision of [server_keepalive], with the router of the active client
    and whether the HTTP interface is idle. *)
Definition keepalive_due (now : Z) (router : option InputRouter) (http_idle : bool) (s : Server)
    : bool * Server :=
  if now <? next_keepalive_at s then (false, s)
  else
    let s := MkServer (peer_thread s) (active s) (active_closing s)
               (u64 (now + GATEWAY_KEEPALIVE_INTERVAL_MS)) (keepalive_dx s) in
    (match router with Some r => router_idle r | None => true end && http_idle, s).

Definition keepalive_message (dx : Z) : NanokvmControlMessage :=
  Message (control_code CONTROL_POINTER_REL) (protocol_write_u16 (u16 (i16 dx)) ++ [0; 0; 0]).

(** The send behind it; the direction changes when it was accepted. *)
Definition keepalive_sent (ok : bool) (s : Server) : Server :=
  if ok then MkServer (peer_thread s) (active s) (active_closing s) (next_keepalive_at s)
               (i8 (- keepalive_dx s))
  else s.

(** [server_keepalive]: what was sent, if anything was accepted. *)
Definition server_keepalive (now : Z) (router : option InputRouter) (http_idle accepted : bool)
    (s : Server) : option NanokvmControlMessage * Server :=
  let '(due, s) := keepalive_due now router http_idle s in
  if due then
    (if accepted then Some (keepalive_message (keepalive_dx s)) else None, keepalive_sent accepted s)
  else (None, s).

(** ** The reader behind the HTTP snapshots *)

Section HttpReader.
Context (can_grow : nat -> bool).

(** The locals of one decoding round of [http_video_thread]. *)
Record HttpReader := MkReader {
  reader_sets : H264ParameterSets;
  reader_fallback : H264Buffer;
  reader_need_idr : bool }.

Definition reader_init : HttpReader := MkReader sets_empty buffer_empty true.

(** What became of an access unit: not given to the decoder, or the bytes that
    were and whether the decoder took them. *)
Inductive reader_result := ReaderSkip | ReaderPush (d : bytes) (ok : bool) | ReaderBreak.

(** One access unit; [pushed] is the decoder's answer, [stop] whether a stop was
    requested by then. *)
Definition http_unit (u : VideoSourceAccessUnit) (pushed stop : bool) (r : HttpReader)
    : reader_result * HttpReader :=
  if (length (data u) =? 0)%nat then (ReaderSkip, r)
  else
    let idr := has_nal (nal_types u) 5 in
    let ps := h264_parameter_sets_update can_grow (reader_sets r) (data u) (nal_types u) in
    let need := if packet_loss u then true else reader_need_idr r in
    if need && negb idr then (ReaderSkip, MkReader ps (reader_fallback r) need)
    else
      match (if idr then h264_parameter_sets_prepare_idr can_grow ps (data u) (nal_types u)
             else Some (data u, ps)) with
      | None => (ReaderBreak, MkReader ps (reader_fallback r) need)
      | Some (payload, ps) =>
          match h264_ensure_annexb can_grow (reader_fallback r) payload with
          | None => (ReaderBreak, MkReader ps (reader_fallback r) need)
          | Some (push_data, fallback) =>
              (ReaderPush push_data pushed,
               MkReader ps fallback (if negb pushed && negb stop then true
                                     else if idr then false else need))
          end
      end.

(** A read of the inner loop; [yielded]: the RDP client asks for the socket. *)
Inductive http_read :=
| HttpUnit (u : VideoSourceAccessUnit) (pushed stop : bool)
| HttpAgain (yielded : bool)
| HttpFailed.

(** The inner loop, with what became of each access unit. *)
Fixpoint http_reader_loop (reads : list http_read) (r : HttpReader)
    : list (VideoSourceAccessUnit * reader_result) :=
  match reads with
  | [] => []
  | HttpFailed :: _ => []
  | HttpAgain yielded :: reads => if yielded then [] else http_reader_loop reads r
  | HttpUnit u pushed stop :: reads =>
      let '(result, r) := http_unit u pushed stop r in
      (u, result) ::
        match result with
        | ReaderBreak => []
        | _ => if stop then [] else http_reader_loop reads r
        end
  end.

(** A round of the outer loop: the reader gives way while the RDP client asks
    for the socket, needs the lease and a decoder, and starts afresh. *)
Record http_round := MkRound {
  round_yield : bool;
  round_lease : bool;
  round_decoder : bool;
  round_reads : list http_read }.

Definition http_video_round (x : http_round) : list (VideoSourceAccessUnit * reader_result) :=
  if round_yield x || negb (round_lease x) || negb (round_decoder x) then []
  else http_reader_loop (round_reads x) reader_init.

Definition http_video_thread (rounds : list http_round)
    : list (list (VideoSourceAccessUnit * reader_result)) := map http_video_round rounds.

End HttpReader.
