(* ===== verification/GatewaySpec.v ===== *)
(** * Correctness of the gateway server

    One RDP client at a time, a keepalive that neither disturbs held input nor
    drifts, and a decodable stream for the snapshots. *)

From S2P Require Import Prelude Protocol H264 VideoSource InputRouter Gateway.

(** ** The single client *)

#[export] Instance peer_phase_eq_dec : EqDecision peer_phase.
Proof. solve_decision. Defined.
#[export] Instance peer_eq_dec : EqDecision peer.
Proof. solve_decision. Defined.

Record gateway_ok (g : gateway) : Prop := {
  ok_running : forall t p, peers g !! t = Some p -> phase p <> Exited -> peer_thread (server g) = Some t;
  ok_handle : forall t, peer_thread (server g) = Some t -> (t < length (peers g))%nat;
  ok_active : forall t, active (server g) = Some t <-> peers g !! t = Some (MkPeer Serving true);
  ok_closing : active_closing (server g) = true <-> exists t, peers g !! t = Some (MkPeer Freeing true) }.

Lemma gateway_start_ok now : gateway_ok (MkGateway (gateway_start now) []).
Proof. split; cbn; try done. split; [done|]. by intros [t ?]. Qed.

Definition running (g : gateway) (t : nat) : Prop :=
  exists p, peers g !! t = Some p /\ phase p <> Exited.

Lemma running_unique g t u : gateway_ok g -> running g t -> running g u -> t = u.
Proof.
  intros Hok (p & Hp & Hne) (q & Hq & Hne2).
  apply (ok_running g Hok) in Hp, Hq; [congruence|done..].
Qed.

(** The server as a thread in a given phase sees it. *)
Lemma serving_view g t owns : gateway_ok g -> peers g !! t = Some (MkPeer Serving owns) ->
  active (server g) = (if owns then Some t else None) /\ active_closing (server g) = false.
Proof.
  intros Hok Ht. assert (Hr : running g t) by (by exists (MkPeer Serving owns)). split.
  - destruct (active (server g)) as [u|] eqn:E.
    + pose proof (proj1 (ok_active g Hok u) E) as Hu.
      assert (u = t) as -> by (apply (running_unique g); [done|by eexists|done]).
      rewrite Ht in Hu. by simplify_eq.
    + destruct owns; [|done]. apply (ok_active g Hok) in Ht. congruence.
  - destruct (active_closing (server g)) eqn:E; [|done].
    apply (ok_closing g Hok) in E as [u Hu].
    assert (u = t) as -> by (apply (running_unique g); [done|by eexists|done]). congruence.
Qed.

Lemma freeing_view g t owns : gateway_ok g -> peers g !! t = Some (MkPeer Freeing owns) ->
  active (server g) = None /\ active_closing (server g) = owns.
Proof.
  intros Hok Ht. assert (Hr : running g t) by (by exists (MkPeer Freeing owns)). split.
  - destruct (active (server g)) as [u|] eqn:E; [|done].
    pose proof (proj1 (ok_active g Hok u) E) as Hu.
    assert (u = t) as -> by (apply (running_unique g); [done|by eexists|done]). congruence.
  - destruct owns; [by apply (ok_closing g Hok); exists t|].
    destruct (active_closing (server g)) eqn:E; [|done].
    apply (ok_closing g Hok) in E as [u Hu].
    assert (u = t) as -> by (apply (running_unique g); [done|by eexists|done]). congruence.
Qed.

(** A running thread moves to another phase, and the server with it. *)
Lemma move_peer g t p q s :
  gateway_ok g -> peers g !! t = Some p -> phase p <> Exited ->
  peer_thread s = peer_thread (server g) ->
  active s = (if decide (q = MkPeer Serving true) then Some t else None) ->
  active_closing s = (if decide (q = MkPeer Freeing true) then true else false) ->
  gateway_ok (MkGateway s (<[t := q]> (peers g))).
Proof.
  intros Hok Hp Hne Hs Ha Hc.
  assert (Hlt : (t < length (peers g))%nat) by (by eapply lookup_lt_Some).
  assert (Hother : forall u r, u <> t -> peers g !! u = Some r -> phase r = Exited).
  { intros u r Hu Hr. destruct (decide (phase r = Exited)) as [|Hx]; [done|]. exfalso. apply Hu.
    apply (running_unique g); [done|by eexists|by eexists]. }
  assert (Hself : <[t := q]> (peers g) !! t = Some q) by (by apply list_lookup_insert_eq).
  split; cbn.
  - intros u r [(<- & <- & _)|(Hu & Hr)]%list_lookup_insert_Some Hnr.
    + rewrite Hs. by apply (ok_running g Hok t p).
    + apply Hother in Hr; [done|congruence].
  - intros u. rewrite Hs, length_insert. apply (ok_handle g Hok).
  - intros u. rewrite Ha. split.
    + destruct (decide _) as [Hq|]; [|done]. intros [= <-]. by rewrite Hself, Hq.
    + intros [(<- & Hq & _)|(Hu & Hr)]%list_lookup_insert_Some; [by rewrite decide_True|].
      apply Hother in Hr; [discriminate Hr|congruence].
  - rewrite Hc. split.
    + destruct (decide (q = MkPeer Freeing true)) as [Hq|]; [|discriminate]. intros _. exists t. by rewrite Hself, Hq.
    + intros [u [(<- & Hq & _)|(Hu & Hr)]%list_lookup_insert_Some]; [by rewrite decide_True|].
      apply Hother in Hr; [discriminate Hr|congruence].
Qed.

(** Reaping a finished thread leaves running ones alone. *)
Lemma reap_view g : gateway_ok g ->
  let s := server_reap_finished_peer_thread (exited (peers g)) (server g) in
  active s = active (server g) /\ active_closing s = active_closing (server g) /\
  (forall t, peer_thread s = Some t -> peer_thread (server g) = Some t) /\
  (forall t p, peers g !! t = Some p -> phase p <> Exited -> peer_thread s = Some t).
Proof.
  intros Hok. unfold server_reap_finished_peer_thread.
  pose proof (ok_running g Hok) as Hr. destruct (peer_thread (server g)) as [t|] eqn:E; [|by rewrite E].
  destruct (exited (peers g) t) eqn:Ex; [|by rewrite E].
  split; [done|]. split; [done|]. split; [done|].
  intros u p Hu Hne. exfalso. specialize (Hr u p Hu Hne). simplify_eq.
  unfold exited in Ex. rewrite Hu in Ex. by destruct (phase p).
Qed.

Lemma step_ok g o : gateway_ok g -> gateway_ok (gateway_step g o).
Proof.
  intros Hok. destruct o as [stop created|t|t|t]; cbn [gateway_step].
  - unfold peer_accepted. set (s := server_reap_finished_peer_thread _ (server g)).
    pose proof (reap_view g Hok) as Hs. fold s in Hs.
    destruct Hs as (Ha & Hc & Hh & Hr).
    assert (Hsame : gateway_ok (MkGateway s (peers g))).
    { split; cbn; [done| |by rewrite Ha; apply Hok|by rewrite Hc; apply Hok].
      intros t Ht%Hh. by apply (ok_handle g Hok). }
    destruct (peer_thread s) as [t0|] eqn:Et; [by rewrite orb_true_r|].
    destruct (active s) as [c|] eqn:Ea; [by rewrite orb_true_r|].
    destruct stop, (active_closing s) eqn:Ec, created; cbn; try done.
    split; cbn.
    + intros t p Hp Hne. apply lookup_app_Some in Hp as [Hp|[Hl Hp]].
      * by apply (Hr t p Hp) in Hne.
      * destruct (t - length (peers g))%nat eqn:Ed; [|done]. f_equal. lia.
    + intros t [= <-]. rewrite length_app. cbn. lia.
    + intros t. rewrite ?Ea. split; [done|]. intros Ht. exfalso.
      apply lookup_app_Some in Ht as [Ht|[_ Ht]].
      * by specialize (Hr t _ Ht ltac:(discriminate)).
      * destruct (t - length (peers g))%nat; done.
    + rewrite ?Ec. split; [done|]. intros [t Ht]. exfalso.
      apply lookup_app_Some in Ht as [Ht|[_ Ht]].
      * by specialize (Hr t _ Ht ltac:(discriminate)).
      * destruct (t - length (peers g))%nat; done.
  - destruct (peers g !! t) as [[[] []]|] eqn:Ht; try done.
    destruct (serving_view g t false Hok Ht) as [Ha Hc].
    unfold client_claim_active. rewrite Ha, Hc. by apply (move_peer g t (MkPeer Serving false)).
  - destruct (peers g !! t) as [[[] owns]|] eqn:Ht; try done.
    destruct (serving_view g t owns Hok Ht) as [Ha Hc]. unfold client_context_free_begin.
    apply (move_peer g t (MkPeer Serving owns)); try done; destruct owns; cbn; rewrite ?Ha; try done.
    all: by rewrite bool_decide_eq_true_2.
  - destruct (peers g !! t) as [[[] owns]|] eqn:Ht; try done.
    destruct (freeing_view g t owns Hok Ht) as [Ha Hc]. unfold client_context_free_end.
    by apply (move_peer g t (MkPeer Freeing owns)); try done; destruct owns.
Qed.

Lemma run_ok os : forall g, gateway_ok g -> gateway_ok (run_gateway g os).
Proof. induction os as [|o os IH]; intros g Hok; [done|]. by apply IH, step_ok. Qed.

(** C9: the single client: however connections, claims and teardowns
    interleave, at most one peer thread runs; the server's active client is
    exactly the running thread that has claimed it, and it counts as closing
    exactly while that thread tears down; and as soon as no thread runs, the
    next connection is accepted, so the gate never stays shut. *)
Theorem single_client now os :
  let g := run_gateway (MkGateway (gateway_start now) []) os in
  (forall t u, running g t -> running g u -> t = u) /\
  (forall t, active (server g) = Some t <-> peers g !! t = Some (MkPeer Serving true)) /\
  (active_closing (server g) = true <-> exists t, peers g !! t = Some (MkPeer Freeing true)) /\
  ((forall t, ~ running g t) ->
   running (gateway_step g (Accept false true)) (length (peers g))).
Proof.
  intros g. assert (Hok : gateway_ok g) by apply run_ok, gateway_start_ok.
  split; [intros t u; by apply running_unique|]. split; [apply Hok|]. split; [apply Hok|].
  intros Hnone. cbn [gateway_step]. unfold peer_accepted.
  destruct (reap_view g Hok) as (Ha & Hc & Hh & _).
  set (s := server_reap_finished_peer_thread _ (server g)) in *.
  assert (Hthread : peer_thread s = None).
  { destruct (peer_thread s) as [t|] eqn:E; [|done]. exfalso.
    pose proof (ok_handle g Hok t (Hh t eq_refl)) as [p Hp]%lookup_lt_is_Some.
    assert (Hx : exited (peers g) t = true).
    { unfold exited. rewrite Hp. destruct (phase p) eqn:Ep; [| |done]; exfalso; apply (Hnone t);
        exists p; (split; [done|congruence]). }
    revert E. unfold s, server_reap_finished_peer_thread. rewrite (Hh t eq_refl), Hx. done. }
  assert (Hact : active s = None).
  { rewrite Ha. destruct (active (server g)) as [t|] eqn:E; [|done]. exfalso.
    apply (ok_active g Hok) in E. by apply (Hnone t); eexists. }
  assert (Hclo : active_closing s = false).
  { rewrite Hc. destruct (active_closing (server g)) eqn:E; [|done]. exfalso.
    apply (ok_closing g Hok) in E as [t Ht]. by apply (Hnone t); eexists. }
  rewrite Hthread, Hact, Hclo. exists (MkPeer Serving false). split; [|done].
  change ((peers g ++ [MkPeer Serving false]) !! length (peers g) = Some (MkPeer Serving false)).
  by rewrite lookup_app_r, Nat.sub_diag by lia.
Qed.

(** ** Keepalive *)

Record tick := MkTick {
  tk_now : Z;
  tk_router : option InputRouter;    (** of the active client *)
  tk_http_idle : bool;
  tk_accepted : bool }.

(** The keepalives a sequence of heartbeats sends, with their times. *)
Fixpoint keepalive_run (s : Server) (ticks : list tick) : list (Z * NanokvmControlMessage) :=
  match ticks with
  | [] => []
  | k :: ticks =>
      let '(m, s) := server_keepalive (tk_now k) (tk_router k) (tk_http_idle k) (tk_accepted k) s in
      match m with
      | Some m => (tk_now k, m) :: keepalive_run s ticks
      | None => keepalive_run s ticks
      end
  end.

Definition nothing_held (k : tick) : Prop :=
  tk_http_idle k = true /\
  forall r, tk_router k = Some r ->
    r_pointer_buttons r = 0 /\ r_keyboard_modifiers r = 0 /\ r_control_space_down r = false.

(** Motions back and forth. *)
Fixpoint alternating (dx : Z) (n : nat) : list NanokvmControlMessage :=
  match n with O => [] | S n => keepalive_message dx :: alternating (- dx) n end.

(** At least an interval apart, the first not before [t0]. *)
Fixpoint spaced (t0 : Z) (l : list (Z * NanokvmControlMessage)) : Prop :=
  match l with
  | [] => True
  | (t, _) :: l => t0 <= t /\ spaced (t + GATEWAY_KEEPALIVE_INTERVAL_MS) l
  end.

Lemma spaced_weaken t0 t1 l : t0 <= t1 -> spaced t1 l -> spaced t0 l.
Proof. intros H. destruct l as [|[t m] l]; cbn; [done|]. intros [? ?]. split; [lia|done]. Qed.

Lemma router_idle_spec r : router_idle r = true <->
  r_pointer_buttons r = 0 /\ r_keyboard_modifiers r = 0 /\ r_control_space_down r = false.
Proof.
  unfold router_idle. rewrite !andb_true_iff, !Z.eqb_eq, negb_true_iff. tauto.
Qed.

Lemma keepalive_run_spec ticks : forall s,
  keepalive_dx s = 1 \/ keepalive_dx s = -1 ->
  Forall (fun k => 0 <= tk_now k < 2 ^ 63) ticks ->
  let l := keepalive_run s ticks in
  Forall (fun x => Exists (fun k => tk_now k = x.1 /\ nothing_held k) ticks) l /\
  map snd l = alternating (keepalive_dx s) (length l) /\ spaced (next_keepalive_at s) l.
Proof.
  induction ticks as [|k ticks IH]; intros s Hdx Hc; [done|].
  apply Forall_cons_iff in Hc as [Hk Hc]. cbn [keepalive_run].
  unfold server_keepalive, keepalive_due. destruct (Z.ltb_spec (tk_now k) (next_keepalive_at s)).
  { destruct (IH s Hdx Hc) as (H1 & H2 & H3). split_and!; [|done|done].
    eapply Forall_impl; [|exact H1]. intros x Hx. by apply Exists_cons_tl. }
  set (s1 := MkServer _ _ _ _ _).
  assert (Hn1 : next_keepalive_at s1 = tk_now k + GATEWAY_KEEPALIVE_INTERVAL_MS)
    by (cbn; apply u64_id; unfold is_u64, GATEWAY_KEEPALIVE_INTERVAL_MS; lia).
  assert (Hnext : forall s2, keepalive_dx s2 = 1 \/ keepalive_dx s2 = -1 ->
    next_keepalive_at s2 = tk_now k + GATEWAY_KEEPALIVE_INTERVAL_MS ->
    Forall (fun x => Exists (fun k => tk_now k = x.1 /\ nothing_held k) (k :: ticks)) (keepalive_run s2 ticks) /\
    map snd (keepalive_run s2 ticks) = alternating (keepalive_dx s2) (length (keepalive_run s2 ticks)) /\
    spaced (tk_now k + GATEWAY_KEEPALIVE_INTERVAL_MS) (keepalive_run s2 ticks)).
  { intros s2 Hd2 Hn2. destruct (IH s2 Hd2 Hc) as (H1 & H2 & H3). rewrite Hn2 in H3.
    split_and!; [|done|done]. eapply Forall_impl; [|exact H1]. intros x Hx. by apply Exists_cons_tl. }
  assert (Hquiet : forall s2, keepalive_dx s2 = keepalive_dx s -> next_keepalive_at s2 = next_keepalive_at s1 ->
    let l := keepalive_run s2 ticks in
    Forall (fun x => Exists (fun k => tk_now k = x.1 /\ nothing_held k) (k :: ticks)) l /\
    map snd l = alternating (keepalive_dx s) (length l) /\ spaced (next_keepalive_at s) l).
  { intros s2 Hd2 Hn2. destruct (Hnext s2) as (H1 & H2 & H3); [by rewrite Hd2|congruence|].
    rewrite Hd2 in H2. split_and!; [done|done|]. eapply spaced_weaken; [|done].
    unfold GATEWAY_KEEPALIVE_INTERVAL_MS. lia. }
  destruct (match tk_router k with Some r => router_idle r | None => true end && tk_http_idle k) eqn:Ei;
    [|by apply (Hquiet s1)].
  destruct (tk_accepted k); [|by apply (Hquiet s1)].
  apply andb_true_iff in Ei as [Eidle Ehttp].
  destruct (Hnext (keepalive_sent true s1)) as (H1 & H2 & H3);
    [destruct Hdx as [E|E]; cbn; rewrite E; [by right|by left]|done|].
  split_and!.
  - constructor; [|done]. apply Exists_cons_hd. split; [done|]. split; [done|].
    intros r Er. rewrite Er in Eidle. by apply router_idle_spec.
  - cbn [map length alternating snd]. rewrite H2. f_equal. f_equal.
    cbn. destruct Hdx as [E|E]; by rewrite E.
  - by split.
Qed.

(** The keepalive: over any sequence of heartbeats it moves the pointer
    only when neither the RDP client nor the HTTP interface holds a button, a
    modifier or Control+Space at the time of the check, the accepted motions go
    one unit right and left in turn, so the pointer never drifts by more than
    one, and they are at least ten seconds apart. *)
Theorem keepalive_spec now ticks :
  0 <= now < 2 ^ 63 -> Forall (fun k => 0 <= tk_now k < 2 ^ 63) ticks ->
  let l := keepalive_run (gateway_start now) ticks in
  Forall (fun x => Exists (fun k => tk_now k = x.1 /\ nothing_held k) ticks) l /\
  map snd l = alternating 1 (length l) /\ spaced (now + GATEWAY_KEEPALIVE_INTERVAL_MS) l.
Proof.
  intros Hn Hc. destruct (keepalive_run_spec ticks (gateway_start now)) as (H1 & H2 & H3);
    [by left|done|]. split_and!; [done|done|].
  cbn [gateway_start next_keepalive_at] in H3. rewrite u64_id in H3; [done|].
  unfold is_u64, GATEWAY_KEEPALIVE_INTERVAL_MS. lia.
Qed.

(** ** The snapshot reader *)

Section Reader.
Context (can_grow : nat -> bool).

Definition is_idr (u : VideoSourceAccessUnit) : bool := has_nal (nal_types u) 5.

(** The decoder has all references of the newest access unit: going back, every
    unit was taken and none followed a loss, down to an IDR that was taken. *)
Fixpoint references_taken (newest_first : list (VideoSourceAccessUnit * reader_result)) : Prop :=
  match newest_first with
  | [] => False
  | (u, result) :: older =>
      (length (data u) = 0%nat /\ references_taken older) \/
      exists d, result = ReaderPush d true /\
        (is_idr u = true \/ (packet_loss u = false /\ references_taken older))
  end.

Definition push_ok (older : list (VideoSourceAccessUnit * reader_result))
    (x : VideoSourceAccessUnit * reader_result) : Prop :=
  forall d ok, x.2 = ReaderPush d ok ->
    is_idr x.1 = true \/ (packet_loss x.1 = false /\ references_taken older).

Lemma http_unit_spec h u pushed stop r result r' :
  (reader_need_idr r = false -> references_taken h) ->
  http_unit can_grow u pushed stop r = (result, r') ->
  push_ok h (u, result) /\
  (stop = false -> result <> ReaderBreak -> reader_need_idr r' = false -> references_taken ((u, result) :: h)).
Proof.
  intros Hr H. unfold http_unit in H. fold (is_idr u) in H.
  destruct (Nat.eqb_spec (length (data u)) 0) as [Hl|Hl].
  { simplify_eq. split; [done|]. intros _ _ Hn. left. auto. }
  set (need := if packet_loss u then true else reader_need_idr r) in *.
  assert (Hneed : need = false -> packet_loss u = false /\ references_taken h)
    by (unfold need; destruct (packet_loss u); [discriminate|auto]).
  destruct (need && negb (is_idr u)) eqn:E1.
  { injection H as <- <-. split; [by intros ? ? [=]|]. cbn. intros _ _ Hn. rewrite Hn in E1. discriminate E1. }
  assert (Hpush : is_idr u = true \/ (packet_loss u = false /\ references_taken h)).
  { destruct (is_idr u); [by left|]. right. apply Hneed. by destruct need. }
  destruct (if is_idr u then _ else _) as [[payload ps]|]; [|by simplify_eq].
  destruct (h264_ensure_annexb _ _ _) as [[d fb]|]; [|by simplify_eq].
  simplify_eq. split; [by intros d' ok [= <- <-]|]. cbn. intros -> _ Hn. right. exists d.
  destruct pushed; [|done]. auto.
Qed.

Lemma http_reader_loop_spec reads : forall h r,
  (reader_need_idr r = false -> references_taken h) ->
  forall pre x post, http_reader_loop can_grow reads r = pre ++ x :: post -> push_ok (rev pre ++ h) x.
Proof.
  induction reads as [|[u pushed stop|yielded|] reads IH]; intros h r Hr pre x post H;
    cbn [http_reader_loop] in H; [by destruct pre| |destruct yielded; [by destruct pre|by eapply IH]|by destruct pre].
  destruct (http_unit can_grow u pushed stop r) as [result r'] eqn:Eu.
  destruct (http_unit_spec h u pushed stop r result r' Hr Eu) as [Hp Hn].
  destruct pre as [|y pre]; simplify_eq/=; [done|].
  rewrite <- app_assoc. destruct result; [destruct stop|destruct stop|]; try (by destruct pre).
  all: eapply (IH ((u, _) :: h) r'); [|eassumption]; by apply Hn.
Qed.

(** C33: a decodable stream for the snapshots: in every round, whatever the
    network loses and the decoder refuses, the decoder is only given IDR frames
    and frames behind which it has taken every access unit since the last IDR,
    with no loss between. *)
Theorem http_reader_decodable rounds round pre u d ok post :
  round ∈ http_video_thread can_grow rounds -> round = pre ++ (u, ReaderPush d ok) :: post ->
  is_idr u = true \/ (packet_loss u = false /\ references_taken (rev pre)).
Proof.
  intros Hin ->. unfold http_video_thread in Hin.
  apply list_elem_of_fmap in Hin as (x & Hx & _). unfold http_video_round in Hx.
  destruct (_ || _); [by destruct pre|]. symmetry in Hx.
  pose proof (http_reader_loop_spec (round_reads x) [] reader_init ltac:(done) pre _ post Hx) as Hp.
  rewrite app_nil_r in Hp. by eapply Hp.
Qed.
End Reader.

(** ** Witnesses *)

Definition held_router : InputRouter := MkRouter 1920 1080 false 1 0 false.
Definition idle_router : InputRouter := MkRouter 1920 1080 false 0 0 false.

Definition sample_ticks : list tick :=
  [MkTick 5000 None true true; MkTick 10100 (Some held_router) true true;
   MkTick 20200 (Some idle_router) true true; MkTick 25000 None true true; MkTick 30300 None true true].

Lemma keepalive_spec_witness :
  spaced (100 + GATEWAY_KEEPALIVE_INTERVAL_MS) (keepalive_run (gateway_start 100) sample_ticks) /\
  map fst (keepalive_run (gateway_start 100) sample_ticks) = [20200; 30300].
Proof.
  split; [|vm_compute; reflexivity].
  apply (keepalive_spec 100 sample_ticks); [lia|]. repeat constructor; cbn; lia.
Defined.

Definition key_bytes : bytes := [0; 0; 0; 1; 101; 3].
Definition delta_bytes : bytes := [0; 0; 0; 1; 65; 4].
Definition key_access_unit : VideoSourceAccessUnit := MkUnit key_bytes 0 1 0 (h264_nal_type_mask key_bytes) 1 false false.
Definition delta_access_unit (loss : bool) : VideoSourceAccessUnit :=
  MkUnit delta_bytes 0 1 0 (h264_nal_type_mask delta_bytes) 1 loss loss.

Definition sample_round : http_round :=
  MkRound false true true
    [HttpUnit (delta_access_unit false) true false; HttpUnit key_access_unit true false;
     HttpAgain false; HttpUnit (delta_access_unit false) true false; HttpUnit (delta_access_unit true) true false].

Lemma http_reader_decodable_witness :
  references_taken (rev [(delta_access_unit false, ReaderSkip); (key_access_unit, ReaderPush key_bytes true)]).
Proof.
  destruct (http_reader_decodable (fun _ => true) [sample_round]
    [(delta_access_unit false, ReaderSkip); (key_access_unit, ReaderPush key_bytes true);
     (delta_access_unit false, ReaderPush delta_bytes true); (delta_access_unit true, ReaderSkip)]
    [(delta_access_unit false, ReaderSkip); (key_access_unit, ReaderPush key_bytes true)]
    (delta_access_unit false) delta_bytes true [(delta_access_unit true, ReaderSkip)]) as [H|[_ H]].
  - apply list_elem_of_here.
  - reflexivity.
  - vm_compute in H. discriminate H.
  - exact H.
Defined.

(** *** Deviation *)

(** The check of the keepalive and its send are two steps.  A press that is
    routed in between is followed by a motion that carries no button. *)
Example keepalive_after_press :
  let '(due, s) := keepalive_due 10100 (Some idle_router) true (gateway_start 0) in
  let '(pressed, press) := input_router_relative_pointer idle_router 0 0 0x9000 false in
  due = true /\ r_pointer_buttons pressed = 1 /\
  byte_at (msg_payload (router_wire press)) 4 = 1 /\
  byte_at (msg_payload (keepalive_message (keepalive_dx s))) 4 = 0.
Proof. vm_compute. split_and!; reflexivity. Qed.
