(* ===== verification/GatewayServer.v ===== *)
(** * Callbacks and services of the gateway ([src/src/gateway_server.c])

    What the server does when its parts call it: the control thread, the events of
    the transport, the heartbeat with its statistics, the requests of the HTTP
    interface.  The transport's operations are those of [AgentTransport]. *)

From stdpp Require Import gmap sorting.
From S2P Require Import Prelude Protocol InputRouter Gateway Threads AgentTransport.

Local Notation "'let*' x ':=' m 'in' k" := (pbind m (fun x => k))
  (at level 100, x name, m at level 100, k at level 200, right associativity).
Local Notation "m ;; k" := (pbind m (fun _ => k))
  (at level 100, k at level 200, right associativity).

Section Server.
(** Which callbacks the transport has. *)
Variables (on_event on_send_started : bool).

(** ** Requests to the agent *)

Definition server_send_control (type : NanokvmControlType) (payload : bytes) : tprog bool :=
  agent_transport_send on_send_started (Message (control_code type) payload).

Definition server_set_stream_requested (requested : bool) : tprog bool :=
  agent_transport_set_stream_requested on_send_started requested.

(** [http_api]: whether there is an HTTP interface. *)
Definition restore_http_stream (http_api : bool) : tprog unit :=
  if http_api then (server_set_stream_requested true ;; Ret tt) else Ret tt.

(** The epoch is that of the video source, and is not used. *)
Definition request_video_idr (video_source_epoch : Z) : tprog bool :=
  server_send_control CONTROL_IDR_REQUEST [].

(** ** The control thread *)

(** One result of [accept] per round of the loop: a descriptor, or a failure. *)
Fixpoint control_thread (fuel : nat) (accepts : list (option Z)) : tprog unit :=
  match accepts with
  | [] => Ret tt
  | None :: accepts => control_thread fuel accepts
  | Some fd :: accepts => control_connection on_event on_send_started fuel fd ;; control_thread fuel accepts
  end.

(** [open_control_listener]: the descriptor, and those that were closed. *)
Definition open_control_listener (socket : Z) (address_ok bound listening : bool) : Z * list Z :=
  if socket <? 0 then (-1, [])
  else if negb address_ok || negb bound || negb listening then (-1, [socket])
  else (socket, []).

(** ** Events of the transport *)

(** The result: whether the shutdown event of the active client is set; [active] is
    whether there is one with such an event when the server's lock is taken. *)
Definition on_transport_event (event : AgentTransportEvent) (epoch : Z) (active : bool) : tprog bool :=
  match event with
  | EventDisconnected => Ret false
  | EventHeartbeatTimeout =>
      let* current := agent_transport_is_current_epoch epoch in
      if negb current then Ret false else Ret active
  end.

(** ** Heartbeat and statistics *)

Definition STATS_LOG_INTERVAL_MS : Z := 5000.

(** Whether a line of statistics is due, and the new [last_stats_log_at]; the line
    is left out when [getrusage] fails. *)
Definition stats_due (now last_stats_log_at : Z) (usage_ok : bool) : bool * Z :=
  if u64 (now - last_stats_log_at) <? STATS_LOG_INTERVAL_MS then (false, last_stats_log_at)
  else (usage_ok, now).

(** [server_keepalive] over the transport: the decision, then the send. *)
Definition keepalive_over_transport (now : Z) (router : option InputRouter) (http_idle : bool) (s : Server)
    : tprog Server :=
  let '(due, s) := keepalive_due now router http_idle s in
  if due then
    let* ok := agent_transport_send on_send_started (keepalive_message (keepalive_dx s)) in
    Ret (keepalive_sent ok s)
  else Ret s.

(** [server_heartbeat]: the server, the statistics of the agent if a line is due, and
    when the last one was. *)
Definition server_heartbeat (now : Z) (router : option InputRouter) (http_idle : bool) (s : Server)
    (last_stats_log_at : Z) (usage_ok : bool) : tprog (Server * option AgentTransportStats * Z) :=
  agent_transport_heartbeat on_event on_send_started now ;;
  let* s := keepalive_over_transport now router http_idle s in
  let '(due, last) := stats_due now last_stats_log_at usage_ok in
  if due then let* stats := agent_transport_get_stats in Ret (s, Some stats, last)
  else Ret (s, None, last).

(** ** Decoded frames *)

(** [on_http_decoded_frame]: whether the frame is published, and the result. *)
Definition on_http_decoded_frame (stop_requested http_api : bool) : bool * bool :=
  if stop_requested || negb http_api then (false, false) else (true, true).

(** ** What holds of them *)

(** An event changes nothing of the transport, and ends a client's session only if it
    is a timeout of the connection that is current then. *)
Lemma transport_event_current event epoch active i c :
  match on_transport_event event epoch active with
  | Ret r => r = false /\ event = EventDisconnected
  | Act f k => forall x c', f i c = Some (x, c') -> c' = set_tr c (tr c) /\
      k x = Ret (is_current_epoch_locked epoch (tr c) && active)
  end.
Proof.
  destruct event; [done|]. cbn. intros x c' [= <- <-]. split; [done|].
  by destruct (is_current_epoch_locked epoch (tr c)).
Qed.

End Server.

(** The lines of statistics of a run of heartbeats. *)
Fixpoint stats_lines (last : Z) (ticks : list (Z * bool)) : list Z :=
  match ticks with
  | [] => []
  | (now, ok) :: ticks =>
      let '(due, last') := stats_due now last ok in
      if due then now :: stats_lines last' ticks else stats_lines last' ticks
  end.

Fixpoint apart_by (d t0 : Z) (l : list Z) : Prop :=
  match l with [] => True | t :: l => t0 + d <= t /\ apart_by d t l end.

Lemma apart_by_weaken d t0 t1 l : t0 <= t1 -> apart_by d t1 l -> apart_by d t0 l.
Proof. destruct l as [|t l]; [done|]. cbn. intros ? [? ?]. split; [lia|done]. Qed.

(** Lines of statistics are at least five seconds apart. *)
Lemma stats_lines_apart ticks : forall last,
  0 <= last -> Forall (fun t => last <= t.1 < 2 ^ 64) ticks -> StronglySorted Z.le (map fst ticks) ->
  apart_by STATS_LOG_INTERVAL_MS last (stats_lines last ticks).
Proof.
  induction ticks as [|[now ok] ticks IH]; intros last Hl Hr Hs; [done|]. cbn [stats_lines].
  apply Forall_cons_iff in Hr as [Hn Hr]. cbn in Hn. cbn [map] in Hs. apply StronglySorted_inv in Hs as [Hs Hle].
  unfold stats_due, u64. rewrite Z.mod_small by lia. cbn [fst] in *.
  assert (Hr' : Forall (fun t => now <= t.1 < 2 ^ 64) ticks).
  { rewrite Forall_forall in *. intros t Ht. specialize (Hr t Ht).
    specialize (Hle t.1 ltac:(by apply in_map)). lia. }
  destruct (Z.ltb_spec (now - last) STATS_LOG_INTERVAL_MS); [by apply IH|].
  destruct ok; [split; [lia|]; apply IH; [lia|done..]|].
  apply (apart_by_weaken _ last now); [lia|]. apply IH; [lia|done..].
Qed.
