(* ===== verification/Handoff.v ===== *)
(** * The readers of the video and how they hand it over
    ([src/src/gateway_server.c], [src/src/rdp_bitmap.c])

    [http_video_thread] decodes for the snapshots whenever it can have the lease of
    the device session; [bitmap_video_thread], the decoding thread of an RDP client,
    takes it away by signalling [http_yield_event].  Each thread is a machine whose
    steps are its accesses to what the threads share: the session, the event and the
    two stop flags.  A schedule interleaves the machines at will. *)

From S2P Require Import Prelude H264 RtpH264 RtpClient VideoSource DeviceSession RdpBitmap Gateway.

(** ** State *)

(** Where [http_video_thread] is. *)
Inductive http_at :=
| HttpTop                             (* the head of the outer loop *)
| HttpAcquiring                       (* device_session_acquire *)
| HttpStarting                        (* ffmpeg_decoder_start_raw *)
| HttpRefused                         (* the branch of a failed start *)
| HttpChecking                        (* the head of the inner loop *)
| HttpReading                         (* device_session_read *)
| HttpCheckAgain                      (* a read that timed out *)
| HttpHas (u : VideoSourceAccessUnit) (* a unit to decode *)
| HttpLeaving                         (* behind the inner loop *)
| HttpDone.

(** Where [bitmap_video_thread] is; [attempt] is the loop's counter. *)
Inductive bitmap_at :=
| BitmapSet                             (* SetEvent *)
| BitmapTry (attempt : nat)             (* the head of the loop, device_session_acquire *)
| BitmapStarting (attempt : nat)        (* ffmpeg_decoder_start_raw *)
| BitmapUndo (attempt : nat)            (* behind a failed attempt *)
| BitmapReset (ready : bool)            (* ResetEvent *)
| BitmapLoop                            (* the head of the reading loop *)
| BitmapReading                         (* device_session_read *)
| BitmapReadFailed (again : bool)       (* behind a failed read *)
| BitmapHas (u : VideoSourceAccessUnit) (* a unit to decode *)
| BitmapPush (d : bytes)                (* client_should_stop, ffmpeg_decoder_push *)
| BitmapOut                             (* out: *)
| BitmapDone.

Section Readers.
Context {R : Type} {ops : VideoSourceRtpOps R} {laws : RtpOpsLaws R}.
Context {I : Type} (request_idr : option (I -> Z -> bool * I)).
Context (can_grow : nat -> bool).

Record shared := MkShared {
  core : world (R := R) (I := I);
  yield_signalled : bool;
  stop_requested : bool;
  client_stopping : bool;
  (* http_video_thread *)
  http_pc : http_at;
  http_decoder : bool;
  http_reader : HttpReader;
  (* bitmap_video_thread *)
  bitmap_pc : bitmap_at;
  bitmap_decoder : bool;
  bitmap_fallback : H264Buffer;
  bitmap_stats : UnitStats;
  (* what the decoders were given *)
  http_pushed : list bytes;
  bitmap_pushed : list bytes }.

Definition set_core (g : shared) (w : world) : shared :=
  MkShared w (yield_signalled g) (stop_requested g) (client_stopping g) (http_pc g) (http_decoder g)
    (http_reader g) (bitmap_pc g) (bitmap_decoder g) (bitmap_fallback g) (bitmap_stats g)
    (http_pushed g) (bitmap_pushed g).
Definition set_yield (g : shared) (b : bool) : shared :=
  MkShared (core g) b (stop_requested g) (client_stopping g) (http_pc g) (http_decoder g)
    (http_reader g) (bitmap_pc g) (bitmap_decoder g) (bitmap_fallback g) (bitmap_stats g)
    (http_pushed g) (bitmap_pushed g).
Definition set_stop_requested (g : shared) : shared :=
  MkShared (core g) (yield_signalled g) true (client_stopping g) (http_pc g) (http_decoder g)
    (http_reader g) (bitmap_pc g) (bitmap_decoder g) (bitmap_fallback g) (bitmap_stats g)
    (http_pushed g) (bitmap_pushed g).
(** [client_stop]. *)
Definition stop_client (g : shared) : shared :=
  MkShared (core g) (yield_signalled g) (stop_requested g) true (http_pc g) (http_decoder g)
    (http_reader g) (bitmap_pc g) (bitmap_decoder g) (bitmap_fallback g) (bitmap_stats g)
    (http_pushed g) (bitmap_pushed g).
Definition set_http (g : shared) (pc : http_at) (decoder : bool) (r : HttpReader) : shared :=
  MkShared (core g) (yield_signalled g) (stop_requested g) (client_stopping g) pc decoder r
    (bitmap_pc g) (bitmap_decoder g) (bitmap_fallback g) (bitmap_stats g) (http_pushed g) (bitmap_pushed g).
Definition http_goto (g : shared) (pc : http_at) : shared := set_http g pc (http_decoder g) (http_reader g).
Definition set_bitmap (g : shared) (pc : bitmap_at) (decoder : bool) (f : H264Buffer) (st : UnitStats)
    : shared :=
  MkShared (core g) (yield_signalled g) (stop_requested g) (client_stopping g) (http_pc g) (http_decoder g)
    (http_reader g) pc decoder f st (http_pushed g) (bitmap_pushed g).
Definition bitmap_goto (g : shared) (pc : bitmap_at) : shared :=
  set_bitmap g pc (bitmap_decoder g) (bitmap_fallback g) (bitmap_stats g).
Definition log_http (g : shared) (d : bytes) : shared :=
  MkShared (core g) (yield_signalled g) (stop_requested g) (client_stopping g) (http_pc g) (http_decoder g)
    (http_reader g) (bitmap_pc g) (bitmap_decoder g) (bitmap_fallback g) (bitmap_stats g)
    (http_pushed g ++ [d]) (bitmap_pushed g).
Definition log_bitmap (g : shared) (d : bytes) : shared :=
  MkShared (core g) (yield_signalled g) (stop_requested g) (client_stopping g) (http_pc g) (http_decoder g)
    (http_reader g) (bitmap_pc g) (bitmap_decoder g) (bitmap_fallback g) (bitmap_stats g)
    (http_pushed g) (bitmap_pushed g ++ [d]).

(** ** Steps *)

(** The leases are the locals of the threads: slot 0 of the HTTP reader, slot 1 of
    the RDP client's. *)
Definition HTTP : nat := 0.
Definition RDP : nat := 1.

Definition acquire (k : nat) (c : DeviceSessionConsumer) (g : shared) : bool * shared :=
  let w := core g in
  let '(ok, s, l, rc, i) := device_session_acquire request_idr (w_session w) c (w_rc w) (w_idr w) in
  (ok, set_core g (World s (<[k := l]> (w_leases w)) rc i)).

Definition release (k : nat) (g : shared) : shared := set_core g (step request_idr (core g) (Release k)).

(** A read, with fuel for all that the transport has: the unit, if there is one. *)
Definition read (k : nat) (g : shared) : option VideoSourceAccessUnit * shared :=
  let w := core g in
  let fuel := S (rtp_pending (w_rc w)) in
  (match device_session_read request_idr fuel (w_session w) (slot w k) (w_rc w) (w_idr w) with
   | SourceUnit u _ _ _ => Some u
   | _ => None
   end,
   set_core g (step request_idr w (ReadUnit k fuel))).

(** What the libraries answer in a step: whether a decoder starts or takes a unit,
    whether the error of a failed read is a timeout, the clock. *)
Record answers := MkAnswers { decoder_ok : bool; again : bool; clock : Z }.

(** The next step of [http_video_thread].  A step has one access to what the threads
    share; stopping the decoder, which is the thread's own, goes with the release of the
    lease behind it. *)
Definition http_video_step (a : answers) (g : shared) : shared :=
  match http_pc g with
  | HttpTop =>
      if stop_requested g then http_goto g HttpDone
      else if yield_signalled g then g
      else http_goto g HttpAcquiring
  | HttpAcquiring =>
      let '(ok, g) := acquire HTTP DEVICE_SESSION_CONSUMER_HTTP g in
      http_goto g (if ok then HttpStarting else HttpRefused)
  | HttpStarting =>
      if decoder_ok a then set_http g HttpChecking true reader_init
      else http_goto g HttpRefused
  | HttpRefused =>
      set_http (release HTTP g) HttpTop false (http_reader g)
  | HttpChecking =>
      if stop_requested g || yield_signalled g then http_goto g HttpLeaving
      else http_goto g HttpReading
  | HttpReading =>
      let '(unit, g) := read HTTP g in
      match unit with
      | Some u => http_goto g (HttpHas u)
      | None =>
          if stop_requested g then http_goto g HttpLeaving
          else if again a then http_goto g HttpCheckAgain
          else http_goto g HttpLeaving
      end
  | HttpCheckAgain =>
      if yield_signalled g then http_goto g HttpLeaving else http_goto g HttpChecking
  | HttpHas u =>
      let '(result, r) := http_unit can_grow u (decoder_ok a) (stop_requested g) (http_reader g) in
      match result with
      | ReaderSkip => set_http g HttpChecking (http_decoder g) r
      | ReaderPush d _ => set_http (log_http g d) HttpChecking (http_decoder g) r
      | ReaderBreak => set_http g HttpLeaving (http_decoder g) r
      end
  | HttpLeaving =>
      set_http (release HTTP g) HttpTop false (http_reader g)
  | HttpDone => g
  end.

(** The next step of [bitmap_video_thread]. *)
Definition bitmap_video_step (a : answers) (g : shared) : shared :=
  match bitmap_pc g with
  | BitmapSet => bitmap_goto (set_yield g true) (BitmapTry 0)
  | BitmapTry n =>
      if negb (n <? 10)%nat || client_stopping g then bitmap_goto g (BitmapReset false)
      else
        let '(ok, g) := acquire RDP DEVICE_SESSION_CONSUMER_BITMAP g in
        bitmap_goto g (if ok then BitmapStarting n else BitmapUndo n)
  | BitmapStarting n =>
      if decoder_ok a then set_bitmap g (BitmapReset true) true (bitmap_fallback g) (bitmap_stats g)
      else bitmap_goto g (BitmapUndo n)
  | BitmapUndo n =>
      set_bitmap (release RDP g) (BitmapTry (S n)) false (bitmap_fallback g) (bitmap_stats g)
  | BitmapReset ready =>
      let g := set_yield g false in
      if ready then bitmap_goto g BitmapLoop else bitmap_goto (stop_client g) BitmapOut
  | BitmapLoop => if client_stopping g then bitmap_goto g BitmapOut else bitmap_goto g BitmapReading
  | BitmapReading =>
      let '(unit, g) := read RDP g in
      match unit with
      | Some u => bitmap_goto g (BitmapHas u)
      | None => bitmap_goto g (BitmapReadFailed (again a))
      end
  | BitmapReadFailed timed_out =>
      if client_stopping g then bitmap_goto g BitmapOut
      else if timed_out then bitmap_goto g BitmapLoop
      else bitmap_goto (stop_client g) BitmapOut
  | BitmapHas u =>
      match bitmap_video_unit can_grow u (clock a) (bitmap_fallback g) (bitmap_stats g) with
      | None => bitmap_goto g BitmapLoop
      | Some (DecodeStop, f, st) => set_bitmap (stop_client g) BitmapOut (bitmap_decoder g) f st
      | Some (DecodePush d, f, st) => set_bitmap g (BitmapPush d) (bitmap_decoder g) f st
      end
  | BitmapPush d =>
      if client_stopping g then bitmap_goto g BitmapLoop
      else if decoder_ok a then bitmap_goto (log_bitmap g d) BitmapLoop
      else bitmap_goto (stop_client (log_bitmap g d)) BitmapOut
  | BitmapOut =>
      set_bitmap (release RDP g) BitmapDone false (h264_buffer_free (bitmap_fallback g)) (bitmap_stats g)
  | BitmapDone => g
  end.

(** A new client starts its thread behind the end of the last one's. *)
Definition next_client (g : shared) : shared :=
  match bitmap_pc g with
  | BitmapDone =>
      MkShared (core g) (yield_signalled g) (stop_requested g) false (http_pc g) (http_decoder g)
        (http_reader g) BitmapSet false buffer_empty (MkUnitStats 0 0 0 0) (http_pushed g) []
  | _ => g
  end.

(** A move: a step of a thread, a stop of the client or of the gateway by another
    thread, the next client. *)
Inductive move :=
| HttpMove (a : answers) | BitmapMove (a : answers) | ClientStops | GatewayStops | NextClient.

Definition make_move (g : shared) (m : move) : shared :=
  match m with
  | HttpMove a => http_video_step a g
  | BitmapMove a => bitmap_video_step a g
  | ClientStops => stop_client g
  | GatewayStops => set_stop_requested g
  | NextClient => next_client g
  end.

Definition moves (g : shared) (ms : list move) : shared := fold_left make_move ms g.

Definition readers_init (s : VideoSource) (port : Z) (rc : R) (i : I) : shared :=
  MkShared (initial_world s port 2 rc i) false false false HttpTop false reader_init
    BitmapSet false buffer_empty (MkUnitStats 0 0 0 0) [] [].

End Readers.
