(* ===== verification/HandoffSpec.v ===== *)
(** * Handing the video over

    Whatever the schedule, the threads that read the video never hold the device at
    the same time and leave nothing behind; a client that asks for it gets it after a
    few steps of the HTTP reader. *)

From S2P Require Import Prelude H264 RtpH264 RtpClient VideoSource RdpBitmap Gateway DeviceSession Handoff.

Section Spec.
Context {R : Type} {ops : VideoSourceRtpOps R} {laws : RtpOpsLaws R}.
Context {I : Type} (request_idr : option (I -> Z -> bool * I)).
Context (can_grow : nat -> bool).

Local Abbreviation core_step := (step request_idr).
Local Abbreviation run_moves := (moves request_idr can_grow).

(** ** Who has the lease *)

(** The session after [n] operations, with the slot that has its lease. *)
Record held (n : nat) (w : world (R := R) (I := I)) (h : option nat) : Prop := {
  hd_ok : world_ok w n;
  hd_slots : length (w_leases w) = 2%nat;
  hd_holder : match h with
              | None => leased (w_session w) = false
              | Some k => leased (w_session w) = true /\ active w k
              end }.

Lemma held_active n w h k : held n w h -> active w k <-> h = Some k.
Proof.
  intros [Hok _ Hh]. split.
  - intros Ha. destruct h as [j|].
    + f_equal. by apply (active_unique w n); [|apply Hh|].
    + unfold active, lease_is_active in Ha. rewrite Hh in Ha. by destruct (_ || _).
  - intros ->. apply Hh.
Qed.

Lemma world_ok_weaken (w : world (R := R) (I := I)) n : world_ok w n -> world_ok w (S n).
Proof. intros (? & ? & ? & ?). split_and!; try done; lia. Qed.

Lemma held_weaken n w h : held n w h -> held (S n) w h.
Proof. intros []. split; [by apply world_ok_weaken|done..]. Qed.

(** An acquire succeeds only on a free session, and then takes it. *)
Lemma held_acquire n w h k c ok s l rc i :
  held n w h -> Z.of_nat (S n) < 2 ^ 64 -> (k < 2)%nat -> h <> Some k ->
  device_session_acquire request_idr (w_session w) c (w_rc w) (w_idr w) = (ok, s, l, rc, i) ->
  let w' := World s (<[k := l]> (w_leases w)) rc i in
  (ok = true -> h = None /\ held (S n) w' (Some k)) /\ (ok = false -> held (S n) w' h).
Proof.
  intros Hh Hn Hk Hne E w'.
  assert (Hok : world_ok w' (S n)).
  { pose proof (world_ok_step request_idr w (Acquire k c) n (hd_ok _ _ _ Hh) Hn) as H. cbn [step] in H.
    rewrite E in H. exact H. }
  assert (Hlen : length (w_leases w') = 2%nat) by (simpl; rewrite length_insert; exact (hd_slots _ _ _ Hh)).
  assert (Hslot : slot w' k = l).
  { unfold w'. rewrite slot_insert, decide_True; [done|]. rewrite (hd_slots _ _ _ Hh). lia. }
  unfold device_session_acquire in E. destruct (leased (w_session w)) eqn:El.
  - simplify_eq. split; [done|]. intros _. split; [done..|]. destruct h as [j|]; [|destruct Hh as [_ _ Hl]; congruence].
    destruct Hh as [_ _ [_ Ha]]. split; [done|]. unfold active in *.
    unfold w'. rewrite slot_insert, decide_False; [done|]. intros [-> _]. by apply Hne.
  - destruct h as [j|]; [destruct Hh as [_ _ [? _]]; congruence|].
    destruct (video_source_open _ _ _ _ _) as [[[[] s'] rc'] i']; simplify_eq; split; try done.
    intros _. split; [done|]. split; [done..|]. split; [done|]. unfold active, lease_is_active.
    rewrite Hslot. cbn. rewrite Z.eqb_refl.
    assert (Hg : forall x, ((if x =? 0 then 1 else x) =? 0) = false).
    { intros x. destruct (Z.eqb_spec x 0); [done|]. by apply Z.eqb_neq. }
    by rewrite Hg.
Qed.

(** A release frees the session if it is the holder's. *)
Lemma held_release n w h k :
  held n w h -> Z.of_nat (S n) < 2 ^ 64 -> (k < 2)%nat ->
  held (S n) (core_step w (Release k)) (if decide (h = Some k) then None else h).
Proof.
  intros Hh Hn Hk. pose proof (world_ok_step request_idr w (Release k) n (hd_ok _ _ _ Hh) Hn) as Hok.
  assert (Hlen : length (w_leases (core_step w (Release k))) = 2%nat).
  { simpl. destruct (device_session_release _ _ _) as [[s l] rc]. simpl. rewrite length_insert. exact (hd_slots _ _ _ Hh). }
  split; [done..|]. case_decide as Hd.
  - subst. destruct Hh as [_ _ [Hl Ha]]. unfold active, lease_is_active in Ha.
    destruct (lease_session (slot w k)) eqn:E; [|done]. simpl in Ha. destruct (_ =? 0); [done|].
    simpl. unfold device_session_release. rewrite E, Ha. simpl.
    by destruct (video_source_close _ _).
  - assert (Hna : ~ active w k) by (by rewrite (held_active n w h)).
    destruct (release_inactive request_idr w n k (hd_ok _ _ _ Hh) Hna) as [Es _].
    destruct h as [j|]; [|rewrite Es; apply Hh].
    destruct Hh as [_ _ [Hl Ha]]. rewrite Es. split; [done|]. unfold active in *. rewrite Es.
    replace (slot (core_step w (Release k)) j) with (slot w j); [done|].
    simpl. destruct (device_session_release _ _ _) as [[s l] rc].
    rewrite slot_insert, decide_False; [done|]. intros [-> _]. by apply Hd.
Qed.

Lemma held_read n w h k fuel :
  held n w h -> Z.of_nat (S n) < 2 ^ 64 -> held (S n) (core_step w (ReadUnit k fuel)) h.
Proof.
  intros Hh Hn. pose proof (world_ok_step request_idr w (ReadUnit k fuel) n (hd_ok _ _ _ Hh) Hn) as Hok.
  destruct Hh as [_ Hs Hh]. split; [done| |];
    simpl; destruct (device_session_read _ _ _ _ _ _); done.
Qed.

(** ** The invariant of all schedules *)

(** What the place of a thread says about the holder. *)
Definition http_view (pc : http_at) (h : option nat) : Prop :=
  match pc with
  | HttpTop | HttpAcquiring | HttpDone => h <> Some HTTP
  | HttpRefused => True
  | _ => h = Some HTTP
  end.
Definition bitmap_view (pc : bitmap_at) (h : option nat) : Prop :=
  match pc with
  | BitmapSet | BitmapTry _ | BitmapReset false | BitmapDone => h <> Some RDP
  | BitmapUndo _ | BitmapOut => True
  | _ => h = Some RDP
  end.

(** Between the set and the reset of the event. *)
Definition acquiring (pc : bitmap_at) : bool :=
  match pc with
  | BitmapTry _ | BitmapStarting _ | BitmapUndo _ | BitmapReset _ => true
  | _ => false
  end.

(** The places with a decoder. *)
Definition http_decodes (pc : http_at) : bool :=
  match pc with
  | HttpChecking | HttpReading | HttpCheckAgain | HttpHas _ | HttpLeaving => true
  | _ => false
  end.
Definition bitmap_decodes (pc : bitmap_at) : bool :=
  match pc with
  | BitmapReset true | BitmapLoop | BitmapReading | BitmapReadFailed _ | BitmapHas _ | BitmapPush _ => true
  | _ => false
  end.

Record readers_ok (n : nat) (g : shared (R := R) (I := I)) : Prop := {
  rd_held : exists h, held n (core g) h /\ http_view (http_pc g) h /\ bitmap_view (bitmap_pc g) h;
  rd_yield : yield_signalled g = acquiring (bitmap_pc g);
  rd_http : http_decoder g = http_decodes (http_pc g);
  rd_bitmap : bitmap_pc g <> BitmapOut -> bitmap_decoder g = bitmap_decodes (bitmap_pc g) }.

(** A thread that moves without touching the session. *)
Lemma readers_local n g g' h :
  held n (core g) h -> core g' = core g -> http_view (http_pc g') h -> bitmap_view (bitmap_pc g') h ->
  yield_signalled g' = acquiring (bitmap_pc g') -> http_decoder g' = http_decodes (http_pc g') ->
  (bitmap_pc g' <> BitmapOut -> bitmap_decoder g' = bitmap_decodes (bitmap_pc g')) -> readers_ok (S n) g'.
Proof. intros Hh E ????. split; try done. exists h. rewrite E. split_and!; try done. by apply held_weaken. Qed.

Lemma views_exclusive n g h : held n (core g) h ->
  http_view (http_pc g) h -> bitmap_view (bitmap_pc g) h ->
  http_decodes (http_pc g) = true -> bitmap_decodes (bitmap_pc g) = true -> False.
Proof.
  intros _ H B Dh Db. destruct (http_pc g); try done; destruct (bitmap_pc g) as [| | | |[]| | | | | | |]; try done;
    cbn in *; unfold HTTP, RDP in *; congruence.
Qed.

Lemma http_video_step_ok n a g : readers_ok n g -> Z.of_nat (S n) < 2 ^ 64 ->
  readers_ok (S n) (http_video_step request_idr can_grow a g).
Proof.
  intros [(h & Hh & Hv & Hb) Hy Hd Hbd] Hn. unfold http_video_step. destruct (http_pc g) eqn:Epc; cbn in Hv, Hd.
  - repeat case_match; eapply readers_local; eauto; cbn; try done; by rewrite Epc.
  - unfold acquire. destruct (device_session_acquire _ _ _ _ _) as [[[[ok s] l] rc] i] eqn:E.
    destruct (held_acquire n (core g) h HTTP _ ok s l rc i Hh Hn ltac:(unfold HTTP; lia) Hv E) as [Ht Hf].
    destruct ok.
    + destruct (Ht eq_refl) as [-> Hk]. split; cbn; try done. exists (Some HTTP). split_and!; [done..|].
      destruct (bitmap_pc g) as [| | | |[]| | | | | | |]; done.
    + split; cbn; try done. exists h. split_and!; [by apply Hf|done..].
  - destruct (decoder_ok a); eapply readers_local; eauto; done.
  - split; cbn; try done. eexists. split_and!; [by apply held_release; [|done|unfold HTTP; lia]|by case_decide|].
    case_decide; [|done]. subst. destruct (bitmap_pc g) as [| | | |[]| | | | | | |]; done.
  - case_match; eapply readers_local; eauto; done.
  - unfold read. cbv zeta. set (g' := set_core g _).
    assert (Hok : forall pc, http_decodes pc = true -> http_view pc h -> readers_ok (S n) (http_goto g' pc)).
    { intros pc Ed Ev. split; cbn; try done; [|congruence]. exists h. split_and!; [by apply held_read|done..]. }
    repeat case_match; by apply Hok.
  - case_match; eapply readers_local; eauto; done.
  - destruct (http_unit _ _ _ _ _) as [[] r]; eapply readers_local; eauto; done.
  - split; cbn; try done. eexists. split_and!; [by apply held_release; [|done|unfold HTTP; lia]|by case_decide|].
    case_decide; [|done]. subst. destruct (bitmap_pc g) as [| | | |[]| | | | | | |]; done.
  - eapply readers_local; eauto; by rewrite Epc.
Qed.

Lemma bitmap_video_step_ok n a g : readers_ok n g -> Z.of_nat (S n) < 2 ^ 64 ->
  readers_ok (S n) (bitmap_video_step request_idr can_grow a g).
Proof.
  intros [(h & Hh & Hv & Hb) Hy Hd Hbd] Hn. unfold bitmap_video_step.
  destruct (bitmap_pc g) as [|k|k|k|ready| | |timed_out|u|d| |] eqn:Epc; cbn in Hb, Hy;
    try specialize (Hbd ltac:(done)); cbn in Hbd.
  - eapply readers_local; eauto; done.
  - destruct (_ || _); [eapply readers_local; eauto; done|].
    unfold acquire. destruct (device_session_acquire _ _ _ _ _) as [[[[ok s] l] rc] i] eqn:E.
    destruct (held_acquire n (core g) h RDP _ ok s l rc i Hh Hn ltac:(unfold RDP; lia) Hb E) as [Ht Hf].
    destruct ok.
    + destruct (Ht eq_refl) as [-> Hk]. split; cbn; try done. exists (Some RDP). split_and!; [done| |done].
      by destruct (http_pc g).
    + split; cbn; try done. exists h. split_and!; [by apply Hf|done..].
  - destruct (decoder_ok a); eapply readers_local; eauto; done.
  - split; cbn; try done. eexists. split_and!; [by apply held_release; [|done|unfold RDP; lia]| |by case_decide].
    case_decide; [|done]. subst. by destruct (http_pc g).
  - destruct ready; eapply readers_local; eauto; done.
  - case_match; eapply readers_local; eauto; done.
  - unfold read. cbv zeta. set (g' := set_core g _).
    assert (Hok : forall pc, acquiring pc = false -> bitmap_decodes pc = true -> bitmap_view pc h ->
      readers_ok (S n) (bitmap_goto g' pc)).
    { intros pc Ea Ed Ev. split; cbn; try done; [|congruence|congruence]. exists h.
      split_and!; [by apply held_read|done..]. }
    repeat case_match; by apply Hok.
  - repeat case_match; eapply readers_local; eauto; done.
  - destruct (bitmap_video_unit _ _ _ _ _) as [[[[d|] f] st]|]; eapply readers_local; eauto; done.
  - repeat case_match; eapply readers_local; eauto; done.
  - split; cbn; try done. eexists. split_and!; [by apply held_release; [|done|unfold RDP; lia]| |by case_decide].
    case_decide; [|done]. subst. by destruct (http_pc g).
  - eapply readers_local; eauto; by rewrite Epc.
Qed.

Lemma move_ok n m g : readers_ok n g -> Z.of_nat (S n) < 2 ^ 64 ->
  readers_ok (S n) (make_move request_idr can_grow g m).
Proof.
  intros Hok Hn. destruct m; [by apply http_video_step_ok|by apply bitmap_video_step_ok|..];
    destruct Hok as [(h & Hh & Hv & Hb) Hy Hd Hbd]; cbn; try (by eapply readers_local; eauto).
  unfold next_client. destruct (bitmap_pc g) eqn:E; eapply readers_local; eauto; by rewrite E.
Qed.

Lemma moves_ok ms n g : readers_ok n g -> Z.of_nat (n + length ms) < 2 ^ 64 ->
  readers_ok (n + length ms) (run_moves g ms).
Proof.
  revert n g. induction ms as [|m ms IH]; intros n g Hg Hn; cbn in *; [by rewrite Nat.add_0_r|].
  rewrite <- Nat.add_succ_comm in *. apply IH; [|done]. apply move_ok; [done|lia].
Qed.

Lemma readers_init_ok s port rc i : opened s = false -> readers_ok 0 (readers_init s port rc i).
Proof.
  intros Ho. split; [|done..]. exists None. split_and!; [|done..]. split; [by apply initial_world_ok|done..].
Qed.

(** C14: Whatever the schedule of the two readers, of stops and of new clients, a thread
    that decodes has the lease, so that the two never decode at the same time; the event
    is signalled exactly while a client's thread acquires; and a thread that has ended
    holds neither the lease nor a decoder. *)
Theorem readers_exclusive s port rc i ms :
  opened s = false -> Z.of_nat (length ms) < 2 ^ 64 ->
  let g := run_moves (readers_init s port rc i) ms in
  (http_decodes (http_pc g) = true -> active (core g) HTTP) /\
  (bitmap_decodes (bitmap_pc g) = true -> active (core g) RDP) /\
  (http_decoder g = true -> http_decodes (http_pc g) = true /\ bitmap_decodes (bitmap_pc g) = false) /\
  (yield_signalled g = true <-> acquiring (bitmap_pc g) = true) /\
  (bitmap_pc g = BitmapDone -> ~ active (core g) RDP /\ bitmap_decoder g = false) /\
  (http_pc g = HttpDone -> ~ active (core g) HTTP /\ http_decoder g = false).
Proof.
  intros Ho Hn g.
  destruct (moves_ok ms 0 _ (readers_init_ok s port rc i Ho) Hn) as [(h & Hh & Hv & Hb) Hy Hd Hbd].
  fold g in Hh, Hv, Hb, Hy, Hd, Hbd. rewrite !(held_active _ _ _ _ Hh).
  pose proof (views_exclusive _ _ _ Hh Hv Hb) as Hx. split_and!.
  - by destruct (http_pc g).
  - by destruct (bitmap_pc g) as [| | | |[]| | | | | | |].
  - rewrite Hd. intros E. split; [done|]. apply not_true_iff_false. auto.
  - by rewrite Hy.
  - intros E. rewrite E in Hb, Hbd. cbn in Hb. split; [done|]. by apply Hbd.
  - intros E. rewrite E in Hv, Hd. done.
Qed.

(** ** The client gets the video *)

(** The steps a thread that sees the signal needs to give the lease up. *)
Definition to_leave (pc : http_at) : nat :=
  match pc with
  | HttpTop | HttpDone => 0
  | HttpRefused | HttpLeaving => 1
  | HttpChecking | HttpCheckAgain => 2
  | HttpStarting | HttpHas _ => 3
  | HttpAcquiring | HttpReading => 4
  end.

Lemma http_step_leaves a g : yield_signalled g = true ->
  (to_leave (http_pc (http_video_step request_idr can_grow a g)) <= pred (to_leave (http_pc g)))%nat.
Proof.
  intros Hy. unfold http_video_step, acquire, read. rewrite Hy.
  destruct (http_pc g) eqn:E; rewrite ?E; cbn [to_leave pred]; repeat case_match;
    cbn; rewrite ?E; cbn; simplify_eq; cbn; lia.
Qed.

(** A step of the HTTP reader leaves the other thread where it is, and conversely. *)
Lemma http_step_frame a g :
  let g' := http_video_step request_idr can_grow a g in
  bitmap_pc g' = bitmap_pc g /\ client_stopping g' = client_stopping g /\ yield_signalled g' = yield_signalled g.
Proof. unfold http_video_step, acquire, read. cbv zeta. repeat case_match; simplify_eq; done. Qed.

Lemma other_move_frame m g : (forall a, m <> HttpMove a) ->
  http_pc (make_move request_idr can_grow g m) = http_pc g.
Proof.
  intros Hm. destruct m; [by destruct (Hm a)| |done..|];
    cbn; unfold bitmap_video_step, next_client, acquire, read; cbv zeta; repeat case_match; simplify_eq; done.
Qed.

(** Behind the acquisition, until there is another client. *)
Definition past (pc : bitmap_at) : bool :=
  negb (acquiring pc) && match pc with BitmapSet => false | _ => true end.

Lemma past_move m g : m <> NextClient -> past (bitmap_pc g) = true ->
  past (bitmap_pc (make_move request_idr can_grow g m)) = true.
Proof.
  intros Hm Hp. destruct m as [a|a| | |]; cbn [make_move]; try done.
  - by destruct (http_step_frame a g) as [-> _].
  - unfold bitmap_video_step, read. destruct (bitmap_pc g) eqn:E; try done; cbv zeta; repeat case_match; simplify_eq;
      cbn; rewrite ?E; done.
Qed.

Lemma past_moves ms : forall g, NextClient ∉ ms -> past (bitmap_pc g) = true ->
  past (bitmap_pc (run_moves g ms)) = true.
Proof.
  induction ms as [|m ms IH]; intros g Hm Hp; [done|]. apply not_elem_of_cons in Hm as [Hm Hms].
  cbn. apply IH; [done|]. apply past_move; [congruence|done].
Qed.

Lemma acquiring_move m g : m <> NextClient -> acquiring (bitmap_pc g) = true ->
  acquiring (bitmap_pc (make_move request_idr can_grow g m)) = true \/
  past (bitmap_pc (make_move request_idr can_grow g m)) = true.
Proof.
  intros Hm Hp. destruct m as [a|a| | |]; cbn [make_move]; [|..|done]; try by left.
  - left. by destruct (http_step_frame a g) as [-> _].
  - unfold bitmap_video_step, acquire. destruct (bitmap_pc g) eqn:E; try done; repeat case_match; simplify_eq;
      cbn; auto.
Qed.

Fixpoint http_moves (ms : list move) : nat :=
  match ms with
  | [] => 0
  | HttpMove _ :: ms => S (http_moves ms)
  | _ :: ms => http_moves ms
  end.

(** While a client's thread acquires, every step of the HTTP reader brings it closer
    to giving the lease up, and then keeps it out. *)
Lemma http_leaves ms : forall n g, readers_ok n g -> Z.of_nat (n + length ms) < 2 ^ 64 ->
  NextClient ∉ ms -> acquiring (bitmap_pc g) = true -> acquiring (bitmap_pc (run_moves g ms)) = true ->
  (to_leave (http_pc (run_moves g ms)) <= to_leave (http_pc g) - http_moves ms)%nat.
Proof.
  induction ms as [|m ms IH]; intros n g Hok Hn Hms Hg Hend; [cbn; lia|].
  apply not_elem_of_cons in Hms as [Hm Hms]. cbn [moves fold_left length] in *.
  set (g1 := make_move request_idr can_grow g m) in *.
  destruct (acquiring_move m g ltac:(congruence) Hg) as [H1|H1].
  2: { pose proof (past_moves ms g1 Hms H1) as Hp. unfold past, run_moves in *. by rewrite Hend in Hp. }
  pose proof (IH (S n) g1 ltac:(apply move_ok; [done|lia]) ltac:(lia) Hms H1 Hend) as Hle.
  unfold run_moves in *. destruct m as [a|a| | |]; try done.
  { pose proof (http_step_leaves a g ltac:(by rewrite (rd_yield _ _ Hok))) as Hs. cbn in g1. fold g1 in Hs.
    cbn [http_moves]. lia. }
  all: unfold g1 in Hle; rewrite other_move_frame in Hle by done; done.
Qed.

(** On a free session, an acquire succeeds exactly when the transport opens. *)
Lemma held_acquire_free n w c : held n w None ->
  (rtp_open (w_rc w) (video_port (w_session w))).1 <> None ->
  exists s l rc i, device_session_acquire request_idr (w_session w) c (w_rc w) (w_idr w) = (true, s, l, rc, i).
Proof.
  intros [(_ & Hop & _) _ Hl] Ho. cbn in Hl. unfold device_session_acquire, video_source_open.
  rewrite Hl, Hop, Hl. destruct (rtp_open _ _) as [[b|] rc']; [|done].
  destruct (video_source_request_idr _ _ _) as [ok i']. do 4 eexists. reflexivity.
Qed.

Lemma http_only_frame hs : forall g, (forall m, m ∈ hs -> exists a, m = HttpMove a) ->
  bitmap_pc (run_moves g hs) = bitmap_pc g.
Proof.
  induction hs as [|m hs IH]; intros g Hh; [done|]. cbn. unfold run_moves in IH.
  rewrite IH by (intros m' ?; apply Hh; by right). destruct (Hh m ltac:(by left)) as [a ->].
  apply (http_step_frame a g).
Qed.

Lemma held_none n w h : held n w h -> h <> Some HTTP -> h <> Some RDP -> h = None.
Proof.
  intros [_ Hs Hh] H0 H1. destruct h as [k|]; [|done]. destruct Hh as [_ Ha]. exfalso.
  unfold active, slot in Ha. destruct (w_leases w !! k) eqn:E; [|done].
  apply lookup_lt_Some in E. unfold HTTP, RDP in *. destruct k as [|[|k]]; [done|done|lia].
Qed.

(** The attempt of a client's thread on a session nobody holds. *)
Lemma try_free n g k a : readers_ok n g -> Z.of_nat (S n) < 2 ^ 64 ->
  to_leave (http_pc g) = 0%nat -> bitmap_pc g = BitmapTry k -> (k < 10)%nat -> client_stopping g = false ->
  (rtp_open (w_rc (core g)) (video_port (w_session (core g)))).1 <> None ->
  bitmap_pc (bitmap_video_step request_idr can_grow a g) = BitmapStarting k.
Proof.
  intros [(h & Hh & Hv & Hb) _ _ _] Hn Hl Hpc Hk Hst Ho. rewrite Hpc in Hb.
  assert (h = None) as ->. { eapply held_none; [done| |done]. by destruct (http_pc g). }
  unfold bitmap_video_step. rewrite Hpc, Hst, (proj2 (Nat.ltb_lt k 10) Hk). cbn [negb orb]. unfold acquire.
  destruct (held_acquire_free n (core g) DEVICE_SESSION_CONSUMER_BITMAP Hh Ho) as (s & l & rc & i & ->). done.
Qed.

(** C13: Once a client's thread has signalled the event, four steps of the HTTP reader,
    interleaved with whatever else happens, end its use of the device and keep it away:
    the next attempt, if the socket opens and the decoder starts, ends in the reading
    loop with the lease, whatever the HTTP reader does in between. *)
Theorem lease_handed_over s port rc i ms0 ms k k' a1 hs1 a2 hs2 a3 :
  opened s = false ->
  Z.of_nat (length ms0 + length ms + (3 + length hs1 + length hs2)) < 2 ^ 64 ->
  let g0 := run_moves (readers_init s port rc i) ms0 in
  let g := run_moves g0 ms in
  let g' := run_moves g (BitmapMove a1 :: hs1 ++ BitmapMove a2 :: hs2 ++ [BitmapMove a3]) in
  bitmap_pc g0 = BitmapTry k -> NextClient ∉ ms -> (4 <= http_moves ms)%nat ->
  bitmap_pc g = BitmapTry k' -> (k' < 10)%nat -> client_stopping g = false ->
  (rtp_open (w_rc (core g)) (video_port (w_session (core g)))).1 <> None -> decoder_ok a2 = true ->
  (forall m, m ∈ hs1 ++ hs2 -> exists a, m = HttpMove a) ->
  bitmap_pc g' = BitmapLoop /\ active (core g') RDP /\ yield_signalled g' = false.
Proof.
  intros Hopen Hn g0 g g' H0 Hms Hh4 Hpc Hk Hst Hrtp Hdec Hhs.
  pose proof (moves_ok ms0 0 _ (readers_init_ok s port rc i Hopen) ltac:(lia)) as Hok0. fold g0 in Hok0.
  pose proof (moves_ok ms _ g0 Hok0 ltac:(lia)) as Hok. fold g in Hok.
  assert (Hleft : to_leave (http_pc g) = 0%nat).
  { assert (H4 : forall pc, (to_leave pc <= 4)%nat) by (intros []; cbn; lia). specialize (H4 (http_pc g0)).
    pose proof (http_leaves ms _ g0 Hok0 ltac:(lia) Hms ltac:(by rewrite H0) ltac:(fold g; by rewrite Hpc)) as Hle.
    fold g in Hle. lia. }
  assert (Hok' : readers_ok (0 + length ms0 + length ms + (3 + length hs1 + length hs2)) g').
  { pose proof (moves_ok (BitmapMove a1 :: hs1 ++ BitmapMove a2 :: hs2 ++ [BitmapMove a3]) _ g Hok) as H.
    cbn [length] in H. rewrite !length_app in H. cbn [length] in H. rewrite length_app in H. cbn [length] in H.
    replace (3 + length hs1 + length hs2)%nat with (S (length hs1 + S (length hs2 + 1))) by lia.
    apply H. lia. }
  assert (Hend : bitmap_pc g' = BitmapLoop).
  { unfold g', moves. cbn [fold_left make_move]. rewrite fold_left_app. cbn [fold_left make_move].
    rewrite fold_left_app. cbn [fold_left make_move].
    set (g1 := bitmap_video_step _ _ a1 g).
    assert (H1 : bitmap_pc g1 = BitmapStarting k') by (eapply try_free; eauto; lia).
    set (g2 := fold_left _ hs1 g1).
    assert (H2 : bitmap_pc g2 = BitmapStarting k').
    { rewrite <- H1. apply http_only_frame. intros m Hm. apply Hhs, elem_of_app. by left. }
    set (g3 := bitmap_video_step _ _ a2 g2).
    assert (H3 : bitmap_pc g3 = BitmapReset true) by (unfold g3, bitmap_video_step; by rewrite H2, Hdec).
    set (g4 := fold_left _ hs2 g3).
    assert (H4 : bitmap_pc g4 = BitmapReset true).
    { rewrite <- H3. apply http_only_frame. intros m Hm. apply Hhs, elem_of_app. by right. }
    unfold bitmap_video_step. by rewrite H4. }
  destruct Hok' as [(h & Hh & _ & Hb) Hy _ _]. rewrite Hend in Hb, Hy. split_and!; [done| |done].
  by apply (held_active _ _ _ _ Hh).
Qed.

(** ** A stopped client's thread ends *)

Definition to_end (pc : bitmap_at) : nat :=
  match pc with
  | BitmapDone => 0
  | BitmapOut => 1
  | BitmapLoop | BitmapReadFailed _ | BitmapReset false => 2
  | BitmapReset true | BitmapPush _ | BitmapTry _ => 3
  | BitmapHas _ | BitmapUndo _ | BitmapSet => 4
  | BitmapStarting _ | BitmapReading => 5
  end.

(** From any place, five steps of its own end the thread of a client that is being
    stopped. *)
Lemma stopped_thread_ends a g : client_stopping g = true ->
  let g' := bitmap_video_step request_idr can_grow a g in
  client_stopping g' = true /\ (to_end (bitmap_pc g') <= pred (to_end (bitmap_pc g)))%nat.
Proof.
  intros Hs. unfold bitmap_video_step, acquire, read. cbv zeta. rewrite Hs.
  destruct (bitmap_pc g) eqn:E; cbn [to_end pred]; rewrite ?orb_true_r; repeat case_match; simplify_eq;
    cbn; rewrite ?E; cbn; split; try done; lia.
Qed.

End Spec.

(** ** Witnesses *)

(** The HTTP reader holds the device and waits for a unit when a client arrives. *)
Definition yes : answers := MkAnswers true true 5.
Definition busy_reader : list move := replicate 4 (HttpMove yes) ++ [BitmapMove yes].
(** The first attempt fails, the reader gives way, the client sleeps. *)
Definition give_way : list move := BitmapMove yes :: replicate 4 (HttpMove yes) ++ [BitmapMove yes].

Definition demo_moves (g : shared (R := Production) (I := unit)) (ms : list move) : shared :=
  moves (ops := production_rtp_ops (fun _ => true)) (laws := production_laws (fun _ => true)) None
    (fun _ => true) g ms.
Definition demo_start : shared :=
  readers_init (MkSource 0 0 0 false false false false false false) 5004 timeout_transport tt.

Lemma readers_exclusive_witness :
  let g := demo_moves demo_start (busy_reader ++ give_way) in
  (http_decodes (http_pc g) = true -> active (core g) HTTP) /\
  (bitmap_decodes (bitmap_pc g) = true -> active (core g) RDP) /\
  (http_decoder g = true -> http_decodes (http_pc g) = true /\ bitmap_decodes (bitmap_pc g) = false) /\
  (yield_signalled g = true <-> acquiring (bitmap_pc g) = true) /\
  (bitmap_pc g = BitmapDone -> ~ active (core g) RDP /\ bitmap_decoder g = false) /\
  (http_pc g = HttpDone -> ~ active (core g) HTTP /\ http_decoder g = false).
Proof.
  apply (readers_exclusive (ops := production_rtp_ops (fun _ => true)) (laws := production_laws (fun _ => true))
    None (fun _ => true) (MkSource 0 0 0 false false false false false false) 5004 timeout_transport tt
    (busy_reader ++ give_way)); [reflexivity|cbn; lia].
Defined.

Lemma lease_handed_over_witness :
  let g := demo_moves (demo_moves demo_start busy_reader) give_way in
  let g' := demo_moves g [BitmapMove yes; HttpMove yes; BitmapMove yes; BitmapMove yes] in
  bitmap_pc g = BitmapTry 1 /\
  bitmap_pc g' = BitmapLoop /\ active (core g') RDP /\ yield_signalled g' = false.
Proof.
  split; [reflexivity|].
  apply (lease_handed_over (ops := production_rtp_ops (fun _ => true)) (laws := production_laws (fun _ => true))
    None (fun _ => true) (MkSource 0 0 0 false false false false false false) 5004 timeout_transport tt
    busy_reader give_way 0 1 yes [HttpMove yes] yes [] yes); try reflexivity; try (cbn; lia).
  - unfold give_way. cbn. intros H. repeat (apply elem_of_cons in H as [H|H]; [done|]).
    by apply elem_of_nil in H.
  - done.
  - intros m Hm. exists yes. cbn in Hm. apply elem_of_cons in Hm as [->|Hm]; [done|].
    by apply elem_of_nil in Hm.
Defined.
