(* ===== verification/Lifecycle.v ===== *)
(** * Start and stop of the gateway ([src/src/main.c])

    [main] as a program over the fields of [Server] and [GatewayRuntime] that
    record what has been set up.  Every call that creates, destroys or uses a
    shared resource, and every start and join of a thread, is an event of a
    trace; the answers of FreeRDP, WinPR and the kernel are arguments. *)

From S2P Require Import Prelude Prog Gateway.

(** ** Resources, threads, events *)

Inductive resource :=
| ServerLock | YieldEvent | TransportState | Session | HttpState | RdpListener | ControlSocket
| Winsock.

Inductive thread := HttpServer | HttpVideo | ControlThread | PeerThread.

#[export] Instance resource_eq_dec : EqDecision resource.
Proof. solve_decision. Defined.
#[export] Instance thread_eq_dec : EqDecision thread.
Proof. solve_decision. Defined.

Inductive event :=
| Acquire (r : resource) | Release (r : resource) | Use (r : resource)
| Start (t : thread) | Join (t : thread).

(** ** State *)

(** The fields of [Server] and [GatewayRuntime]; a handle or pointer is whether
    it is set, [http_api] also whether its thread was started. *)
Record Runtime := MkRuntime {
  lock_ready : bool;
  transport_ready : bool;
  wsa_started : bool;
  listener : bool;
  control_listener : bool;
  control_thread : bool;
  device_session : bool;
  http_api : option bool;
  http_video_thread : bool;
  http_yield_event : bool;
  gateway_server : Server }.

Definition set_lock_ready (x : Runtime) : Runtime :=
  MkRuntime true (transport_ready x) (wsa_started x) (listener x) (control_listener x)
    (control_thread x) (device_session x) (http_api x) (http_video_thread x) (http_yield_event x)
    (gateway_server x).
Definition set_transport_ready (x : Runtime) : Runtime :=
  MkRuntime (lock_ready x) true (wsa_started x) (listener x) (control_listener x)
    (control_thread x) (device_session x) (http_api x) (http_video_thread x) (http_yield_event x)
    (gateway_server x).
Definition set_wsa_started (x : Runtime) (b : bool) : Runtime :=
  MkRuntime (lock_ready x) (transport_ready x) b (listener x) (control_listener x)
    (control_thread x) (device_session x) (http_api x) (http_video_thread x) (http_yield_event x)
    (gateway_server x).
Definition set_listener (x : Runtime) (b : bool) : Runtime :=
  MkRuntime (lock_ready x) (transport_ready x) (wsa_started x) b (control_listener x)
    (control_thread x) (device_session x) (http_api x) (http_video_thread x) (http_yield_event x)
    (gateway_server x).
Definition set_control_listener (x : Runtime) (b : bool) : Runtime :=
  MkRuntime (lock_ready x) (transport_ready x) (wsa_started x) (listener x) b
    (control_thread x) (device_session x) (http_api x) (http_video_thread x) (http_yield_event x)
    (gateway_server x).
Definition set_control_thread (x : Runtime) (b : bool) : Runtime :=
  MkRuntime (lock_ready x) (transport_ready x) (wsa_started x) (listener x) (control_listener x)
    b (device_session x) (http_api x) (http_video_thread x) (http_yield_event x)
    (gateway_server x).
Definition set_device_session (x : Runtime) (b : bool) : Runtime :=
  MkRuntime (lock_ready x) (transport_ready x) (wsa_started x) (listener x) (control_listener x)
    (control_thread x) b (http_api x) (http_video_thread x) (http_yield_event x)
    (gateway_server x).
Definition set_http_api (x : Runtime) (a : option bool) : Runtime :=
  MkRuntime (lock_ready x) (transport_ready x) (wsa_started x) (listener x) (control_listener x)
    (control_thread x) (device_session x) a (http_video_thread x) (http_yield_event x)
    (gateway_server x).
Definition set_http_video_thread (x : Runtime) (b : bool) : Runtime :=
  MkRuntime (lock_ready x) (transport_ready x) (wsa_started x) (listener x) (control_listener x)
    (control_thread x) (device_session x) (http_api x) b (http_yield_event x)
    (gateway_server x).
Definition set_http_yield_event (x : Runtime) (b : bool) : Runtime :=
  MkRuntime (lock_ready x) (transport_ready x) (wsa_started x) (listener x) (control_listener x)
    (control_thread x) (device_session x) (http_api x) (http_video_thread x) b
    (gateway_server x).
Definition set_gateway_server (x : Runtime) (s : Server) : Runtime :=
  MkRuntime (lock_ready x) (transport_ready x) (wsa_started x) (listener x) (control_listener x)
    (control_thread x) (device_session x) (http_api x) (http_video_thread x) (http_yield_event x)
    s.

Abbreviation prog := (Prog.prog Runtime event).

(** ** Start *)

(** The answer of each fallible call of [gateway_start], in order. *)
Record start_answers := MkStart {
  a_lock : bool;
  a_yield_event : bool;
  a_transport : bool;
  a_session : bool;
  a_wts : bool;
  a_ssl : bool;
  a_http_create : bool;
  a_http_start : bool;
  a_http_video : bool;
  a_listener : bool;
  a_control_socket : bool;
  a_control_thread : bool;
  a_wsa : bool;
  a_open : bool }.

(** [http_api_start] asks the agent for the stream once its thread runs. *)
Definition start_http_api (a : start_answers) : prog :=
  attempt (a_http_create a) (fun x => set_http_api x (Some false)) [Acquire HttpState] ;?
  attempt (a_http_start a) (fun x => set_http_api x (Some true)) [Start HttpServer; Use TransportState] ;?
  attempt (a_http_video a) (fun x => set_http_video_thread x true) [Start HttpVideo].

Definition gateway_start (a : start_answers) (now : Z) : prog :=
  effect (fun x => set_gateway_server (set_control_listener x false) (Gateway.gateway_start now)) [] ;?
  attempt (a_lock a) set_lock_ready [Acquire ServerLock] ;?
  attempt (a_yield_event a) (fun x => set_http_yield_event x true) [Acquire YieldEvent] ;?
  attempt (a_transport a) set_transport_ready [Acquire TransportState] ;?
  attempt (a_session a) (fun x => set_device_session x true) [Acquire Session] ;?
  attempt (a_wts a) id [] ;?
  attempt (a_ssl a) id [] ;?
  start_http_api a ;?
  attempt (a_listener a) (fun x => set_listener x true) [Acquire RdpListener] ;?
  attempt (a_control_socket a) (fun x => set_control_listener x true) [Acquire ControlSocket] ;?
  attempt (a_control_thread a) (fun x => set_control_thread x true) [Start ControlThread] ;?
  attempt (a_wsa a) (fun x => set_wsa_started x true) [Acquire Winsock] ;?
  attempt (a_open a) id [Use RdpListener].

(** ** Stop *)

(** [http_api_stop], as seen from here: its thread is joined and the routed
    input released through the transport. *)
Definition stop_http_api : prog := fun x =>
  match http_api x with
  | Some true => (true, set_http_api x (Some false), [Join HttpServer; Use TransportState])
  | _ => (true, x, [])
  end.

Definition destroy_http_api : prog :=
  stop_http_api ;>
  when (fun x => match http_api x with Some _ => true | None => false end)
    (effect (fun x => set_http_api x None) [Release HttpState]).

(** [server_join_peer_thread]; [joined]: the thread ends within the timeout. *)
Definition join_peer (joined : bool) : prog := fun x =>
  let '(ok, s) := server_join_peer_thread joined (gateway_server x) in
  (ok, set_gateway_server x s,
   Use ServerLock ::
   match peer_thread (gateway_server x) with
   | Some _ => if joined then [Join PeerThread; Use ServerLock] else []
   | None => []
   end).

Definition gateway_stop (joined : bool) : prog :=
  stop_http_api ;>
  when http_video_thread (effect (fun x => set_http_video_thread x false) [Join HttpVideo]) ;>
  destroy_http_api ;>
  when listener (effect (fun x => set_listener x false) [Use RdpListener; Release RdpListener]) ;>
  when lock_ready (join_peer joined) ;?
  when control_listener
    (effect (fun x => set_control_listener x false) [Use ControlSocket; Release ControlSocket]) ;>
  when transport_ready (effect id [Use TransportState]) ;>
  when control_thread (effect (fun x => set_control_thread x false) [Join ControlThread]) ;>
  when transport_ready (effect id [Release TransportState]) ;>
  when device_session (effect (fun x => set_device_session x false) [Release Session]) ;>
  when http_yield_event (effect (fun x => set_http_yield_event x false) [Release YieldEvent]) ;>
  when wsa_started (effect id [Release Winsock]) ;>
  when lock_ready (effect id [Release ServerLock]) ;>
  ret true.

(** ** The main thread *)

(** One connection offered by the listener: what the peer threads have made of
    the active client by then, and the answers of [peer_accepted]. *)
Record offer := MkOffer {
  o_active : option nat;
  o_closing : bool;
  o_finished : nat -> bool;
  o_stop : bool;
  o_created : bool;
  o_new : nat }.

(** The section that reaps a finished thread, then the one that admits. *)
Definition accept_peer (o : offer) : prog := fun x =>
  let s := set_active (gateway_server x) (o_active o) (o_closing o) in
  let reaped := server_reap_finished_peer_thread (o_finished o) s in
  let '(ok, s') := peer_accepted (o_finished o) (o_stop o) (o_created o) (o_new o) s in
  (true, set_gateway_server x s',
   [Use ServerLock] ++
   match peer_thread s, peer_thread reaped with Some _, None => [Join PeerThread] | _, _ => [] end ++
   [Use ServerLock] ++ if ok then [Start PeerThread] else []).

Fixpoint accept_peers (os : list offer) : prog :=
  match os with
  | [] => ret true
  | o :: os => accept_peer o ;> accept_peers os
  end.

(** The calls of [server_heartbeat]: transport, keepalive under the lock. *)
Definition heartbeat_uses : list event := [Use TransportState; Use ServerLock; Use HttpState].

(** A round of the loop of [main]: [r_stop] is [stop_requested] at its head. *)
Record round := MkMainRound {
  r_stop : bool;
  r_events : bool;
  r_waited : bool;
  r_offers : list offer;
  r_checked : bool }.

Fixpoint main_loop (rs : list round) : prog :=
  match rs with
  | [] => ret true
  | r :: rs =>
      if r_stop r then ret true
      else
        effect id heartbeat_uses ;>
        effect id [Use RdpListener] ;>
        if negb (r_events r) || negb (r_waited r) then ret true
        else
          accept_peers (r_offers r) ;>
          effect id [Use RdpListener] ;>
          if r_checked r then main_loop rs else ret true
  end.

Definition runtime_init : Runtime :=
  MkRuntime false false false false false false false None false false (MkServer None None false 0 0).

(** [main]: the exit code and everything that happened.  The loop is as long as
    [rounds] says; what follows the last of them is a stop. *)
Definition main (parsed : bool) (a : start_answers) (now : Z) (rounds : list round) (joined : bool)
    : Z * Runtime * list event :=
  if negb parsed then (2, runtime_init, [])
  else
    let '(started, x, es) := gateway_start a now runtime_init in
    if negb started then
      let '(_, x, es') := gateway_stop joined x in (1, x, es ++ es')
    else
      let '(stopped, x, es') := (main_loop rounds ;> gateway_stop joined) x in
      (if stopped then 0 else 1, x, es ++ es').

(** ** What the trace must respect *)

(** The state each thread reaches through [Server] while it runs: the HTTP thread
    sends and releases input; [http_video_thread] publishes frames, reads the
    session, watches the yield event and requests IDRs; [control_thread] runs the
    transport and signals the active client under the lock; a peer thread
    claims the gateway, reads the session and sends input.  The control socket is
    not here: closing it is how the control thread's [accept] is ended. *)
Definition thread_uses (t : thread) : list resource :=
  match t with
  | HttpServer => [HttpState; TransportState]
  | HttpVideo => [HttpState; Session; YieldEvent; TransportState]
  | ControlThread => [TransportState; ServerLock]
  | PeerThread => [ServerLock; TransportState; Session; YieldEvent]
  end.

Record alive := MkAlive { resources : list resource; threads : list thread }.

Definition has (r : resource) (w : alive) : bool := bool_decide (r ∈ resources w).
Definition runs (t : thread) (w : alive) : bool := bool_decide (t ∈ threads w).

(** One event, if it respects ownership. *)
Definition observe (w : alive) (e : event) : option alive :=
  match e with
  | Acquire r => if has r w then None else Some (MkAlive (r :: resources w) (threads w))
  | Use r => if has r w then Some w else None
  | Release r =>
      if has r w && forallb (fun t => negb (bool_decide (r ∈ thread_uses t))) (threads w)
      then Some (MkAlive (filter (fun r' => r' <> r) (resources w)) (threads w)) else None
  | Start t =>
      if negb (runs t w) && forallb (fun r => has r w) (thread_uses t)
      then Some (MkAlive (resources w) (t :: threads w)) else None
  | Join t =>
      if runs t w then Some (MkAlive (resources w) (filter (fun t' => t' <> t) (threads w))) else None
  end.

Abbreviation observes := (Prog.observes observe).

Definition nothing : alive := MkAlive [] [].

(** ** Lemmas *)

(** The fields of a runtime that is fully started, and what is alive then. *)
Definition started (s : Server) : Runtime :=
  MkRuntime true true true true true true true (Some true) true true s.
Definition started_alive (peer : bool) : alive :=
  MkAlive [Winsock; ControlSocket; RdpListener; HttpState; Session; TransportState; YieldEvent; ServerLock]
    ((if peer then [PeerThread] else []) ++ [ControlThread; HttpVideo; HttpServer]).

Definition has_peer (s : Server) : bool := match peer_thread s with Some _ => true | None => false end.

(** The call with this answer fails, and everything before it is undone. *)
Ltac undo answer := destruct answer; [|by intros []].

Lemma gateway_start_observed a now :
  let '(ok, x, es) := gateway_start a now runtime_init in
  if ok then x = started (Gateway.gateway_start now) /\ observes nothing es = Some (started_alive false)
  else forall joined,
    let '(ok, x', es') := gateway_stop joined x in
    ok = true /\ observes nothing (es ++ es') = Some nothing.
Proof.
  destruct a as [lock event transport session wts ssl create start video listener socket thread wsa open].
  undo lock. undo event. undo transport. undo session. undo wts. undo ssl. undo create. undo start.
  undo video. undo listener. undo socket. undo thread. undo wsa. by destruct open; [|intros []].
Qed.

(** A started gateway, and what is alive in it. *)
Definition serving (x : Runtime) (w : alive) : Prop :=
  exists s, x = started s /\ w = started_alive (has_peer s).

Lemma accept_peer_keeps o : keeps observe serving (accept_peer o).
Proof.
  apply keeps_iff. intros x w (s & -> & ->).
  unfold trace, state, accept_peer, peer_accepted, server_reap_finished_peer_thread, serving, has_peer. cbn.
  destruct (peer_thread s) as [t|] eqn:E; cbn; [destruct (o_finished o t); cbn|]; rewrite ?E, ?orb_true_r.
  all: destruct (o_stop o), (o_active o), (o_closing o), (o_created o); cbn; rewrite ?E.
  all: eexists; split; [reflexivity|]; eexists; split; [reflexivity|]; cbn; by rewrite ?E.
Qed.

(** Uses of resources that are alive in every started gateway. *)
Lemma keeps_uses es :
  forallb (fun e => match e with Use r => has r (started_alive false) | _ => false end) es = true ->
  keeps observe serving (effect id es).
Proof.
  intros H. apply keeps_attempt. intros x w (s & -> & ->). exists (started_alive (has_peer s)).
  split; [|by exists s]. induction es as [|e es IH]; [done|]. cbn in H.
  apply andb_true_iff in H as [He H]. destruct e; try done. cbn [Prog.observes observe].
  change (has r (started_alive (has_peer s))) with (has r (started_alive false)). rewrite He. by apply IH.
Qed.

#[local] Hint Resolve accept_peer_keeps : prog.
#[local] Hint Extern 1 (keeps _ _ (effect id _)) => by apply keeps_uses : prog.

Lemma main_loop_keeps rs : keeps observe serving (main_loop rs).
Proof.
  assert (Hos : forall os, keeps observe serving (accept_peers os)).
  { induction os as [|o os IH]; cbn; auto with prog. }
  induction rs as [|r rs IH]; cbn [main_loop]; [auto with prog|].
  destruct (r_stop r), (negb (r_events r) || negb (r_waited r)), (r_checked r); auto 6 with prog.
Qed.

(** Stopping a started gateway. *)
Lemma gateway_stop_observed joined s :
  let '(ok, _, es) := gateway_stop joined (started s) in
  exists w, observes (started_alive (has_peer s)) es = Some w /\
    ok = negb (has_peer s) || joined /\
    w = if ok then nothing
        else MkAlive [Winsock; ControlSocket; Session; TransportState; YieldEvent; ServerLock]
               [PeerThread; ControlThread].
Proof.
  unfold gateway_stop, or_return, and_then, when, join_peer, server_join_peer_thread, has_peer.
  cbn. destruct (peer_thread s) as [t|] eqn:E; [destruct joined|]; cbn; rewrite ?E; cbn; eauto.
Qed.

(** C11: However far the start got and whatever happened until the stop, every
    shared object is created once, used only while it exists, destroyed once, and
    never under a thread that uses it; an exit with 0 leaves nothing behind, and
    a peer thread that cannot be joined keeps everything it uses. *)
Theorem gateway_lifecycle parsed a now rounds joined :
  let '(code, _, es) := main parsed a now rounds joined in
  exists w, observes nothing es = Some w /\
    (w = nothing \/
     (code = 1 /\ joined = false /\ threads w = [PeerThread; ControlThread] /\
      Forall (fun t => thread_uses t ⊆ resources w) (threads w))) /\
    (code = 0 -> w = nothing) /\ (code = 2 <-> parsed = false).
Proof.
  unfold main. destruct parsed; cbn [negb]; [|by exists nothing; split_and!; auto].
  pose proof (gateway_start_observed a now) as Hs.
  destruct (gateway_start a now runtime_init) as [[[] x] es]; cbn [negb].
  - destruct Hs as [-> He]. unfold and_then.
    destruct (proj1 (keeps_iff _ _ _) (main_loop_keeps rounds) (started (Gateway.gateway_start now))
      (started_alive false)) as (? & He1 & s' & Hx & ->); [by eexists|]. unfold trace, state in *.
    destruct (main_loop rounds _) as [[? x] es1]. cbn in He1, Hx. subst x.
    pose proof (gateway_stop_observed joined s') as Ht.
    destruct (gateway_stop joined (started s')) as [[ok x] es2]. destruct Ht as (w & Hw & Hok & ->).
    eexists. split; [rewrite observes_app, He, observes_app, He1; exact Hw|].
    destruct ok; [by split_and!; auto|]. symmetry in Hok. apply orb_false_iff in Hok as [_ ->].
    split_and!; [right|done|done]. split_and!; [done..|].
    cbn [threads]. apply Forall_cons; [|apply Forall_singleton]; intros r; cbn; rewrite !elem_of_cons; tauto.
  - specialize (Hs joined). destruct (gateway_stop joined x) as [[ok x'] es']. destruct Hs as [-> He].
    exists nothing. by split_and!; auto.
Qed.
