(* ===== verification/RdpPeer.v ===== *)
(** * The RDP session ([src/src/rdp_peer.c], [src/src/rdp_gfx.c])

    The peer thread from accepted connection to teardown: set-up of the client,
    activation, the loop over its events, channel handling, and the release of
    everything.  Every creation, use and destruction of a handle and every step
    of the dynamic channels is an event; the answers of FreeRDP and WinPR are
    arguments. *)

From S2P Require Import Prelude Prog.

(** ** Data *)

(** The fields of [Client] that are handles, pointers or critical sections. *)
Inductive handle :=
| ClientLock | OutputLock | ShutdownEvent | OutputWakeup | AckEvent | Vcm | Gfx
| VideoThread | OutputThread | Rfx | Nsc | Progressive | BitmapStream.

(** The fields of [Client] that are booleans, and whether [server] is set. *)
Inductive flag :=
| ServerSet | Stopping | OwnsActive | DirectGfx | BitmapFallback | UsesRfx | UsesProgressive
| GfxReady | GfxOpened | DrdynvcOpenAttempted.

#[export] Instance handle_eq_dec : EqDecision handle.
Proof. solve_decision. Defined.
#[export] Instance flag_eq_dec : EqDecision flag.
Proof. solve_decision. Defined.

Inductive event :=
| Create (h : handle) | Use (h : handle) | Destroy (h : handle)
| Await (h : handle) (ended : bool)     (** a wait for a thread, and whether it ended *)
| Slot (i : Z)                          (** [handles[i]] is written *)
| Stop                                  (** [stopping] is set *)
| ManagerOpen | GfxOpen (ok : bool) | GfxMessages   (** the dynamic channels *)
| StartStream | StopStream | RestoreStream | ReleaseInputs
| ActiveClosing | ActiveClosed          (** the two sections of the server's lock *)
| Disconnect.

#[export] Instance event_eq_dec : EqDecision event.
Proof. solve_decision. Defined.

Record GatewayConfig := MkConfig { direct_gfx : bool; cfg_width : Z; cfg_height : Z }.

(** A capability advertisement: the choice of [client_select_gfx_cap] (whether it
    is AVC420), and the answers to the calls that follow. *)
Record advertisement := MkAdvertisement {
  v_selected : option bool;
  v_confirmed : bool;
  v_surface : bool;
  v_mapped : bool;
  v_progressive : bool;
  v_progressive_reset : bool;
  v_thread : bool }.

(** The handles and flags that are set, the other fields, the desktop size in the
    settings, and what the RDP client has still to advertise. *)
Record Client := MkClient {
  handles : list handle;
  flags : list flag;
  gfx_wait_started_at : Z;
  gfx_opened_at : Z;
  render : Z * Z;
  desktop : Z * Z;
  advertisements : list advertisement }.

Definition has (h : handle) (x : Client) : bool := bool_decide (h ∈ handles x).
Definition flagged (f : flag) (x : Client) : bool := bool_decide (f ∈ flags x).

Definition with_handles (x : Client) (hs : list handle) : Client :=
  MkClient hs (flags x) (gfx_wait_started_at x) (gfx_opened_at x) (render x) (desktop x) (advertisements x).
Definition set (h : handle) (x : Client) : Client := with_handles x (h :: handles x).
Definition clear (h : handle) (x : Client) : Client := with_handles x (filter (fun k => k <> h) (handles x)).
Definition raise (f : flag) (x : Client) : Client :=
  MkClient (handles x) (f :: flags x) (gfx_wait_started_at x) (gfx_opened_at x) (render x) (desktop x)
    (advertisements x).
Definition set_times (x : Client) (wait opened : Z) : Client :=
  MkClient (handles x) (flags x) wait opened (render x) (desktop x) (advertisements x).
Definition set_render (x : Client) (r : Z * Z) : Client :=
  MkClient (handles x) (flags x) (gfx_wait_started_at x) (gfx_opened_at x) r (desktop x) (advertisements x).
Definition set_desktop (x : Client) (d : Z * Z) : Client :=
  MkClient (handles x) (flags x) (gfx_wait_started_at x) (gfx_opened_at x) (render x) d (advertisements x).
Definition set_advertisements (x : Client) (l : list advertisement) : Client :=
  MkClient (handles x) (flags x) (gfx_wait_started_at x) (gfx_opened_at x) (render x) (desktop x) l.

Abbreviation prog := (Prog.prog Client event).

(** A call that fills a field, and one that uses or empties it. *)
Definition create (ok : bool) (h : handle) : prog := attempt ok (set h) [Create h].
Definition use (ok : bool) (h : handle) : prog := fun x => (ok, x, [Use h]).
Definition destroy (h : handle) : prog := when (has h) (effect (clear h) [Destroy h]).
Definition emit (e : event) : prog := effect id [e].
Definition note (f : flag) : prog := effect (raise f) [].

(** ** Operations *)

Definition client_should_stop (x : Client) : bool := flagged Stopping x.

(** The flag, and the events that are set. *)
Definition client_stop : prog :=
  use true ClientLock ;> effect (raise Stopping) [Stop] ;>
  when (has OutputWakeup) (use true OutputWakeup) ;>
  when (has ShutdownEvent) (use true ShutdownEvent) ;>
  when (has AckEvent) (use true AckEvent).

Record new_answers := MkNew {
  a_lock : bool;
  a_output_lock : bool;
  a_shutdown_event : bool;
  a_output_wakeup : bool;
  a_ack_event : bool;
  a_vcm : bool }.

Definition client_context_new (c : GatewayConfig) (a : new_answers) : prog :=
  create (a_lock a) ClientLock ;?
  (if a_output_lock a then create true OutputLock else destroy ClientLock ;> ret false) ;?
  note ServerSet ;?
  (create (a_shutdown_event a) ShutdownEvent ;>
   create (a_output_wakeup a) OutputWakeup ;>
   create (a_ack_event a) AckEvent ;>
   ret (a_shutdown_event a && a_output_wakeup a && a_ack_event a)) ;?
  if direct_gfx c then create (a_vcm a) Vcm else ret true.

(** [size_answers]: the settings and the callback exist; the two settings can be
    set; [DesktopResize] succeeds. *)
Record size_answers := MkSize { s_present : bool; s_width : bool; s_height : bool; s_resized : bool }.

Definition client_force_source_desktop_size (c : GatewayConfig) (a : size_answers) : prog :=
  attempt (s_present a) id [] ;?
  branch (fun x => ((desktop x).1 =? cfg_width c) && ((desktop x).2 =? cfg_height c)) (ret true)
    (attempt (s_width a) (fun x => set_desktop x (cfg_width c, (desktop x).2)) [] ;?
     attempt (s_height a) (fun x => set_desktop x ((desktop x).1, cfg_height c)) [] ;?
     ret (s_resized a)).

Definition client_set_render_size (present : bool) : prog := fun x =>
  let '(width, height) := desktop x in
  if negb present then (false, x, [])
  else if (width =? 0) || (height =? 0) || (65535 <? width) || (65535 <? height) then (false, x, [])
  else (true, set_render x (width, height), []).

(** [free]: the server has no active or closing client of another connection; the
    client that owns the gateway is the active one. *)
Definition client_claim_active (free : bool) : prog := fun x =>
  if flagged OwnsActive x || negb free then (false, x, []) else (true, raise OwnsActive x, []).

(** ** Activation *)

Record connect_answers := MkConnect {
  p_size : size_answers;
  p_settings : bool;
  p_free : bool;
  (** RDPGFX *)
  p_gfx : bool;
  p_gfx_init : bool;
  p_now : Z;
  (** bitmaps *)
  p_rfx_supported : bool;
  p_rfx : bool;
  p_rfx_reset : bool;
  p_nsc_supported : bool;
  p_nsc : bool;
  p_stream : bool;
  p_video : bool;
  p_output : bool;
  p_start : bool }.

Definition client_prepare_gfx (a : connect_answers) : prog :=
  branch (has Gfx) (ret true)
    (create (p_gfx a) Gfx ;? use (p_gfx_init a) Gfx ;? note DirectGfx).

Definition client_prepare_bitmap (a : connect_answers) : prog :=
  attempt (p_settings a) id [] ;?
  note BitmapFallback ;?
  (if p_rfx_supported a then note UsesRfx ;? create (p_rfx a) Rfx ;? use (p_rfx_reset a) Rfx
   else if p_nsc_supported a then create (p_nsc a) Nsc
   else ret false) ;?
  create (p_stream a) BitmapStream ;?
  create (p_video a) VideoThread ;?
  branch (has OutputThread) (ret true) (create (p_output a) OutputThread) ;?
  attempt (p_start a) id [StartStream] ;?
  when (has OutputWakeup) (use true OutputWakeup).

Definition peer_post_connect (c : GatewayConfig) (a : connect_answers) : prog :=
  client_force_source_desktop_size c (p_size a) ;?
  client_set_render_size (p_settings a) ;?
  client_claim_active (p_free a) ;?
  if direct_gfx c then
    client_prepare_gfx a ;? effect (fun x => set_times x (p_now a) (gfx_opened_at x)) []
  else client_prepare_bitmap a.

(** ** Dynamic channels *)

(** [on_gfx_caps_advertise]; [false] is an error code. *)
Definition on_gfx_caps_advertise (v : advertisement) : prog :=
  branch (fun x => negb (flagged DirectGfx x) || flagged BitmapFallback x) (ret false)
    match v_selected v with
    | None => client_stop ;> ret false
    | Some use_avc420 =>
        use (v_confirmed v) Gfx ;? use (v_surface v) Gfx ;? use (v_mapped v) Gfx ;?
        (if use_avc420 then ret true
         else create (v_progressive v) Progressive ;? use (v_progressive_reset v) Progressive) ;?
        use true ClientLock ;?
        note GfxReady ;?
        (if use_avc420 then ret true else note UsesProgressive ;? note BitmapFallback) ;?
        (create (v_thread v) VideoThread ;? emit StartStream) ;>
        if v_thread v then ret true else client_stop ;> ret false
    end.

(** [rdpgfx_server_handle_messages] delivers an advertisement at most. *)
Definition handle_messages (deliver ok : bool) : prog :=
  emit GfxMessages ;>
  if deliver then fun x =>
    match advertisements x with
    | [] => (ok, x, [])
    | v :: l => (on_gfx_caps_advertise v ;> ret ok) (set_advertisements x l)
    end
  else ret ok.

(** The answers of [client_process_dynamic_channels]: the static channel is
    joined; [ManagerOpen]; its event and queue; the state is ready; [Open] and the
    clock behind it; an event of the channel and its messages. *)
Record channel_answers := MkChannel {
  h_joined : bool;
  h_manager_open : bool;
  h_signalled : bool;
  h_flushed : bool;
  h_ready : bool;
  h_open : bool;
  h_now : Z;
  h_event : bool;
  h_deliver : bool;
  h_handled : bool }.

Definition client_process_dynamic_channels (a : channel_answers) : prog :=
  branch (fun x => (gfx_wait_started_at x =? 0) || negb (h_joined a)) (ret true)
    ((branch (flagged DrdynvcOpenAttempted) (ret true)
        (use true Vcm ;? effect (raise DrdynvcOpenAttempted) [ManagerOpen] ;? ret (h_manager_open a))) ;?
     use true Vcm ;?
     ret (negb (h_signalled a) || h_flushed a) ;?
     branch (fun x => negb (has Gfx x)) (ret true)
       (when (fun x => negb (flagged GfxOpened x) && h_ready a)
          (use true Gfx ;?
           effect (if h_open a then raise GfxOpened else id) [GfxOpen (h_open a)] ;? ret (h_open a) ;?
           effect (fun x => set_times x (gfx_wait_started_at x) (h_now a)) []) ;?
        when (fun x => flagged GfxOpened x && h_event a) (handle_messages (h_deliver a) (h_handled a)))).

Definition client_check_gfx_timeout (now : Z) (x : Client) : bool :=
  if negb (flagged DirectGfx x) || (gfx_wait_started_at x =? 0) || flagged GfxReady x then true
  else
    let started_at := if flagged GfxOpened x then gfx_opened_at x else gfx_wait_started_at x in
    u64 (now - started_at) <=? 15000.

(** ** The peer *)

Inductive setting :=
| RdpServerRsaKey | RdpServerCertificate | RdpSecurity | TlsSecurity | NlaSecurity
| SupportGraphicsPipeline | GfxH264 | GfxAVC444 | GfxAVC444v2 | GfxProgressive | GfxProgressiveV2
| RemoteFxCodec | NSCodec | DrawAllowDynamicColorFidelity | DrawAllowColorSubsampling
| DrawAllowSkipAlpha | FrameMarkerCommandEnabled | SurfaceFrameMarkerEnabled
| HasExtendedMouseEvent | HasHorizontalWheel | KeyboardLayout | KeyboardType | KeyboardSubType
| KeyboardFunctionKey | HasRelativeMouseEvent | DesktopWidth | DesktopHeight | ColorDepth
| MultifragMaxRequestSize | OsMajorType | OsMinorType.

(** The settings in the order they are made; key, certificate and the two system
    types are values of FreeRDP. *)
Definition peer_settings (c : GatewayConfig) (key certificate windows windows_nt : Z) : list (setting * Z) :=
  let gfx := if direct_gfx c then 1 else 0 in
  [(RdpServerRsaKey, key); (RdpServerCertificate, certificate);
   (RdpSecurity, 0); (TlsSecurity, 1); (NlaSecurity, 0);
   (SupportGraphicsPipeline, gfx); (GfxH264, gfx); (GfxAVC444, gfx); (GfxAVC444v2, gfx);
   (GfxProgressive, gfx); (GfxProgressiveV2, gfx);
   (RemoteFxCodec, 1); (NSCodec, 1); (DrawAllowDynamicColorFidelity, 1);
   (DrawAllowColorSubsampling, 1); (DrawAllowSkipAlpha, 1);
   (FrameMarkerCommandEnabled, gfx); (SurfaceFrameMarkerEnabled, gfx);
   (HasExtendedMouseEvent, 1); (HasHorizontalWheel, 1); (KeyboardLayout, 0x412); (KeyboardType, 4);
   (KeyboardSubType, 0); (KeyboardFunctionKey, 12); (HasRelativeMouseEvent, 1);
   (DesktopWidth, cfg_width c); (DesktopHeight, cfg_height c); (ColorDepth, 32);
   (MultifragMaxRequestSize, 0xFFFFFF); (OsMajorType, windows); (OsMinorType, windows_nt)].

(** The desktop size is the part of the settings that is read again. *)
Definition apply_setting (kv : setting * Z) (x : Client) : Client :=
  match kv with
  | (DesktopWidth, v) => set_desktop x (v, (desktop x).2)
  | (DesktopHeight, v) => set_desktop x ((desktop x).1, v)
  | _ => x
  end.

Fixpoint apply_settings (ok : setting -> bool) (l : list (setting * Z)) : prog :=
  match l with
  | [] => ret true
  | kv :: l => attempt (ok kv.1) (apply_setting kv) [] ;? apply_settings ok l
  end.

Record peer_answers := MkPeerAnswers {
  q_new : new_answers;
  q_key : bool;
  q_certificate : bool;
  q_settings : setting -> bool;
  q_initialized : bool;
  q_values : Z * Z * Z * Z }.

Definition configure_peer (c : GatewayConfig) (a : peer_answers) : prog :=
  let '(key, certificate, windows, windows_nt) := q_values a in
  client_context_new c (q_new a) ;?
  ret (q_key a && q_certificate a) ;?
  apply_settings (q_settings a) (peer_settings c key certificate windows windows_nt) ;?
  ret (q_initialized a).

(** A round of the loop: another thread has stopped the client; the number of
    event handles; the wait failed; the shutdown event is set; an activation by
    FreeRDP, with the desktop negotiated; the results of its calls; the clock. *)
Record round := MkRound {
  r_stop : bool;
  r_count : Z;
  r_failed : bool;
  r_shutdown : bool;
  r_connect : option ((Z * Z) * connect_answers);
  r_checked : bool;
  r_channels : channel_answers;
  r_more : bool;
  r_more_checked : bool;
  r_now : Z }.

Definition MAX_EVENT_HANDLES : Z := 32.

(** The handles that are waited for; [false] leaves the loop. *)
Definition wait_handles (count : Z) : prog := fun x =>
  if count =? 0 then (false, x, [])
  else if flagged DirectGfx x then
    if MAX_EVENT_HANDLES <=? count then (false, x, [])
    else if MAX_EVENT_HANDLES <=? count + 1 then (false, x, [Use Vcm; Slot count])
    else (true, x, [Use Vcm; Slot count; Use ShutdownEvent; Slot (count + 1)])
  else if MAX_EVENT_HANDLES <=? count then (false, x, [])
  else (true, x, [Use ShutdownEvent; Slot count]).

(** [CheckFileDescriptor], which may activate the session. *)
Definition check_file_descriptor (c : GatewayConfig) (r : round) : prog :=
  match r_connect r with
  | Some (negotiated, a) => effect (fun x => set_desktop x negotiated) [] ;> peer_post_connect c a
  | None => ret true
  end ;> ret (r_checked r).

(** The body of the loop; [false] is a [break]. *)
Definition peer_round (c : GatewayConfig) (r : round) : prog :=
  wait_handles (r_count r) ;?
  ret (negb (r_failed r)) ;?
  use true ShutdownEvent ;? ret (negb (r_shutdown r)) ;?
  check_file_descriptor c r ;?
  when (flagged DirectGfx) (client_process_dynamic_channels (r_channels r)) ;?
  ret (negb (r_more r) || r_more_checked r) ;?
  fun x => (negb (flagged DirectGfx x) || client_check_gfx_timeout (r_now r) x, x, []).

Fixpoint peer_loop (c : GatewayConfig) (rs : list round) : prog :=
  match rs with
  | [] => ret true
  | r :: rs =>
      (if r_stop r then client_stop else ret true) ;>
      branch client_should_stop (ret true) (peer_round c r ;? peer_loop c rs)
  end.

(** Whether the threads end within the time they are given. *)
Record end_answers := MkEnd { e_first : bool; e_video : bool; e_output : bool }.

Definition client_context_free (a : end_answers) : prog :=
  client_stop ;>
  when (flagged OwnsActive) (emit ReleaseInputs ;> emit StopStream ;> emit RestoreStream) ;>
  when (flagged ServerSet) (when (flagged OwnsActive) (emit ActiveClosing) ;> destroy ShutdownEvent) ;>
  when (has VideoThread) (emit (Await VideoThread (e_video a)) ;> destroy VideoThread) ;>
  when (has OutputThread) (emit (Await OutputThread (e_output a)) ;> destroy OutputThread) ;>
  destroy OutputWakeup ;> destroy AckEvent ;> destroy Gfx ;> destroy Rfx ;> destroy Nsc ;>
  destroy Progressive ;> destroy BitmapStream ;> destroy Vcm ;>
  when (fun x => flagged ServerSet x && flagged OwnsActive x) (emit ActiveClosed) ;>
  destroy OutputLock ;> effect (clear ClientLock) [Destroy ClientLock].

(** [peer_thread].  FreeRDP allocates the client with zeros, and calls
    [ContextFree] once, also when [ContextNew] has failed. *)
Definition peer_thread (c : GatewayConfig) (a : peer_answers) (rs : list round) (e : end_answers) : prog :=
  (configure_peer c a ;?
   peer_loop c rs ;> client_stop ;> when (has OutputThread) (emit (Await OutputThread (e_first e)))) ;>
  emit Disconnect ;> client_context_free e.

Definition client_zero (l : list advertisement) : Client := MkClient [] [] 0 0 (0, 0) (0, 0) l.
