(* ===== verification/RdpPeerSpec.v ===== *)
(** * Correctness of the RDP session

    The discipline of a session: handles are created once and used and destroyed
    only while they exist, and never under a thread that uses them; the dynamic
    channels are opened in order; the connection is taken down behind a stop. *)

From S2P Require Import Prelude Prog RdpPeer.

(** ** The discipline *)

(** What a video or output thread reaches through its client, [client_stop]
    included. *)
Definition thread_uses (t : handle) : list handle :=
  match t with
  | VideoThread => [ClientLock; Gfx; AckEvent; OutputWakeup; ShutdownEvent]
  | OutputThread =>
      [ClientLock; OutputLock; OutputWakeup; ShutdownEvent; AckEvent; Gfx; Rfx; Nsc; Progressive;
       BitmapStream]
  | _ => []
  end.

Definition is_thread (h : handle) : bool :=
  match h with VideoThread | OutputThread => true | _ => false end.

Record session := MkSession {
  alive : list handle;
  running : list handle;
  stopped : bool;
  manager_open : bool;
  gfx_open : bool;
  released : bool }.

Definition session_zero : session := MkSession [] [] false false false false.

(** A handle may be destroyed when no thread that uses it is running.  One handle
    is excepted: the shutdown event may be closed under running threads once they
    have been told to stop. *)
Definition unused (w : session) (h : handle) : bool :=
  forallb (fun t => negb (bool_decide (h ∈ thread_uses t))) (running w) ||
  (bool_decide (h = ShutdownEvent) && stopped w).

Definition with_alive (w : session) (hs ts : list handle) : session :=
  MkSession hs ts (stopped w) (manager_open w) (gfx_open w) (released w).

Definition observe (w : session) (e : event) : option session :=
  match e with
  | Create h =>
      if bool_decide (h ∈ alive w) then None
      else Some (with_alive w (h :: alive w) (if is_thread h then h :: running w else running w))
  | Use h => if bool_decide (h ∈ alive w) then Some w else None
  | Destroy h =>
      if bool_decide (h ∈ alive w) && unused w h then
        Some (with_alive w (filter (fun k => k <> h) (alive w)) (running w))
      else None
  | Await t ended =>
      if bool_decide (t ∈ alive w) then
        Some (if ended then with_alive w (alive w) (filter (fun k => k <> t) (running w)) else w)
      else None
  | Slot i => if (0 <=? i) && (i <? MAX_EVENT_HANDLES) then Some w else None
  | Stop => Some (MkSession (alive w) (running w) true (manager_open w) (gfx_open w) (released w))
  | ManagerOpen =>
      if manager_open w then None
      else Some (MkSession (alive w) (running w) (stopped w) true (gfx_open w) (released w))
  | GfxOpen ok =>
      if manager_open w && negb (gfx_open w)
      then Some (MkSession (alive w) (running w) (stopped w) (manager_open w) ok (released w)) else None
  | GfxMessages => if gfx_open w then Some w else None
  | ReleaseInputs => Some (MkSession (alive w) (running w) (stopped w) (manager_open w) (gfx_open w) true)
  | ActiveClosed =>
      if released w && match running w with [] => true | _ => false end then Some w else None
  | Disconnect =>
      if stopped w || match running w with [] => true | _ => false end then Some w else None
  | StartStream | StopStream | RestoreStream | ActiveClosing => Some w
  end.

Abbreviation observes := (Prog.observes observe).
Abbreviation keeps I p := (triple observe I p I I).

(** ** Invariants *)

(** Handles that only a claimed session has. *)
Definition session_handles : list handle :=
  [Gfx; VideoThread; OutputThread; Rfx; Nsc; Progressive; BitmapStream].

Definition lacks (hs : list handle) (x : Client) : Prop := Forall (fun h => h ∉ handles x) hs.

(** Client and session agree. *)
Record agree (x : Client) (w : session) : Prop := {
  ag_alive : alive w = handles x;
  ag_running : Forall (fun t => t ∈ handles x /\ is_thread t = true) (running w);
  ag_lock : ClientLock ∈ handles x;
  ag_stopped : flagged Stopping x = true -> stopped w = true }.

(** The loop of [peer_thread]. *)
Record looping (c : GatewayConfig) (x : Client) (w : session) : Prop := {
  lo_agree : agree x w;
  lo_server : flagged ServerSet x = true;
  lo_shutdown : ShutdownEvent ∈ handles x;
  lo_vcm : direct_gfx c = true -> Vcm ∈ handles x;
  lo_unclaimed : flagged OwnsActive x = false -> lacks session_handles x;
  lo_gfx : flagged DirectGfx x = true -> direct_gfx c = true /\ Gfx ∈ handles x;
  lo_manager : manager_open w = flagged DrdynvcOpenAttempted x;
  lo_opened : gfx_open w = flagged GfxOpened x;
  lo_opened_attempted : flagged GfxOpened x = true -> flagged DrdynvcOpenAttempted x = true;
  lo_opened_direct : flagged GfxOpened x = true -> flagged DirectGfx x = true;
  lo_advertised : (length (advertisements x) <= 1)%nat;
  lo_advertises : direct_gfx c = true -> advertisements x <> [] -> lacks [VideoThread; Progressive] x }.

Lemma flagged_raise f g x : flagged f (raise g x) = bool_decide (f = g) || flagged f x.
Proof.
  unfold flagged, raise. cbn. destruct (decide (f = g)) as [->|Hn].
  - rewrite bool_decide_eq_true_2 by (by left). by rewrite bool_decide_eq_true_2.
  - rewrite (bool_decide_eq_false_2 (f = g)) by done. apply bool_decide_ext. rewrite elem_of_cons. tauto.
Qed.

Lemma has_spec h x : has h x = true <-> h ∈ handles x.
Proof. apply bool_decide_eq_true. Qed.

(** ** Rules for the operations on handles *)

Lemma triple_use (P : Client -> session -> Prop) ok h :
  (forall x w, P x w -> alive w = handles x /\ h ∈ handles x) -> keeps P (use ok h).
Proof.
  intros H. apply keeps_iff. intros x w HP. destruct (H x w HP) as [Ha Hh]. exists w. split; [|done].
  cbn. by rewrite Ha, bool_decide_eq_true_2.
Qed.

Lemma triple_note (P Q : Client -> session -> Prop) F f :
  (forall x w, P x w -> Q (raise f x) w) -> triple observe P (note f) Q F.
Proof. intros H. apply triple_attempt; [|done]. intros x w HP. exists w. auto. Qed.

Lemma triple_emit (P Q : Client -> session -> Prop) F e :
  (forall x w, P x w -> exists w', observe w e = Some w' /\ Q x w') -> triple observe P (emit e) Q F.
Proof.
  intros H. apply triple_attempt; [|done]. intros x w HP. destruct (H x w HP) as (w' & E & HQ).
  exists w'. cbn. by rewrite E.
Qed.

Lemma agree_set x w h : agree x w -> h ∉ handles x -> exists w',
  observe w (Create h) = Some w' /\ agree (set h x) w' /\
  w' = with_alive w (h :: alive w) (if is_thread h then h :: running w else running w).
Proof.
  intros [Ha Hr Hl Hs] Hh. cbn [observe]. rewrite Ha, bool_decide_eq_false_2 by done.
  eexists. split; [done|]. split; [|done]. split; cbn; [done| |by right|done].
  assert (Hr' : Forall (fun t => t ∈ h :: handles x /\ is_thread t = true) (running w)).
  { eapply Forall_impl; [|exact Hr]. intros t [? ?]. split; [by right|done]. }
  destruct (is_thread h) eqn:E; [|done]. constructor; [split; [by left|done]|done].
Qed.

(** [stopping] goes with the event; the other flags a session may raise anytime. *)
Lemma looping_raise c x w f :
  f ∉ [Stopping; DirectGfx; DrdynvcOpenAttempted; GfxOpened] -> looping c x w -> looping c (raise f x) w.
Proof.
  intros Hf [[Ha Hr Hl Hs] H1 H2 H3 H4 H5 H6 H7 H8 H9 H10 H11].
  assert (Hn : forall g, g ∈ [Stopping; DirectGfx; DrdynvcOpenAttempted; GfxOpened] ->
    flagged g (raise f x) = flagged g x).
  { intros g Hg. rewrite flagged_raise, bool_decide_eq_false_2; [done|]. intros ->. done. }
  split; [split|..]; rewrite ?Hn by (rewrite !elem_of_cons; tauto); cbn; try done.
  - rewrite flagged_raise, H1. apply orb_true_r.
  - rewrite flagged_raise. intros [_ ?]%orb_false_iff. by apply H4.
Qed.

Lemma looping_stop c x w : looping c x w -> exists w',
  observe w Stop = Some w' /\ looping c (raise Stopping x) w'.
Proof.
  intros [[Ha Hr Hl Hs] H1 H2 H3 H4 H5 H6 H7 H8 H9 H10 H11]. eexists. split; [done|].
  split; [split|..]; rewrite ?flagged_raise; cbn; done.
Qed.

Lemma looping_set c x w h :
  looping c x w -> h ∉ handles x -> flagged OwnsActive x = true ->
  h ∉ [VideoThread; Progressive] \/ direct_gfx c = false \/ advertisements x = [] ->
  exists w', observe w (Create h) = Some w' /\ looping c (set h x) w'.
Proof.
  intros [Hag H1 H2 H3 H4 H5 H6 H7 H8 H9 H10 H11] Hh Ho Hv.
  destruct (agree_set x w h Hag Hh) as (w' & E & Hag' & ->). eexists. split; [exact E|].
  split; cbn; try done.
  - by right.
  - intros Hd. right. auto.
  - change (flagged OwnsActive (set h x)) with (flagged OwnsActive x). congruence.
  - intros Hd. destruct (H5 Hd). split; [done|by right].
  - intros Hd Hne. destruct Hv as [Hv|[Hv|Hv]]; [|congruence|done].
    apply list.Forall_forall. intros k Hk [->|Hin]%elem_of_cons.
    + by apply Hv.
    + specialize (H11 Hd Hne). unfold lacks in H11. rewrite list.Forall_forall in H11. by apply (H11 k).
Qed.

(** [client_stop] in any state that a stop does not invalidate. *)
Lemma client_stop_triple (P : Client -> session -> Prop) :
  (forall x w, P x w -> agree x w) ->
  (forall x w, P x w -> exists w', observe w Stop = Some w' /\ P (raise Stopping x) w') ->
  keeps P client_stop.
Proof.
  intros Hag Hst.
  assert (Hu : forall h, keeps P (when (has h) (use true h))).
  { intros h. apply triple_when; [|done]. set (Q x w := P x w /\ has h x = true).
    apply triple_conseq with Q Q Q; [|done|by intros ? ? []..].
    apply triple_use. intros x w [Hl%Hag Hh]. split; [apply Hl|by apply has_spec]. }
  unfold client_stop. repeat apply triple_and_then with P; try apply Hu.
  - apply triple_use. intros x w Hl%Hag. split; apply Hl.
  - apply triple_attempt; [|done]. intros x w Hl. destruct (Hst x w Hl) as (w' & E & H').
    exists w'. cbn in *. by rewrite E.
Qed.

Lemma client_stop_keeps c : keeps (looping c) client_stop.
Proof. apply client_stop_triple; [by intros x w []|apply looping_stop]. Qed.

(** The other fields do not matter. *)
Lemma looping_ext c x y w :
  handles y = handles x -> flags y = flags x -> advertisements y = advertisements x ->
  looping c x w -> looping c y w.
Proof.
  destruct x, y. cbn. intros -> -> -> [[Ha Hr Hl Hs] H1 H2 H3 H4 H5 H6 H7 H8 H9 H10 H11]. by split; [split|..].
Qed.

(** ** Activation *)

(** A claimed session in which the handles [rest] are still to be created. *)
Record stage (c : GatewayConfig) (rest : list handle) (x : Client) (w : session) : Prop := {
  st_looping : looping c x w;
  st_owns : flagged OwnsActive x = true;
  st_lacks : lacks rest x;
  st_mode : direct_gfx c = false \/ advertisements x = [] }.

Lemma stage_drop c h rest x w : stage c (h :: rest) x w -> stage c rest x w.
Proof. intros [H1 H2 H3 H4]. apply Forall_cons_iff in H3 as [_ H3]. by split. Qed.

Lemma stage_create c ok h rest : h ∉ rest ->
  triple observe (stage c (h :: rest)) (create ok h) (stage c rest) (looping c).
Proof.
  intros Hh. apply triple_attempt; [|intros _ x w Hs; apply Hs].
  intros x w [H1 H2 H3 H4]. apply Forall_cons_iff in H3 as [Hn H3].
  destruct (looping_set c x w h) as (w' & E & H'); [done..|by right|].
  exists w'. cbn in *. rewrite E. split; [done|]. split; [done..| |done].
  apply list.Forall_forall. intros k Hk [->|Hin]%elem_of_cons; [done|].
  unfold lacks in H3. rewrite list.Forall_forall in H3. by apply (H3 k).
Qed.

Lemma stage_note c rest f F :
  f ∉ [Stopping; DirectGfx; DrdynvcOpenAttempted; GfxOpened] ->
  triple observe (stage c rest) (note f) (stage c rest) F.
Proof.
  intros Hf. apply triple_note. intros x w [H1 H2 H3 H4]. split; [by apply looping_raise| |done..].
  rewrite flagged_raise, H2. apply orb_true_r.
Qed.

Lemma stage_emit c rest e F :
  (forall w, observe w e = Some w) -> triple observe (stage c rest) (emit e) (stage c rest) F.
Proof. intros He. apply triple_emit. intros x w H. exists w. by rewrite He. Qed.

(** A use of a handle of which nothing but its presence is known. *)
Lemma looping_use c ok h : keeps (fun x w => looping c x w /\ h ∈ handles x) (use ok h).
Proof. apply triple_use. intros x w [Hl Hh]. split; [apply Hl|done]. Qed.

Lemma looping_when_use c ok h : keeps (looping c) (when (has h) (use ok h)).
Proof.
  apply triple_when; [|done]. eapply triple_conseq; [apply (looping_use c ok h)|..].
  - intros x w [Hl Hh%has_spec]. done.
  - by intros x w [].
  - by intros x w [].
Qed.

(** A handle that was just created, or was known to exist. *)
Lemma stage_create_use c ok ok' h rest : h ∉ rest ->
  triple observe (stage c (h :: rest)) (create ok h ;? use ok' h) (stage c rest) (looping c).
Proof.
  intros Hh. set (Q x w := stage c rest x w /\ h ∈ handles x). apply triple_or_return with Q.
  - intros x w Hs. destruct (stage_create c ok h rest Hh x w Hs) as (w' & E & H'). exists w'. split; [done|].
    unfold result, state, create, attempt in *. destruct ok; [|done]. split; [done|]. by left.
  - eapply triple_conseq; [apply (triple_use Q)|done|by intros ? ? []|intros ? ? [[] ?]; done].
    intros x w [[Hl _ _ _] Hin]. split; [apply Hl|done].
Qed.

(** A session that was just claimed. *)
Definition claimed (c : GatewayConfig) (x : Client) (w : session) : Prop :=
  looping c x w /\ flagged OwnsActive x = true /\ lacks session_handles x.

Ltac not_in := rewrite ?elem_of_cons, ?elem_of_nil; intuition discriminate.

Lemma client_prepare_bitmap_keeps c a : direct_gfx c = false ->
  triple observe (claimed c) (client_prepare_bitmap a) (looping c) (looping c).
Proof.
  intros Hd. unfold client_prepare_bitmap.
  set (later := [BitmapStream; VideoThread; OutputThread]).
  apply triple_or_return with (stage c (Rfx :: Nsc :: later)).
  { apply triple_attempt; [|intros _ x w H; apply H]. intros x w (Hl & Ho & Hk). exists w. split; [done|].
    split; [done..| |by left]. unfold lacks, session_handles in *. subst later.
    rewrite !Forall_cons_iff in *. tauto. }
  apply triple_or_return with (stage c (Rfx :: Nsc :: later)); [apply stage_note; not_in|].
  apply triple_or_return with (stage c later).
  { destruct (p_rfx_supported a); [|destruct (p_nsc_supported a)].
    - apply triple_or_return with (stage c (Rfx :: Nsc :: later)); [apply stage_note; not_in|].
      eapply triple_conseq; [apply (stage_create_use c _ _ Rfx (Nsc :: later))|done|apply stage_drop|done].
      subst later. not_in.
    - eapply triple_conseq; [apply (stage_create c _ Nsc later)|apply stage_drop|done..]. subst later. not_in.
    - apply triple_return. intros x w H. apply H. }
  apply triple_or_return with (stage c [VideoThread; OutputThread]); [apply stage_create; not_in|].
  apply triple_or_return with (stage c [OutputThread]); [apply stage_create; not_in|].
  apply triple_or_return with (stage c []).
  { apply triple_branch; [apply triple_return; intros x w [Hs _]; by apply (stage_drop c OutputThread)|].
    eapply triple_conseq; [apply (stage_create c (p_output a) OutputThread [])|..]; [not_in|by intros ? ? []|done..]. }
  apply triple_or_return with (looping c); [|apply looping_when_use].
  apply triple_attempt; [|intros _ x w H; apply H]. intros x w H. exists w. split; [done|apply H].
Qed.

Lemma client_prepare_gfx_keeps c a : direct_gfx c = true ->
  triple observe (claimed c) (client_prepare_gfx a) (looping c) (looping c).
Proof.
  intros Hd. unfold client_prepare_gfx. apply triple_branch; [apply triple_return; by intros x w [[] _]|].
  set (Q x w := looping c x w /\ Gfx ∈ handles x). apply triple_or_return with Q.
  - apply triple_attempt; [|intros _ x w [[H _] _]; exact H]. intros x w [(Hl & Ho & Hk) Hg].
    destruct (looping_set c x w Gfx) as (w' & E & H'); [done| |done|left; not_in|].
    { intros Hin%has_spec. congruence. }
    exists w'. cbn in *. rewrite E. split; [done|]. split; [done|]. by left.
  - apply triple_or_return with Q; [eapply triple_conseq; [apply (looping_use c)|done..|by intros ? ? []]|].
    apply triple_note. intros x w [[[Ha Hr Hl Hs] H1 H2 H3 H4 H5 H6 H7 H8 H9 H10 H11] Hg].
    split; [split|..]; rewrite ?flagged_raise; cbn; try done.
Qed.

Lemma peer_post_connect_keeps c a : keeps (looping c) (peer_post_connect c a).
Proof.
  unfold peer_post_connect. apply triple_or_return with (looping c).
  { unfold client_force_source_desktop_size. apply keeps_or_return; [|apply keeps_branch; [|apply keeps_or_return;
      [|apply keeps_or_return]]]; try apply keeps_return; apply keeps_attempt; intros x w H; exists w;
      (split; [done|]); by apply (looping_ext c x). }
  apply triple_or_return with (looping c).
  { apply keeps_iff. intros x w H. exists w. unfold client_set_render_size, trace, state.
    destruct (desktop x) as [width height]. repeat case_match; split; try done; by apply (looping_ext c x). }
  apply triple_or_return with (claimed c).
  { intros x w H. exists w. unfold client_claim_active, trace, state, result.
    destruct (flagged OwnsActive x) eqn:Ho; [done|]. destruct (p_free a); cbn; [|done]. split; [done|].
    split; [apply looping_raise; [not_in|done]|]. split; [by rewrite flagged_raise|].
    by apply (lo_unclaimed c x w). }
  destruct (direct_gfx c) eqn:Hd; [|by apply client_prepare_bitmap_keeps].
  apply triple_or_return with (looping c); [by apply client_prepare_gfx_keeps|].
  apply keeps_attempt. intros x w H. exists w. split; [done|]. by apply (looping_ext c x).
Qed.

(** ** Dynamic channels *)

(** The RDPGFX channel exists. *)
Definition with_gfx (P : Client -> session -> Prop) (x : Client) (w : session) : Prop :=
  P x w /\ Gfx ∈ handles x.

Lemma use_gfx c ok rest : triple observe (with_gfx (stage c rest)) (use ok Gfx) (with_gfx (stage c rest)) (looping c).
Proof.
  eapply triple_conseq; [apply (triple_use (with_gfx (stage c rest)))|done|done|intros x w [[] _]; done].
  intros x w [[Hl _ _ _] Hg]. split; [apply Hl|done].
Qed.

Lemma stage_lock c ok rest : keeps (stage c rest) (use ok ClientLock).
Proof. apply triple_use. intros x w [Hl _ _ _]. split; apply Hl. Qed.

Lemma on_gfx_caps_advertise_keeps c v :
  triple observe (with_gfx (stage c [Progressive; VideoThread])) (on_gfx_caps_advertise v) (looping c) (looping c).
Proof.
  assert (Hstop : triple observe (looping c) (client_stop ;> ret false) (looping c) (looping c)).
  { apply keeps_and_then; [apply client_stop_keeps|apply keeps_return]. }
  assert (Hw : forall x w, with_gfx (stage c [Progressive; VideoThread]) x w -> looping c x w).
  { by intros x w [[] _]. }
  unfold on_gfx_caps_advertise. apply triple_branch; [apply triple_return; intros x w [H _]; by apply Hw|].
  apply triple_pre with (with_gfx (stage c [Progressive; VideoThread])); [|by intros ? ? []].
  destruct (v_selected v) as [avc|].
  2: by apply (triple_pre _ _ _ _ _ _ Hstop).
  do 3 (apply triple_or_return with (with_gfx (stage c [Progressive; VideoThread])); [apply use_gfx|]).
  apply triple_or_return with (stage c [VideoThread]).
  { destruct avc; [apply triple_return; intros x w [H _]; by apply (stage_drop c Progressive)|].
    apply triple_pre with (stage c [Progressive; VideoThread]); [apply stage_create_use; not_in|by intros ? ? []]. }
  apply triple_or_return with (stage c [VideoThread]).
  { eapply triple_conseq; [apply stage_lock|done|done|by intros ? ? []]. }
  apply triple_or_return with (stage c [VideoThread]); [apply stage_note; not_in|].
  apply triple_or_return with (stage c [VideoThread]).
  { destruct avc; [by apply triple_return|].
    apply triple_or_return with (stage c [VideoThread]); apply stage_note; not_in. }
  apply triple_and_then with (looping c); [|destruct (v_thread v); [apply keeps_return|exact Hstop]].
  apply triple_or_return with (stage c []); [apply stage_create; not_in|].
  eapply triple_conseq; [by apply (stage_emit c [] StartStream (looping c))|done|by intros ? ? []|done].
Qed.

(** The channel is open. *)
Definition opened (c : GatewayConfig) (x : Client) (w : session) : Prop :=
  looping c x w /\ flagged GfxOpened x = true.

Lemma handle_messages_keeps c deliver ok :
  triple observe (opened c) (handle_messages deliver ok) (looping c) (looping c).
Proof.
  unfold handle_messages. apply triple_and_then with (opened c).
  { apply triple_emit. intros x w [Hl Ho]. exists w. cbn [observe]. by rewrite (lo_opened c x w Hl), Ho. }
  destruct deliver; [|apply triple_return; destruct ok; by intros x w []].
  intros x w [Hl Ho]. destruct (advertisements x) as [|v l] eqn:Ev.
  - exists w. unfold trace, state, result. rewrite Ev. cbn. by destruct ok.
  - pose proof (lo_opened_direct c x w Hl Ho) as Hdir. destruct (lo_gfx c x w Hl Hdir) as [Hd Hg].
    assert (Hk : lacks [VideoThread; Progressive] x) by (apply (lo_advertises c x w Hl Hd); congruence).
    assert (l = []) as ->. { pose proof (lo_advertised c x w Hl) as Hlen. rewrite Ev in Hlen.
      destruct l; [done|cbn in Hlen; lia]. }
    assert (Hpre : with_gfx (stage c [Progressive; VideoThread]) (set_advertisements x []) w).
    { split; [|done]. split; [| | |by right].
      - destruct Hl as [[Ha Hr Hl Hs] H1 H2 H3 H4 H5 H6 H7 H8 H9 H10 H11].
        split; [split|..]; cbn; try done. lia.
      - destruct (flagged OwnsActive x) eqn:Eo; [done|]. apply (lo_unclaimed c x w Hl) in Eo.
        apply Forall_cons_iff in Eo as [Hn _]. done.
      - unfold lacks in *. rewrite !Forall_cons_iff in *. cbn. tauto. }
    assert (Ht : triple observe (with_gfx (stage c [Progressive; VideoThread]))
      (on_gfx_caps_advertise v ;> ret ok) (looping c) (looping c)).
    { apply triple_and_then with (looping c); [apply on_gfx_caps_advertise_keeps|apply keeps_return]. }
    destruct (Ht _ _ Hpre) as (w' & E & H'). exists w'. unfold trace, state, result in *. by rewrite Ev.
Qed.

(** A session on RDPGFX: its manager and context exist. *)
Definition direct (c : GatewayConfig) (x : Client) (w : session) : Prop :=
  looping c x w /\ flagged DirectGfx x = true.

Lemma direct_use c ok h : h = Vcm \/ h = Gfx -> keeps (direct c) (use ok h).
Proof.
  intros Hh. apply triple_use. intros x w [Hl Hd]. split; [apply Hl|].
  destruct (lo_gfx c x w Hl Hd) as [Hc Hg]. destruct Hh as [->| ->]; [by apply (lo_vcm c x w)|done].
Qed.

Lemma manager_open_direct c :
  triple observe (fun x w => direct c x w /\ flagged DrdynvcOpenAttempted x = false)
    (effect (raise DrdynvcOpenAttempted) [ManagerOpen])
    (fun x w => direct c x w /\ flagged DrdynvcOpenAttempted x = true) (direct c).
Proof.
  apply triple_attempt; [|done].
  intros x w [[[[Ha Hr Hl Hs] H1 H2 H3 H4 H5 H6 H7 H8 H9 H10 H11] Hd] Hn].
  eexists. cbn. rewrite H6, Hn. split; [done|]. split; [split|]; rewrite ?flagged_raise; cbn; [|done|done].
  split; [split|..]; rewrite ?flagged_raise; cbn; done.
Qed.

Lemma gfx_open_direct c (ok : bool) :
  triple observe (fun x w => (direct c x w /\ flagged DrdynvcOpenAttempted x = true) /\ flagged GfxOpened x = false)
    (effect (if ok then raise GfxOpened else id) [GfxOpen ok])
    (direct c) (direct c).
Proof.
  apply triple_attempt; [|done].
  intros x w [[[[[Ha Hr Hl Hs] H1 H2 H3 H4 H5 H6 H7 H8 H9 H10 H11] Hd] Hn] Ho].
  eexists. cbn. rewrite H6, Hn, H7, Ho. split; [done|].
  destruct ok; (split; [|rewrite ?flagged_raise; cbn; exact Hd]);
    (split; [split|..]; rewrite ?flagged_raise; cbn; try done).
  all: by rewrite ?Hd, ?Hn, ?Ho, ?orb_true_r.
Qed.

Lemma client_process_dynamic_channels_keeps c a :
  triple observe (direct c) (client_process_dynamic_channels a) (looping c) (looping c).
Proof.
  set (R x w := direct c x w /\ flagged DrdynvcOpenAttempted x = true).
  assert (HR : forall x w, R x w -> looping c x w) by (by intros x w [[] _]).
  assert (HuseR : forall ok h, h = Vcm \/ h = Gfx -> keeps R (use ok h)).
  { intros ok h Hh. apply triple_use. intros x w [[Hl Hd] _]. split; [apply Hl|].
    destruct (lo_gfx c x w Hl Hd) as [Hc Hg]. destruct Hh as [->| ->]; [by apply (lo_vcm c x w)|done]. }
  unfold client_process_dynamic_channels. apply triple_branch; [apply triple_return; by intros x w [[] _]|].
  apply triple_pre with (direct c); [|by intros ? ? []].
  apply triple_or_return with R.
  { apply triple_branch; [by apply triple_return|].
    set (N x w := direct c x w /\ flagged DrdynvcOpenAttempted x = false).
    apply triple_or_return with N.
    - apply triple_conseq with N N N; [|done|done|by intros x w [[] _]].
      apply triple_use. intros x w [[Hl Hd] _]. split; [apply Hl|].
      destruct (lo_gfx c x w Hl Hd) as [Hc _]. by apply (lo_vcm c x w).
    - apply triple_or_return with R; [|apply triple_return; destruct (h_manager_open a); auto].
      apply triple_conseq with N R (direct c); [apply manager_open_direct|done|done|by intros x w []]. }
  apply triple_or_return with R; [apply triple_conseq with R R R; auto|].
  apply triple_or_return with R; [apply triple_return; destruct (_ || _); auto|].
  apply triple_branch; [apply triple_return; intros x w [H _]; auto|].
  apply triple_pre with R; [|by intros ? ? []].
  apply triple_or_return with (looping c).
  { apply triple_when; [|intros x w H _; auto].
    set (N x w := R x w /\ flagged GfxOpened x = false).
    apply triple_pre with N; [|intros x w [H Hb]; bool_hyps; by split].
    apply triple_or_return with N.
    - apply triple_conseq with N N N; [|done|done|by intros x w [[[] _] _]].
      apply triple_use. intros x w [[[Hl Hd] _] _]. split; [apply Hl|].
      by destruct (lo_gfx c x w Hl Hd).
    - apply triple_or_return with (looping c).
      { apply triple_conseq with N (direct c) (direct c); [apply gfx_open_direct|done|by intros x w []..]. }
      apply keeps_or_return; [apply keeps_return|]. apply keeps_attempt.
      intros x w H. exists w. split; [done|]. by apply (looping_ext c x). }
  apply triple_when; [|done]. apply triple_pre with (opened c); [apply handle_messages_keeps|].
  intros x w [H Hb]. bool_hyps. by split.
Qed.

(** ** The loop *)

Lemma slot_in_range i : 0 <= i < 32 -> (0 <=? i) && (i <? MAX_EVENT_HANDLES) = true.
Proof. intros H. unfold MAX_EVENT_HANDLES. apply andb_true_iff. split; [apply Z.leb_le|apply Z.ltb_lt]; lia. Qed.

Lemma wait_handles_keeps c count : 0 <= count -> keeps (looping c) (wait_handles count).
Proof.
  intros Hc. apply keeps_iff. intros x w Hl. exists w.
  assert (Hs : bool_decide (ShutdownEvent ∈ alive w) = true).
  { apply bool_decide_eq_true. rewrite (ag_alive x w (lo_agree c x w Hl)). apply Hl. }
  unfold trace, state, wait_handles. destruct (count =? 0); [done|].
  destruct (flagged DirectGfx x) eqn:Ed.
  - assert (Hv : bool_decide (Vcm ∈ alive w) = true).
    { apply bool_decide_eq_true. rewrite (ag_alive x w (lo_agree c x w Hl)).
      destruct (lo_gfx c x w Hl Ed). by apply (lo_vcm c x w). }
    unfold MAX_EVENT_HANDLES. destruct (Z.leb_spec 32 count); [done|].
    destruct (Z.leb_spec 32 (count + 1)); cbn -[Z.leb Z.ltb]; rewrite Hv, slot_in_range by lia;
      cbn -[Z.leb Z.ltb]; [done|]. by rewrite Hs, slot_in_range by lia.
  - unfold MAX_EVENT_HANDLES. destruct (Z.leb_spec 32 count); [done|]. cbn -[Z.leb Z.ltb].
    by rewrite Hs, slot_in_range by lia.
Qed.

Lemma peer_round_keeps c r : 0 <= r_count r -> keeps (looping c) (peer_round c r).
Proof.
  intros Hc. unfold peer_round. apply keeps_or_return; [by apply wait_handles_keeps|].
  apply keeps_or_return; [apply keeps_return|].
  apply keeps_or_return; [apply triple_use; intros x w Hl; split; apply Hl|].
  apply keeps_or_return; [apply keeps_return|].
  apply keeps_or_return.
  { unfold check_file_descriptor. apply keeps_and_then; [|apply keeps_return].
    destruct (r_connect r) as [[negotiated a]|]; [|apply keeps_return].
    apply keeps_and_then; [|apply peer_post_connect_keeps].
    apply keeps_attempt. intros x w H. exists w. split; [done|]. by apply (looping_ext c x). }
  apply keeps_or_return.
  { apply triple_when; [|done]. apply client_process_dynamic_channels_keeps. }
  apply keeps_or_return; [apply keeps_return|]. apply keeps_iff. intros x w H. by exists w.
Qed.

Lemma peer_loop_keeps c rs : Forall (fun r => 0 <= r_count r) rs -> keeps (looping c) (peer_loop c rs).
Proof.
  induction 1 as [|r rs Hr _ IH]; cbn [peer_loop]; [apply keeps_return|].
  apply keeps_and_then; [destruct (r_stop r); [apply client_stop_keeps|apply keeps_return]|].
  apply keeps_branch; [apply keeps_return|]. apply keeps_or_return; [by apply peer_round_keeps|done].
Qed.

(** ** Teardown *)

(** A session that is taken down: which threads may still run, and what is gone. *)
Record leaving (ts gone : list handle) (x : Client) (w : session) : Prop := {
  le_alive : alive w = handles x;
  le_running : Forall (fun t => t ∈ ts /\ t ∈ handles x) (running w);
  le_lock : ClientLock ∈ handles x;
  le_released : flagged OwnsActive x = true -> released w = true;
  le_gone : lacks gone x }.

Lemma elem_of_clear h k x : k ∈ handles (clear h x) <-> k <> h /\ k ∈ handles x.
Proof. cbn. rewrite list_elem_of_filter. done. Qed.

Lemma lacks_clear h gone x : lacks gone x -> lacks (h :: gone) (clear h x).
Proof.
  intros Hg. constructor; [by intros [? _]%elem_of_clear|].
  eapply Forall_impl; [|exact Hg]. cbv beta. intros k Hk [_ ?]%elem_of_clear. done.
Qed.

Lemma unused_threads ts gone x w h :
  leaving ts gone x w -> Forall (fun t => h ∉ thread_uses t) ts -> unused w h = true.
Proof.
  intros [_ Hr _ _ _] Huse. unfold unused. apply orb_true_iff. left.
  apply forallb_forall. intros t Ht%list_elem_of_In. rewrite list.Forall_forall in Hr.
  destruct (Hr t Ht) as [Hin _]. rewrite list.Forall_forall in Huse.
  by rewrite bool_decide_eq_false_2 by (by apply Huse).
Qed.

(** Destroying a handle that the judge lets go. *)
Lemma leaving_destroy_unused F (P : Client -> session -> Prop) ts gone h :
  h <> ClientLock -> h ∉ ts ->
  (forall x w, P x w -> leaving ts gone x w /\ unused w h = true) ->
  triple observe P (destroy h) (leaving ts (h :: gone)) F.
Proof.
  intros Hlock Hts HP. apply triple_when.
  - apply triple_attempt; [|done]. intros x w [[[Ha Hr Hl Hrel Hg] Hu]%HP Hh%has_spec].
    eexists. cbn [map observes observe]. rewrite Ha, bool_decide_eq_true_2, Hu by done. cbn. split; [done|].
    split; cbn; [done| | |done|by apply lacks_clear].
    + eapply Forall_impl; [|exact Hr]. cbv beta. intros t [Ht Hth]. split; [done|].
      apply elem_of_clear. split; [|done]. intros ->. done.
    + apply elem_of_clear. done.
  - intros x w [[Ha Hr Hl Hrel Hg] _]%HP Hh. split; [done..|]. constructor; [|done].
    intros Hin%has_spec. congruence.
Qed.

Lemma leaving_destroy F ts gone h :
  h <> ClientLock -> h ∉ ts -> Forall (fun t => h ∉ thread_uses t) ts ->
  triple observe (leaving ts gone) (destroy h) (leaving ts (h :: gone)) F.
Proof.
  intros Hlock Hts Huse. apply (leaving_destroy_unused F (leaving ts gone)); [done..|].
  intros x w H. split; [done|]. by eapply unused_threads.
Qed.

Lemma leaving_await F t ts gone :
  triple observe (fun x w => leaving (t :: ts) gone x w /\ has t x = true) (emit (Await t true))
    (leaving ts gone) F.
Proof.
  apply triple_emit. intros x w [[Ha Hr Hl Hrel Hg] Hh%has_spec]. eexists. cbn.
  rewrite Ha, bool_decide_eq_true_2 by done. split; [done|]. split; cbn; try done.
  apply list.Forall_forall. intros k [Hk Hin]%list_elem_of_filter. rewrite list.Forall_forall in Hr.
  destruct (Hr k Hin) as [[->|]%elem_of_cons ?]; done.
Qed.

(** A thread is awaited, and its handle closed. *)
Lemma leaving_join F t ts gone :
  t <> ClientLock -> t ∉ ts -> Forall (fun u => t ∉ thread_uses u) ts ->
  triple observe (leaving (t :: ts) gone) (when (has t) (emit (Await t true) ;> destroy t))
    (leaving ts (t :: gone)) F.
Proof.
  intros Ht Hts Hu. apply triple_when.
  - apply triple_and_then with (leaving ts gone); [apply leaving_await|by apply leaving_destroy].
  - intros x w [Ha Hr Hl Hrel Hg] Hh.
    assert (Hno : t ∉ handles x) by (intros Hin%has_spec; congruence).
    split; [done| |done..|by constructor].
    eapply Forall_impl; [|exact Hr]. cbv beta. intros k [[->|]%elem_of_cons ?]; done.
Qed.

(** A session whose peer thread has left its loop, or never entered it. *)
Definition entering (x : Client) (w : session) : Prop := agree x w /\ flagged ServerSet x = true.

Lemma agree_stop x w : agree x w -> exists w', observe w Stop = Some w' /\ agree (raise Stopping x) w'.
Proof. intros [Ha Hr Hl Hs]. eexists. split; [done|]. by split. Qed.

Lemma entering_stop_keeps : keeps entering client_stop.
Proof.
  apply client_stop_triple; [by intros x w []|]. intros x w [Hag Hs].
  destruct (agree_stop x w Hag) as (w' & E & H'). exists w'. split; [done|]. split; [done|].
  by rewrite flagged_raise, Hs, orb_true_r.
Qed.

(** ... and has been told to stop. *)
Definition stopped_entering (x : Client) (w : session) : Prop := entering x w /\ stopped w = true.

Lemma client_stop_state x : state client_stop x = raise Stopping x.
Proof.
  unfold state, client_stop, and_then, when, use, effect, attempt. cbn.
  by repeat match goal with |- context [if has ?h ?y then _ else _] => destruct (has h y) end.
Qed.

Lemma entering_stopped : triple observe entering client_stop stopped_entering stopped_entering.
Proof.
  intros x w He. destruct (proj1 (keeps_iff _ _ _) entering_stop_keeps x w He) as (w' & E & H').
  exists w'. split; [done|]. rewrite client_stop_state in *.
  assert (HP : stopped_entering (raise Stopping x) w').
  { split; [done|]. apply (ag_stopped _ _ (proj1 H')). by rewrite flagged_raise. }
  by destruct (result client_stop x).
Qed.

Lemma release_inputs :
  triple observe stopped_entering
    (when (flagged OwnsActive) (emit ReleaseInputs ;> emit StopStream ;> emit RestoreStream))
    (fun x w => (leaving [VideoThread; OutputThread] [] x w /\ stopped w = true) /\ flagged ServerSet x = true)
    (fun _ _ => False).
Proof.
  assert (Hr : forall x w, agree x w ->
    Forall (fun t => t ∈ [VideoThread; OutputThread] /\ t ∈ handles x) (running w)).
  { intros x w [_ Hr _ _]. eapply Forall_impl; [|exact Hr]. cbv beta. intros t [Hin Ht].
    split; [|done]. destruct t; try done; rewrite !elem_of_cons; auto. }
  set (Q x w := (leaving [VideoThread; OutputThread] [] x w /\ stopped w = true) /\ flagged ServerSet x = true).
  assert (Hq : forall e, (forall w, observe w e = Some w) -> keeps Q (emit e)).
  { intros e He. apply triple_emit. intros x w H. exists w. by rewrite He. }
  apply triple_when.
  - apply triple_and_then with Q; [|apply triple_and_then with Q; [by apply Hq|]].
    + apply triple_emit. intros x w [[[Hag Hs] Hst] Ho]. eexists. split; [done|]. split; [|done].
      split; [|done]. split; cbn; [apply Hag|by apply Hr|apply Hag|done|constructor].
    + apply triple_emit. intros x w H. by exists w.
  - intros x w [[Hag Hs] Hst] Ho. split; [|done]. split; [|done].
    split; [apply Hag|by apply Hr|apply Hag|congruence|constructor].
Qed.

(** Nothing is left. *)
Definition gone (x : Client) (w : session) : Prop := handles x = [] /\ alive w = [] /\ running w = [].

Lemma leaving_no_thread gone x w : leaving [] gone x w -> running w = [].
Proof.
  intros [_ Hr _ _ _]. destruct (running w) as [|t l]; [done|].
  apply Forall_cons_iff in Hr as [[?%elem_of_nil _] _]. done.
Qed.

Ltac not_used := repeat (apply Forall_cons; [cbn; not_in|]); apply Forall_nil.

Lemma client_context_free_triple e F : e_video e = true -> e_output e = true ->
  triple observe entering (client_context_free e) gone F.
Proof.
  intros Hv Ho. unfold client_context_free. rewrite Hv, Ho.
  apply triple_and_then with stopped_entering; [apply triple_conseq with (1 := entering_stopped); try done|].
  set (L x w := leaving [VideoThread; OutputThread] [] x w /\ stopped w = true).
  apply triple_and_then with (fun x w => L x w /\ flagged ServerSet x = true).
  { apply triple_conseq with (1 := release_inputs); [done..|by intros]. }
  apply triple_and_then with (leaving [VideoThread; OutputThread] [ShutdownEvent]).
  { apply triple_when; [|intros x w [_ H]; congruence]. apply triple_pre with L; [|by intros x w [[] _]].
    apply triple_and_then with L; [apply triple_when; [|done]; apply triple_emit; intros x w [H _]; by exists w|].
    apply (leaving_destroy_unused _ L); [done|not_in|]. intros x w [HL Hst]. split; [done|].
    unfold unused. by rewrite Hst, orb_true_r. }
  eapply triple_and_then; [apply leaving_join; [done|not_in|not_used]|].
  eapply triple_and_then; [apply leaving_join; [done|not_in|not_used]|].
  do 8 (eapply triple_and_then; [apply leaving_destroy; [done|not_in|not_used]|]).
  eapply triple_and_then.
  { apply triple_when; [|intros x w H _; exact H]. apply triple_emit. intros x w [H Hb]. exists w.
    split; [|exact H]. cbn. rewrite (leaving_no_thread _ _ _ H). bool_hyps.
    by rewrite (le_released _ _ _ _ H). }
  eapply triple_and_then; [apply leaving_destroy; [done|not_in|not_used]|].
  apply triple_attempt; [|done]. intros x w H. pose proof (leaving_no_thread _ _ _ H) as Hn.
  destruct H as [Ha _ Hl _ Hg]. eexists. cbn. unfold unused. rewrite Ha, Hn, bool_decide_eq_true_2 by done.
  split; [done|]. assert (Hnil : filter (fun k => k <> ClientLock) (handles x) = []).
  { destruct (filter _ _) as [|h l] eqn:E; [done|].
    assert (Hin : h ∈ filter (fun k => k <> ClientLock) (handles x)) by (rewrite E; by left).
    apply list_elem_of_filter in Hin as [Hne Hin]. unfold lacks in Hg. rewrite list.Forall_forall in Hg.
    exfalso. apply (Hg h); [|done]. destruct h; rewrite ?elem_of_cons; tauto. }
  by split_and!.
Qed.

(** ** Set-up *)

(** A client that was just allocated, and one no thread works for yet. *)
Definition allocated (l : list advertisement) (x : Client) (w : session) : Prop :=
  x = client_zero l /\ w = session_zero.
Definition configuring (c : GatewayConfig) (x : Client) (w : session) : Prop :=
  looping c x w /\ running w = [].
Definition idle (x : Client) (w : session) : Prop := entering x w /\ running w = [].

Lemma configuring_idle c x w : configuring c x w -> idle x w.
Proof. intros [Hl Hr]. split; [|done]. split; apply Hl. Qed.

Ltac is_member := rewrite ?elem_of_cons; tauto.

Lemma client_context_new_triple c a l :
  a_lock a = true -> a_output_lock a = true -> (length l <= 1)%nat ->
  triple observe (allocated l) (client_context_new c a) (configuring c) idle.
Proof.
  destruct a as [a1 a2 a3 a4 a5 a6], c as [d cw ch]. cbn. intros -> -> Hl x w [-> ->].
  destruct a3, a4, a5, d, a6; (eexists; split; [reflexivity|]); cbn.
  all: split; [split|reflexivity]; try reflexivity; try (split; cbn; (done || is_member || constructor)).
  all: cbn; try done; try (intros; is_member).
  all: intros; repeat (apply Forall_cons; [cbn; not_in|]); apply Forall_nil.
Qed.

Lemma apply_settings_keeps c ok l : keeps (configuring c) (apply_settings ok l).
Proof.
  induction l as [|kv l IH]; cbn [apply_settings]; [apply keeps_return|].
  apply keeps_or_return; [|done]. apply keeps_attempt. intros x w [Hl Hr]. exists w. split; [done|].
  split; [|done]. by destruct kv as [[] v]; cbn; apply (looping_ext c x).
Qed.

Lemma configure_peer_triple c a l :
  a_lock (q_new a) = true -> a_output_lock (q_new a) = true -> (length l <= 1)%nat ->
  triple observe (allocated l) (configure_peer c a) (looping c) idle.
Proof.
  intros H1 H2 Hl. unfold configure_peer. destruct (q_values a) as [[[key certificate] windows] windows_nt].
  apply triple_or_return with (configuring c); [by apply client_context_new_triple|].
  apply triple_conseq with (configuring c) (configuring c) (configuring c);
    [|done|by intros x w []|apply configuring_idle].
  apply keeps_or_return; [apply keeps_return|].
  apply keeps_or_return; [apply apply_settings_keeps|apply keeps_return].
Qed.

(** ** The whole session *)

(** Ready for [Disconnect]. *)
Definition disconnecting (x : Client) (w : session) : Prop :=
  entering x w /\ (stopped w = true \/ running w = []).

Lemma stop_then_await c ended :
  triple observe (looping c) (client_stop ;> when (has OutputThread) (emit (Await OutputThread ended)))
    disconnecting disconnecting.
Proof.
  set (P := stopped_entering). apply triple_and_then with P.
  - intros x w Hl. destruct (proj1 (keeps_iff _ _ _) (client_stop_keeps c) x w Hl) as (w' & E & H').
    exists w'. split; [done|]. rewrite client_stop_state in *.
    assert (HP : P (raise Stopping x) w').
    { split; [split; apply H'|]. apply (ag_stopped _ _ (lo_agree c _ _ H')). by rewrite flagged_raise. }
    by destruct (result client_stop x).
  - apply triple_when; [|intros x w [He Hs] _; split; [done|by left]].
    apply triple_emit. intros x w [[[[Ha Hr Hl Hst] Hse] Hs] Hh%has_spec].
    eexists. cbn. rewrite Ha, bool_decide_eq_true_2 by done. split; [done|].
    destruct ended; (split; [|by left]); (split; [|done]); (split; cbn; try done).
    apply list.Forall_forall. intros t [_ Ht]%list_elem_of_filter. rewrite list.Forall_forall in Hr.
    by apply Hr.
Qed.

(** C10: A session whose two critical sections could be initialized, whose client
    advertises its capabilities at most once, and whose two threads end within the
    time they are given, keeps to the discipline whatever else the connection, the
    client and the libraries do: it creates each handle once, uses it only while it
    exists, destroys it only when no running thread uses it, opens the dynamic
    channels once and in order, stays inside the array of event handles, disconnects
    only behind a stop, gives the gateway free only after the held input is released
    and no thread is left, and ends with everything destroyed.  The shutdown event is
    the exception to the third point: it is closed while the threads may still be
    running, but only after they were told to stop (see
    [shutdown_event_closed_early]). *)
Theorem peer_session_disciplined c a rs e l :
  a_lock (q_new a) = true -> a_output_lock (q_new a) = true ->
  (length l <= 1)%nat -> Forall (fun r => 0 <= r_count r) rs ->
  e_video e = true -> e_output e = true ->
  exists w, observes session_zero (trace (peer_thread c a rs e) (client_zero l)) = Some w /\
    gone (state (peer_thread c a rs e) (client_zero l)) w.
Proof.
  intros Hl Ho Hadv Hrs Hv Hout.
  assert (Ht : triple observe (allocated l) (peer_thread c a rs e) gone gone).
  { unfold peer_thread. apply triple_and_then with disconnecting.
    - apply triple_or_return with (looping c).
      + apply triple_conseq with (1 := configure_peer_triple c a l Hl Ho Hadv); [done..|].
        intros x w [He Hr]. split; [done|by right].
      + apply triple_and_then with (looping c); [by apply peer_loop_keeps|apply stop_then_await].
    - apply triple_and_then with entering; [|by apply client_context_free_triple].
      apply triple_emit. intros x w [He Hd]. exists w. split; [|done]. cbn.
      destruct Hd as [-> | ->]; [done|by rewrite orb_true_r]. }
  destruct (Ht (client_zero l) session_zero) as (w & E & Hg); [done|].
  exists w. split; [done|]. by destruct (result _ _).
Qed.

(** A session on RDPGFX in which every call succeeds. *)
Definition demo_config : GatewayConfig := MkConfig true 1920 1080.
Definition demo_new : new_answers := MkNew true true true true true true.
Definition demo_peer (a : new_answers) : peer_answers :=
  MkPeerAnswers a true true (fun _ => true) true (1, 2, 3, 4).
Definition demo_connect : connect_answers :=
  MkConnect (MkSize true true true true) true true true true 1000 true true true true true true true true true.
Definition demo_channel (now : Z) : channel_answers := MkChannel true true true true true true now true true true.
Definition demo_round (connect : bool) (now : Z) : round :=
  MkRound false 3 false false (if connect then Some ((1024, 768), demo_connect) else None) true
    (demo_channel now) false true now.
Definition demo_advertisement (avc : bool) : advertisement := MkAdvertisement (Some avc) true true true true true true.

Lemma peer_session_disciplined_witness :
  let rs := [demo_round true 1000; demo_round false 1050; demo_round false 1100] in
  let p := peer_thread demo_config (demo_peer demo_new) rs (MkEnd true true true) in
  let x := client_zero [demo_advertisement false] in
  exists w, observes session_zero (trace p x) = Some w /\ gone (state p x) w.
Proof.
  apply (peer_session_disciplined demo_config (demo_peer demo_new)
    [demo_round true 1000; demo_round false 1050; demo_round false 1100] (MkEnd true true true)
    [demo_advertisement false]); try reflexivity.
  repeat constructor; cbn; lia.
Defined.

(** The same session is on RDPGFX with its channel open and a progressive codec. *)
Example demo_session_ready :
  let rs := [demo_round true 1000; demo_round false 1050; demo_round false 1100] in
  let x := state (configure_peer demo_config (demo_peer demo_new) ;? peer_loop demo_config rs)
             (client_zero [demo_advertisement false]) in
  map (fun f => flagged f x) [DirectGfx; GfxOpened; GfxReady; UsesProgressive] = [true; true; true; true] /\
  has VideoThread x = true /\ render x = (1920, 1080).
Proof. by vm_compute. Qed.

(** A client that advertises twice: the first video thread is forgotten. *)
Example second_advertisement_forgets_thread :
  let rs := [demo_round true 1000; demo_round false 1050; demo_round false 1100] in
  let p := peer_thread demo_config (demo_peer demo_new) rs (MkEnd true true true) in
  let x := client_zero [demo_advertisement true; demo_advertisement true] in
  observes session_zero (trace p x) = None /\
  count_occ event_eq_dec (trace p x) (Create VideoThread) = 2%nat /\
  count_occ event_eq_dec (trace p x) (Destroy VideoThread) = 1%nat.
Proof. by vm_compute. Qed.

(** A video thread that outlives its wait of three seconds still uses what is freed. *)
Example late_video_thread :
  let rs := [demo_round true 1000; demo_round false 1050] in
  let p := peer_thread demo_config (demo_peer demo_new) rs (MkEnd true false true) in
  observes session_zero (trace p (client_zero [demo_advertisement true])) = None.
Proof. reflexivity. Qed.

(** The shutdown event is closed before the threads are awaited: even in a session
    in which everything succeeds, the video thread is running at that moment, and
    its [client_stop] sets the event. *)
Example shutdown_event_closed_early :
  let rs := [demo_round true 1000; demo_round false 1050; demo_round false 1100] in
  let p := peer_thread demo_config (demo_peer demo_new) rs (MkEnd true true true) in
  exists pre post w, trace p (client_zero [demo_advertisement true]) = pre ++ Destroy ShutdownEvent :: post /\
    observes session_zero pre = Some w /\ VideoThread ∈ running w /\ ShutdownEvent ∈ thread_uses VideoThread.
Proof.
  exists (take 52 (trace (peer_thread demo_config (demo_peer demo_new)
            [demo_round true 1000; demo_round false 1050; demo_round false 1100] (MkEnd true true true))
            (client_zero [demo_advertisement true]))).
  eexists. eexists. split; [vm_compute; reflexivity|]. split; [vm_compute; reflexivity|].
  split; cbn; rewrite ?elem_of_cons; tauto.
Qed.

(** Without its second critical section, the client's lock is destroyed before it is
    entered and destroyed again. *)
Example failed_output_lock :
  let p := peer_thread demo_config (demo_peer (MkNew true false true true true true)) [] (MkEnd true true true) in
  trace p (client_zero []) =
    [Create ClientLock; Destroy ClientLock; Disconnect; Use ClientLock; Stop; Destroy ClientLock].
Proof. reflexivity. Qed.
