(* ===== verification/RdpPeerLive.v ===== *)
(** * An RDPGFX session gets ready or ends

    The timeout of [rdp_peer.c]: a session whose channel is not negotiated within
    fifteen seconds of its activation, or of the opening of the channel, is left. *)

From S2P Require Import Prelude Prog RdpPeer RdpPeerSpec.

(** Only the state matters here: every event passes. *)
Definition anything (w : unit) (_ : event) : option unit := Some w.

Lemma observes_anything es w : Prog.observes anything w es = Some w.
Proof. by induction es. Qed.

Abbreviation holds P p Q F := (triple anything (fun x _ => P x) p (fun x _ => Q x) (fun x _ => F x)).

(** An activated session that started to wait at [t0], and whose channel was
    opened at [b] at the latest; with [g], one that is ready, and with
    [o], one whose channel was opened then. *)
Record waiting (t0 b : Z) (g : bool) (o : option Z) (x : Client) : Prop := {
  wt_owns : flagged OwnsActive x = true;
  wt_direct : flagged DirectGfx x = true;
  wt_since : gfx_wait_started_at x = t0;
  wt_opened : flagged GfxOpened x = true -> t0 <= gfx_opened_at x <= b;
  wt_ready : g = true -> flagged GfxReady x = true;
  wt_fixed : forall v, o = Some v -> flagged GfxOpened x = true /\ gfx_opened_at x = v }.

Section Waiting.
Context (t0 b : Z) (g : bool) (o : option Z).

Lemma flagged_raised f k x : flagged f x = true -> flagged f (raise k x) = true.
Proof. intros H. rewrite flagged_raise, H. apply orb_true_r. Qed.

Lemma waiting_raise f x : f <> GfxOpened -> waiting t0 b g o x -> waiting t0 b g o (raise f x).
Proof.
  intros Hf [H1 H2 H3 H4 H5 H6]. split; [by apply flagged_raised..|done| | |].
  - rewrite flagged_raise, bool_decide_eq_false_2 by done. done.
  - intros Hg. by apply flagged_raised, H5.
  - intros v Hv. destruct (H6 v Hv). split; [by apply flagged_raised|done].
Qed.

(** The rest of the client does not matter. *)
Lemma waiting_ext x y : flags y = flags x -> gfx_wait_started_at y = gfx_wait_started_at x ->
  gfx_opened_at y = gfx_opened_at x -> waiting t0 b g o x -> waiting t0 b g o y.
Proof. destruct x, y. cbn. intros -> -> -> [H1 H2 H3 H4 H5 H6]. by split. Qed.

Abbreviation stays p := (holds (waiting t0 b g o) p (waiting t0 b g o) (waiting t0 b g o)).

Lemma stays_attempt ok f es : (forall x, waiting t0 b g o x -> waiting t0 b g o (f x)) -> stays (attempt ok f es).
Proof. intros H. apply keeps_attempt. intros x w Hx. exists w. rewrite observes_anything. auto. Qed.

Lemma stays_emit e : stays (emit e).
Proof. by apply stays_attempt. Qed.
Lemma stays_use ok h : stays (use ok h).
Proof. apply keeps_iff. intros x w Hx. by exists w. Qed.
Lemma stays_create ok h : stays (create ok h).
Proof. apply stays_attempt. intros x Hx. by apply (waiting_ext x). Qed.
Lemma stays_note f : f <> GfxOpened -> stays (note f).
Proof. intros Hf. apply stays_attempt. intros x. by apply waiting_raise. Qed.
#[local] Hint Resolve stays_emit stays_use stays_create : prog.
#[local] Hint Extern 1 (triple anything _ (note _) _ _) => by apply stays_note : prog.

Lemma stays_stop : stays client_stop.
Proof.
  unfold client_stop. repeat apply keeps_and_then; auto with prog.
  apply stays_attempt. intros x. by apply waiting_raise.
Qed.
#[local] Hint Resolve stays_stop : prog.

(** A second activation is refused: the gateway is taken. *)
Lemma stays_post_connect c a : stays (peer_post_connect c a).
Proof.
  unfold peer_post_connect. apply keeps_or_return.
  { unfold client_force_source_desktop_size.
    repeat first [apply keeps_return | apply stays_attempt; intros x Hx; by apply (waiting_ext x) |
                  apply keeps_or_return | apply keeps_branch]. }
  apply keeps_or_return.
  { apply keeps_iff. intros x w Hx. exists w. unfold client_set_render_size, trace, state.
    destruct (desktop x). repeat case_match; split; try done; by apply (waiting_ext x). }
  apply triple_or_return with (fun _ _ => False); [|by intros x w []].
  intros x w Hx. exists w. unfold client_claim_active, trace, state, result.
  by rewrite (wt_owns _ _ _ _ _ Hx).
Qed.

Lemma stays_advertise v : stays (on_gfx_caps_advertise v).
Proof.
  unfold on_gfx_caps_advertise. apply keeps_branch; [auto with prog|].
  destruct (v_selected v) as [avc|]; [|auto with prog].
  destruct avc, (v_thread v); repeat first [solve [auto 2 with prog] | apply keeps_or_return | apply keeps_and_then].
Qed.

Lemma stays_messages deliver ok : stays (handle_messages deliver ok).
Proof.
  unfold handle_messages. apply keeps_and_then; [auto with prog|]. destruct deliver; [|auto with prog].
  apply keeps_iff. intros x w Hx. destruct (advertisements x) as [|v l] eqn:Ev.
  - exists w. unfold trace, state. rewrite Ev. done.
  - destruct (proj1 (keeps_iff _ _ _) (keeps_and_then _ _ _ _ (stays_advertise v) (keeps_return _ _ ok))
      (set_advertisements x l) w) as (w' & E & H'); [by apply (waiting_ext x)|].
    exists w'. unfold trace, state in *. by rewrite Ev.
Qed.

(** The channel is opened at the time that is read then. *)
Lemma stays_open a : o = None -> t0 <= h_now a <= b ->
  stays (use true Gfx ;? effect (if h_open a then raise GfxOpened else id) [GfxOpen (h_open a)] ;?
         ret (h_open a) ;? effect (fun x => set_times x (gfx_wait_started_at x) (h_now a)) []).
Proof.
  intros Ho Hnow. apply keeps_or_return; [auto with prog|].
  set (O x := flagged OwnsActive x = true /\ flagged DirectGfx x = true /\ gfx_wait_started_at x = t0 /\
             (g = true -> flagged GfxReady x = true)).
  destruct (h_open a).
  - apply triple_or_return with (fun x _ => O x).
    { apply triple_attempt; [|done]. intros x w [H1 H2 H3 H4 H5 H6]. exists w. split; [done|].
      split_and!; [by apply flagged_raised..|done|]. intros Hg. by apply flagged_raised, H5. }
    apply triple_or_return with (fun x _ => O x); [by apply triple_return|].
    apply triple_attempt; [|done]. intros x w (H1 & H2 & H3 & H5). exists w. split; [done|].
    split; [done..|congruence].
  - apply keeps_or_return; [by apply stays_attempt|].
    apply triple_or_return with (fun _ _ => False); [by apply triple_return|by intros x w []].
Qed.

(** A round may open the channel, unless it is open. *)
Lemma stays_channels a : (o = None -> t0 <= h_now a <= b) -> stays (client_process_dynamic_channels a).
Proof.
  intros Hnow. unfold client_process_dynamic_channels. apply keeps_branch; [auto with prog|].
  apply keeps_or_return.
  { apply keeps_branch; [auto with prog|]. apply keeps_or_return; [auto with prog|].
    apply keeps_or_return; [|auto with prog]. apply stays_attempt. intros x. by apply waiting_raise. }
  apply keeps_or_return; [auto with prog|]. apply keeps_or_return; [auto with prog|].
  apply keeps_branch; [auto with prog|]. apply keeps_or_return; [|apply keeps_when, stays_messages].
  destruct o as [v|] eqn:Eo.
  - apply triple_when; [|done]. intros x w [Hx Hb]. bool_hyps.
    destruct (wt_fixed _ _ _ _ _ Hx v eq_refl). congruence.
  - apply keeps_when. rewrite <- Eo. apply stays_open; auto.
Qed.

Lemma stays_round c r :
  (o = None -> t0 <= h_now (r_channels r) <= b) -> stays (peer_round c r).
Proof.
  intros Hnow. unfold peer_round.
  assert (Hpure : forall f, stays (fun x => (f x, x, []))).
  { intros f. apply keeps_iff. intros x w Hx. by exists w. }
  apply keeps_or_return.
  { apply keeps_iff. intros x w Hx. exists w. rewrite observes_anything. split; [done|].
    unfold state, wait_handles. by repeat case_match. }
  apply keeps_or_return; [auto with prog|]. apply keeps_or_return; [auto with prog|].
  apply keeps_or_return; [auto with prog|]. apply keeps_or_return.
  { unfold check_file_descriptor. apply keeps_and_then; [|auto with prog].
    destruct (r_connect r) as [[negotiated a]|]; [|auto with prog].
    apply keeps_and_then; [|apply stays_post_connect]. apply stays_attempt. intros x Hx. by apply (waiting_ext x). }
  apply keeps_or_return; [apply keeps_when, stays_channels, Hnow|].
  apply keeps_or_return; [auto with prog|apply Hpure].
Qed.

End Waiting.

(** ** The loop *)

(** The clock readings of the rounds behind a reading [p]: in order, and each at
    most [d] milliseconds behind the one before. *)
Fixpoint clocked (d p : Z) (rs : list round) : Prop :=
  match rs with
  | [] => True
  | r :: rs => (p <= h_now (r_channels r) <= r_now r /\ r_now r <= p + d /\ r_now r < 2 ^ 64) /\
               clocked d (r_now r) rs
  end.

(** A loop body and its continuation, as the loop runs them. *)
Lemma peer_loop_cons c r rs x :
  let x1 := if r_stop r then raise Stopping x else x in
  let es := trace (if r_stop r then client_stop else ret true) x in
  peer_loop c (r :: rs) x =
    if client_should_stop x1 then (true, x1, es ++ [])
    else if result (peer_round c r) x1
         then let '(ok, y, es') := peer_loop c rs (state (peer_round c r) x1) in
              (ok, y, es ++ trace (peer_round c r) x1 ++ es')
         else (false, state (peer_round c r) x1, es ++ trace (peer_round c r) x1).
Proof.
  intros x1 es. subst es. cbn [peer_loop].
  assert (Hx : state (if r_stop r then client_stop else ret true) x = x1).
  { subst x1. destruct (r_stop r); [apply client_stop_state|done]. }
  unfold and_then, branch, or_return, trace, state, result in *.
  destruct ((if r_stop r then client_stop else ret true) x) as [[ok y] es]. cbn in Hx. subst y. cbn.
  destruct (client_should_stop x1); [done|].
  destruct (peer_round c r x1) as [[[] y] es']; [|done]. cbn. destruct (peer_loop c rs y) as [[? ?] ?]. reflexivity.
Qed.

(** A round that goes on leaves a session that is ready or in time. *)
Lemma peer_round_in_time c r x :
  result (peer_round c r) x = true -> flagged DirectGfx (state (peer_round c r) x) = true ->
  client_check_gfx_timeout (r_now r) (state (peer_round c r) x) = true.
Proof.
  unfold peer_round. set (check := fun x => (negb (flagged DirectGfx x) || _, x, [])).
  assert (Hlast : forall p : Prog.prog Client event, (forall x, result p x = true -> flagged DirectGfx (state p x) = true ->
      client_check_gfx_timeout (r_now r) (state p x) = true) ->
    forall (q : Prog.prog Client event) x, result (q ;? p) x = true -> flagged DirectGfx (state (q ;? p) x) = true ->
      client_check_gfx_timeout (r_now r) (state (q ;? p) x) = true).
  { intros p Hp q y. unfold result, state, or_return in *. destruct (q y) as [[[] y1] es]; [|done].
    specialize (Hp y1). by destruct (p y1) as [[ok y2] es']. }
  revert x. do 7 (apply Hlast). intros x. unfold check, result, state. cbn. intros H Hd.
  by rewrite Hd in H.
Qed.

Lemma in_time t0 d g o now x :
  0 < t0 -> 0 <= d -> now < 2 ^ 64 -> waiting t0 (t0 + 15000 + d) g o x -> flagged GfxReady x = false ->
  (flagged GfxOpened x = true -> gfx_opened_at x <= now) -> t0 <= now ->
  client_check_gfx_timeout now x = true ->
  now <= t0 + 30000 + d /\ (flagged GfxOpened x = false -> now <= t0 + 15000).
Proof.
  intros Ht Hd Hn [H1 H2 H3 H4 _ _] Hr Ho Hge. unfold client_check_gfx_timeout.
  rewrite H2, H3, Hr, (proj2 (Z.eqb_neq t0 0)) by lia. cbn [negb orb].
  destruct (flagged GfxOpened x) eqn:Eo; intros Hu; apply Z.leb_le in Hu.
  - specialize (H4 eq_refl). specialize (Ho eq_refl). rewrite u64_id in Hu by (unfold is_u64; lia).
    split; [lia|done].
  - rewrite u64_id in Hu by (unfold is_u64; lia). split; [lia|intros; lia].
Qed.

(** The session when the clock was last read at [p]. *)
Record pending (t0 d p : Z) (x : Client) : Prop := {
  pe_waiting : waiting t0 (t0 + 15000 + d) false None x;
  pe_since : t0 <= p;
  pe_opened : flagged GfxOpened x = true -> gfx_opened_at x <= p;
  pe_closed : flagged GfxOpened x = false -> p <= t0 + 15000 }.

Lemma stays_state t0 b g o (p : Prog.prog Client event) x :
  holds (waiting t0 b g o) p (waiting t0 b g o) (waiting t0 b g o) ->
  waiting t0 b g o x -> waiting t0 b g o (state p x).
Proof. intros Hp Hx. by destruct (proj1 (keeps_iff _ _ _) Hp x tt Hx) as (w & _ & H). Qed.

Lemma waiting_fix t0 b g x : waiting t0 b g None x -> flagged GfxOpened x = true ->
  waiting t0 b g (Some (gfx_opened_at x)) x.
Proof. intros [H1 H2 H3 H4 H5 _] Ho. split; [done..|]. by intros v [= <-]. Qed.

Lemma pending_round t0 d p c r x :
  0 <= d -> pending t0 d p x -> p <= h_now (r_channels r) <= r_now r -> r_now r <= p + d ->
  let y := state (peer_round c r) x in
  waiting t0 (t0 + 15000 + d) false None y /\ (flagged GfxOpened y = true -> gfx_opened_at y <= r_now r).
Proof.
  intros Hd [Hw Hs Ho Hc] Hh Hn y. destruct (flagged GfxOpened x) eqn:Eo.
  - apply waiting_fix in Hw; [|done].
    assert (Hy : waiting t0 (t0 + 15000 + d) false (Some (gfx_opened_at x)) y).
    { by apply stays_state; [apply stays_round|]. }
    destruct (wt_fixed _ _ _ _ _ Hy _ eq_refl) as [Hyo Hya]. specialize (Ho eq_refl).
    destruct Hy as [H1 H2 H3 H4 H5 H6]. split; [by split|intros; lia].
  - specialize (Hc eq_refl). split.
    + apply stays_state; [apply stays_round; intros; lia|done].
    + intros Hyo. assert (Hy : waiting t0 (r_now r) false None y).
      { apply stays_state; [apply stays_round; intros; lia|].
        destruct Hw as [H1 H2 H3 H4 H5 H6]. split; [done..|congruence|done|done]. }
      by apply (wt_opened _ _ _ _ _ Hy).
Qed.

Lemma pending_stop t0 d p r x : pending t0 d p x -> pending t0 d p (if r_stop r then raise Stopping x else x).
Proof.
  intros [Hw Hs Ho Hc]. destruct (r_stop r); [|by split].
  split; [by apply waiting_raise|done|..]; rewrite flagged_raise; cbn; done.
Qed.

(** A ready session stays ready. *)
Lemma peer_loop_ready c t0 d b rs p x :
  waiting t0 b true None x -> t0 <= p -> 2 ^ 64 <= b -> clocked d p rs ->
  flagged GfxReady (state (peer_loop c rs) x) = true.
Proof.
  intros Hx Hp Hb. revert p x Hx Hp. induction rs as [|r rs IH]; intros p x Hx Hp; [intros _; by apply Hx|].
  intros [Hr Hrs]. pose proof (peer_loop_cons c r rs x) as E. cbv zeta in E.
  set (x1 := if r_stop r then raise Stopping x else x) in E.
  assert (Hx1 : waiting t0 b true None x1) by (subst x1; destruct (r_stop r); [by apply waiting_raise|done]).
  assert (Hx2 : waiting t0 b true None (state (peer_round c r) x1)).
  { apply stays_state; [apply stays_round; intros; lia|done]. }
  unfold state at 1. rewrite E. destruct (client_should_stop x1); [by apply Hx1|].
  destruct (result (peer_round c r) x1); [|by apply Hx2].
  specialize (IH (r_now r) (state (peer_round c r) x1) Hx2 ltac:(lia) Hrs). unfold state in IH at 1.
  by destruct (peer_loop c rs (state (peer_round c r) x1)) as [[? ?] ?].
Qed.

Lemma pending_next c t0 d p r rs x :
  0 < t0 -> 0 <= d -> pending t0 d p x -> clocked d p (r :: rs) ->
  let y := state (peer_round c r) x in
  result (peer_round c r) x = true -> flagged GfxReady (state (peer_loop c rs) y) = false ->
  pending t0 d (r_now r) y /\ r_now r <= t0 + 30000 + d.
Proof.
  intros Ht Hd Hp [[Hh [Hn Hmax]] Hrs] y Hres Hready.
  destruct (pending_round t0 d p c r x Hd Hp Hh Hn) as [Hy Hyo]. fold y in Hy, Hyo.
  pose proof (pe_since _ _ _ _ Hp) as Hs.
  assert (Hnr : flagged GfxReady y = false).
  { destruct (flagged GfxReady y) eqn:E; [|done]. rewrite (peer_loop_ready c t0 d
      (Z.max (2 ^ 64) (t0 + 15000 + d)) rs (r_now r)) in Hready; [done| |lia|lia|done].
    destruct Hy as [H1 H2 H3 H4 _ _]. split; [done..| |done|done]. intros Ho. specialize (H4 Ho). lia. }
  destruct (in_time t0 d false None (r_now r) y) as [H30 H15]; [done..|lia| |].
  { apply peer_round_in_time; [done|apply Hy]. }
  split; [|done]. split; [done|lia|done|done].
Qed.

(** Two continuations of a round are equal if they are where the round goes on. *)
Lemma pending_step c t0 d p r rs rs' x :
  0 < t0 -> 0 <= d -> pending t0 d p x -> clocked d p (r :: rs) ->
  flagged GfxReady (state (peer_loop c (r :: rs)) x) = false ->
  (forall y, pending t0 d (r_now r) y -> r_now r <= t0 + 30000 + d ->
     flagged GfxReady (state (peer_loop c rs) y) = false -> peer_loop c rs' y = peer_loop c rs y) ->
  peer_loop c (r :: rs') x = peer_loop c (r :: rs) x.
Proof.
  intros Ht Hd Hp Hc Hready Hnext. pose proof (peer_loop_cons c r) as E. cbv zeta in E.
  unfold state in Hready. rewrite !E in *. clear E.
  apply (pending_stop _ _ _ r) in Hp. set (x1 := if r_stop r then _ else x) in *.
  destruct (client_should_stop x1); [done|].
  destruct (result (peer_round c r) x1) eqn:Hres; [|done].
  assert (Hrd : flagged GfxReady (state (peer_loop c rs) (state (peer_round c r) x1)) = false).
  { unfold state at 1. by destruct (peer_loop c rs (state (peer_round c r) x1)) as [[? ?] ?]. }
  destruct (pending_next c t0 d p r rs x1 Ht Hd Hp Hc Hres Hrd) as [Hy Hle].
  by rewrite (Hnext _ Hy Hle Hrd).
Qed.

(** C36: The clock being read at least every [d] milliseconds, a session on RDPGFX
    whose channel is not negotiated is left: no round follows the first one more than
    30 s + [d] behind its activation (15 s for the channel to open, 15 s for the
    client to answer), whatever FreeRDP and the client do meanwhile. *)
Theorem gfx_session_decided c t0 d pre r post x :
  0 < t0 -> 0 <= d -> pending t0 d t0 x -> clocked d t0 (pre ++ [r]) ->
  t0 + 30000 + d < r_now r ->
  flagged GfxReady (state (peer_loop c (pre ++ [r])) x) = false ->
  peer_loop c (pre ++ r :: post) x = peer_loop c (pre ++ [r]) x.
Proof.
  intros Ht Hd. generalize t0 at 2 3. intros p Hp Hc Hlate. revert p x Hp Hc.
  induction pre as [|r1 pre IH]; intros p x Hp Hc Hready; cbn [app] in *.
  - apply (pending_step c t0 d p); try done. intros y _ Hle. lia.
  - apply (pending_step c t0 d p); try done. intros y Hy _ Hr. apply (IH (r_now r1)); [done|apply Hc|done].
Qed.

(** A session that is activated at 1000, its channel opened at 15000, and never
    answered. *)
Definition demo_activated : Client :=
  let r := demo_round true 1000 in
  let unjoined := MkChannel false true true true true true 1000 true true true in
  state (configure_peer demo_config (demo_peer demo_new) ;?
         peer_loop demo_config [MkRound false 3 false false (r_connect r) true unjoined false true 1000])
    (client_zero []).

Lemma gfx_session_decided_witness :
  let pre := [demo_round false 15000; demo_round false 29000; demo_round false 43000] in
  peer_loop demo_config (pre ++ demo_round false 57000 :: [demo_round false 71000]) demo_activated =
  peer_loop demo_config (pre ++ [demo_round false 57000]) demo_activated.
Proof.
  apply (gfx_session_decided demo_config 1000 14000
    [demo_round false 15000; demo_round false 29000; demo_round false 43000]); try reflexivity.
  - lia.
  - split; [split|..]; try reflexivity; cbn; intros; try discriminate; lia.
  - cbn. lia.
Defined.

(** That session is left in its third round. *)
Example demo_session_left :
  let session rs := peer_loop demo_config rs demo_activated in
  (session [demo_round false 15000; demo_round false 29000]).1.1 = true /\
  (session [demo_round false 15000; demo_round false 29000; demo_round false 43000]).1.1 = false.
Proof. by vm_compute. Qed.
