(* ===== verification/Decoder.v ===== *)
(** * Decoding and converting pictures ([src/src/ffmpeg_decoder.c])

    The converter fits a decoded picture into a BGRA frame of a given size; the
    decoder feeds access units to libavcodec and hands out the pictures it makes.
    libswscale is an answer of the environment, libavcodec the class [Codec],
    whose laws are the documented contract of sending and receiving. *)

From S2P Require Import Prelude.

(** ** Converter *)

(** [frame = None] is a null pointer; the frame's size is [frame_size]. *)
Record FfmpegConverter := MkConverter {
  scaler : bool;
  frame : option bytes;
  scaled_width : Z;
  scaled_height : Z;
  width : Z;
  height : Z }.

Definition converter_zero : FfmpegConverter := MkConverter false None 0 0 0 0.

Definition frame_bytes (c : FfmpegConverter) : bytes := default [] (frame c).

(** The size of the picture inside the frame. *)
Definition fit (source_width source_height output_width output_height : Z) : Z * Z :=
  let '(w, h) :=
    if source_height * output_width <? source_width * output_height
    then (output_width, source_height * output_width / source_width)
    else (source_width * output_height / source_height, output_height) in
  (if w <? 1 then 1 else w, if h <? 1 then 1 else h).

(** Opaque black: [memset], then every fourth byte from the third on. *)
Definition black (n : nat) : bytes := map (fun i => if (i mod 4 =? 3)%nat then 255 else 0) (seq 0 n).

(** [sws_scale] writes rows of the picture at a distance of [stride]. *)
Definition write_at (l : bytes) (o : nat) (d : bytes) : bytes := take o l ++ d ++ drop (o + length d) l.

Fixpoint write_rows (l : bytes) (o stride : nat) (rows : list bytes) : bytes :=
  match rows with
  | [] => l
  | row :: rows => write_rows (write_at l o row) (o + stride) stride rows
  end.

(** What the libraries answer: the allocation, the scaling context, the colour
    space, the rows [sws_scale] writes and what it returns. *)
Record scale_answers := MkScale {
  s_alloc : bool;
  s_context : bool;
  s_colors : bool;
  s_rows : list bytes;
  s_returned : Z }.

(** The frame for an output size; [realloc] leaves undefined bytes, which are
    zeros in the model and are overwritten before the frame is used. *)
Definition converter_resize (ok : bool) (output_width output_height : Z) (c : FfmpegConverter)
    : option FfmpegConverter :=
  if match frame c with None => true | Some _ => false end ||
     negb (width c =? output_width) || negb (height c =? output_height) then
    let size := Z.to_nat (output_width * output_height * 4) in
    if ok then Some (MkConverter (scaler c) (Some (take size (frame_bytes c ++ replicate size 0))) 0 0
                       output_width output_height)
    else None
  else Some c.

(** The padding is made when the geometry changes. *)
Definition converter_pad (w h : Z) (c : FfmpegConverter) : FfmpegConverter :=
  if negb (scaled_width c =? w) || negb (scaled_height c =? h)
  then MkConverter (scaler c) (Some (black (length (frame_bytes c)))) w h (width c) (height c)
  else c.

Definition picture_offset (w h : Z) (c : FfmpegConverter) : Z :=
  (height c - h) / 2 * (width c * 4) + (width c - w) / 2 * 4.

Definition ffmpeg_converter_convert (a : scale_answers) (source_width source_height : Z)
    (output_width output_height : Z) (c : FfmpegConverter) : bool * FfmpegConverter :=
  if (source_width <=? 0) || (source_height <=? 0) || (output_width =? 0) || (output_height =? 0)
  then (false, c)
  else
    match converter_resize (s_alloc a) output_width output_height c with
    | None => (false, c)
    | Some c =>
        let '(w, h) := fit source_width source_height output_width output_height in
        let c := MkConverter (s_context a) (frame c) (scaled_width c) (scaled_height c) (width c) (height c) in
        if negb (s_context a) || negb (s_colors a) then (false, c)
        else
          let c := converter_pad w h c in
          let c := MkConverter (scaler c)
                     (Some (write_rows (frame_bytes c) (Z.to_nat (picture_offset w h c))
                              (Z.to_nat (width c * 4)) (s_rows a)))
                     (scaled_width c) (scaled_height c) (width c) (height c) in
          (s_returned a =? h, c)
    end.

Definition ffmpeg_converter_free (c : FfmpegConverter) : FfmpegConverter := converter_zero.

(** ** Decoder *)

Inductive av (A : Type) := AvOk (a : A) | AvAgain | AvEof | AvInvalid | AvError.
Arguments AvOk {A} _.
Arguments AvAgain {A}.
Arguments AvEof {A}.
Arguments AvInvalid {A}.
Arguments AvError {A}.

(** libavcodec: a context takes packets and gives pictures.  [av_work] bounds what
    it can still be asked for.  A packet is refused with [AvAgain] only while
    pictures wait: once all output is read it is not. *)
Class Codec (C F : Type) := {
  av_send : C -> bytes -> av unit * C;
  av_receive : C -> av F * C;
  av_work : C -> nat;
  receive_picture : forall c f c', av_receive c = (AvOk f, c') -> (av_work c' < av_work c)%nat;
  receive_invalid : forall c c', av_receive c = (AvInvalid, c') -> (av_work c' < av_work c)%nat;
  receive_empty : forall c c', av_receive c = (AvAgain, c') \/ av_receive c = (AvEof, c') ->
    (av_work c' <= av_work c)%nat /\ (forall p, (av_send c' p).1 <> AvAgain);
  send_refused : forall c p c', av_send c p = (AvAgain, c') -> (av_work c' <= av_work c)%nat }.

(** The objects and the settings of a decoder; a pointer is whether it is set. *)
Record FfmpegDecoder := MkDecoder {
  codec : bool;
  decoded : bool;
  packet : bool;
  converter : FfmpegConverter;
  decoder_width : Z;
  decoder_height : Z;
  frame_handler : bool;
  decoded_handler : bool }.

Definition decoder_none : FfmpegDecoder := MkDecoder false false false converter_zero 0 0 false false.

(** Everything is freed and cleared. *)
Definition ffmpeg_decoder_stop (d : FfmpegDecoder) : FfmpegDecoder :=
  MkDecoder false false false (ffmpeg_converter_free (converter d)) 0 0 false false.

(** What libavcodec answers to a start. *)
Record start_answers := MkStart {
  st_found : bool;
  st_codec : bool;
  st_decoded : bool;
  st_packet : bool;
  st_open : bool }.

Definition decoder_start (a : start_answers) (w h : Z) (has_frame has_decoded : bool) (d : FfmpegDecoder)
    : bool * FfmpegDecoder :=
  if negb has_decoded && ((w =? 0) || (h =? 0) || negb has_frame) then (false, d)
  else if negb (st_found a) then (false, decoder_none)
  else
    let d := MkDecoder (st_codec a) (st_decoded a) (st_packet a) converter_zero 0 0 false false in
    if negb (st_codec a) || negb (st_decoded a) || negb (st_packet a) then (false, ffmpeg_decoder_stop d)
    else if negb (st_open a) then (false, ffmpeg_decoder_stop d)
    else (true, MkDecoder (codec d) (decoded d) (packet d) (converter d) w h has_frame has_decoded).

Definition ffmpeg_decoder_start (a : start_answers) (w h : Z) (handler : bool) (d : FfmpegDecoder)
    : bool * FfmpegDecoder :=
  decoder_start a w h handler false d.

Definition ffmpeg_decoder_start_raw (a : start_answers) (handler : bool) (d : FfmpegDecoder)
    : bool * FfmpegDecoder :=
  if handler then decoder_start a 0 0 false true d else (false, d).

(** What [decoder_receive] does with a picture: it goes to the handler of decoded
    pictures, or is converted for the handler of frames.  [scale] is libswscale on
    the picture, [size] the picture's; [K] is the handlers' own state. *)
Definition handle_picture {F K : Type} (on_decoded : K -> F -> bool * K) (on_frame : K -> bytes -> bool * K)
    (scale : F -> scale_answers) (size : F -> Z * Z) (h : FfmpegDecoder * K) (f : F)
    : bool * (FfmpegDecoder * K) :=
  let '(d, k) := h in
  if decoded_handler d then let '(ok, k) := on_decoded k f in (ok, (d, k))
  else
    let '(ok, c) := ffmpeg_converter_convert (scale f) (size f).1 (size f).2
                      (decoder_width d) (decoder_height d) (converter d) in
    let d := MkDecoder (codec d) (decoded d) (packet d) c (decoder_width d) (decoder_height d)
               (frame_handler d) (decoded_handler d) in
    if ok then let '(ok, k) := on_frame k (frame_bytes c) in (ok, (d, k)) else (false, (d, k)).

Section Decoder.
Context {C F H : Type} `{Codec C F}.
(** The handling of a picture, with its state. *)
Context (handle : H -> F -> bool * H).

(** [decoder_receive]: the result, the pictures handed out, the context and the
    handler's state. *)
Fixpoint decoder_receive (fuel : nat) (c : C) (h : H) : option (bool * list F * C * H) :=
  match fuel with
  | O => None
  | S fuel =>
      match av_receive c with
      | (AvAgain, c) | (AvEof, c) | (AvInvalid, c) => Some (true, [], c, h)
      | (AvError, c) => Some (false, [], c, h)
      | (AvOk f, c) =>
          let '(handled, h) := handle h f in
          if handled then
            match decoder_receive fuel c h with
            | Some (ok, fs, c, h) => Some (ok, f :: fs, c, h)
            | None => None
            end
          else Some (false, [f], c, h)
      end
  end.

(** The loop of [ffmpeg_decoder_push]; every way out drops the packet. *)
Fixpoint push_loop (fuel : nat) (data : bytes) (c : C) (h : H) : option (bool * list F * C * H) :=
  match fuel with
  | O => None
  | S fuel =>
      match av_send c data with
      | (AvAgain, c) =>
          match decoder_receive (S (av_work c)) c h with
          | Some (true, fs, c, h) =>
              match push_loop fuel data c h with
              | Some (ok, fs', c, h) => Some (ok, fs ++ fs', c, h)
              | None => None
              end
          | other => other
          end
      | (AvInvalid, c) => Some (true, [], c, h)
      | (AvOk _, c) => decoder_receive (S (av_work c)) c h
      | (_, c) => Some (false, [], c, h)
      end
  end.

Definition INT_MAX : Z := 2147483647.

(** [ffmpeg_decoder_push]; [started]: the decoder has a codec; [allocated]: the
    answer of [av_new_packet]. *)
Definition ffmpeg_decoder_push (fuel : nat) (started allocated : bool) (data : bytes) (c : C) (h : H)
    : option (bool * list F * C * H) :=
  if negb started || (length data =? 0)%nat || (INT_MAX <? Z.of_nat (length data)) then Some (false, [], c, h)
  else if negb allocated then Some (false, [], c, h)
  else push_loop fuel data c h.

End Decoder.
