(* ===== verification/DecoderSpec.v ===== *)
(** * Correctness of decoding and converting

    A converted frame is the picture, scaled to fit and centred on opaque black,
    whatever was converted before; a push of an access unit ends, and hands out
    every picture the codec gives. *)

From S2P Require Import Prelude Decoder.

(** ** Bytes *)

Lemma byte_at_write_at l o d i : (o + length d <= length l)%nat ->
  byte_at (write_at l o d) i =
  if ((o <=? i) && (i <? o + length d))%nat then byte_at d (i - o) else byte_at l i.
Proof.
  intros Hl. unfold write_at.
  assert (Ht : length (take o l) = o) by (rewrite length_take; lia).
  destruct (Nat.leb_spec o i) as [Ho|Ho]; cbn [andb].
  - rewrite byte_at_app_r, Ht by lia. destruct (Nat.ltb_spec i (o + length d)) as [Hi|Hi].
    + by rewrite byte_at_app_l by lia.
    + rewrite byte_at_app_r, byte_at_drop by lia. f_equal. lia.
  - rewrite byte_at_app_l by lia. apply byte_at_take. lia.
Qed.

Lemma length_write_at l o d : (o + length d <= length l)%nat -> length (write_at l o d) = length l.
Proof. intros H. unfold write_at. rewrite !length_app, length_take, length_drop. lia. Qed.

(** A place in a frame of rows of [stride] bytes. *)
Lemma row_position stride t y x j n : (j < stride)%nat -> (x + n <= stride)%nat ->
  ((t * stride + x <=? y * stride + j) && (y * stride + j <? t * stride + x + n))%nat =
  ((y =? t) && (x <=? j) && (j <? x + n))%nat.
Proof.
  intros Hj Hx. destruct (Nat.eqb_spec y t) as [->|Hne]; cbn [andb].
  - apply eq_true_iff_eq. rewrite !andb_true_iff, !Nat.leb_le, !Nat.ltb_lt. lia.
  - destruct (Nat.lt_total y t) as [Hlt|[?|Hgt]]; [|lia|].
    + destruct (Nat.leb_spec (t * stride + x) (y * stride + j)); [nia|done].
    + destruct (Nat.ltb_spec (y * stride + j) (t * stride + x + n)); [nia|by rewrite andb_false_r].
Qed.

Lemma write_rows_byte stride n x : (x + n <= stride)%nat -> forall rows l t,
  Forall (fun row : bytes => length row = n) rows -> ((t + length rows) * stride <= length l)%nat ->
  length (write_rows l (t * stride + x) stride rows) = length l /\
  forall y j, (j < stride)%nat ->
    byte_at (write_rows l (t * stride + x) stride rows) (y * stride + j) =
    if ((t <=? y) && (y <? t + length rows) && (x <=? j) && (j <? x + n))%nat
    then byte_at (default [] (rows !! (y - t)%nat)) (j - x) else byte_at l (y * stride + j).
Proof.
  intros Hx. induction rows as [|row rows IH]; intros l t Hrows Hl; cbn [write_rows length].
  { split; [done|]. intros y j Hj. destruct (_ && _) eqn:E; [|done]. bool_hyps. lia. }
  apply Forall_cons_iff in Hrows as [Hrow Hrows]. cbn [length] in Hl.
  assert (Hfit : (t * stride + x + length row <= length l)%nat) by (rewrite Hrow; nia).
  replace (t * stride + x + stride)%nat with (S t * stride + x)%nat by lia.
  destruct (IH (write_at l (t * stride + x) row) (S t)) as [Hlen Hb]; [done| |].
  { rewrite length_write_at by done. lia. }
  rewrite length_write_at in Hlen by done. split; [done|].
  intros y j Hj. rewrite Hb, byte_at_write_at, Hrow, row_position by done.
  destruct (Nat.eqb_spec y t) as [->|Hne].
  - rewrite (proj2 (Nat.leb_gt (S t) t)), Nat.leb_refl, (proj2 (Nat.ltb_lt t (t + S (length rows)))) by lia.
    cbn [andb]. rewrite Nat.sub_diag. cbn [lookup list_lookup].
    destruct (_ && _) eqn:E; [|done]. bool_hyps. f_equal. lia.
  - cbn [andb]. destruct (Nat.leb_spec t y) as [Hy|Hy].
    + rewrite (proj2 (Nat.leb_le (S t) y)) by lia. cbn [andb].
      replace (t + S (length rows))%nat with (S t + length rows)%nat by lia.
      destruct (_ && _); [|done]. replace (y - t)%nat with (S (y - S t)) by lia. done.
    + by rewrite (proj2 (Nat.leb_gt (S t) y)) by lia.
Qed.

(** ** Geometry *)

Definition pad (j : nat) : Z := if (j mod 4 =? 3)%nat then 255 else 0.

Lemma byte_at_black n i : (i < n)%nat -> byte_at (black n) i = pad i.
Proof.
  intros Hi. unfold byte_at, black. rewrite list_lookup_fmap, lookup_seq_lt by done. done.
Qed.

Lemma pad_row w y j : pad (y * (w * 4) + j) = pad j.
Proof. unfold pad. replace (y * (w * 4) + j)%nat with (j + (y * w) * 4)%nat by lia. by rewrite Nat.Div0.mod_add. Qed.

(** The picture never leaves the frame, and fills one of its dimensions. *)
Lemma fit_bounds sw sh ow oh w h :
  0 < sw -> 0 < sh -> 0 < ow -> 0 < oh -> fit sw sh ow oh = (w, h) ->
  1 <= w <= ow /\ 1 <= h <= oh /\ (w = ow \/ h = oh).
Proof.
  intros Hsw Hsh How Hoh. unfold fit. destruct (Z.ltb_spec (sh * ow) (sw * oh)) as [Hlt|Hge].
  - assert (sh * ow / sw <= oh) by (apply Z.div_le_upper_bound; lia).
    assert (0 <= sh * ow / sw) by (apply Z.div_pos; nia).
    intros [= <- <-]. bool_cases; lia.
  - assert (sw * oh / sh <= ow) by (apply Z.div_le_upper_bound; lia).
    assert (0 <= sw * oh / sh) by (apply Z.div_pos; nia).
    intros [= <- <-]. bool_cases; lia.
Qed.

(** The rectangle of a picture of [w] by [h] in a frame of [W] by [H]: its first row
    and the bytes of a row. *)
Definition top (H h : Z) : nat := Z.to_nat ((H - h) / 2).
Definition left (W w : Z) : nat := (Z.to_nat ((W - w) / 2) * 4)%nat.
Definition inside (W H w h : Z) (y j : nat) : bool :=
  ((top H h <=? y) && (y <? top H h + Z.to_nat h) &&
   (left W w <=? j) && (j <? left W w + Z.to_nat w * 4))%nat.

(** The byte [j] of row [y] of the frame that shows the picture. *)
Definition shown (W H w h : Z) (rows : list bytes) (y j : nat) : Z :=
  if inside W H w h y j then byte_at (default [] (rows !! (y - top H h)%nat)) (j - left W w) else pad j.

Lemma centre_fits W w : 1 <= w <= W -> (Z.to_nat ((W - w) / 2) + Z.to_nat w <= Z.to_nat W)%nat.
Proof.
  intros Hw. assert (0 <= (W - w) / 2) by (apply Z.div_pos; lia).
  assert (2 * ((W - w) / 2) <= W - w) by (apply Z.mul_div_le; lia). lia.
Qed.

(** ** Frames *)

Definition outside_black (c : FfmpegConverter) (w h : Z) : Prop :=
  forall y j, (y < Z.to_nat (height c))%nat -> (j < Z.to_nat (width c) * 4)%nat ->
    inside (width c) (height c) w h y j = false ->
    byte_at (frame_bytes c) (y * (Z.to_nat (width c) * 4) + j) = pad j.

(** A converter with a frame: its size, and its padding unless it is new. *)
Record framed (c : FfmpegConverter) : Prop := {
  fr_width : 0 < width c < 65536;
  fr_height : 0 < height c < 65536;
  fr_length : length (frame_bytes c) = (Z.to_nat (height c) * (Z.to_nat (width c) * 4))%nat;
  fr_padded : (scaled_width c = 0 /\ scaled_height c = 0) \/
    (1 <= scaled_width c <= width c /\ 1 <= scaled_height c <= height c /\
     outside_black c (scaled_width c) (scaled_height c)) }.

Definition converter_ok (c : FfmpegConverter) : Prop := frame c = None \/ framed c.

Lemma resize_framed ok ow oh c c' :
  converter_ok c -> 0 < ow < 65536 -> 0 < oh < 65536 -> converter_resize ok ow oh c = Some c' ->
  framed c' /\ width c' = ow /\ height c' = oh.
Proof.
  intros Hc How Hoh. unfold converter_resize.
  destruct (_ || _) eqn:E.
  - destruct ok; [|done]. intros [= <-]. cbn. split; [|done]. split; cbn; [done..| |by left].
    unfold frame_bytes. cbn. rewrite length_take, length_app, length_replicate. nia.
  - intros [= <-]. bool_hyps. destruct Hc as [Hn|Hf]; [by rewrite Hn in *|]. done.
Qed.

Lemma pad_framed w h c :
  framed c -> 1 <= w <= width c -> 1 <= h <= height c ->
  let c' := converter_pad w h c in
  framed c' /\ scaled_width c' = w /\ scaled_height c' = h /\ width c' = width c /\ height c' = height c /\
  outside_black c' w h.
Proof.
  intros Hf Hw Hh. pose proof Hf as [Hfw Hfh Hl Hp]. unfold converter_pad. destruct (_ || _) eqn:E; cbn.
  - assert (Hb : outside_black (MkConverter (scaler c) (Some (black (length (frame_bytes c)))) w h
      (width c) (height c)) w h).
    { intros y j Hy Hj _. change (byte_at (black (length (frame_bytes c)))
        (y * (Z.to_nat (width c) * 4) + j)%nat = pad j). cbn in Hy, Hj.
      rewrite byte_at_black by (rewrite Hl; nia). apply pad_row. }
    split_and!; try done. split; [done..| |right; done].
    change (length (black (length (frame_bytes c))) = (Z.to_nat (height c) * (Z.to_nat (width c) * 4))%nat).
    unfold black. by rewrite length_map, length_seq.
  - bool_hyps. destruct Hp as [[? ?]|(? & ? & Hb)]; [lia|]. subst. by split_and!.
Qed.

(** What libswscale documents: rows of the picture's width, at most as many as it
    has, and all of them when that number is returned. *)
Definition rows_ok (a : scale_answers) (w h : Z) : Prop :=
  Forall (fun row : bytes => length row = (Z.to_nat w * 4)%nat) (s_rows a) /\
  (length (s_rows a) <= Z.to_nat h)%nat /\ (s_returned a = h -> length (s_rows a) = Z.to_nat h).

Definition shows (c : FfmpegConverter) (w h : Z) (rows : list bytes) : Prop :=
  length (frame_bytes c) = Z.to_nat (width c * height c * 4) /\
  forall y j, (y < Z.to_nat (height c))%nat -> (j < Z.to_nat (width c) * 4)%nat ->
    byte_at (frame_bytes c) (y * (Z.to_nat (width c) * 4) + j) = shown (width c) (height c) w h rows y j.

(** Writing a picture into a padded frame. *)
Lemma blit_framed c w h a :
  framed c -> scaled_width c = w -> scaled_height c = h -> 1 <= w <= width c -> 1 <= h <= height c ->
  outside_black c w h -> rows_ok a w h ->
  let c' := MkConverter (scaler c)
    (Some (write_rows (frame_bytes c) (Z.to_nat (picture_offset w h c)) (Z.to_nat (width c * 4)) (s_rows a)))
    (scaled_width c) (scaled_height c) (width c) (height c) in
  framed c' /\ (length (s_rows a) = Z.to_nat h -> shows c' w h (s_rows a)).
Proof.
  intros [Hfw Hfh Hl _] Hsw Hsh Hw Hh Hb (Hrows & Hcount & _) c'.
  set (stride := (Z.to_nat (width c) * 4)%nat).
  pose proof (centre_fits (width c) w Hw) as Hx. pose proof (centre_fits (height c) h Hh) as Hy.
  assert (Hoff : Z.to_nat (picture_offset w h c) = (top (height c) h * stride + left (width c) w)%nat).
  { unfold picture_offset, top, left. subst stride.
    assert (0 <= (height c - h) / 2) by (apply Z.div_pos; lia).
    assert (0 <= (width c - w) / 2) by (apply Z.div_pos; lia). nia. }
  assert (Hstr : Z.to_nat (width c * 4) = stride) by (subst stride; lia).
  destruct (write_rows_byte stride (Z.to_nat w * 4) (left (width c) w)
    ltac:(unfold left, stride in *; lia) (s_rows a) (frame_bytes c) (top (height c) h) Hrows) as [Hlen Hbyte].
  { rewrite Hl. fold stride. apply Nat.mul_le_mono_r. unfold top. lia. }
  assert (Hf' : frame_bytes c' = write_rows (frame_bytes c) (top (height c) h * stride + left (width c) w)
    stride (s_rows a)) by (subst c'; unfold frame_bytes at 1; cbn; by rewrite Hoff, Hstr).
  assert (Hout : outside_black c' w h).
  { intros y j Hyy Hj Hi. cbn [width height c'] in *. fold stride. rewrite Hf', Hbyte by done.
    destruct (_ && _) eqn:E; [|by apply Hb]. exfalso. bool_hyps.
    apply not_true_iff_false in Hi. apply Hi. unfold inside. rewrite !andb_true_iff, !Nat.leb_le, !Nat.ltb_lt. lia. }
  split.
  - split; cbn [width height scaled_width scaled_height c']; [done..| |].
    + by rewrite Hf', Hlen, Hl.
    + right. rewrite Hsw, Hsh. split_and!; try done; lia.
  - intros Hall. split; cbn [width height c'].
    + rewrite Hf', Hlen, Hl. subst stride. nia.
    + intros y j Hyy Hj. fold stride. rewrite Hf', Hbyte by done. unfold shown.
      destruct (inside (width c) (height c) w h y j) eqn:Hi.
      * unfold inside in Hi. by rewrite Hall, Hi.
      * unfold inside in Hi. rewrite Hall, Hi. by apply Hb.
Qed.

(** ** Conversions *)

Record conversion := MkConversion { v_answers : scale_answers; v_source : Z * Z; v_output : Z * Z }.

Definition convert (v : conversion) (c : FfmpegConverter) : bool * FfmpegConverter :=
  ffmpeg_converter_convert (v_answers v) (v_source v).1 (v_source v).2 (v_output v).1 (v_output v).2 c.

Definition picture (v : conversion) : Z * Z :=
  fit (v_source v).1 (v_source v).2 (v_output v).1 (v_output v).2.

Definition conversion_ok (v : conversion) : Prop :=
  is_u16 (v_output v).1 /\ is_u16 (v_output v).2 /\ rows_ok (v_answers v) (picture v).1 (picture v).2.

Lemma convert_ok v c : converter_ok c -> conversion_ok v ->
  let '(ok, c') := convert v c in
  converter_ok c' /\
  (ok = true -> width c' = (v_output v).1 /\ height c' = (v_output v).2 /\
                shows c' (picture v).1 (picture v).2 (s_rows (v_answers v))).
Proof.
  destruct v as [a [sw sh] [ow oh]]. intros Hc (How & Hoh & Hrows). unfold convert, picture in *. cbn in *.
  unfold ffmpeg_converter_convert. destruct (_ || _) eqn:E; [done|]. bool_hyps. unfold is_u16 in *.
  destruct (converter_resize (s_alloc a) ow oh c) as [c1|] eqn:E1; [|done].
  destruct (resize_framed (s_alloc a) ow oh c c1 Hc ltac:(lia) ltac:(lia) E1) as (Hf1 & Hw1 & Hh1).
  destruct (fit sw sh ow oh) as [w h] eqn:Efit. cbn in Hrows.
  destruct (fit_bounds sw sh ow oh w h) as (Hw & Hh & _); [lia..|done|].
  set (c2 := MkConverter (s_context a) _ _ _ _ _).
  assert (Hf2 : framed c2) by (by destruct Hf1).
  destruct (_ || _); [split; [by right|done]|].
  destruct (pad_framed w h c2 Hf2) as (Hf3 & Hs3 & Hs3' & Hw3 & Hh3 & Hb3); [cbn; lia..|].
  set (c3 := converter_pad w h c2) in *. cbn [width height c2] in Hw3, Hh3.
  destruct (blit_framed c3 w h a Hf3 Hs3 Hs3') as [Hf4 Hshow]; [lia..|done|done|].
  split; [by right|]. intros Hret%Z.eqb_eq. cbn [width height].
  split_and!; [congruence..|]. apply Hshow, Hrows, Hret.
Qed.

Definition converts (vs : list conversion) (c : FfmpegConverter) : FfmpegConverter :=
  fold_left (fun c v => (convert v c).2) vs c.

Lemma converts_ok vs c : converter_ok c -> Forall conversion_ok vs -> converter_ok (converts vs c).
Proof.
  intros Hc Hvs. revert c Hc. induction Hvs as [|v vs Hv _ IH]; intros c Hc; [done|]. cbn. apply IH.
  pose proof (convert_ok v c Hc Hv) as H. destruct (convert v c) as [ok c']. apply H.
Qed.

(** C37: Whatever was converted before, to whatever sizes and with whatever failures,
    a successful conversion leaves a frame of the requested size in which every byte
    of the picture's rectangle is the scaled picture's and every other pixel is opaque
    black; no write leaves the frame. *)
Theorem converter_letterbox vs v :
  Forall conversion_ok vs -> conversion_ok v ->
  let '(ok, c) := convert v (converts vs converter_zero) in
  ok = true -> width c = (v_output v).1 /\ height c = (v_output v).2 /\
    shows c (picture v).1 (picture v).2 (s_rows (v_answers v)).
Proof.
  intros Hvs Hv. pose proof (convert_ok v (converts vs converter_zero)) as H.
  destruct (convert v _) as [ok c]. apply H; [|done]. apply converts_ok; [by left|done].
Qed.

(** A wide picture, then a tall one, in frames of 4 by 4. *)
Definition demo_rows (w h : nat) (b : Z) : scale_answers :=
  MkScale true true true (replicate h (replicate (w * 4) b)) (Z.of_nat h).

Lemma converter_letterbox_witness :
  let wide := MkConversion (demo_rows 4 2 7) (8, 4) (4, 4) in
  let tall := MkConversion (demo_rows 2 4 9) (4, 8) (4, 4) in
  let '(ok, c) := convert tall (converts [wide] converter_zero) in
  ok = true -> width c = 4 /\ height c = 4 /\ shows c 2 4 (replicate 4 (replicate 8 9)).
Proof.
  assert (Hok : forall w h b sw sh, fit sw sh 4 4 = (Z.of_nat w, Z.of_nat h) ->
    conversion_ok (MkConversion (demo_rows w h b) (sw, sh) (4, 4))).
  { intros w h b sw sh Hf. unfold conversion_ok, picture. cbn -[fit]. rewrite Hf. cbn.
    split_and!; [unfold is_u16; lia..|]. split_and!; cbn; rewrite ?length_replicate; [|lia|lia].
    apply Forall_replicate. rewrite length_replicate. lia. }
  apply (converter_letterbox [MkConversion (demo_rows 4 2 7) (8, 4) (4, 4)]
    (MkConversion (demo_rows 2 4 9) (4, 8) (4, 4))); [repeat constructor; by apply Hok|by apply Hok].
Defined.

(** The rows of that frame: two columns of picture between two of black. *)
Example demo_letterbox :
  let wide := MkConversion (demo_rows 4 2 7) (8, 4) (4, 4) in
  let tall := MkConversion (demo_rows 2 4 9) (4, 8) (4, 4) in
  take 16 (frame_bytes (convert tall (converts [wide] converter_zero)).2) =
  [0; 0; 0; 255; 9; 9; 9; 9; 9; 9; 9; 9; 0; 0; 0; 255].
Proof. reflexivity. Qed.

(** ** Decoding *)

Section Push.
Context {C F H : Type} `{Codec C F} (handler : H -> F -> bool * H) (data : bytes).

(** A conversation with the codec: how often it took the packet, and the pictures it
    gave, in order. *)
Inductive exchange : nat -> C -> list F -> C -> Prop :=
| ex_end c : exchange 0 c [] c
| ex_picture n c f c1 fs c2 :
    av_receive c = (AvOk f, c1) -> exchange n c1 fs c2 -> exchange n c (f :: fs) c2
| ex_nothing n c a c1 fs c2 :
    av_receive c = (a, c1) -> (forall f, a <> AvOk f) -> exchange n c1 fs c2 -> exchange n c fs c2
| ex_taken n c c1 fs c2 : av_send c data = (AvOk tt, c1) -> exchange n c1 fs c2 -> exchange (S n) c fs c2
| ex_refused n c a c1 fs c2 :
    av_send c data = (a, c1) -> a <> AvOk tt -> exchange n c1 fs c2 -> exchange n c fs c2.

Lemma exchange_app n m c1 fs c2 gs c3 :
  exchange n c1 fs c2 -> exchange m c2 gs c3 -> exchange (n + m) c1 (fs ++ gs) c3.
Proof. induction 1; intros Hm; cbn; [done|by econstructor; eauto..]. Qed.

(** The handler took all of these pictures. *)
Fixpoint handled (h : H) (fs : list F) : option H :=
  match fs with
  | [] => Some h
  | f :: fs => let '(ok, h) := handler h f in if ok then handled h fs else None
  end.

Lemma handled_app h fs gs : handled h (fs ++ gs) = match handled h fs with Some h => handled h gs | None => None end.
Proof. revert h. induction fs as [|f fs IH]; intros h; cbn; [done|]. destruct (handler h f) as [[] h']; auto. Qed.

(** The handler took all pictures but the last one. *)
Definition refused (h : H) (fs : list F) (h' : H) : Prop :=
  exists gs f h1, fs = gs ++ [f] /\ handled h gs = Some h1 /\ handler h1 f = (false, h').

Lemma refused_app h fs h1 gs h' : handled h fs = Some h1 -> refused h1 gs h' -> refused h (fs ++ gs) h'.
Proof.
  intros Hf (gs' & f & h2 & -> & Hg & He). exists (fs ++ gs'), f, h2. rewrite handled_app, Hf, app_assoc. done.
Qed.

(** The codec said that it has nothing more, or that the data is damaged. *)
Definition reads_out (c c' : C) : Prop :=
  av_receive c = (AvAgain, c') \/ av_receive c = (AvEof, c') \/ av_receive c = (AvInvalid, c').

(** How reading ends: with nothing more to read; or in a failure, which the handler or
    the codec reported. *)
Definition receive_ends (n : nat) (h : H) (c : C) (ok : bool) (fs : list F) (c' : C) (h' : H) : Prop :=
  if ok then handled h fs = Some h' /\ exists c0, exchange n c fs c0 /\ reads_out c0 c'
  else (refused h fs h' /\ exchange n c fs c') \/
       (handled h fs = Some h' /\ exists c0, exchange n c fs c0 /\ av_receive c0 = (AvError, c')).

Lemma receive_ends_app m n h c fs c1 h1 ok gs c' h' :
  exchange m c fs c1 -> handled h fs = Some h1 -> receive_ends n h1 c1 ok gs c' h' ->
  receive_ends (m + n) h c ok (fs ++ gs) c' h'.
Proof.
  intros Hx Hh He. unfold receive_ends in *. rewrite handled_app, Hh. destruct ok.
  - destruct He as (Hg & c0 & Hc & Hr). split; [done|]. exists c0. split; [by eapply exchange_app|done].
  - destruct He as [[Hr Hc]|(Hg & c0 & Hc & Hr)].
    + left. split; [by eapply refused_app|by eapply exchange_app].
    + right. split; [done|]. exists c0. split; [by eapply exchange_app|done].
Qed.

(** How a push ends: the codec took the access unit and was read out, or reading failed;
    or, not taken, it was dropped as damaged; or the codec failed to take it, or to be
    read first, or the handler refused a picture. *)
Definition push_ends (n : nat) (h : H) (c : C) (ok : bool) (fs : list F) (c' : C) (h' : H) : Prop :=
  (n = 1%nat /\ receive_ends 1 h c ok fs c' h') \/
  (n = 0%nat /\ ok = false /\ receive_ends 0 h c false fs c' h') \/
  (n = 0%nat /\ handled h fs = Some h' /\ exists c0, exchange 0 c fs c0 /\
    if ok then av_send c0 data = (AvInvalid, c')
    else av_send c0 data = (AvError, c') \/ av_send c0 data = (AvEof, c')).

Lemma push_ends_app n h c fs c1 h1 ok gs c' h' :
  exchange 0 c fs c1 -> handled h fs = Some h1 -> push_ends n h1 c1 ok gs c' h' ->
  push_ends n h c ok (fs ++ gs) c' h'.
Proof.
  intros Hx Hh [[-> He]|[(-> & -> & He)|(-> & Hg & c0 & Hc & Hs)]].
  - left. split; [done|]. by apply (receive_ends_app 0 1 _ _ _ _ _ _ _ _ _ Hx Hh).
  - right. left. split_and!; [done..|]. by apply (receive_ends_app 0 0 _ _ _ _ _ _ _ _ _ Hx Hh).
  - right. right. split; [done|]. rewrite handled_app, Hh. split; [done|]. exists c0.
    split; [by apply (exchange_app 0 0 _ _ _ _ _ Hx)|done].
Qed.

Lemma decoder_receive_spec fuel c h : (av_work c < fuel)%nat ->
  exists ok fs c' h', decoder_receive handler fuel c h = Some (ok, fs, c', h') /\
    receive_ends 0 h c ok fs c' h' /\
    (ok = true -> (av_work c' <= av_work c)%nat /\
      ((forall p, (av_send c' p).1 <> AvAgain) \/ (av_work c' < av_work c)%nat)).
Proof.
  revert c h. induction fuel as [|fuel IH]; intros c h Hf; [lia|]. cbn [decoder_receive].
  assert (Hstop : forall c1, reads_out c c1 -> receive_ends 0 h c true [] c1 h).
  { intros c1 Hr. split; [done|]. exists c. split; [constructor|done]. }
  destruct (av_receive c) as [[f| | | |] c1] eqn:E.
  - pose proof (receive_picture _ _ _ E). destruct (handler h f) as [[] h1] eqn:Eh.
    + destruct (IH c1 h1) as (ok & fs & c' & h' & -> & He & Hok); [lia|].
      exists ok, (f :: fs), c', h'. split; [done|]. split.
      * apply (receive_ends_app 0 0 h c [f] c1 h1); [by econstructor; [|constructor]| |done]. cbn. by rewrite Eh.
      * intros Ht. destruct (Hok Ht) as [Hw [Hs|Hs]]; (split; [lia|]); [by left|right; lia].
    + exists false, [f], c1, h1. split_and!; [done| |done]. left.
      split; [by exists [], f, h|by econstructor; [|constructor]].
  - destruct (receive_empty c c1) as [Hw Hs]; [by left|].
    exists true, [], c1, h. split_and!; [done|apply Hstop; by left|]. intros _. auto.
  - destruct (receive_empty c c1) as [Hw Hs]; [by right|].
    exists true, [], c1, h. split_and!; [done|apply Hstop; right; by left|]. intros _. auto.
  - pose proof (receive_invalid _ _ E).
    exists true, [], c1, h. split_and!; [done|apply Hstop; right; by right|]. intros _. split; [lia|]. right. lia.
  - exists false, [], c1, h. split_and!; [done| |done]. right. split; [done|]. exists c. split; [constructor|done].
Qed.

Lemma push_loop_spec fuel c h :
  (S (av_work c) < fuel)%nat \/ (0 < fuel)%nat /\ (av_send c data).1 <> AvAgain ->
  exists ok n fs c' h', push_loop handler fuel data c h = Some (ok, fs, c', h') /\
    push_ends n h c ok fs c' h'.
Proof.
  revert c h. induction fuel as [|fuel IH]; intros c h Hf; [lia|]. cbn [push_loop].
  destruct (av_send c data) as [[[]| | | |] c1] eqn:E.
  - destruct (decoder_receive_spec (S (av_work c1)) c1 h) as (ok & fs & c' & h' & -> & He & _); [lia|].
    exists ok, 1%nat, fs, c', h'. split; [done|]. left. split; [done|].
    apply (receive_ends_app 1 0 h c [] c1 h); [by eapply ex_taken; [|constructor]|done..].
  - destruct Hf as [Hf|[_ Hf]]; [|done]. pose proof (send_refused _ _ _ E) as Hw1.
    assert (Hx : exchange 0 c [] c1) by (by eapply ex_refused; [exact E|done|constructor]).
    destruct (decoder_receive_spec (S (av_work c1)) c1 h) as (ok & fs & c2 & h2 & -> & He & Hok); [lia|].
    pose proof (receive_ends_app 0 0 h c [] c1 h _ _ _ _ Hx eq_refl He) as He'. destruct ok.
    + destruct (Hok eq_refl) as [Hw Hs]. destruct He' as (Hh & c0 & Hx0 & Hr).
      destruct (IH c2 h2) as (ok & n & fs' & c' & h' & -> & He'').
      { destruct Hs as [Hs|Hs]; [right; split; [lia|apply Hs]|left; lia]. }
      exists ok, n, (fs ++ fs'), c', h'. split; [done|]. eapply push_ends_app; [|done|done].
      rewrite <- (app_nil_r fs). apply (exchange_app 0 0 c fs c0); [done|].
      destruct Hr as [Hr|[Hr|Hr]]; by eapply ex_nothing; [exact Hr|done|constructor].
    + exists false, 0%nat, fs, c2, h2. split; [done|]. right. by left.
  - exists false, 0%nat, [], c1, h. split; [done|]. right. right. split_and!; [done..|].
    exists c. split; [constructor|by right].
  - exists true, 0%nat, [], c1, h. split; [done|]. right. right. split_and!; [done..|].
    exists c. split; [constructor|done].
  - exists false, 0%nat, [], c1, h. split; [done|]. right. right. split_and!; [done..|].
    exists c. split; [constructor|by left].
Qed.

(** C38: A push of an access unit of one byte to INT_MAX into a started decoder ends,
    however often the codec asks for its output to be read first, and every picture the
    codec gives on the way is handed to the handler in order.  It succeeds only when the
    codec has taken the unit, once, and was read out, or has called the unit damaged,
    which drops it; it fails only when the codec reports an error, other than to be read
    first, or the handler refuses a picture.  The codec is libavcodec as far as its
    documentation goes: once read out it takes a packet, and it has finitely many
    pictures to give. *)
Theorem decoder_push_complete c h :
  (0 < length data)%nat -> Z.of_nat (length data) <= INT_MAX ->
  exists ok n fs c' h',
    ffmpeg_decoder_push handler (S (S (av_work c))) true true data c h = Some (ok, fs, c', h') /\
    push_ends n h c ok fs c' h'.
Proof.
  intros Hpos Hmax. unfold ffmpeg_decoder_push.
  rewrite (proj2 (Nat.eqb_neq _ _)), (proj2 (Z.ltb_ge _ _)) by lia. cbn [orb negb].
  apply push_loop_spec. left. lia.
Qed.

End Push.

(** A codec with room for one packet that makes a picture of each. *)
#[export] Instance demo_codec : Codec (list bytes) bytes.
Proof.
  refine {| av_send c p := match c with [] => (AvOk tt, [p]) | _ => (AvAgain, c) end;
            av_receive c := match c with [] => (AvAgain, []) | f :: c => (AvOk f, c) end;
            av_work c := length c |}.
  - intros [|f c] g c' E; simplify_eq. cbn. lia.
  - intros [|f c] c' E; simplify_eq.
  - intros [|f c] c' [E|E]; simplify_eq. done.
  - intros [|f c] p c' E; simplify_eq. done.
Defined.

Lemma decoder_push_complete_witness :
  let handler (h : list bytes) f := (true, h ++ [f]) in
  exists ok n fs c' h',
    ffmpeg_decoder_push handler (S (S (av_work [[9]]))) true true [1; 2] [[9]] [] = Some (ok, fs, c', h') /\
    push_ends handler [1; 2] n [] [[9]] ok fs c' h'.
Proof.
  apply (decoder_push_complete (fun (h : list bytes) f => (true, h ++ [f])) [1; 2] [[9]] []);
    unfold INT_MAX; cbn; lia.
Defined.

(** The picture that waited and the new one, in order. *)
Example demo_push :
  ffmpeg_decoder_push (fun (h : list bytes) f => (true, h ++ [f])) 3 true true [1; 2] [[9]] [] =
  Some (true, [[9]; [1; 2]], [], [[9]; [1; 2]]).
Proof. reflexivity. Qed.

(** A started decoder without a handler of its own converts: a push of one unit gives
    one letterboxed frame. *)
Definition demo_decoder : FfmpegDecoder := (ffmpeg_decoder_start (MkStart true true true true true) 4 4 true decoder_none).2.

Example demo_push_frame :
  let handle := handle_picture (fun k f => (true, k)) (fun (k : list bytes) b => (true, k ++ [b]))
    (fun _ : bytes => demo_rows 4 2 7) (fun _ => (8, 4)) in
  match ffmpeg_decoder_push handle 2 (codec demo_decoder) true [1; 2] [] (demo_decoder, []) with
  | Some (true, _, _, (d, [b])) => take 8 b = [0; 0; 0; 255; 0; 0; 0; 255] /\ take 8 (drop 16 b) = replicate 8 7
  | _ => False
  end.
Proof. split; reflexivity. Qed.

(** A start that fails leaves nothing allocated. *)
Lemma failed_start_clean a w h has_frame has_decoded d :
  (decoder_start a w h has_frame has_decoded decoder_none).1 = false ->
  d = (decoder_start a w h has_frame has_decoded decoder_none).2 -> d = decoder_none.
Proof.
  unfold decoder_start. intros E ->. destruct (_ && _); [done|]. destruct (negb _); [done|].
  destruct (_ || _); [done|]. by destruct (negb _).
Qed.
